(* ===== verification/_CoqProject ===== *)
-Q . S2P
Prelude.v
DecimalSpec.v
DecimalImpl.v
Prog.v
Crash.v
FileSystem.v
Model.v
Amount.v
Clock.v
Report.v
Json.v
JsonFacts.v
JsonStruct.v
Sha256.v
Timestamp.v
Envelope.v
EnvelopeFacts.v
ActionValidation.v
Effects.v
Payout.v
Recovery.v
ReportObservation.v
Daily.v
Run.v
PayoutWorld.v
Store.v
StoreRefines.v
StoreTheorems.v
ProcessLock.v
ProcessLockTheorems.v
DailyStore.v
StoreRefinement.v
PayoutInv.v
PayoutContract.v
PayoutRuns.v
Sim.v
PayoutTheorems.v
Consolidation.v
Sweep.v
Isolation.v
ConsolidationTheorems.v
Confinement.v
Scheduler.v
SchedulerTheorems.v
Msgpack.v
Signing.v
SigningFacts.v
Exchange.v
ExchangeFacts.v
Mysql.v
Database.v
RepositoryTheorems.v
ManifestTheorems.v
Typed.v
Text.v
Regexp.v
Sensitive.v
Diagnostics.v
DiagnosticFacts.v
Logging.v
LoggingTheorems.v
HttpClient.v
HttpTheorems.v
InfoClient.v
InfoTheorems.v
Mock.v
Settings.v
Keycipher.v
App.v
Flags.v
Service.v
Keytool.v
KeytoolFacts.v
AppTheorems.v
ServiceTheorems.v
Notification.v
Render.v
RenderTheorems.v
NotificationTheorems.v
MockTheorems.v
