(* ===== verification/Prelude.v ===== *)
(** * A verification development for the Hyperliquid builder code bot

    The repository is a Go service that once a day collects the rewards of
    builder accounts on the Hyperliquid exchange and pays the funding records
    of a MySQL table with one transfer, plus a tool for its encrypted keys.
    File names below are relative to [src/].

    ** The program and its parts

    A process ([cmd/builder-code-bot/main.go]) parses its flags, loads the
    configuration ([internal/config]), decrypts the keys
    ([internal/crypt/keycipher]), takes the lock of the data directory
    ([internal/state/lock_unix.go]) and assembles the clients, stores and the
    orchestrator ([internal/app]).  The scheduler ([internal/scheduler]) then
    calls two tasks of [internal/funding]: at 00:00 UTC the consolidation
    (claim and sweep, one record per day), at 01:00 UTC the payout run.  A run
    freezes the pending records ([internal/repository/mysql]) in a manifest,
    prepares a signed request ([internal/hyperliquid/exchange], [/signing]),
    writes every step to two rotating snapshots ([internal/state]), submits
    the request through [/client], decides from the answer or from the balance
    ([/info]) whether the money moved, marks the records completed, archives
    and clears the snapshots, and reports ([internal/notification]) and logs
    ([internal/logging]) what happened.  A run that stops anywhere is resumed
    from the snapshots.

    ** How the code is modelled

    A function that only computes is a Gallina function.  A function with
    effects is a tree of operations ([Prog.prog]): each call to a dependency
    is an operation whose response the rest of the tree depends on, so that a
    theorem about all responses covers every failure, and a prefix of an
    execution is a process killed there.  Shared memory (the report, the run
    state, the tables of alerts) is passed explicitly by the monad [Prog.M].
    A protocol says which operations are allowed in a world and what they may
    do to it; [wp] and, where a crash may come at any point, [Crash.wpc]
    (declared in [Crash]) are the weakest preconditions the proofs compose.
    Errors are values of [Prelude.error]; [result A] is the pair of a value
    and an error.  Integers are [Z] with their bounds stated; the wrap-around
    of 64-bit counters is [wrap64].  Strings are byte strings.  Code of other
    modules is an interface: [DecimalSpec] (decimals; [DecimalImpl] is an
    instance), the classes [Crypto] (Keccak-256, secp256k1), [Ciphers]
    (scrypt, AES-GCM), [NetOps] (net/url, net/http), [UnicodeTables], each with
    its laws and a concrete instance for the witnesses.

    ** Files

    - Foundations: [Prelude], [DecimalSpec], [DecimalImpl], [Prog], [Crash],
      [Clock], [Timestamp], [Text] (runes), [Json], [JsonFacts], [JsonStruct]
      (encoding/json), [Sha256], [Regexp] (regexp), [Flags] (flag).
    - Data of the funding service: [Model] ([funding/model.go], the value
      types of the clients), [Amount] ([amount.go], [manifest.go]), [Report]
      ([report.go]), [Effects] ([ports.go] and the shared helpers of the
      orchestrator).
    - Payout: [ActionValidation] ([action_validation.go]), [Payout]
      ([payout.go] and its half of [orchestrator.go]), [Recovery], [Run]
      ([recovery.go], [orchestrator.go]), [ReportObservation]
      ([rate_limit.go], [report_observation.go]).
    - Consolidation: [Daily] ([daily_consolidation.go]), [Consolidation],
      [Sweep] ([consolidation.go] and its half of [orchestrator.go]).
    - State: [FileSystem] (the operating system), [Envelope] ([envelope.go]),
      [Store] ([store.go]), [DailyStore] ([state/daily_consolidation.go]),
      [ProcessLock] ([lock_unix.go]).
    - Exchange: [Msgpack], [Signing] ([hyperliquid/signing],
      [network.go]), [Exchange] ([exchange/client.go]), [HttpClient]
      ([client/client.go]), [InfoClient] ([info/client.go]), [Mock]
      ([internal/dev/hyperliquidmock]: the exchange of the end-to-end tests).
    - Database: [Mysql] ([repository.go], [retry.go], [errors.go]),
      [Database] (what MySQL does).
    - Logging and notification: [Sensitive], [Diagnostics], [Logging]
      ([internal/logging], [internal/secret]), [Notification]
      ([dispatcher.go], [mail]), [Render] ([fundingreport/render.go]).
    - Process: [Settings] ([internal/config]), [Keycipher], [Keytool]
      ([cmd/keytool]), [App], [Service] ([internal/app], [cmd]), [Scheduler].

    The file of a part has its definitions; its theorems are in the file
    named after it with [Theorems], [Facts], [Refines] or [Refinement], or at
    its end.

    ** What is shown

    - Money ([PayoutWorld], [PayoutInv], [PayoutContract], [PayoutRuns],
      [PayoutTheorems], [ServiceTheorems]).  [PayoutWorld] is the contract
      between the payout code and its dependencies; every entry point keeps
      it ([entry_contract]), every operation and crash keeps its invariant, so
      no record is paid twice, whatever fails within the contract, in any
      history of any number of processes ([one_process_moves_money], which composes the command line,
      the start-up, the lock, the scheduler and both tasks).
      [PayoutTheorems] reads the discipline off the contract: nothing is sent
      without a durable intent, nothing is completed without a confirmation,
      nothing is forgotten before it is settled.
    - The contract is implemented: by the snapshot files
      ([StoreRefines], [StoreRefinement]: refinement and crash atomicity, also
      when healthy files fail to be read, where the effects are weaker than
      the contract's) and by the repository with its retries
      ([RepositoryTheorems]); [ProcessLockTheorems] gives the exclusion
      [ServiceTheorems] builds on.
    - What is saved is read back and is not accepted when it was changed
      ([EnvelopeFacts]); the states that are saved are well-typed ([Typed]).
    - The consolidation stays away from the payout and moves money between
      the service's own accounts only ([Isolation], [ConsolidationTheorems]);
      payout runs never consolidate, blocked runs do nothing
      ([Confinement]).
    - The scheduler starts tasks at their instants, in order, with bounded
      retries ([SchedulerTheorems]).
    - What is signed determines the action, and signatures recover their
      signer ([SigningFacts], [ExchangeFacts]); a request leaves the process at
      most once and its answer is believed only when it is complete
      ([HttpTheorems]); what is asked of the exchange is read correctly
      ([InfoTheorems]).
    - Both ends together ([MockTheorems]): in any history of the service
      against an exchange that executes a nonce of a signer once, the records
      of the table are paid at most once ([records_are_paid_at_most_once],
      which composes [ServiceTheorems] with the server [Mock]); the server
      keeps its ledger, tells the truth about an action and answers the
      client's queries from the ledger; a payout the client prepared arrives.
    - Amounts are exact ([ManifestTheorems], [RenderTheorems]); the operator is
      told what happened ([RenderTheorems], [NotificationTheorems]); secrets
      stay out of logs and diagnostics ([LoggingTheorems], [DiagnosticFacts],
      [HttpTheorems], [Keytool]'s facts).

    ** Bounds and fuel

    Where the recursion of the code is not structural the definition has fuel,
    and the caller passes a bound of its own: the length of the text for
    scanners and trimming, the number of batches for the statements of the
    repository.  The mutual recursion of the payout code is cut at a depth
    that [recursion_is_bounded] shows is never reached.  Loops without a bound
    in the source - the scheduler, the retries of the repository - take the
    number of iterations as an argument; a process that is still running when
    it is used up is one that was stopped there, and the safety theorems hold
    for every value.  The search for the root of the module ends within the
    fuel it is given ([source_root_is_nearest]).  Polling loops and retries the source bounds have the
    source's bounds.

    ** Not modelled

    - The drivers: opening the database and sending a mail are operations of a
      process; what [internal/repository/mysql/client.go] and
      [internal/notification/mail/ses/client.go] hand to them is in [App] and
      [Notification].
    - The records the funding code logs on its way; what the logger makes of a
      record is in [Logging].  Of log/slog the documented behaviour is
      modelled, with the times in UTC.
    - Contexts are observed where the code asks for them ([CtxErr] and the
      errors of operations); deadlines are not timed.  Data races and the
      interleaving inside a parallel query are not: the answers of a parallel
      loop are taken in the order of its results.
    - The composition of the refinements: a process killed without a reboot
      inside a file operation is a crash of the machine there.  The contract's
      crash does not undo a snapshot that an operation reported as failed may
      have installed.
    - The contract's snapshots, once valid, can be read: the theorems on money
      cover crashes and corrupted files, not a read of a healthy file that
      fails.  What the store does then is [StoreRefinement.store_step].
    - The text of the HTML template beyond what it shows and in which order,
      and its escaping. *)

From Stdlib Require Export Ascii.
From Stdlib Require Import DecimalString.
From stdpp Require Export base tactics numbers gmap strings list.

#[global] Set Default Goal Selector "!".
#[global] Unset Printing Records.

Declare Scope go_scope.
Delimit Scope go_scope with go.
#[global] Open Scope string_scope.
#[global] Open Scope list_scope.
#[global] Open Scope Z_scope.
#[global] Open Scope go_scope.

(** ** Go values used everywhere *)

(** Byte strings written as lists of byte values. *)
Definition bytes_of (l : list Z) : string :=
  List.fold_right (fun b s => String (ascii_of_nat (Z.to_nat b)) s) EmptyString l.

(** The double quote character, which cannot be written inside a literal. *)
Definition dquote : string := bytes_of [34].

Definition uint64_mod : Z := 18446744073709551616.
Definition wrap64 (z : Z) : Z := z mod uint64_mod.

(** [fmt.Sprintf] with [%d]. *)
Definition itoa (z : Z) : string := NilZero.string_of_int (Z.to_int z).

(** ** Errors

    A Go error is a tree: [Errorf] is [fmt.Errorf] or [errors.New] (the format
    string and its rendered arguments), [Wrapf] is [fmt.Errorf] with a [%w],
    [Join] is [errors.Join]; [FatalError] and [RetryExhaustedError] are the
    wrapper types of the funding and scheduler packages.  [External] is an
    error produced by a dependency, with the sentinel errors it wraps. *)
Inductive error : Type :=
| Canceled
| DeadlineExceeded
| Errorf (format : string) (args : list string)
| Wrapf (format : string) (args : list string) (inner : error)
| Join (left right : error)
| FatalError (inner : error)
| RetryExhaustedError (retries : Z) (inner : error)
| External (code : Z) (text : string).

#[export] Instance error_eq_dec : EqDecision error.
Proof. solve_decision. Defined.

(** [errors.Is(err, context.Canceled)]. *)
Fixpoint is_canceled (e : error) : bool :=
  match e with
  | Canceled => true
  | Wrapf _ _ i | FatalError i | RetryExhaustedError _ i => is_canceled i
  | Join l r => is_canceled l || is_canceled r
  | _ => false
  end.

(** [errors.Is(err, context.DeadlineExceeded)]. *)
Fixpoint is_deadline (e : error) : bool :=
  match e with
  | DeadlineExceeded => true
  | Wrapf _ _ i | FatalError i | RetryExhaustedError _ i => is_deadline i
  | Join l r => is_deadline l || is_deadline r
  | _ => false
  end.

(** The Go pair [(value, error)] of a function that returns a useful value
    only when its error is nil. *)
Inductive result (A : Type) : Type :=
| Ok (a : A)
| Err (e : error).
Arguments Ok {A} a.
Arguments Err {A} e.

Definition rbind {A B : Type} (m : result A) (f : A -> result B) : result B :=
  match m with Ok a => f a | Err e => Err e end.

Notation "'let?' x ':=' m 'in' k" := (rbind m (fun x => k))
  (at level 200, x pattern, m at level 100, k at level 200, right associativity) : go_scope.

(** A Go guard [if c { return err }]. *)
Notation "'guard' c 'else' e ;; k" := (if c then k else e)
  (at level 200, c at level 100, e at level 100, k at level 200, right associativity,
   only parsing) : go_scope.

Definition is_ok {A : Type} (r : result A) : bool := match r with Ok _ => true | Err _ => false end.

Lemma rbind_ok {A B : Type} (m : result A) (f : A -> result B) b :
  rbind m f = Ok b -> exists a, m = Ok a /\ f a = Ok b.
Proof. destruct m as [a|e]; simpl; [eauto|discriminate]. Qed.

(** ** [strings] *)

Definition lower_ascii (c : ascii) : ascii :=
  let n := nat_of_ascii c in
  if (65 <=? n)%nat && (n <=? 90)%nat then ascii_of_nat (n + 32) else c.

(** [strings.ToLower] on ASCII text. *)
Fixpoint toLower (s : string) : string :=
  match s with
  | EmptyString => EmptyString
  | String c r => String (lower_ascii c) (toLower r)
  end.

(** [strings.EqualFold] on ASCII text. *)
Definition EqualFold (a b : string) : bool := String.eqb (toLower a) (toLower b).

(** [strip p s] is the rest of [s] after the prefix [p]. *)
Fixpoint strip (p s : string) : option string :=
  match p, s with
  | EmptyString, _ => Some s
  | String a p', String b s' => if Ascii.eqb a b then strip p' s' else None
  | String _ _, EmptyString => None
  end.

Definition HasPrefix (s p : string) : bool := match strip p s with Some _ => true | None => false end.

(** The UTF-8 encodings of the code points [unicode.IsSpace] accepts. *)
Definition space_runes : list string :=
  map bytes_of
    ([[9]; [10]; [11]; [12]; [13]; [32]; [194; 133]; [194; 160]; [225; 154; 128];
      [226; 128; 168]; [226; 128; 169]; [226; 128; 175]; [226; 129; 159]; [227; 128; 128]]
     ++ map (fun k => [226; 128; 128 + k]) (seqZ 0 11)).

Fixpoint first_strip (ps : list string) (s : string) : option string :=
  match ps with
  | [] => None
  | p :: ps' => match strip p s with Some r => Some r | None => first_strip ps' s end
  end.

Fixpoint trim_start (ps : list string) (fuel : nat) (s : string) : string :=
  match fuel with
  | O => s
  | S n => match first_strip ps s with Some r => trim_start ps n r | None => s end
  end.

Definition TrimLeftSpace (s : string) : string := trim_start space_runes (String.length s) s.
Definition TrimRightSpace (s : string) : string :=
  String.rev (trim_start (map String.rev space_runes) (String.length s) (String.rev s)).

(** [strings.TrimSpace]. *)
Definition TrimSpace (s : string) : string := TrimRightSpace (TrimLeftSpace s).

(** The key under which addresses are stored in maps:
    [strings.ToLower(strings.TrimSpace(a))]. *)
Definition address_key (s : string) : string := toLower (TrimSpace s).

Definition string_is_empty (s : string) : bool := match s with EmptyString => true | _ => false end.

(** [strings.ContainsAny] with a set of single bytes. *)
Fixpoint ContainsAny (s : string) (chars : list ascii) : bool :=
  match s with
  | EmptyString => false
  | String c r => List.existsb (Ascii.eqb c) chars || ContainsAny r chars
  end.

(** [hex.EncodeToString]. *)
Definition hex_digit (n : Z) : ascii :=
  ascii_of_nat (Z.to_nat (if n <? 10 then 48 + n else 87 + n)).
Fixpoint hex_encode (bs : list Z) : string :=
  match bs with
  | [] => EmptyString
  | b :: r => String (hex_digit (Z.shiftr b 4)) (String (hex_digit (Z.land b 15)) (hex_encode r))
  end.

(** ** Lemmas on byte strings *)

#[global] Arguments String.append !_ _ : simpl nomatch.

Lemma string_app_nil_r s : s +:+ "" = s.
Proof. induction s as [|c s IH]; simpl; [done|]. by rewrite IH. Qed.

Lemma string_app_assoc a b c : (a +:+ b) +:+ c = a +:+ (b +:+ c).
Proof. induction a as [|x a IH]; simpl; [done|]. by rewrite IH. Qed.

Lemma string_rev_app_spec a b : String.rev_app a b = String.rev a +:+ b.
Proof.
  revert b. induction a as [|x a IH]; intros b; [done|].
  unfold String.rev. simpl. rewrite !IH, string_app_assoc. done.
Qed.

Lemma string_rev_cons c a : String.rev (String c a) = String.rev a +:+ String c "".
Proof. unfold String.rev at 1. simpl. apply string_rev_app_spec. Qed.

Lemma string_rev_app a b : String.rev (a +:+ b) = String.rev b +:+ String.rev a.
Proof.
  induction a as [|x a IH]; simpl; [by rewrite string_app_nil_r|].
  by rewrite !string_rev_cons, IH, string_app_assoc.
Qed.

Lemma string_rev_involutive a : String.rev (String.rev a) = a.
Proof.
  induction a as [|x a IH]; [done|].
  by rewrite string_rev_cons, string_rev_app, IH.
Qed.

Lemma string_length_app a b :
  String.length (a +:+ b) = (String.length a + String.length b)%nat.
Proof. induction a as [|x a IH]; simpl; [done|]. by rewrite IH. Qed.

Lemma string_length_rev a : String.length (String.rev a) = String.length a.
Proof.
  induction a as [|x a IH]; [done|].
  rewrite string_rev_cons, string_length_app, IH. simpl. lia.
Qed.

Lemma strip_spec p s r : strip p s = Some r <-> s = p +:+ r.
Proof.
  revert s. induction p as [|a p IHp]; intros s; simpl; [split; congruence|].
  destruct s as [|b s]; [split; discriminate|].
  destruct (Ascii.eqb_spec a b) as [->|Hne].
  - rewrite IHp. split; congruence.
  - split; congruence.
Qed.

Lemma HasPrefix_spec s p : HasPrefix s p = true <-> exists r, s = p +:+ r.
Proof.
  unfold HasPrefix. destruct (strip p s) as [r|] eqn:E.
  - apply strip_spec in E. split; eauto.
  - split; [done|]. intros [r Hr]. apply strip_spec in Hr. congruence.
Qed.

Lemma HasPrefix_app p r : HasPrefix (p +:+ r) p = true.
Proof. apply HasPrefix_spec. eauto. Qed.

Lemma first_strip_some ps s r :
  first_strip ps s = Some r -> exists p, p ∈ ps /\ s = p +:+ r.
Proof.
  induction ps as [|p ps IH]; simpl; [done|].
  destruct (strip p s) as [r'|] eqn:E.
  - intros [= ->]. apply strip_spec in E. exists p. split; [left|done].
  - intros H. destruct (IH H) as (q & Hq & ->). exists q. split; [by right|done].
Qed.

Lemma first_strip_none ps s :
  first_strip ps s = None <-> forall p r, p ∈ ps -> s <> p +:+ r.
Proof.
  induction ps as [|p ps IH]; simpl.
  - split; [|done]. intros _ p r H. by apply not_elem_of_nil in H.
  - destruct (strip p s) as [r|] eqn:E.
    + split; [done|]. intros H. apply strip_spec in E. exfalso. apply (H p r); [left|done].
    + rewrite IH. split; intros H.
      * intros q r Hq ->. apply elem_of_cons in Hq as [->|Hq].
        -- by rewrite (proj2 (strip_spec p _ r) eq_refl) in E.
        -- by apply (H q r Hq).
      * intros q r Hq. apply (H q r). by right.
Qed.

(** A list of prefixes none of which is empty: trimming makes progress. *)
Definition proper_prefixes (ps : list string) : Prop := Forall (fun p => p <> "") ps.

Lemma trim_start_spec ps fuel s :
  proper_prefixes ps -> (String.length s <= fuel)%nat ->
  first_strip ps (trim_start ps fuel s) = None /\
  exists w, s = w +:+ trim_start ps fuel s.
Proof.
  intros Hps. revert s. induction fuel as [|n IH]; intros s Hlen; simpl.
  - destruct s as [|c s]; [|simpl in Hlen; lia]. split; [|by exists ""].
    apply first_strip_none. intros p r Hp Heq.
    unfold proper_prefixes in Hps. rewrite Forall_forall in Hps.
    destruct p; [by apply (Hps _ Hp)|done].
  - destruct (first_strip ps s) as [r|] eqn:E.
    + destruct (first_strip_some _ _ _ E) as (p & Hp & ->).
      assert (p <> "") by (unfold proper_prefixes in Hps; rewrite Forall_forall in Hps; by apply Hps).
      rewrite string_length_app in Hlen. destruct p as [|c p]; [done|]. simpl in Hlen.
      destruct (IH r) as [H1 [w Hw]]; [lia|]. split; [done|].
      exists (String c p +:+ w). by rewrite string_app_assoc, <- Hw.
    + split; [done|]. by exists "".
Qed.

Lemma trim_start_fix ps fuel s : first_strip ps s = None -> trim_start ps fuel s = s.
Proof. intros H. destruct fuel; simpl; [done|]. by rewrite H. Qed.

Lemma space_runes_proper : proper_prefixes space_runes.
Proof. unfold proper_prefixes. repeat (constructor; [done|]). constructor. Qed.

Lemma space_runes_rev_proper : proper_prefixes (map String.rev space_runes).
Proof. unfold proper_prefixes. repeat (constructor; [done|]). constructor. Qed.

(** A string without a white-space rune at either end is its own trim. *)
Lemma TrimSpace_fix s :
  first_strip space_runes s = None ->
  first_strip (map String.rev space_runes) (String.rev s) = None ->
  TrimSpace s = s.
Proof.
  intros Hl Hr. unfold TrimSpace, TrimLeftSpace, TrimRightSpace.
  rewrite !(trim_start_fix _ _ _ Hl), (trim_start_fix _ _ _ Hr).
  apply string_rev_involutive.
Qed.

Lemma TrimSpace_clean s :
  first_strip space_runes (TrimSpace s) = None /\
  first_strip (map String.rev space_runes) (String.rev (TrimSpace s)) = None.
Proof.
  unfold TrimSpace, TrimLeftSpace, TrimRightSpace.
  destruct (trim_start_spec space_runes (String.length s) s space_runes_proper ltac:(lia))
    as [Hl _].
  set (t := trim_start space_runes (String.length s) s) in *.
  destruct (trim_start_spec (map String.rev space_runes) (String.length t) (String.rev t)
              space_runes_rev_proper ltac:(rewrite string_length_rev; lia)) as [Hr [w Hw]].
  set (v := trim_start _ (String.length t) (String.rev t)) in *.
  rewrite string_rev_involutive. split; [|done].
  apply first_strip_none. intros p r Hp Heq.
  pose proof (proj1 (first_strip_none _ _) Hl p (r +:+ String.rev w) Hp) as Hno.
  apply Hno. rewrite <- string_app_assoc, <- Heq, <- string_rev_app, <- Hw.
  by rewrite string_rev_involutive.
Qed.

Lemma TrimSpace_idemp s : TrimSpace (TrimSpace s) = TrimSpace s.
Proof. destruct (TrimSpace_clean s). by apply TrimSpace_fix. Qed.

Lemma lower_ascii_idemp c : lower_ascii (lower_ascii c) = lower_ascii c.
Proof. destruct c as [[] [] [] [] [] [] [] []]; reflexivity. Qed.

Lemma toLower_idemp s : toLower (toLower s) = toLower s.
Proof. induction s as [|c s IH]; simpl; [done|]. by rewrite lower_ascii_idemp, IH. Qed.

Lemma toLower_app a b : toLower (a +:+ b) = toLower a +:+ toLower b.
Proof. induction a as [|c a IH]; simpl; [done|]. by rewrite IH. Qed.

Lemma toLower_rev a : toLower (String.rev a) = String.rev (toLower a).
Proof.
  induction a as [|c a IH]; [done|]. simpl.
  by rewrite !string_rev_cons, toLower_app, IH.
Qed.

(** Case folding is an equivalence on strings. *)
Lemma EqualFold_spec a b : EqualFold a b = true <-> toLower a = toLower b.
Proof. apply String.eqb_eq. Qed.

Lemma EqualFold_refl a : EqualFold a a = true.
Proof. by apply EqualFold_spec. Qed.

Lemma EqualFold_sym a b : EqualFold a b = EqualFold b a.
Proof. unfold EqualFold. apply String.eqb_sym. Qed.

Lemma EqualFold_trans a b c : EqualFold a b = true -> EqualFold b c = true -> EqualFold a c = true.
Proof. rewrite !EqualFold_spec. congruence. Qed.

(** No white-space rune contains a letter, so folding case neither creates nor
    destroys one. *)
Lemma lower_ascii_caseless c d :
  lower_ascii d = d -> (forall e, lower_ascii e = d -> e = d) -> lower_ascii c = d <-> c = d.
Proof. intros H1 H2. split; [apply H2|by intros ->]. Qed.

Definition caseless (p : string) : Prop :=
  Forall (fun d => lower_ascii d = d /\ forall e, lower_ascii e = d -> e = d)
    (String.list_ascii_of_string p).

Lemma strip_toLower p s :
  caseless p -> strip p (toLower s) = toLower <$> strip p s.
Proof.
  revert s. induction p as [|a p IH]; intros s Hp; simpl; [done|].
  apply Forall_cons in Hp as [[Ha Ha'] Hp].
  destruct s as [|b s]; simpl; [done|].
  destruct (Ascii.eqb_spec a b) as [->|Hne].
  - rewrite Ha, Ascii.eqb_refl. by apply IH.
  - destruct (Ascii.eqb_spec a (lower_ascii b)) as [E|E]; [|done].
    exfalso. apply Hne. symmetry. by apply Ha'.
Qed.

Lemma first_strip_toLower ps s :
  Forall caseless ps -> first_strip ps (toLower s) = toLower <$> first_strip ps s.
Proof.
  induction ps as [|p ps IH]; intros Hps; simpl; [done|].
  apply Forall_cons in Hps as [Hp Hps]. rewrite strip_toLower by done.
  destruct (strip p s); simpl; [done|]. by apply IH.
Qed.

Definition caselessb (c : ascii) : bool :=
  let n := nat_of_ascii c in
  negb ((65 <=? n)%nat && (n <=? 90)%nat) && negb ((97 <=? n)%nat && (n <=? 122)%nat).

Lemma caselessb_correct d :
  caselessb d = true -> lower_ascii d = d /\ forall e, lower_ascii e = d -> e = d.
Proof.
  intros H. split; [destruct d as [[] [] [] [] [] [] [] []]; done|].
  intros e <-. destruct e as [[] [] [] [] [] [] [] []]; done.
Qed.

Lemma caseless_by_test ps :
  List.forallb (fun p => List.forallb caselessb (String.list_ascii_of_string p)) ps = true ->
  Forall caseless ps.
Proof.
  intros H. apply Forall_forall. intros p Hp.
  apply list_elem_of_In in Hp.
  pose proof (proj1 (List.forallb_forall _ _) H p Hp) as Hq.
  apply Forall_forall. intros c Hc. apply caselessb_correct.
  apply (proj1 (List.forallb_forall _ _) Hq c). by apply list_elem_of_In.
Qed.

Lemma address_key_idemp s : address_key (address_key s) = address_key s.
Proof.
  unfold address_key. destruct (TrimSpace_clean s) as [Hl Hr].
  rewrite (TrimSpace_fix (toLower (TrimSpace s))).
  - apply toLower_idemp.
  - rewrite first_strip_toLower, Hl; [done|]. by apply caseless_by_test.
  - rewrite <- toLower_rev, first_strip_toLower, Hr; [done|]. by apply caseless_by_test.
Qed.

(** Two spellings of an address that are equal up to case are stored under
    the same key. *)
Lemma address_key_EqualFold a b : EqualFold (TrimSpace a) (TrimSpace b) = true <-> address_key a = address_key b.
Proof. apply EqualFold_spec. Qed.

(** ** Record update

    [r <| field := v |>] replaces one field.  A record type declares the list
    of its fields once, as the instance [Settable] whose value rebuilds a
    record from its projections; the setter of a field is computed from it. *)

Class Settable (R : Type) : Type := rebuild : R -> R.

Class FieldSetter {R T : Type} (field : R -> T) : Type := set_field : (T -> T) -> R -> R.

Ltac derive_setter field :=
  lazymatch type of field with
  | ?R -> _ =>
      let inst := constr:(_ : Settable R) in
      let body := eval red in inst in
      lazymatch eval pattern field in body with
      | ?g _ => exact (fun upd => g (fun r => upd (field r)))
      end
  end.

#[export] Hint Extern 1 (FieldSetter ?field) => derive_setter field : typeclass_instances.

Notation "r <| field := v |>" := (set_field (field := field) (fun _ => v) r)
  (at level 12, left associativity, v at level 200) : go_scope.
Notation "r <| field ::= f |>" := (set_field (field := field) f r)
  (at level 12, left associativity, f at level 200) : go_scope.

#[global] Arguments set_field {R T} field {_} / f r.
