(* ===== verification/DecimalSpec.v ===== *)
(** * The decimal library

    The program computes amounts with [github.com/shopspring/decimal], which
    is not part of the repository.  It is an interface here: [DecimalOps] are
    the operations the source calls, [DecimalLaws] the documented behaviour
    the development relies on (exact arithmetic over the rationals, the
    meaning of the comparisons, printing followed by parsing).  Everything
    that handles amounts is proved against the interface; [DecimalImpl] gives
    a concrete instance. *)

From Stdlib Require Import QArith Qround Qpower Lqa.
From S2P Require Import Prelude.

Class DecimalOps : Type := {
  decimal : Type;
  dec_zero : decimal;
  dec_of_int : Z -> decimal;
  dec_parse : string -> option decimal;
  dec_string : decimal -> string;
  dec_fixed : decimal -> Z -> string;
  dec_add : decimal -> decimal -> decimal;
  dec_sub : decimal -> decimal -> decimal;
  dec_shift : decimal -> Z -> decimal;
  dec_ceil : decimal -> decimal;
  dec_trunc : decimal -> Z -> decimal;
  dec_exponent : decimal -> Z;
  dec_equal : decimal -> decimal -> bool;
  dec_less : decimal -> decimal -> bool;
  dec_neg : decimal -> bool;
  dec_pos : decimal -> bool
}.

(** [decimal.NewFromString] with its error. *)
Definition NewFromString `{DecimalOps} (s : string) : result decimal :=
  match dec_parse s with
  | Some d => Ok d
  | None => Err (Errorf "can't convert %s to decimal" [s])
  end.

Definition pow10 (n : Z) : Q := Qpower 10 n.
#[global] Arguments pow10 n : simpl never.

Class DecimalLaws `{DecimalOps} : Type := {
  dec_value : decimal -> Q;
  dec_value_zero : (dec_value dec_zero == 0)%Q;
  dec_value_int z : (dec_value (dec_of_int z) == inject_Z z)%Q;
  dec_value_add a b : (dec_value (dec_add a b) == dec_value a + dec_value b)%Q;
  dec_value_sub a b : (dec_value (dec_sub a b) == dec_value a - dec_value b)%Q;
  dec_value_shift a n : (dec_value (dec_shift a n) == dec_value a * pow10 n)%Q;
  dec_value_ceil a : (dec_value (dec_ceil a) == inject_Z (Qceiling (dec_value a)))%Q;
  dec_value_trunc a n :
    0 <= n -> (0 <= dec_value a)%Q ->
    (dec_value (dec_trunc a n) == inject_Z (Qfloor (dec_value a * pow10 n)) * pow10 (- n))%Q;
  dec_equal_iff a b : dec_equal a b = true <-> (dec_value a == dec_value b)%Q;
  dec_less_iff a b : dec_less a b = true <-> (dec_value a < dec_value b)%Q;
  dec_neg_iff a : dec_neg a = true <-> (dec_value a < 0)%Q;
  dec_pos_iff a : dec_pos a = true <-> (0 < dec_value a)%Q;
  dec_parse_string a :
    exists b, dec_parse (dec_string a) = Some b /\ (dec_value b == dec_value a)%Q;
  dec_parse_fixed a n :
    0 <= n -> (exists z, dec_value a * pow10 n == inject_Z z)%Q ->
    exists b, dec_parse (dec_fixed a n) = Some b /\ (dec_value b == dec_value a)%Q;
  dec_string_zero a : dec_string a = "0" <-> (dec_value a == 0)%Q
}.

(** ** Derived facts *)

Section Derived.
Context `{Laws : DecimalLaws}.

Lemma pow10_pos n : (0 < pow10 n)%Q.
Proof. apply Qpower_0_lt. lra. Qed.

Lemma pow10_nonzero n : ~ (pow10 n == 0)%Q.
Proof. pose proof (pow10_pos n). lra. Qed.

Lemma pow10_opp n : (pow10 n * pow10 (- n) == 1)%Q.
Proof. unfold pow10. rewrite <- Qpower_plus by lra. rewrite Z.add_opp_diag_r. reflexivity. Qed.

Lemma dec_equal_refl a : dec_equal a a = true.
Proof. apply dec_equal_iff. reflexivity. Qed.

Lemma dec_equal_sym a b : dec_equal a b = dec_equal b a.
Proof.
  destruct (dec_equal a b) eqn:E, (dec_equal b a) eqn:F; try done.
  - apply dec_equal_iff in E. symmetry in E. apply dec_equal_iff in E. congruence.
  - apply dec_equal_iff in F. symmetry in F. apply dec_equal_iff in F. congruence.
Qed.

Lemma dec_equal_trans a b c : dec_equal a b = true -> dec_equal b c = true -> dec_equal a c = true.
Proof. rewrite !dec_equal_iff. intros -> ->. reflexivity. Qed.

Lemma dec_less_false a b : dec_less a b = false <-> (dec_value b <= dec_value a)%Q.
Proof.
  split; intros E.
  - destruct (Qlt_le_dec (dec_value a) (dec_value b)) as [L|L]; [|done].
    apply dec_less_iff in L. congruence.
  - destruct (dec_less a b) eqn:F; [|done]. apply dec_less_iff in F. lra.
Qed.

Lemma dec_neg_false a : dec_neg a = false <-> (0 <= dec_value a)%Q.
Proof.
  split; intros E.
  - destruct (Qlt_le_dec (dec_value a) 0) as [L|L]; [|done].
    apply dec_neg_iff in L. congruence.
  - destruct (dec_neg a) eqn:F; [|done]. apply dec_neg_iff in F. lra.
Qed.

Lemma dec_pos_false a : dec_pos a = false <-> (dec_value a <= 0)%Q.
Proof.
  split; intros E.
  - destruct (Qlt_le_dec 0 (dec_value a)) as [L|L]; [|done].
    apply dec_pos_iff in L. congruence.
  - destruct (dec_pos a) eqn:F; [|done]. apply dec_pos_iff in F. lra.
Qed.

Lemma Qceiling_bounds (x : Q) :
  (x <= inject_Z (Qceiling x))%Q /\ (inject_Z (Qceiling x) < x + 1)%Q.
Proof.
  split; [apply Qle_ceiling|]. pose proof (Qceiling_lt x) as Hlt.
  unfold Z.sub in Hlt. rewrite inject_Z_plus in Hlt.
  change (inject_Z (- (1))) with (- (1))%Q in Hlt. lra.
Qed.

(** Rounding up to [n] decimal places, as [Shift(n).Ceil().Shift(-n)] does. *)
Lemma dec_round_up_bounds a n :
  let r := dec_value (dec_shift (dec_ceil (dec_shift a n)) (- n)) in
  (dec_value a <= r)%Q /\ (r < dec_value a + pow10 (- n))%Q.
Proof.
  simpl. pose proof (pow10_pos (- n)) as Hp. pose proof (pow10_opp n) as Hop.
  pose proof (Qceiling_bounds (dec_value (dec_shift a n))) as [H1 H2].
  pose proof (dec_value_shift a n) as Hs.
  set (c := inject_Z (Qceiling (dec_value (dec_shift a n)))) in *.
  assert (E : (dec_value (dec_shift (dec_ceil (dec_shift a n)) (- n)) == c * pow10 (- n))%Q)
    by (rewrite dec_value_shift, dec_value_ceil; reflexivity).
  assert (E1 : (dec_value a == dec_value (dec_shift a n) * pow10 (- n))%Q)
    by (rewrite Hs, <- Qmult_assoc, Hop; ring).
  apply (Qmult_le_compat_r _ _ (pow10 (- n))) in H1; [|lra].
  apply (Qmult_lt_compat_r _ _ (pow10 (- n))) in H2; [|done].
  split; lra.
Qed.
End Derived.

Create HintDb decimal.
#[export] Hint Resolve dec_equal_refl pow10_pos pow10_nonzero : decimal.
