(* ===== verification/DecimalImpl.v ===== *)
(** * A concrete decimal type

    An instance of the decimal interface: a coefficient and a power of ten,
    with the plain notation the library prints.  It shows that the laws of
    [DecimalSpec] hold together and lets witnesses compute.  It models no
    file of the repository. *)

From Stdlib Require Import QArith Qround Qpower Qabs Lqa.
From S2P Require Import Prelude DecimalSpec.

Module DecimalImpl.

Record dec : Type := Dec { coef : Z; expo : Z }.

Definition rescale (e : Z) (d : dec) : Z := coef d * 10 ^ (expo d - e).

Definition add (a b : dec) : dec :=
  let e := Z.min (expo a) (expo b) in Dec (rescale e a + rescale e b) e.
Definition sub (a b : dec) : dec :=
  let e := Z.min (expo a) (expo b) in Dec (rescale e a - rescale e b) e.
Definition shift (a : dec) (n : Z) : dec := Dec (coef a) (expo a + n).
Definition cmp (a b : dec) : comparison :=
  let e := Z.min (expo a) (expo b) in rescale e a ?= rescale e b.
(** floor of [d * 10^n] *)
Definition floor_at (d : dec) (n : Z) : Z :=
  if 0 <=? expo d + n then coef d * 10 ^ (expo d + n) else coef d / 10 ^ (- (expo d + n)).
Definition ceil (a : dec) : dec := Dec (- floor_at (Dec (- coef a) (expo a)) 0) 0.
Definition trunc (a : dec) (n : Z) : dec := Dec (floor_at a n) (- n).

(** ** Printing and parsing *)

Definition digit (z : Z) : ascii := ascii_of_nat (Z.to_nat (48 + z)).
Definition undigit (c : ascii) : option Z :=
  let n := Z.of_nat (nat_of_ascii c) in
  if (48 <=? n) && (n <=? 57) then Some (n - 48) else None.

Fixpoint print_fixed (k : nat) (n : Z) (tail : string) : string :=
  match k with
  | O => tail
  | S k' => print_fixed k' (n / 10) (String (digit (n mod 10)) tail)
  end.

Fixpoint count_digits (fuel : nat) (n : Z) : nat :=
  match fuel with
  | O => 1%nat
  | S f => if n <? 10 then 1%nat else S (count_digits f (n / 10))
  end.
Definition ndigits (n : Z) : nat := count_digits (S (Z.to_nat (Z.log2 n))) n.

Definition print_places (k : nat) (n : Z) : string :=
  let body := Z.abs n in
  let int := body / 10 ^ Z.of_nat k in
  let str := print_fixed (ndigits int) int
               (match k with O => "" | _ => String "." (print_fixed k body "") end) in
  if n <? 0 then String "-" str else str.

Fixpoint strip_zeros (fuel : nat) (d : dec) : dec :=
  match fuel with
  | O => d
  | S f => if coef d mod 10 =? 0 then strip_zeros f (Dec (coef d / 10) (expo d + 1)) else d
  end.

Definition to_string (d : dec) : string :=
  let d' := strip_zeros (Z.to_nat (- expo d)) d in
  print_places (Z.to_nat (- expo d')) (coef d' * 10 ^ Z.max 0 (expo d')).

Definition fixed (d : dec) (n : Z) : string :=
  let m := Z.max 0 n in
  let two := floor_at (Dec (2 * Z.abs (coef d)) (expo d)) m in
  print_places (Z.to_nat m) (Z.sgn (coef d) * ((two + 1) / 2)).

Fixpoint read_digits (acc : Z) (len : nat) (s : string) : Z * nat * string :=
  match s with
  | EmptyString => (acc, len, s)
  | String c r =>
      match undigit c with
      | Some v => read_digits (acc * 10 + v) (S len) r
      | None => (acc, len, s)
      end
  end.

Definition parse_body (s : string) : option dec :=
  let '(i, n1, s1) := read_digits 0 0 s in
  match s1 with
  | EmptyString => match n1 with O => None | _ => Some (Dec i 0) end
  | String c r =>
      if Ascii.eqb c "."%char then
        let '(v, n2, s2) := read_digits i 0 r in
        match s2 with
        | EmptyString => match (n1 + n2)%nat with O => None | _ => Some (Dec v (- Z.of_nat n2)) end
        | _ => None
        end
      else None
  end.

Definition parse (s : string) : option dec :=
  match s with
  | String c r =>
      if Ascii.eqb c "-"%char then (fun d => Dec (- coef d) (expo d)) <$> parse_body r
      else if Ascii.eqb c "+"%char then parse_body r
      else parse_body s
  | EmptyString => None
  end.

(** ** Printing then parsing *)

Lemma undigit_digit z : 0 <= z < 10 -> undigit (digit z) = Some z.
Proof.
  intros H. assert (E : z = 0 \/ z = 1 \/ z = 2 \/ z = 3 \/ z = 4 \/ z = 5 \/ z = 6 \/ z = 7 \/
                        z = 8 \/ z = 9) by lia.
  destruct_or!; subst; reflexivity.
Qed.

Lemma read_print k n acc len tail :
  0 <= n ->
  read_digits acc len (print_fixed k n tail) =
  read_digits (acc * 10 ^ Z.of_nat k + n mod 10 ^ Z.of_nat k) (len + k)%nat tail.
Proof.
  revert n acc len tail. induction k as [|k IH]; intros n acc len tail Hn.
  - simpl print_fixed. rewrite Z.pow_0_r, Z.mod_1_r, Nat.add_0_r. f_equal; lia.
  - simpl print_fixed. rewrite IH by (apply Z.div_pos; lia). cbn [read_digits].
    rewrite undigit_digit by (apply Z.mod_pos_bound; lia).
    rewrite Nat2Z.inj_succ, Z.pow_succ_r by lia.
    replace (S (len + k))%nat with (len + S k)%nat by lia. f_equal.
    rewrite (Z.rem_mul_r n 10 (10 ^ Z.of_nat k)) by lia. lia.
Qed.

Lemma count_digits_pos f n : (1 <= count_digits f n)%nat.
Proof. destruct f; simpl; [lia|]. destruct (n <? 10); lia. Qed.

Lemma count_digits_bound f n : 0 <= n < 2 ^ Z.of_nat f -> n < 10 ^ Z.of_nat (count_digits f n).
Proof.
  revert n. induction f as [|f IH]; intros n Hn.
  - simpl in *. lia.
  - simpl count_digits. destruct (Z.ltb_spec n 10) as [H|H]; [simpl; lia|].
    rewrite Nat2Z.inj_succ in *. rewrite Z.pow_succ_r in * by lia.
    assert (n / 10 < 10 ^ Z.of_nat (count_digits f (n / 10))).
    { apply IH. split; [apply Z.div_pos; lia|]. apply Z.div_lt_upper_bound; lia. }
    pose proof (Z.div_mod n 10 ltac:(lia)). pose proof (Z.mod_pos_bound n 10 ltac:(lia)). lia.
Qed.

Lemma ndigits_bound n : 0 <= n -> n < 10 ^ Z.of_nat (ndigits n).
Proof.
  intros Hn. apply count_digits_bound. split; [done|].
  rewrite Nat2Z.inj_succ, Z2Nat.id by apply Z.log2_nonneg.
  destruct (Z.eq_dec n 0) as [->|]; [simpl; lia|]. apply Z.log2_spec. lia.
Qed.

Lemma ndigits_pos n : (1 <= ndigits n)%nat.
Proof. apply count_digits_pos. Qed.

(** The first character printed for a natural number is a digit. *)
Lemma print_fixed_head k n tail :
  (1 <= k)%nat -> 0 <= n ->
  exists v r, 0 <= v < 10 /\ print_fixed k n tail = String (digit v) r.
Proof.
  revert n tail. induction k as [|k IH]; intros n tail Hk Hn; [lia|].
  simpl. destruct k as [|k].
  - simpl. exists (n mod 10), tail. split; [apply Z.mod_pos_bound; lia|done].
  - apply IH; [lia|]. apply Z.div_pos; lia.
Qed.

Lemma parse_body_print k n :
  0 <= n ->
  parse_body (print_fixed (ndigits (n / 10 ^ Z.of_nat k)) (n / 10 ^ Z.of_nat k)
                (match k with O => "" | _ => String "." (print_fixed k n "") end))
  = Some (Dec n (- Z.of_nat k)).
Proof.
  intros Hn. unfold parse_body. set (i := n / 10 ^ Z.of_nat k).
  assert (Hi : 0 <= i) by (apply Z.div_pos; lia).
  rewrite read_print by done. rewrite Z.mul_0_l, Z.add_0_l, Nat.add_0_l.
  rewrite Z.mod_small by (split; [done|by apply ndigits_bound]).
  pose proof (ndigits_pos i) as Hd.
  destruct k as [|k].
  - simpl read_digits. cbv iota beta.
    unfold i in *. rewrite Z.pow_0_r, Z.div_1_r in *.
    destruct (ndigits n); [lia|]. done.
  - cbn [read_digits]. change (undigit ".") with (@None Z). cbv iota beta.
    change (Ascii.eqb "." ".") with true. cbv iota.
    rewrite read_print by done. cbn [read_digits]. rewrite Nat.add_0_l.
    destruct (ndigits i); [lia|]. simpl Nat.add. cbv iota. f_equal. f_equal. unfold i.
    pose proof (Z.div_mod n (10 ^ Z.of_nat (S k)) ltac:(lia)). lia.
Qed.

Lemma parse_print k n : parse (print_places k n) = Some (Dec n (- Z.of_nat k)).
Proof.
  unfold print_places. set (tl := match k with O => _ | _ => _ end).
  destruct (Z.ltb_spec n 0) as [Hn|Hn].
  - simpl. subst tl. rewrite parse_body_print by lia. simpl. f_equal. f_equal. lia.
  - pose proof (parse_body_print k (Z.abs n) ltac:(lia)) as Hp. fold tl in Hp.
    destruct (print_fixed_head (ndigits (Z.abs n / 10 ^ Z.of_nat k)) (Z.abs n / 10 ^ Z.of_nat k) tl
                (ndigits_pos _) ltac:(apply Z.div_pos; lia)) as (v & r & Hv & E).
    rewrite E in *. unfold parse.
    assert (Hc : Ascii.eqb (digit v) "-" = false /\ Ascii.eqb (digit v) "+" = false).
    { assert (C : v = 0 \/ v = 1 \/ v = 2 \/ v = 3 \/ v = 4 \/ v = 5 \/ v = 6 \/ v = 7 \/
                  v = 8 \/ v = 9) by lia. destruct_or!; subst; done. }
    destruct Hc as [-> ->]. rewrite Hp. f_equal. f_equal. lia.
Qed.

(** ** Values *)

Definition value (d : dec) : Q := (inject_Z (coef d) * pow10 (expo d))%Q.

Lemma pow10_nonneg_Z n : 0 <= n -> (inject_Z (10 ^ n) == pow10 n)%Q.
Proof. intros H. unfold pow10. rewrite Zpower_Qpower by done. reflexivity. Qed.

Lemma pow10_plus a b : (pow10 (a + b) == pow10 a * pow10 b)%Q.
Proof. apply Qpower_plus. lra. Qed.

Lemma value_rescale e d : e <= expo d -> (value d == inject_Z (rescale e d) * pow10 e)%Q.
Proof.
  intros H. unfold value, rescale. rewrite inject_Z_mult, pow10_nonneg_Z by lia.
  replace (expo d) with (expo d - e + e) at 1 by lia. rewrite pow10_plus. ring.
Qed.

Lemma value_at a b e : expo b = e -> inject_Z (coef b) = inject_Z a -> value b = (inject_Z a * pow10 e)%Q.
Proof. unfold value. by intros -> ->. Qed.

Lemma add_value a b : (value (add a b) == value a + value b)%Q.
Proof.
  rewrite (value_rescale (Z.min (expo a) (expo b)) a), (value_rescale (Z.min (expo a) (expo b)) b) by lia.
  unfold value, add. simpl. rewrite inject_Z_plus. ring.
Qed.

Lemma sub_value a b : (value (sub a b) == value a - value b)%Q.
Proof.
  rewrite (value_rescale (Z.min (expo a) (expo b)) a), (value_rescale (Z.min (expo a) (expo b)) b) by lia.
  unfold value, sub. simpl. unfold Z.sub. rewrite inject_Z_plus, inject_Z_opp. ring.
Qed.

Lemma scale_compare (x y : Z) e : (inject_Z x * pow10 e ?= inject_Z y * pow10 e)%Q = (x ?= y).
Proof.
  pose proof (pow10_pos e) as Hp.
  destruct (Z.compare_spec x y) as [->|H|H].
  - apply Qeq_alt. reflexivity.
  - apply Qlt_alt. apply Qmult_lt_compat_r; [done|]. by rewrite <- Zlt_Qlt.
  - apply Qgt_alt. apply Qmult_lt_compat_r; [done|]. by rewrite <- Zlt_Qlt.
Qed.

Lemma cmp_value a b : cmp a b = (value a ?= value b)%Q.
Proof.
  rewrite (value_rescale (Z.min (expo a) (expo b)) a), (value_rescale (Z.min (expo a) (expo b)) b) by lia.
  rewrite scale_compare. reflexivity.
Qed.

Lemma floor_at_value d n : floor_at d n = Qfloor (value d * pow10 n).
Proof.
  unfold floor_at. destruct (Z.leb_spec 0 (expo d + n)) as [H|H].
  - assert (E : (value d * pow10 n == inject_Z (coef d * 10 ^ (expo d + n)))%Q).
    { unfold value. rewrite inject_Z_mult, pow10_nonneg_Z, pow10_plus by done. ring. }
    rewrite E. by rewrite Qfloor_Z.
  - set (k := - (expo d + n)). assert (Hk : 0 < 10 ^ k) by (apply Z.pow_pos_nonneg; lia).
    assert (E : (value d * pow10 n == coef d # Z.to_pos (10 ^ k))%Q).
    { rewrite Qmake_Qdiv, Z2Pos.id by done. unfold value.
      rewrite <- Qmult_assoc, <- pow10_plus. unfold Qdiv. rewrite pow10_nonneg_Z by lia.
      unfold k. rewrite <- (Qmult_1_r (/ _)).
      rewrite <- (pow10_opp (expo d + n)). field. apply pow10_nonzero. }
    rewrite E. simpl. by rewrite Z2Pos.id.
Qed.

Lemma trunc_value a n :
  (value (trunc a n) == inject_Z (Qfloor (value a * pow10 n)) * pow10 (- n))%Q.
Proof. unfold trunc. rewrite floor_at_value. reflexivity. Qed.

Lemma ceil_value a : (value (ceil a) == inject_Z (Qceiling (value a)))%Q.
Proof.
  unfold ceil. rewrite floor_at_value.
  assert (E : (value (Dec (- coef a) (expo a)) * pow10 0 == - value a)%Q).
  { unfold value, pow10. simpl. rewrite inject_Z_opp. ring. }
  rewrite (Qfloor_comp _ _ E). unfold value at 1, Qceiling. simpl.
  unfold pow10. simpl. ring.
Qed.

Lemma strip_zeros_value f d :
  (value (strip_zeros f d) == value d)%Q /\
  (expo d + Z.of_nat f <= 0 -> expo (strip_zeros f d) <= 0).
Proof.
  revert d. induction f as [|f IH]; intros d; simpl strip_zeros.
  - split; [reflexivity|]. lia.
  - destruct (Z.eqb_spec (coef d mod 10) 0) as [E|E].
    + destruct (IH (Dec (coef d / 10) (expo d + 1))) as [H1 H2]. split.
      * rewrite H1. unfold value. simpl. rewrite pow10_plus.
        replace (coef d) with (coef d / 10 * 10) at 2
          by (pose proof (Z.div_mod (coef d) 10 ltac:(lia)); lia).
        rewrite inject_Z_mult. change (pow10 1) with (inject_Z 10). ring.
      * intros H. apply H2. simpl. lia.
    + split; [reflexivity|]. lia.
Qed.

Lemma parse_to_string d :
  exists b, parse (to_string d) = Some b /\ (value b == value d)%Q.
Proof.
  unfold to_string. rewrite parse_print. eexists. split; [reflexivity|].
  destruct (strip_zeros_value (Z.to_nat (- expo d)) d) as [H1 H2].
  rewrite <- H1. destruct (Z.le_gt_cases (expo d) 0) as [Hd|Hd].
  - specialize (H2 ltac:(lia)). set (d' := strip_zeros _ d) in *.
    rewrite Z.max_l, Z.pow_0_r, Z.mul_1_r, Z2Nat.id by lia. unfold value. simpl.
    rewrite Z.opp_involutive. reflexivity.
  - replace (Z.to_nat (- expo d)) with O by lia. simpl strip_zeros.
    replace (Z.to_nat (- expo d)) with O by lia. rewrite Z.max_r by lia. unfold value. simpl.
    rewrite inject_Z_mult, pow10_nonneg_Z by lia. change (pow10 (- Z.of_nat 0)) with 1%Q. ring.
Qed.

Lemma strip_zeros_0 f e : strip_zeros f (Dec 0 e) = Dec 0 (e + Z.of_nat f).
Proof.
  revert e. induction f as [|f IH]; intros e; simpl strip_zeros; [f_equal; lia|].
  change (0 mod 10 =? 0) with true. cbv iota. change (0 / 10) with 0. rewrite IH. f_equal. simpl. lia.
Qed.

Lemma value_zero_coef d : (value d == 0)%Q -> coef d = 0.
Proof.
  unfold value. intros E. pose proof (pow10_nonzero (expo d)).
  apply Qmult_integral in E as [E|E]; [|done].
  by apply inject_Z_injective.
Qed.

Lemma to_string_zero d : to_string d = "0" <-> (value d == 0)%Q.
Proof.
  split.
  - intros E. destruct (parse_to_string d) as (b & Hb & Hv). rewrite E in Hb.
    vm_compute in Hb. injection Hb as <-. rewrite <- Hv. reflexivity.
  - intros E. apply value_zero_coef in E. destruct d as [c e]. simpl in E. subst c.
    unfold to_string. rewrite strip_zeros_0. simpl expo. simpl coef. rewrite Z.mul_0_l.
    replace (Z.to_nat (- (e + Z.of_nat (Z.to_nat (- e))))) with O by lia. reflexivity.
Qed.

Lemma parse_fixed d n :
  0 <= n -> (exists z, value d * pow10 n == inject_Z z)%Q ->
  exists b, parse (fixed d n) = Some b /\ (value b == value d)%Q.
Proof.
  intros Hn [z Hz]. unfold fixed. rewrite parse_print. eexists. split; [reflexivity|].
  rewrite Z.max_r, Z2Nat.id by done. rewrite floor_at_value.
  assert (Habs : (value (Dec (2 * Z.abs (coef d)) (expo d)) * pow10 n == inject_Z (2 * Z.abs z))%Q).
  { assert (Ha : (inject_Z (Z.abs z) == Qabs (value d * pow10 n))%Q).
    { rewrite Hz. reflexivity. }
    rewrite (inject_Z_mult 2 (Z.abs z)), Ha, Qabs_Qmult. unfold value. cbn [coef expo].
    rewrite Qabs_Qmult, !(Qabs_pos (pow10 _)) by (apply Qlt_le_weak, pow10_pos).
    rewrite inject_Z_mult. change (Qabs (inject_Z (coef d))) with (inject_Z (Z.abs (coef d))).
    ring. }
  rewrite Habs, Qfloor_Z.
  replace ((2 * Z.abs z + 1) / 2) with (Z.abs z)
    by (apply (Z.div_unique_pos _ _ _ 1); lia).
  assert (Hs : Z.sgn (coef d) = Z.sgn z).
  { unfold value in Hz. pose proof (pow10_pos (expo d)) as P1. pose proof (pow10_pos n) as P2.
    assert (P : (0 < pow10 (expo d) * pow10 n)%Q) by nra.
    assert (Hz' : (inject_Z (coef d) * (pow10 (expo d) * pow10 n) == inject_Z z)%Q)
      by (rewrite <- Hz; ring).
    destruct (Z.lt_trichotomy (coef d) 0) as [C|[C|C]].
    - rewrite (Z.sgn_neg _ C). symmetry. apply Z.sgn_neg. rewrite Zlt_Qlt in *. change (inject_Z 0) with 0%Q in *. nra.
    - rewrite C in *. symmetry. simpl. apply Z.sgn_null_iff.
      apply inject_Z_injective. rewrite <- Hz'. change (inject_Z 0) with 0%Q. ring.
    - rewrite (Z.sgn_pos _ C). symmetry. apply Z.sgn_pos. rewrite Zlt_Qlt in *. change (inject_Z 0) with 0%Q in *. nra. }
  rewrite Hs, Z.mul_comm, Z.abs_sgn. unfold value at 1. simpl.
  rewrite <- Hz, <- Qmult_assoc, pow10_opp. ring.
Qed.

#[export] Instance dec_ops : DecimalOps := {|
  decimal := dec;
  dec_zero := Dec 0 1;
  dec_of_int z := Dec z 0;
  dec_parse := parse;
  dec_string := to_string;
  dec_fixed := fixed;
  dec_add := add;
  dec_sub := sub;
  dec_shift := shift;
  dec_ceil := ceil;
  dec_trunc := trunc;
  dec_exponent := expo;
  dec_equal a b := match cmp a b with Eq => true | _ => false end;
  dec_less a b := match cmp a b with Lt => true | _ => false end;
  dec_neg a := coef a <? 0;
  dec_pos a := 0 <? coef a
|}.

Lemma shift_value a n : (value (shift a n) == value a * pow10 n)%Q.
Proof. unfold value, shift. simpl. rewrite pow10_plus. ring. Qed.

#[export] Instance dec_laws : DecimalLaws.
Proof.
  refine {| dec_value := value |}; simpl.
  - reflexivity.
  - intros z. unfold value, pow10. simpl. ring.
  - apply add_value.
  - apply sub_value.
  - apply shift_value.
  - apply ceil_value.
  - intros a n _ _. apply trunc_value.
  - intros a b. rewrite cmp_value, Qeq_alt. by destruct (value a ?= value b)%Q.
  - intros a b. rewrite cmp_value, Qlt_alt. by destruct (value a ?= value b)%Q.
  - intros a. rewrite Z.ltb_lt, Zlt_Qlt. unfold value. change (inject_Z 0) with 0%Q.
    pose proof (pow10_pos (expo a)). split; nra.
  - intros a. rewrite Z.ltb_lt, Zlt_Qlt. unfold value. change (inject_Z 0) with 0%Q.
    pose proof (pow10_pos (expo a)). split; nra.
  - apply parse_to_string.
  - apply parse_fixed.
  - apply to_string_zero.
Qed.

End DecimalImpl.
