(* ===== verification/Prog.v ===== *)
(** * Programs with effects

    A Go function that talks to its dependencies is a tree: either it returns,
    or it performs an operation and continues with the response.  Every loop
    of the modelled code is bounded, so the trees are inductive and each
    modelled function terminates by construction.

    [M S] adds the mutable memory the functions share (the report, the run
    state, the alert tables).  [wp] is the weakest precondition of a program
    under a protocol: which operations are allowed in a world, and how a
    response may change the world.  [ops_in] is the special case in which the
    world is trivial.  [partial] relates a program to the prefixes of its
    executions: a crash may stop a program after any of them. *)

From S2P Require Import Prelude.

Class EffSig : Type := { Op : Type; Resp : Op -> Type }.

Section Prog.
Context `{Sig : EffSig}.

Inductive prog (A : Type) : Type :=
| Ret (a : A)
| Call (o : Op) (k : Resp o -> prog A).
#[global] Arguments Ret {A} a.
#[global] Arguments Call {A} o k.

Fixpoint prog_bind {A B : Type} (m : prog A) (f : A -> prog B) : prog B :=
  match m with
  | Ret a => f a
  | Call o k => Call o (fun r => prog_bind (k r) f)
  end.

(** ** Protocols and weakest preconditions *)

Record protocol (W : Type) : Type := {
  allowed : W -> Op -> Prop;
  step : W -> forall o, Resp o -> W -> Prop
}.
#[global] Arguments allowed {W}.
#[global] Arguments step {W}.

Fixpoint wp {W A : Type} (P : protocol W) (w : W) (m : prog A) (Q : A -> W -> Prop) : Prop :=
  match m with
  | Ret a => Q a w
  | Call o k => allowed P w o /\ forall r w', step P w o r w' -> wp P w' (k r) Q
  end.

Lemma wp_mono {W A : Type} (P : protocol W) w (m : prog A) (Q Q' : A -> W -> Prop) :
  (forall a w', Q a w' -> Q' a w') -> wp P w m Q -> wp P w m Q'.
Proof.
  intros HQ. revert w. induction m as [a|o k IH]; intros w; simpl; [apply HQ|].
  intros [Ho Hk]. split; [done|]. intros r w' Hs. eauto.
Qed.

Lemma wp_bind {W A B : Type} (P : protocol W) w (m : prog A) (f : A -> prog B) (Q : B -> W -> Prop) :
  wp P w (prog_bind m f) Q <-> wp P w m (fun a w' => wp P w' (f a) Q).
Proof.
  revert w. induction m as [a|o k IH]; intros w; simpl; [done|].
  split; intros [Ho Hk]; (split; [done|]); intros r w' Hs; apply IH; auto.
Qed.

(** An invariant that every allowed operation preserves may be assumed of
    every world a program reaches. *)
Definition with_invariant {W : Type} (P : protocol W) (I : W -> Prop) : protocol W :=
  {| allowed := allowed P; step w o r w' := step P w o r w' /\ I w' |}.

Lemma wp_with_invariant {W A : Type} (P : protocol W) (I : W -> Prop) w (m : prog A) Q :
  (forall w o r w', I w -> allowed P w o -> step P w o r w' -> I w') ->
  I w -> wp (with_invariant P I) w m Q -> wp P w m Q.
Proof.
  intros Hpres. revert w. induction m as [a|o k IH]; intros w Hw; simpl; [done|].
  intros [Ho Hk]. split; [done|]. intros r w' Hs.
  assert (I w') by eauto. apply IH; [done|]. by apply Hk.
Qed.

Lemma wp_and {W A : Type} (P : protocol W) w (m : prog A) (Q Q' : A -> W -> Prop) :
  wp P w m Q -> wp P w m Q' -> wp P w m (fun a w' => Q a w' /\ Q' a w').
Proof.
  revert w. induction m as [a|o k IH]; intros w; simpl; [done|].
  intros [Ho Hk] [_ Hk']. split; [done|]. intros r w' Hs. eauto.
Qed.

(** ** Executions *)

Inductive event : Type := Ev (o : Op) (r : Resp o).

(** [partial P w m tr w' m']: after the operations [tr] the program [m]
    started in [w] has become [m'] in [w']. *)
Inductive partial {W A : Type} (P : protocol W) : W -> prog A -> list event -> W -> prog A -> Prop :=
| partial_nil w m : partial P w m [] w m
| partial_cons w o r w1 tr w2 k m2 :
    step P w o r w1 -> partial P w1 (k r) tr w2 m2 ->
    partial P w (Call o k) (Ev o r :: tr) w2 m2.

Lemma partial_inv {W A : Type} (P : protocol W) w (m : prog A) tr w' m' :
  partial P w m tr w' m' ->
  match tr with
  | [] => w' = w /\ m' = m
  | _ => match m with
         | Ret _ => False
         | Call o k => exists r w1 tr', tr = Ev o r :: tr' /\ step P w o r w1 /\ partial P w1 (k r) tr' w' m'
         end
  end.
Proof. destruct 1; [done|]. eauto 10. Qed.

(** The weakest precondition survives every prefix of an execution. *)
Lemma wp_partial {W A : Type} (P : protocol W) w (m : prog A) tr w' m' Q :
  partial P w m tr w' m' -> wp P w m Q -> wp P w' m' Q.
Proof.
  induction 1 as [w m|w o r w1 tr w2 k m2 Hs Hp IH]; [done|].
  simpl. intros [_ Hk]. apply IH. by apply Hk.
Qed.

(** A property of worlds that allowed operations preserve holds after every
    prefix of an execution. *)
Lemma partial_invariant {W A : Type} (P : protocol W) (I : W -> Prop) w (m : prog A) tr w' m' Q :
  (forall w o r w', I w -> allowed P w o -> step P w o r w' -> I w') ->
  partial P w m tr w' m' -> wp P w m Q -> I w -> I w'.
Proof.
  intros Hpres. induction 1 as [w m|w o r w1 tr w2 k m2 Hs Hp IH]; [done|].
  simpl. intros [Ho Hk] Hw. eauto.
Qed.

(** Every operation of the execution is allowed where it happens. *)
Lemma partial_allowed {W A : Type} (P : protocol W) w (m : prog A) tr w' o k Q :
  partial P w m tr w' (Call o k) -> wp P w m Q -> allowed P w' o.
Proof. intros Hp Hw. by apply (wp_partial _ _ _ _ _ _ _ Hp) in Hw as [Ho _]. Qed.

(** An execution depends on the effects only. *)
Lemma partial_mono {W A : Type} (P P' : protocol W) w (m : prog A) tr w' m' :
  (forall w o r w', step P w o r w' -> step P' w o r w') -> partial P w m tr w' m' -> partial P' w m tr w' m'.
Proof. intros HP. induction 1; econstructor; eauto. Qed.

(** What is allowed everywhere holds of every operation of an execution. *)
Lemma trace_allowed {W A : Type} (P : protocol W) (R : Op -> Prop) w (m : prog A) tr w' m' Q :
  (forall w o, allowed P w o -> R o) -> partial P w m tr w' m' -> wp P w m Q ->
  Forall (fun e => match e with Ev o _ => R o end) tr.
Proof.
  intros HR. induction 1 as [w m|w o r w1 tr w2 k m2 Hs Hp IH]; [constructor|].
  intros [Ho Hk]. constructor; [by eapply HR|]. by apply IH, Hk.
Qed.

(** An execution of a sequence is inside the first part, or has left it. *)
Lemma partial_bind {W A B : Type} (P : protocol W) (f : A -> prog B) w (m : prog A) tr w' m' :
  partial P w (prog_bind m f) tr w' m' ->
  (exists o k, m' = Call o (fun r => prog_bind (k r) f) /\ partial P w m tr w' (Call o k)) \/
  (exists a tr1 w1 tr2, tr = tr1 ++ tr2 /\ partial P w m tr1 w1 (Ret a) /\ partial P w1 (f a) tr2 w' m').
Proof.
  revert w tr. induction m as [a|o k IH]; intros w tr Hp.
  - right. exists a, [], w, tr. split; [done|]. split; [constructor|exact Hp].
  - apply partial_inv in Hp. destruct tr as [|e tr].
    + destruct Hp as [-> ->]. left. exists o, k. split; [done|constructor].
    + destruct Hp as (r & w1 & tr' & [= -> ->] & Hs & Hp).
      destruct (IH r w1 tr' Hp) as [(o' & k' & -> & H)|(a & tr1 & w2 & tr2 & -> & H1 & H2)].
      * left. exists o', k'. split; [done|]. by econstructor.
      * right. exists a, (Ev o r :: tr1), w2, tr2. split; [done|]. split; [by econstructor|done].
Qed.

Lemma partial_call {W A : Type} (P : protocol W) w o (k : Resp o -> prog A) tr w' m' :
  partial P w (Call o k) tr w' m' ->
  (tr = [] /\ w' = w /\ m' = Call o k) \/
  exists r w1 tr', tr = Ev o r :: tr' /\ step P w o r w1 /\ partial P w1 (k r) tr' w' m'.
Proof. intros Hp%partial_inv. destruct tr as [|e tr]; [left|right]; [by destruct Hp|exact Hp]. Qed.

Lemma partial_ret {W A : Type} (P : protocol W) w (a : A) tr w' m' :
  partial P w (Ret a) tr w' m' -> tr = [] /\ w' = w /\ m' = Ret a.
Proof. intros Hp%partial_inv. destruct tr; [by destruct Hp|done]. Qed.

(** The protocol whose worlds record the events so far. *)
Definition recorded {W : Type} (P : protocol W) : protocol (W * list event) :=
  {| allowed w := allowed P (fst w);
     step w o r w' := step P (fst w) o r (fst w') /\ snd w' = snd w ++ [Ev o r] |}.

Lemma recorded_partial {W A : Type} (P : protocol W) w (m : prog A) tr w' m' h :
  partial P w m tr w' m' -> partial (recorded P) (w, h) m tr (w', h ++ tr) m'.
Proof.
  intros Hp. revert h. induction Hp as [w m|w o r w1 tr w2 k m2 Hs Hp IH]; intros h.
  - rewrite app_nil_r. constructor.
  - eapply (partial_cons _ (w, h) o r (w1, h ++ [Ev o r])); [by split|].
    replace (h ++ Ev o r :: tr) with ((h ++ [Ev o r]) ++ tr) by (by rewrite <- (assoc_L (++))). apply IH.
Qed.

(** Executing with a concrete environment, which answers every operation or
    stops the program: the rest of the program and the environment. *)
Fixpoint exec {H A : Type} (env : H -> forall o, option (Resp o * H)) (h : H) (m : prog A) : prog A * H :=
  match m with
  | Ret a => (Ret a, h)
  | Call o k => match env h o with Some (r, h') => exec env h' (k r) | None => (Call o k, h) end
  end.

(** The operations of such an execution. *)
Fixpoint exec_trace {H A : Type} (env : H -> forall o, option (Resp o * H)) (h : H) (m : prog A) : list event :=
  match m with
  | Ret a => []
  | Call o k => match env h o with Some (r, h') => Ev o r :: exec_trace env h' (k r) | None => [] end
  end.

(** The operation a program is about to perform, and its result. *)
Definition head_op {A : Type} (m : prog A) : option Op :=
  match m with Ret _ => None | Call o _ => Some o end.
Definition outcome_of {A : Type} (m : prog A) : option A :=
  match m with Ret a => Some a | Call _ _ => None end.

Lemma head_op_call {A : Type} (m : prog A) o : head_op m = Some o -> exists k, m = Call o k.
Proof. destruct m as [a|o' k]; simpl; [done|]. intros [= ->]. by exists k. Qed.

(** An environment whose answers follow the protocol yields an execution of
    the protocol. *)
Lemma exec_partial {W H A : Type} (P : protocol W) (R : H -> W)
    (env : H -> forall o, option (Resp o * H)) :
  (forall h o r h', env h o = Some (r, h') -> step P (R h) o r (R h')) ->
  forall (m : prog A) h,
    partial P (R h) m (exec_trace env h m) (R (snd (exec env h m))) (fst (exec env h m)).
Proof.
  intros Henv m. induction m as [a|o k IH]; intros h; simpl; [constructor|].
  destruct (env h o) as [[r h']|] eqn:E; [|constructor].
  econstructor; [by apply Henv|apply IH].
Qed.

(** Executing one program after another. *)
Lemma exec_bind {H A B : Type} (env : H -> forall o, option (Resp o * H)) (m : prog A) (f : A -> prog B) : forall h h' a,
  exec env h m = (Ret a, h') -> exec env h (prog_bind m f) = exec env h' (f a).
Proof.
  induction m as [x|o k IH]; intros h h' a; simpl; [by intros [= -> ->]|].
  destruct (env h o) as [[r h1]|]; [apply IH|done].
Qed.

(** ** Programs restricted to a set of operations *)

Fixpoint ops_in {A : Type} (P : Op -> Prop) (m : prog A) : Prop :=
  match m with
  | Ret _ => True
  | Call o k => P o /\ forall r, ops_in P (k r)
  end.

Lemma ops_in_bind {A B : Type} (P : Op -> Prop) (m : prog A) (f : A -> prog B) :
  ops_in P m -> (forall a, ops_in P (f a)) -> ops_in P (prog_bind m f).
Proof.
  intros Hm Hf. induction m as [a|o k IH]; simpl in *; [done|].
  destruct Hm as [Ho Hk]. split; [done|]. intros r. auto.
Qed.

Lemma ops_in_mono {A : Type} (P P' : Op -> Prop) (m : prog A) :
  (forall o, P o -> P' o) -> ops_in P m -> ops_in P' m.
Proof.
  intros HP. induction m as [a|o k IH]; simpl; [done|].
  intros [Ho Hk]. split; [auto|]. auto.
Qed.

(** What [ops_in] says of an execution: every operation performed is in the
    set. *)
Lemma ops_in_partial {W A : Type} (P : Op -> Prop) (pr : protocol W) w (m : prog A) tr w' m' :
  partial pr w m tr w' m' -> ops_in P m ->
  Forall (fun e => match e with Ev o _ => P o end) tr /\ ops_in P m'.
Proof.
  induction 1 as [w m|w o r w1 tr w2 k m2 Hs Hp IH]; simpl; [done|].
  intros [Ho Hk]. destruct (IH (Hk r)) as [H1 H2]. split; [by constructor|done].
Qed.

(** ** Counting operations

    [count_le P n m]: no execution of [m] performs more than [n] operations
    that satisfy [P]. *)

Fixpoint count_le {A : Type} (P : Op -> bool) (n : nat) (m : prog A) : Prop :=
  match m with
  | Ret _ => True
  | Call o k =>
      if P o then match n with O => False | S n => forall r, count_le P n (k r) end
      else forall r, count_le P n (k r)
  end.

Lemma count_le_mono {A : Type} (P : Op -> bool) n n' (m : prog A) :
  (n <= n')%nat -> count_le P n m -> count_le P n' m.
Proof.
  revert n n'. induction m as [a|o k IH]; intros n n' Hn; simpl; [done|].
  destruct (P o); [|eauto]. destruct n, n'; try done; [lia|]. intros Hk r. eapply IH; [|apply Hk]. lia.
Qed.

Lemma count_le_bind {A B : Type} (P : Op -> bool) n n' (m : prog A) (f : A -> prog B) :
  count_le P n m -> (forall a, count_le P n' (f a)) -> count_le P (n + n') (prog_bind m f).
Proof.
  intros Hm Hf. revert n Hm. induction m as [a|o k IH]; intros n; simpl.
  - intros _. eapply count_le_mono; [|apply Hf]. lia.
  - destruct (P o); [|eauto]. destruct n; [done|]. simpl. eauto.
Qed.

Lemma count_le_ops {A : Type} (P : Op -> bool) (m : prog A) :
  ops_in (fun o => P o = false) m -> count_le P 0 m.
Proof.
  induction m as [a|o k IH]; simpl; [done|]. intros [-> Hk]. eauto.
Qed.

(** What [count_le] says of an execution. *)
Lemma count_le_partial {W A : Type} (P : Op -> bool) (pr : protocol W) n w (m : prog A) tr w' m' :
  partial pr w m tr w' m' -> count_le P n m ->
  (length (List.filter (fun e => match e with Ev o _ => P o end) tr) <= n)%nat.
Proof.
  intros Hp. revert n. induction Hp as [w m|w o r w1 tr w2 k m2 Hs Hp IH]; intros n; simpl; [lia|].
  destruct (P o); simpl; [|eauto]. destruct n; [done|]. intros Hk. specialize (IH n (Hk r)). lia.
Qed.

(** ** Histories

    The world may be the list of the events so far: [permits h o] says that
    [o] may be performed after the history [h].  What a history permits, a
    longer one permits too. *)

Section History.
Variable permits : list event -> Op -> Prop.
Hypothesis permits_mono : forall h h' o, h ⊆ h' -> permits h o -> permits h' o.

Definition history : protocol (list event) :=
  {| allowed := permits; step h o r h' := h' = Ev o r :: h |}.

Lemma history_mono {A : Type} h h' (m : prog A) (Q : A -> list event -> Prop) :
  (forall a h h', h ⊆ h' -> Q a h -> Q a h') -> h ⊆ h' -> wp history h m Q -> wp history h' m Q.
Proof.
  intros HQ. revert h h'. induction m as [a|o k IH]; intros h h' Hh; simpl; [by apply HQ|].
  intros [Ho Hk]. split; [by eapply permits_mono|]. intros r h1 ->.
  eapply IH; [|by apply Hk]. set_solver.
Qed.

Lemma history_grows {A : Type} h (m : prog A) (Q : A -> list event -> Prop) :
  wp history h m Q -> wp history h m (fun a h' => Q a h' /\ h ⊆ h').
Proof.
  clear permits_mono. revert h. induction m as [a|o k IH]; intros h; simpl; [by split|]. intros [Ho Hk].
  split; [done|]. intros r h1 ->. eapply wp_mono; [|apply IH, Hk; done].
  intros a h' [HQ Hh]. split; [done|]. set_solver.
Qed.

Lemma history_ops {A : Type} (P : Op -> Prop) h (m : prog A) :
  (forall h o, P o -> permits h o) -> ops_in P m -> wp history h m (fun _ _ => True).
Proof.
  intros HP. revert h. induction m as [a|o k IH]; intros h; simpl; [done|]. intros [Ho Hk].
  split; [auto|]. intros r h' ->. auto.
Qed.

(** In an execution against any environment, an operation is performed only
    after a history that permits it. *)
Lemma history_partial {W A : Type} (pr : protocol W) h w (m : prog A) tr w' o k Q :
  partial pr w m tr w' (Call o k) -> wp history h m Q -> permits (rev tr ++ h) o.
Proof.
  remember (Call o k) as m' eqn:E. intros Hp. revert h.
  induction Hp as [w m|w o1 r w1 tr w2 k1 m2 Hs Hp IH]; intros h.
  - subst. by intros [Ho _].
  - intros [_ Hk]. simpl. rewrite <- (assoc_L (++)). apply (IH E). by apply Hk.
Qed.

(** ... and a result is returned after a history that justifies it. *)
Lemma history_returns {W A : Type} (pr : protocol W) h w (m : prog A) tr w' a Q :
  partial pr w m tr w' (Ret a) -> wp history h m Q -> Q a (rev tr ++ h).
Proof.
  clear permits_mono. remember (Ret a) as m' eqn:E. intros Hp. revert h.
  induction Hp as [w m|w o1 r w1 tr w2 k1 m2 Hs Hp IH]; intros h.
  - by subst.
  - intros [_ Hk]. simpl. rewrite <- (assoc_L (++)). apply (IH E). by apply Hk.
Qed.
End History.

(** ** The state monad over programs *)

Section StateM.
Context {S : Type}.

Definition M (A : Type) : Type := S -> prog (A * S).

#[global] Instance M_ret : MRet M := fun A a s => Ret (a, s).
#[global] Instance M_bind : MBind M := fun A B f m s =>
  prog_bind (m s) (fun '(a, s') => f a s').

Definition call (o : Op) : M (Resp o) := fun s => Call o (fun r => Ret (r, s)).
Definition get : M S := fun s => Ret (s, s).
Definition modify (f : S -> S) : M unit := fun s => Ret (tt, f s).
Definition gets {A : Type} (f : S -> A) : M A := fun s => Ret (f s, s).

(** [for _, x := range l], stopping at the first error. *)
Fixpoint range {A : Type} (l : list A) (body : A -> M (option error)) : M (option error) :=
  match l with
  | [] => mret None
  | x :: l' => body x ≫= fun e =>
      match e with Some e => mret (Some e) | None => range l' body end
  end.

(** [for _, x := range l] with a body that cannot fail. *)
Fixpoint each {A : Type} (l : list A) (body : A -> M unit) : M unit :=
  match l with
  | [] => mret tt
  | x :: l' => body x ≫= fun _ => each l' body
  end.

(** Weakest precondition of a computation with memory. *)
Definition wpM {W A : Type} (P : protocol W) (w : W) (s : S) (m : M A)
    (Q : A -> S -> W -> Prop) : Prop :=
  wp P w (m s) (fun '(a, s') w' => Q a s' w').

Lemma wpM_ret {W A : Type} (P : protocol W) w s (a : A) (Q : A -> S -> W -> Prop) :
  Q a s w -> wpM P w s (mret a) Q.
Proof. done. Qed.

Lemma wpM_bind {W A B : Type} (P : protocol W) w s (m : M A) (f : A -> M B) Q :
  wpM P w s m (fun a s' w' => wpM P w' s' (f a) Q) -> wpM P w s (m ≫= f) Q.
Proof.
  intros H. unfold wpM, mbind, M_bind in *. apply wp_bind.
  eapply wp_mono; [|exact H]. by intros [a s'] w'.
Qed.

Lemma wpM_mono {W A : Type} (P : protocol W) w s (m : M A) (Q Q' : A -> S -> W -> Prop) :
  wpM P w s m Q -> (forall a s' w', Q a s' w' -> Q' a s' w') -> wpM P w s m Q'.
Proof. intros H HQ. eapply wp_mono; [|exact H]. intros [a s'] w'. apply HQ. Qed.

Lemma wpM_call {W : Type} (P : protocol W) w s (o : Op) (Q : Resp o -> S -> W -> Prop) :
  allowed P w o -> (forall r w', step P w o r w' -> Q r s w') -> wpM P w s (call o) Q.
Proof. intros Ho Hk. split; [done|]. intros r w' Hs. by apply Hk. Qed.

Lemma wpM_get {W : Type} (P : protocol W) w s (Q : S -> S -> W -> Prop) :
  Q s s w -> wpM P w s get Q.
Proof. done. Qed.

Lemma wpM_gets {W A : Type} (P : protocol W) w s (f : S -> A) (Q : A -> S -> W -> Prop) :
  Q (f s) s w -> wpM P w s (gets f) Q.
Proof. done. Qed.

Lemma wpM_modify {W : Type} (P : protocol W) w s f (Q : unit -> S -> W -> Prop) :
  Q tt (f s) w -> wpM P w s (modify f) Q.
Proof. done. Qed.

(** [ops_in] for computations with memory, and its closure under the
    monad. *)
Definition opsM {A : Type} (P : Op -> Prop) (m : M A) : Prop := forall s, ops_in P (m s).

Lemma opsM_ret {A : Type} (P : Op -> Prop) (a : A) : opsM P (mret a).
Proof. done. Qed.

Lemma opsM_bind {A B : Type} (P : Op -> Prop) (m : M A) (f : A -> M B) :
  opsM P m -> (forall a, opsM P (f a)) -> opsM P (m ≫= f).
Proof. intros Hm Hf s. apply ops_in_bind; [done|]. intros [a s']. apply Hf. Qed.

Lemma opsM_call (P : Op -> Prop) (o : Op) : P o -> opsM P (call o).
Proof. intros Ho s. split; [done|]. done. Qed.

Lemma opsM_get (P : Op -> Prop) : opsM P get.
Proof. done. Qed.

Lemma opsM_gets {A : Type} (P : Op -> Prop) (f : S -> A) : opsM P (gets f).
Proof. done. Qed.

Lemma opsM_modify (P : Op -> Prop) f : opsM P (modify f).
Proof. done. Qed.

(** [ops_in] with a fact about the result. *)
Definition ops_protocol (P : Op -> Prop) : protocol unit := {| allowed _ o := P o; step _ _ _ _ := True |}.

Definition opsM_post {A : Type} (P : Op -> Prop) (m : M A) (Q : A -> Prop) : Prop :=
  forall s, wpM (ops_protocol P) tt s m (fun a _ _ => Q a).

Lemma opsM_post_ret {A : Type} (P : Op -> Prop) (a : A) (Q : A -> Prop) : Q a -> opsM_post P (mret a) Q.
Proof. by intros HQ s. Qed.

Lemma opsM_post_bind {A B : Type} (P : Op -> Prop) (m : M A) (f : A -> M B) (Q : A -> Prop) (R : B -> Prop) :
  opsM_post P m Q -> (forall a, Q a -> opsM_post P (f a) R) -> opsM_post P (m ≫= f) R.
Proof.
  intros Hm Hf s. apply wpM_bind. eapply wpM_mono; [apply Hm|]. intros a s' [] Ha. by apply Hf.
Qed.

Lemma opsM_post_true {A : Type} (P : Op -> Prop) (m : M A) : opsM P m -> opsM_post P m (fun _ => True).
Proof.
  intros Hm s. specialize (Hm s). unfold wpM.
  induction (m s) as [[a s']|o k IH]; simpl in *; [done|]. destruct Hm as [Ho Hk]. split; [done|].
  intros r [] _. by apply IH.
Qed.

Lemma opsM_post_mono {A : Type} (P P' : Op -> Prop) (m : M A) (Q : A -> Prop) :
  (forall o, P o -> P' o) -> opsM_post P m Q -> opsM_post P' m Q.
Proof.
  intros HP Hm s. specialize (Hm s). unfold wpM in *. revert Hm. generalize tt.
  induction (m s) as [[a s']|o k IH]; intros u; simpl; [done|]. intros [Ho Hk]. split; [auto|].
  intros r w' Hs. apply IH. by apply Hk.
Qed.

Lemma opsM_of_post {A : Type} (P : Op -> Prop) (m : M A) Q : opsM_post P m Q -> opsM P m.
Proof.
  intros Hm s. specialize (Hm s). unfold wpM in Hm.
  induction (m s) as [[a s']|o k IH]; simpl in *; [done|]. destruct Hm as [Ho Hk]. split; [done|].
  intros r. apply IH. by apply (Hk r tt).
Qed.

Lemma opsM_bind_post {A B : Type} (P : Op -> Prop) (m : M A) (f : A -> M B) (Q : A -> Prop) :
  opsM_post P m Q -> (forall a, Q a -> opsM P (f a)) -> opsM P (m ≫= f).
Proof.
  intros Hm Hf. eapply opsM_of_post, opsM_post_bind; [exact Hm|]. intros a Ha.
  by apply opsM_post_true, Hf.
Qed.

(** [wp] under a history for computations with memory. *)
Section HistoryM.
Variable permits : list event -> Op -> Prop.
Hypothesis permits_mono : forall h h' o, h ⊆ h' -> permits h o -> permits h' o.

Definition historyM {A : Type} (h : list event) (m : M A) (Q : A -> list event -> Prop) : Prop :=
  forall s, wpM (history permits) h s m (fun a _ h' => Q a h').

(** Computations without further obligations. *)
Definition follows {A : Type} (h : list event) (m : M A) : Prop := historyM h m (fun _ _ => True).

Lemma historyM_bind {A B : Type} h (m : M A) (f : A -> M B) (Q : A -> list event -> Prop) (R : B -> list event -> Prop) :
  historyM h m Q -> (forall a h', h ⊆ h' -> Q a h' -> historyM h' (f a) R) -> historyM h (m ≫= f) R.
Proof.
  intros Hm Hf s. apply wpM_bind. eapply wp_mono; [|exact (history_grows permits _ _ _ (Hm s))].
  intros [a s'] h' [HQ Hh]. by apply Hf.
Qed.

Lemma historyM_mono {A : Type} h (m : M A) (Q R : A -> list event -> Prop) :
  historyM h m Q -> (forall a h', Q a h' -> R a h') -> historyM h m R.
Proof. intros Hm HR s. eapply wpM_mono; [apply Hm|]. eauto. Qed.

Lemma historyM_ret {A : Type} h (a : A) (Q : A -> list event -> Prop) : Q a h -> historyM h (mret a) Q.
Proof. by intros HQ s. Qed.

Lemma historyM_call h (o : Op) (Q : Resp o -> list event -> Prop) :
  permits h o -> (forall r, Q r (Ev o r :: h)) -> historyM h (call o) Q.
Proof. intros Ho HQ s. split; [done|]. intros r h' ->. apply HQ. Qed.

Lemma follows_mono {A : Type} h h' (m : M A) : h ⊆ h' -> follows h m -> follows h' m.
Proof.
  intros Hh Hm s. eapply history_mono; [done| |done|apply Hm]. by intros [].
Qed.

Lemma follows_bind {A B : Type} h (m : M A) (f : A -> M B) :
  follows h m -> (forall a, follows h (f a)) -> follows h (m ≫= f).
Proof.
  intros Hm Hf. eapply historyM_bind; [exact Hm|]. intros a h' Hh _. by apply (follows_mono h).
Qed.

Lemma follows_grows {A : Type} h (m : M A) : follows h m -> historyM h m (fun _ h' => h ⊆ h').
Proof.
  intros Hm s. eapply wp_mono; [|exact (history_grows permits _ _ _ (Hm s))]. by intros [a s'] h' [_ Hh].
Qed.

Lemma follows_ops {A : Type} (P : Op -> Prop) h (m : M A) :
  (forall h o, P o -> permits h o) -> opsM P m -> follows h m.
Proof.
  intros HP Hm s. eapply wp_mono; [|by apply (history_ops permits P), Hm]. by intros [].
Qed.

Lemma follows_range {A : Type} h (l : list A) (body : A -> M (option error)) :
  (forall x, x ∈ l -> follows h (body x)) -> follows h (range l body).
Proof.
  induction l as [|x l IH]; intros Hb; simpl; [done|].
  apply follows_bind; [apply Hb; left|]. intros [e|]; [done|]. apply IH. intros y Hy. apply Hb. by right.
Qed.
End HistoryM.

Lemma historyM_weaken {A : Type} (permits permits' : list event -> Op -> Prop) h (m : M A) Q :
  (forall h o, permits h o -> permits' h o) -> historyM permits h m Q -> historyM permits' h m Q.
Proof.
  intros HP Hm s. specialize (Hm s). unfold wpM in *. revert h Hm.
  induction (m s) as [[a s']|o k IH]; intros h; simpl; [done|]. intros [Ho Hk]. split; [auto|].
  intros r h' ->. by apply IH, Hk.
Qed.

(** [count_le] for computations with memory. *)
Definition countM {A : Type} (P : Op -> bool) (n : nat) (m : M A) : Prop := forall s, count_le P n (m s).

Lemma countM_mono {A : Type} (P : Op -> bool) n n' (m : M A) : (n <= n')%nat -> countM P n m -> countM P n' m.
Proof. intros Hn Hm s. by eapply count_le_mono. Qed.

Lemma countM_bind {A B : Type} (P : Op -> bool) n n' (m : M A) (f : A -> M B) :
  countM P n m -> (forall a, countM P n' (f a)) -> countM P (n + n') (m ≫= f).
Proof. intros Hm Hf s. apply count_le_bind; [done|]. intros [a s']. apply Hf. Qed.

Lemma countM_ops {A : Type} (P : Op -> bool) (m : M A) : opsM (fun o => P o = false) m -> countM P 0 m.
Proof. intros Hm s. by apply count_le_ops. Qed.

Lemma countM_then {A B : Type} (P : Op -> bool) n (m : M A) (f : A -> M B) :
  opsM (fun o => P o = false) m -> (forall a, countM P n (f a)) -> countM P n (m ≫= f).
Proof. intros Hm Hf. apply (countM_bind P 0 n); [by apply countM_ops|done]. Qed.

Lemma countM_then_post {A B : Type} (P : Op -> bool) n (m : M A) (f : A -> M B) (Q : A -> Prop) :
  opsM_post (fun o => P o = false) m Q -> (forall a, Q a -> countM P n (f a)) -> countM P n (m ≫= f).
Proof.
  intros Hm Hf s. specialize (Hm s). unfold wpM, mbind, M_bind in *.
  induction (m s) as [[a s']|o k IH]; simpl in *; [by apply Hf|]. destruct Hm as [-> Hk].
  intros r. apply IH. by apply (Hk r tt).
Qed.

Lemma countM_range {A : Type} (P : Op -> bool) (cost : A -> nat) (l : list A) (body : A -> M (option error)) :
  (forall x, countM P (cost x) (body x)) -> countM P (list_sum (map cost l)) (range l body).
Proof.
  intros Hb. induction l as [|x l IH]; simpl; [done|].
  apply countM_bind; [done|]. intros [e|]; [done|exact IH].
Qed.

Lemma opsM_mono {A : Type} (P P' : Op -> Prop) (m : M A) : (forall o, P o -> P' o) -> opsM P m -> opsM P' m.
Proof. intros HP Hm s. by eapply ops_in_mono. Qed.

Lemma opsM_each {A : Type} (P : Op -> Prop) (l : list A) (body : A -> M unit) :
  (forall x, x ∈ l -> opsM P (body x)) -> opsM P (each l body).
Proof.
  induction l as [|x l IH]; intros H; simpl; [done|].
  apply opsM_bind; [apply H; left|]. intros _. apply IH. intros y Hy. apply H. by right.
Qed.

Lemma opsM_range {A : Type} (P : Op -> Prop) (l : list A) (body : A -> M (option error)) :
  (forall x, x ∈ l -> opsM P (body x)) -> opsM P (range l body).
Proof.
  induction l as [|x l IH]; intros H; simpl; [done|].
  apply opsM_bind; [apply H; left|]. intros [e|]; [done|]. apply IH.
  intros y Hy. apply H. by right.
Qed.
End StateM.
End Prog.

#[global] Arguments M {Sig} S A.
#[global] Arguments event : clear implicits.
#[global] Arguments protocol {Sig} W.

Create HintDb ops.
#[export] Hint Resolve opsM_ret opsM_get opsM_gets opsM_modify opsM_call : ops.

(** [solve_ops] decomposes a computation along its binds, branches and loops
    and closes the leaves with the lemmas of the [ops] database. *)
Ltac solve_ops_step :=
  lazymatch goal with
  | |- opsM _ (match ?x with _ => _ end) => destruct x
  | |- _ => first
    [ solve [auto 2 with ops]
    | apply opsM_bind; [|intros ?]
    | apply opsM_each; intros ? ?
    | apply opsM_range; intros ? ?
    | progress cbn beta iota zeta ]
  end.
Ltac solve_ops := repeat solve_ops_step.
