(* ===== verification/Crash.v ===== *)
(** * Programs that may stop anywhere

    Programs without memory, and a weakest precondition with a crash
    condition: [wpc P C w m Q] says that [m] performs allowed operations, that
    [C] holds of every world it passes through, the first and the last
    included, and that it ends in [Q].  The store is verified with it: its
    crash condition speaks of what the disk holds if the process stops. *)

From S2P Require Import Prelude Prog.

Section Crash.
Context `{Sig : EffSig}.

#[global] Instance prog_ret : MRet prog := fun A a => Ret a.
#[global] Instance prog_mbind : MBind prog := fun A B f m => prog_bind m f.

Definition perform (o : Op) : prog (Resp o) := Call o (fun r => Ret r).

(** [if err := m; err != nil { return h(err) }; k]. *)
Definition if_err {A : Type} (m : prog (option error)) (h : error -> A) (k : prog A) : prog A :=
  e ← m; match e with Some err => mret (h err) | None => k end.

(** [a, err := m; if err != nil { return h(err) }; k(a)]. *)
Definition let_ok {A B : Type} (m : prog (result A)) (h : error -> B) (k : A -> prog B) : prog B :=
  r ← m; match r with Err err => mret (h err) | Ok a => k a end.

(** [errors.Join] of two errors that may be nil. *)
Definition joined (a b : option error) : option error :=
  match a, b with
  | Some a, Some b => Some (Join a b)
  | Some a, None => Some a
  | None, b => b
  end.

Fixpoint wpc {W A : Type} (P : protocol W) (C : W -> Prop) (w : W) (m : prog A) (Q : A -> W -> Prop) : Prop :=
  C w /\
  match m with
  | Ret a => Q a w
  | Call o k => allowed P w o /\ forall r w', step P w o r w' -> wpc P C w' (k r) Q
  end.

Section Rules.
Context {W : Type} (P : protocol W) (C : W -> Prop).

Lemma wpc_now {A : Type} w (m : prog A) Q : wpc P C w m Q -> C w.
Proof. by destruct m; intros [HC _]. Qed.

Lemma wpc_ret {A : Type} w (a : A) (Q : A -> W -> Prop) : C w -> Q a w -> wpc P C w (mret a) Q.
Proof. by split. Qed.

Lemma wpc_mono {A : Type} w (m : prog A) (Q Q' : A -> W -> Prop) :
  (forall a w', C w' -> Q a w' -> Q' a w') -> wpc P C w m Q -> wpc P C w m Q'.
Proof.
  intros HQ. revert w. induction m as [a|o k IH]; intros w; simpl; intros [HC H]; (split; [done|]); [by apply HQ|].
  destruct H as [Ho Hk]. split; [done|]. intros r w' Hs. apply IH, Hk, Hs.
Qed.

Lemma wpc_bind {A B : Type} w (m : prog A) (f : A -> prog B) (Q : B -> W -> Prop) :
  wpc P C w m (fun a w' => wpc P C w' (f a) Q) -> wpc P C w (m ≫= f) Q.
Proof.
  unfold mbind, prog_mbind. revert w. induction m as [a|o k IH]; intros w; simpl; intros [HC H]; [done|].
  split; [done|]. destruct H as [Ho Hk]. split; [done|]. intros r w' Hs. apply IH, Hk, Hs.
Qed.

Lemma wpc_perform w (o : Op) (Q : Resp o -> W -> Prop) :
  C w -> allowed P w o -> (forall r w', step P w o r w' -> C w' /\ Q r w') -> wpc P C w (perform o) Q.
Proof. intros HC Ho HQ. split; [done|]. split; [done|]. intros r w' Hs. by destruct (HQ r w' Hs). Qed.

(** Sequencing after a specification of the first part. *)
Lemma wpc_seq {A B : Type} w (m : prog A) (f : A -> prog B) (Q : A -> W -> Prop) (R : B -> W -> Prop) :
  wpc P C w m Q -> (forall a w', C w' -> Q a w' -> wpc P C w' (f a) R) -> wpc P C w (m ≫= f) R.
Proof. intros Hm Hf. apply wpc_bind. eapply wpc_mono; [|exact Hm]. auto. Qed.

Lemma wpc_if_err {A : Type} w m h (k : prog A) (Q : option error -> W -> Prop) (R : A -> W -> Prop) :
  wpc P C w m Q ->
  (forall err w', C w' -> Q (Some err) w' -> R (h err) w') ->
  (forall w', C w' -> Q None w' -> wpc P C w' k R) ->
  wpc P C w (if_err m h k) R.
Proof.
  intros Hm He Hk. apply (wpc_seq _ _ _ _ _ Hm). intros [err|] w' HC HQ; [|by apply Hk]. by apply wpc_ret, He.
Qed.

Lemma wpc_let_ok {A B : Type} w (m : prog (result A)) h (k : A -> prog B) (Q : result A -> W -> Prop) (R : B -> W -> Prop) :
  wpc P C w m Q ->
  (forall err w', C w' -> Q (Err err) w' -> R (h err) w') ->
  (forall a w', C w' -> Q (Ok a) w' -> wpc P C w' (k a) R) ->
  wpc P C w (let_ok m h k) R.
Proof.
  intros Hm He Hk. apply (wpc_seq _ _ _ _ _ Hm). intros [a|err] w' HC HQ; [by apply Hk|]. by apply wpc_ret, He.
Qed.

(** The crash condition holds wherever the program stops. *)
Lemma wpc_partial {A : Type} w (m : prog A) tr w' m' Q :
  partial P w m tr w' m' -> wpc P C w m Q -> C w' /\ wpc P C w' m' Q.
Proof.
  induction 1 as [w m|w o r w1 tr w2 k m2 Hs _ IH]; intros H; [split; [by eapply wpc_now|done]|].
  destruct H as [_ [_ Hk]]. by apply IH, Hk.
Qed.

(** ... and the postcondition where it returns. *)
Lemma wpc_returns {A : Type} w (m : prog A) tr w' a Q :
  partial P w m tr w' (Ret a) -> wpc P C w m Q -> Q a w'.
Proof. intros Hp H. by destruct (wpc_partial _ _ _ _ _ _ Hp H) as [_ [_ HQ]]. Qed.
End Rules.

(** Without the crash condition. *)
Lemma wpc_wp {W A : Type} (P : protocol W) (C : W -> Prop) w (m : prog A) Q : wpc P C w m Q -> wp P w m Q.
Proof.
  revert w. induction m as [a|o k IH]; intros w [_ H]; [done|]. destruct H as [Ho Hk]. split; [done|].
  intros r w' Hs. by apply IH, Hk.
Qed.

Lemma wpc_weaken {W A : Type} (P : protocol W) (C C' : W -> Prop) w (m : prog A) Q :
  (forall w, C w -> C' w) -> wpc P C w m Q -> wpc P C' w m Q.
Proof.
  intros HC. revert w. induction m as [a|o k IH]; intros w; simpl; intros [H1 H]; (split; [auto|]); [done|].
  destruct H as [Ho Hk]. split; [done|]. intros r w' Hs. apply IH, Hk, Hs.
Qed.
End Crash.

Notation "'try' m 'else' h ;; k" := (if_err m h k)
  (at level 200, m at level 99, h at level 99, k at level 200, right associativity) : go_scope.
Notation "'let!' x ':=' m 'else' h ;; k" := (let_ok m h (fun x => k))
  (at level 200, x pattern, m at level 99, h at level 99, k at level 200, right associativity) : go_scope.
