(* ===== verification/FileSystem.v ===== *)
(** * The file system the store runs on

    The operations of [os] and [path/filepath] that [internal/state] uses, as
    an effect signature, and their behaviour on a file system that may fail
    and lose unsynchronised work.

    A directory maps names to files; a file has contents of its own, so a
    rename moves a name and not the contents.  What a crash preserves: the
    contents of a file once [Sync] returned, and the entries of a directory
    once the directory was synchronised.  A crash restores the directory as it
    was at some moment since then ([fs_past]), and the contents of a file that
    was not synchronised are arbitrary.

    A path is the directory the program starts from and the names joined to
    it: [filepath.Join] with names that contain no separator. *)

From S2P Require Import Prelude Prog Crash.

Definition path : Type := string * list string.

Definition filepath_Join (p : path) (name : string) : path := (fst p, snd p ++ [name]).
Definition parent (p : path) : path := (fst p, removelast (snd p)).

(** The empty path string names no file. *)
Definition empty_path : path := ("", []).

Lemma parent_join p name : parent (filepath_Join p name) = p.
Proof. destruct p as [b l]. unfold parent, filepath_Join. simpl. by rewrite removelast_last. Qed.

Lemma join_inj p q a b : filepath_Join p a = filepath_Join q b -> p = q /\ a = b.
Proof.
  destruct p as [d l], q as [d' l']. unfold filepath_Join. simpl. intros [= -> Hl].
  apply app_inj_tail in Hl as [-> ->]. done.
Qed.

(** An open file. *)
Record file : Type := mkFile { file_Name : path; file_ino : nat }.

Inductive stat_result : Type :=
| StatNotExist
| StatErr (e : error)
| StatInfo (regular : bool) (perm : Z).

(** [os.Remove], with [os.ErrNotExist] told apart. *)
Inductive remove_result : Type :=
| Removed
| RemoveNotExist
| RemoveErr (e : error).

Inductive FileOp : Type :=
| CtxErr
| Stat (p : path)
| ReadFile (p : path)
| MkdirAll (p : path) (perm : Z)
| ChmodDir (p : path) (perm : Z)
| CreateTemp (dir : path) (prefix : string)
| Chmod (f : file) (perm : Z)
| Write (f : file) (data : string)
| Sync (f : file)
| Close (f : file)
| Rename (p q : path)
| RemoveFile (p : path)
| OpenDir (p : path)
| SyncDir (p : path)
| CloseDir (p : path).

Definition FileResp (o : FileOp) : Type :=
  match o with
  | CtxErr | MkdirAll _ _ | ChmodDir _ _ | Chmod _ _ | Write _ _ | Sync _ | Close _ | Rename _ _
  | OpenDir _ | SyncDir _ | CloseDir _ => option error
  | Stat _ => stat_result
  | ReadFile _ => result string
  | CreateTemp _ _ => result file
  | RemoveFile _ => remove_result
  end.

#[export] Instance FileSig : EffSig := {| Op := FileOp; Resp := FileResp |}.

(** ** State *)

(** [nd_synced]: the contents are on the disk.  [nd_faulty]: the file cannot
    be read, now or later. *)
Record node : Type := mkNode {
  nd_regular : bool;
  nd_perm : Z;
  nd_data : string;
  nd_synced : bool;
  nd_faulty : bool
}.
#[export] Instance node_settable : Settable node := fun n =>
  mkNode (nd_regular n) (nd_perm n) (nd_data n) (nd_synced n) (nd_faulty n).

Record fs : Type := mkFs {
  fs_nodes : gmap nat node;
  fs_now : gmap path nat;
  fs_past : list (gmap path nat)
}.
#[export] Instance fs_settable : Settable fs := fun f => mkFs (fs_nodes f) (fs_now f) (fs_past f).

Definition set_names (m : gmap path nat) (f : fs) : fs :=
  f <| fs_now := m |> <| fs_past ::= cons (fs_now f) |>.
Definition set_node (i : nat) (g : node -> node) (f : fs) : fs := f <| fs_nodes ::= alter g i |>.

(** Synchronising a directory makes its entries durable. *)
Definition settle (d : path) (now m : gmap path nat) : gmap path nat :=
  filter (fun e => parent (fst e) <> d) m ∪ filter (fun e => parent (fst e) = d) now.
Definition sync_names (d : path) (f : fs) : fs := f <| fs_past ::= map (settle d (fs_now f)) |>.

Definition file_at (f : fs) (p : path) : option node := fs_now f !! p ≫= fun i => fs_nodes f !! i.

(** ** Behaviour

    An operation that reports an error may have taken effect.  A faulty file
    cannot be read; asking for a file or reading it may also fail for a reason
    that passes (an input/output error, no file descriptor left). *)
Definition maybe {A : Type} (r : option error) (before after : A) (x : A) : Prop :=
  match r with None => x = after | Some _ => x = before \/ x = after end.

Definition file_step (f : fs) (o : FileOp) : FileResp o -> fs -> Prop :=
  match o with
  | Stat p => fun r f' => f' = f /\
      match r with
      | StatNotExist => fs_now f !! p = None
      | StatErr _ => True
      | StatInfo regular perm => exists n, file_at f p = Some n /\ nd_regular n = regular /\ nd_perm n = perm
      end
  | ReadFile p => fun r f' => f' = f /\
      match r with
      | Ok data => exists n, file_at f p = Some n /\ nd_faulty n = false /\ nd_data n = data
      | Err _ => True
      end
  | CreateTemp dir prefix => fun r f' =>
      match r with
      | Ok file => exists suffix,
          file_Name file = filepath_Join dir (prefix +:+ suffix) /\ fs_now f !! file_Name file = None /\
          fs_nodes f !! file_ino file = None /\
          f' = set_names (<[file_Name file := file_ino file]> (fs_now f))
                 (f <| fs_nodes ::= <[file_ino file := mkNode true 384 "" false false]> |>)
      | Err _ => f' = f
      end
  | Chmod file perm => fun r f' => maybe r f (set_node (file_ino file) (fun n => n <| nd_perm := perm |>) f) f'
  | Write file data => fun r f' =>
      match r with
      | None => f' = set_node (file_ino file) (fun n => n <| nd_data ::= (fun d => d +:+ data) |> <| nd_synced := false |>) f
      | Some _ => exists data', f' = set_node (file_ino file) (fun n => n <| nd_data := data' |> <| nd_synced := false |>) f
      end
  | Sync file => fun r f' => maybe r f (set_node (file_ino file) (fun n => n <| nd_synced := true |>) f) f'
  | Rename p q => fun r f' =>
      match fs_now f !! p with
      | Some i => maybe r f (set_names (<[q := i]> (delete p (fs_now f))) f) f'
      | None => f' = f /\ r <> None
      end
  | RemoveFile p => fun r f' =>
      if decide (p = empty_path) then r = RemoveNotExist /\ f' = f else
      match r with
      | Removed => is_Some (fs_now f !! p) /\ f' = set_names (delete p (fs_now f)) f
      | RemoveNotExist => fs_now f !! p = None /\ f' = f
      | RemoveErr _ => f' = f \/ f' = set_names (delete p (fs_now f)) f
      end
  | SyncDir p => fun r f' => maybe r f (sync_names p f) f'
  | _ => fun _ f' => f' = f
  end.

(** The error of a query that the file itself explains: no error of a healthy
    file. *)
Definition steady (f : fs) (o : FileOp) : FileResp o -> Prop :=
  match o with
  | Stat p => fun r => match r with StatErr _ => forall n, file_at f p = Some n -> nd_faulty n = true | _ => True end
  | ReadFile p => fun r => match r with Err _ => forall n, file_at f p = Some n -> nd_faulty n = true | Ok _ => True end
  | _ => fun _ => True
  end.

(** [transient] says whether a healthy file may fail to be read. *)
Definition file_protocol (transient : bool) : protocol fs :=
  {| allowed _ _ := True; step f o r f' := file_step f o r f' /\ (transient = false -> steady f o r) |}.

(** A crash keeps the contents that were synchronised and restores the names
    of some moment since the last synchronisation. *)
Definition survives (n n' : node) : Prop :=
  if nd_synced n then n' = n else exists data, n' = n <| nd_data := data |> <| nd_synced := true |>.

Definition fs_crash (f f' : fs) : Prop :=
  fs_now f' ∈ fs_now f :: fs_past f /\ fs_past f' = [] /\
  forall i, option_Forall2 survives (fs_nodes f !! i) (fs_nodes f' !! i).

(** ** Lookups *)

Lemma lookup_settle d now m p : settle d now m !! p = if decide (parent p = d) then now !! p else m !! p.
Proof.
  unfold settle. apply option_eq. intros i. rewrite lookup_union_Some_raw.
  rewrite !map_lookup_filter_Some, map_lookup_filter_None. simpl. destruct (decide (parent p = d)); naive_solver.
Qed.
