(* ===== verification/Model.v ===== *)
(** * Data of the funding service

    The types of [internal/funding/model.go], of the exchange and info
    clients, with the methods that only look at them.  A Go string type with
    constants is an inductive type with one constructor per constant and an
    [..Other] constructor for the values a persisted file may hold beside
    them. *)

From S2P Require Import Prelude DecimalSpec.

(** ** Tokens and balances *)

(* go: internal/hyperliquid/info/types.go 5-11 Token *)
Record Token : Type := mkToken {
  tok_Name : string;
  tok_TokenID : string;
  tok_Index : Z;
  tok_WeiDecimals : Z;
  tok_WireToken : string
}.

(* go: internal/hyperliquid/info/types.go 32-35 SpotBalanceAmounts *)
Record SpotBalanceAmounts `{DecimalOps} : Type := mkBalance {
  bal_Total : decimal;
  bal_Available : decimal
}.

(* go: internal/hyperliquid/info/types.go 37-42 UserRateLimit *)
Record UserRateLimit : Type := mkUserRateLimit {
  url_CumVlm : string;
  url_NRequestsUsed : Z;
  url_NRequestsCap : Z;
  url_NRequestsSurplus : Z
}.

(* go: internal/funding/orchestrator.go 500-502 sameSpotBalance *)
Definition sameSpotBalance `{DecimalOps} (left right : SpotBalanceAmounts) : bool :=
  dec_equal (bal_Total left) (bal_Total right) && dec_equal (bal_Available left) (bal_Available right).

(** uint64 subtraction: the guard keeps it from wrapping. *)
(* go: internal/hyperliquid/info/types.go 44-49 RemainingRequests *)
Definition RemainingRequests (limit : UserRateLimit) : Z :=
  if url_NRequestsCap limit <=? url_NRequestsUsed limit then 0
  else wrap64 (url_NRequestsCap limit - url_NRequestsUsed limit).

(** ** Exchange actions *)

(* go: internal/hyperliquid/exchange/types.go 5-13 PreparedAction *)
Record PreparedAction : Type := mkPrepared {
  pa_Kind : string;
  pa_Signer : string;
  pa_Destination : string;
  pa_Token : string;
  pa_Amount : string;
  pa_Nonce : Z;
  pa_RequestBody : string
}.

(* go: internal/hyperliquid/exchange/types.go 15-19 SubmitResult *)
Record SubmitResult : Type := mkSubmitResult {
  sr_Accepted : bool;
  sr_Rejected : bool;
  sr_Response : string
}.

#[export] Instance Token_eq_dec : EqDecision Token.
Proof. solve_decision. Defined.
#[export] Instance PreparedAction_eq_dec : EqDecision PreparedAction.
Proof. solve_decision. Defined.

(** ** Runs *)

(* go: internal/funding/model.go 11-15 Record *)
Record FundingRecord : Type := mkFundingRecord {
  rec_ID : Z;
  rec_PeriodStartAt : Z;
  rec_Amount : string
}.

(* go: internal/funding/model.go 17-35 Phase *)
Inductive Phase : Type :=
| PhasePrepared
| PhasePayoutPrepared
| PhasePayoutSubmitting
| PhasePayoutReplaying
| PhasePayoutConfirmed
| PhaseCompleted
| PhaseBlocked
| PhaseOther (s : string).

(* go: internal/funding/model.go 19-34 Trigger *)
Inductive Trigger : Type :=
| TriggerUTC
| TriggerUTCConsolidation
| TriggerRunOnStart
| TriggerConsolidateOnly
| TriggerOther (s : string).

(* go: internal/funding/model.go 21-36 PayoutKind *)
Inductive PayoutKind : Type :=
| PayoutKindReferral
| PayoutKindOther (s : string).

#[export] Instance FundingRecord_eq_dec : EqDecision FundingRecord.
Proof. solve_decision. Defined.
#[export] Instance Phase_eq_dec : EqDecision Phase.
Proof. solve_decision. Defined.
#[export] Instance Trigger_eq_dec : EqDecision Trigger.
Proof. solve_decision. Defined.
#[export] Instance PayoutKind_eq_dec : EqDecision PayoutKind.
Proof. solve_decision. Defined.

(** [string(phase)] and [string(kind)]. *)
Definition phase_string (p : Phase) : string :=
  match p with
  | PhasePrepared => "prepared"
  | PhasePayoutPrepared => "payout_prepared"
  | PhasePayoutSubmitting => "payout_submitting"
  | PhasePayoutReplaying => "payout_replaying"
  | PhasePayoutConfirmed => "payout_confirmed"
  | PhaseCompleted => "completed"
  | PhaseBlocked => "blocked"
  | PhaseOther s => s
  end.
Definition kind_string (k : PayoutKind) : string :=
  match k with PayoutKindReferral => "referral" | PayoutKindOther s => s end.

(* go: internal/funding/model.go 39-46 Manifest *)
Record Manifest : Type := mkManifest {
  man_Records : list FundingRecord;
  man_RawTotal : string;
  man_PayoutTotal : string;
  man_Token : option Token;
  man_Settlement : string;
  man_Recipient : string
}.

(* go: internal/funding/model.go 48-53 ManifestInput *)
Record ManifestInput : Type := mkManifestInput {
  min_Records : list FundingRecord;
  min_Token : option Token;
  min_Settlement : string;
  min_Recipient : string
}.

(* go: internal/funding/model.go 58-62 PayoutJournal *)
Record PayoutJournal : Type := mkJournal {
  jrn_Prepared : PreparedAction;
  jrn_TotalBefore : string;
  jrn_SubmitAttempts : Z
}.

(* go: internal/funding/model.go 66-73 PayoutTargetState *)
Record PayoutTargetState : Type := mkTarget {
  tgt_Kind : PayoutKind;
  tgt_Phase : Phase;
  tgt_Manifest : Manifest;
  tgt_Payout : option PayoutJournal;
  tgt_BlockedReason : string;
  tgt_ConfirmationEvidence : string
}.

(** Times are nanoseconds since the Unix epoch. *)
(* go: internal/funding/model.go 75-86 RunState *)
Record RunState : Type := mkRunState {
  run_RunID : string;
  run_Trigger : Trigger;
  run_UTCDate : string;
  run_Targets : list PayoutTargetState;
  run_CreatedAt : Z;
  run_UpdatedAt : Z;
  run_Manifest : Manifest
}.

#[export] Instance Manifest_eq_dec : EqDecision Manifest.
Proof. solve_decision. Defined.
#[export] Instance PayoutJournal_eq_dec : EqDecision PayoutJournal.
Proof. solve_decision. Defined.
#[export] Instance PayoutTargetState_eq_dec : EqDecision PayoutTargetState.
Proof. solve_decision. Defined.
#[export] Instance RunState_eq_dec : EqDecision RunState.
Proof. solve_decision. Defined.

#[export] Instance Manifest_settable : Settable Manifest := fun r =>
  mkManifest (man_Records r) (man_RawTotal r) (man_PayoutTotal r) (man_Token r)
    (man_Settlement r) (man_Recipient r).
#[export] Instance PayoutJournal_settable : Settable PayoutJournal := fun r =>
  mkJournal (jrn_Prepared r) (jrn_TotalBefore r) (jrn_SubmitAttempts r).
#[export] Instance PayoutTargetState_settable : Settable PayoutTargetState := fun r =>
  mkTarget (tgt_Kind r) (tgt_Phase r) (tgt_Manifest r) (tgt_Payout r) (tgt_BlockedReason r)
    (tgt_ConfirmationEvidence r).
#[export] Instance RunState_settable : Settable RunState := fun r =>
  mkRunState (run_RunID r) (run_Trigger r) (run_UTCDate r) (run_Targets r) (run_CreatedAt r)
    (run_UpdatedAt r) (run_Manifest r).

Definition empty_manifest : Manifest := mkManifest [] "" "" None "" "".
Definition empty_run : RunState := mkRunState "" (TriggerOther "") "" [] 0 0 empty_manifest.

(** The target whose pointer [activePayoutTarget] returns: the run must hold
    exactly the referral target; it is active until it is completed. *)
(* go: internal/funding/model.go 88-101 activePayoutTarget *)
Definition activePayoutTarget (s : RunState) : result (option PayoutTargetState) :=
  match run_Targets s with
  | [t] =>
      if decide (tgt_Kind t = PayoutKindReferral) then
        if decide (tgt_Phase t = PhaseCompleted) then Ok None else Ok (Some t)
      else Err (Errorf "funding run must contain only the referral payout target" [])
  | _ => Err (Errorf "funding run must contain only the referral payout target" [])
  end.

(** Assignments through the target pointer [&state.Targets[0]]. *)
Definition update_target (f : PayoutTargetState -> PayoutTargetState) (s : RunState) : RunState :=
  s <| run_Targets ::= (fun ts => match ts with t :: r => f t :: r | [] => [] end) |>.

(** ** Facts *)

Lemma RemainingRequests_bounds l :
  0 <= url_NRequestsUsed l < uint64_mod -> 0 <= url_NRequestsCap l < uint64_mod ->
  RemainingRequests l = Z.max 0 (url_NRequestsCap l - url_NRequestsUsed l) /\
  0 <= RemainingRequests l < uint64_mod.
Proof.
  intros Hu Hc. unfold RemainingRequests, wrap64.
  destruct (Z.leb_spec (url_NRequestsCap l) (url_NRequestsUsed l)); [lia|].
  rewrite Z.mod_small by lia. lia.
Qed.

Lemma activePayoutTarget_some s t :
  activePayoutTarget s = Ok (Some t) <->
  run_Targets s = [t] /\ tgt_Kind t = PayoutKindReferral /\ tgt_Phase t <> PhaseCompleted.
Proof.
  unfold activePayoutTarget. destruct (run_Targets s) as [|x [|y r]].
  - split; [done|]. by intros [? _].
  - split.
    + do 2 (case_decide; [|done || idtac]); try done. intros [= ->]. done.
    + intros ([= ->] & Hk & Hp). by rewrite decide_True, decide_False.
  - split; [done|]. by intros [? _].
Qed.

Lemma activePayoutTarget_none s :
  activePayoutTarget s = Ok None <->
  exists t, run_Targets s = [t] /\ tgt_Kind t = PayoutKindReferral /\ tgt_Phase t = PhaseCompleted.
Proof.
  unfold activePayoutTarget. destruct (run_Targets s) as [|x [|y r]].
  - split; [done|]. by intros (? & ? & _).
  - split.
    + repeat case_decide; try done. intros _. by exists x.
    + intros (t & [= ->] & Hk & Hp). by rewrite !decide_True.
  - split; [done|]. by intros (? & ? & _).
Qed.
