(* ===== verification/Amount.v ===== *)
(** * Totals and manifests

    [internal/funding/amount.go] and [internal/funding/manifest.go]: the exact
    sum of the pending records, the payout rounded up to six decimal places,
    and the immutable manifest built from them. *)

From Stdlib Require Import QArith Qround Lqa Sorting.Permutation Sorting.Sorted.
From S2P Require Import Prelude DecimalSpec Model.

Definition ErrNegativeAmount : error := Errorf "negative funding amount" [].

(** The loop of [CalculateTotals]. *)
(* go: internal/funding/amount.go 13-23 CalculateTotals *)
Fixpoint sum_records `{DecimalOps} (total : decimal) (records : list FundingRecord) : result decimal :=
  match records with
  | [] => Ok total
  | record :: rest =>
      match NewFromString (rec_Amount record) with
      | Err parseErr => Err (Wrapf "parse funding record %d amount: %w" [itoa (rec_ID record)] parseErr)
      | Ok amount =>
          if dec_neg amount
          then Err (Wrapf "funding record %d: %w" [itoa (rec_ID record)] ErrNegativeAmount)
          else sum_records (dec_add total amount) rest
      end
  end.

(* go: internal/funding/amount.go 12-27 CalculateTotals *)
Definition CalculateTotals `{DecimalOps} (records : list FundingRecord) : result (string * string) :=
  let? total := sum_records dec_zero records in
  let payout := dec_shift (dec_ceil (dec_shift total 6)) (-6) in
  Ok (dec_fixed total 18, dec_string payout).

(** The order of the manifest: by period, then by id. *)
(* go: internal/funding/manifest.go 20-25 buildManifest *)
Definition record_less (a b : FundingRecord) : bool :=
  if rec_PeriodStartAt a =? rec_PeriodStartAt b then rec_ID a <? rec_ID b
  else rec_PeriodStartAt a <? rec_PeriodStartAt b.

Fixpoint insert_record (x : FundingRecord) (l : list FundingRecord) : list FundingRecord :=
  match l with
  | [] => [x]
  | y :: r => if record_less y x then y :: insert_record x r else x :: l
  end.

(** [sort.Slice] with [record_less]; records that compare equal may end in
    either order in Go, they keep theirs here. *)
(* go: internal/funding/manifest.go 19-25 buildManifest *)
Definition sort_records (l : list FundingRecord) : list FundingRecord :=
  fold_right insert_record [] l.

(** The Go function returns the manifest beside the error; on an error the
    totals are still empty. *)
(* go: internal/funding/manifest.go 18-45 buildManifest *)
Definition buildManifest `{DecimalOps} (input : ManifestInput) (requireToken : bool)
    : Manifest * option error :=
  let records := sort_records (min_Records input) in
  let manifest := mkManifest records "" "" None (min_Settlement input) (min_Recipient input) in
  match CalculateTotals records with
  | Err err => (manifest, Some err)
  | Ok (rawTotal, payoutTotal) =>
      match NewFromString payoutTotal with
      | Err err => (manifest, Some (Wrapf "parse payout total: %w" [] err))
      | Ok payout =>
          if requireToken && dec_pos payout && (match min_Token input with None => true | Some _ => false end)
          then (manifest, Some (Errorf "canonical token is required for a positive payout" []))
          else (mkManifest records rawTotal payoutTotal (min_Token input)
                  (min_Settlement input) (min_Recipient input), None)
      end
  end.

(* go: internal/funding/manifest.go 14-16 BuildManifest *)
Definition BuildManifest `{DecimalOps} (input : ManifestInput) : Manifest * option error :=
  buildManifest input true.

(** ** The reference sum *)

Section Totals.
Context `{Laws : DecimalLaws}.

(** The exact sum of the amounts, when every amount is a non-negative
    decimal. *)
Inductive amounts_sum : list FundingRecord -> Q -> Prop :=
| amounts_nil : amounts_sum [] 0
| amounts_cons r rest d q :
    dec_parse (rec_Amount r) = Some d -> (0 <= dec_value d)%Q ->
    amounts_sum rest q -> amounts_sum (r :: rest) (dec_value d + q)%Q.

Lemma amounts_sum_nonneg l q : amounts_sum l q -> (0 <= q)%Q.
Proof. induction 1; lra. Qed.

Lemma sum_records_spec l total :
  match sum_records total l with
  | Ok t => exists q, amounts_sum l q /\ (dec_value t == dec_value total + q)%Q
  | Err _ => forall q, ~ amounts_sum l q
  end.
Proof.
  revert total. induction l as [|r l IH]; intros total; simpl.
  - exists 0%Q. split; [constructor|ring].
  - unfold NewFromString. destruct (dec_parse (rec_Amount r)) as [d|] eqn:E.
    + destruct (dec_neg d) eqn:N.
      * intros q Hq. inversion Hq as [|? ? d' ? Ep Hd]; subst.
        rewrite E in Ep. injection Ep as <-. apply dec_neg_iff in N. lra.
      * apply dec_neg_false in N. specialize (IH (dec_add total d)).
        destruct (sum_records (dec_add total d) l) as [t|e].
        -- destruct IH as (q & Hq & Ht). exists (dec_value d + q)%Q.
           split; [by constructor|]. rewrite Ht, dec_value_add. ring.
        -- intros q Hq. inversion Hq as [|? ? d' q' ? ? Hrest]; subst. by apply (IH q').
    + intros q Hq. inversion Hq. congruence.
Qed.

(** The outcome of [CalculateTotals] in terms of the exact sum. *)
Lemma CalculateTotals_spec l :
  match CalculateTotals l with
  | Ok (raw, payout) =>
      exists q p, amounts_sum l q /\ dec_parse payout = Some p /\
        (q <= dec_value p)%Q /\ (dec_value p < q + pow10 (-6))%Q /\
        (exists z, dec_value p == inject_Z z * pow10 (-6))%Q /\
        (payout = "0" <-> (q == 0)%Q) /\
        ((exists z, q * pow10 18 == inject_Z z)%Q ->
         exists r, dec_parse raw = Some r /\ (dec_value r == q)%Q)
  | Err _ => forall q, ~ amounts_sum l q
  end.
Proof.
  unfold CalculateTotals. pose proof (sum_records_spec l dec_zero) as H0.
  destruct (sum_records dec_zero l) as [t|e]; simpl; [|done].
  destruct H0 as (q & Hq & Ht). rewrite dec_value_zero, Qplus_0_l in Ht.
  set (pay := dec_shift (dec_ceil (dec_shift t 6)) (-6)).
  destruct (dec_parse_string pay) as (p & Hp & Hpv).
  destruct (dec_round_up_bounds t 6) as [B1 B2]. change (- (6)) with (-6) in *. fold pay in B1, B2.
  assert (Hz : exists z, (dec_value pay == inject_Z z * pow10 (-6))%Q).
  { eexists. unfold pay. rewrite dec_value_shift, dec_value_ceil. reflexivity. }
  exists q, p. split; [done|]. split; [done|]. split; [lra|]. split; [lra|]. split; [destruct Hz as [z Hz]; exists z; by rewrite Hpv|].
  split; [split|].
  - intros E. apply dec_string_zero in E. pose proof (amounts_sum_nonneg _ _ Hq). lra.
  - intros E. apply dec_string_zero. rewrite E in Ht.
    unfold pay. rewrite dec_value_shift, dec_value_ceil.
    assert (Ez : (dec_value (dec_shift t 6) == 0)%Q) by (rewrite dec_value_shift, Ht; ring).
    rewrite (Qceiling_comp _ _ Ez). change (inject_Z (Qceiling 0)) with 0%Q. ring.
  - intros [z Hz18]. destruct (dec_parse_fixed t 18 ltac:(lia)) as (r & Hr & Hv).
    { exists z. by rewrite Ht. }
    exists r. split; [done|]. by rewrite Hv.
Qed.

Lemma amounts_sum_perm l l' q :
  Permutation l l' -> amounts_sum l q -> exists q', amounts_sum l' q' /\ (q' == q)%Q.
Proof.
  intros P. revert q. induction P as [|x l l' P IH|x y l|l1 l2 l3 P1 IH1 P2 IH2]; intros q Hq.
  - eauto using Qeq_refl.
  - inversion Hq as [|? ? d q' E N Hr]; subst. destruct (IH _ Hr) as (q'' & Hq'' & Eq).
    eexists. split; [econstructor; eassumption|]. rewrite Eq. reflexivity.
  - inversion Hq as [|? ? d q' E N Hr]; subst. inversion Hr as [|? ? d2 q2 E2 N2 Hr2]; subst.
    eexists. split; [econstructor; [exact E2|done|econstructor; [exact E|done|exact Hr2]]|]. ring.
  - destruct (IH1 _ Hq) as (q1 & H1 & E1). destruct (IH2 _ H1) as (q2 & H2 & E2).
    exists q2. split; [done|]. by rewrite E2.
Qed.
End Totals.

(** ** Sorting *)

Definition record_le (a b : FundingRecord) : Prop :=
  rec_PeriodStartAt a < rec_PeriodStartAt b \/
  (rec_PeriodStartAt a = rec_PeriodStartAt b /\ rec_ID a <= rec_ID b).

Lemma record_less_le a b : record_less a b = true -> record_le a b.
Proof. unfold record_less, record_le. destruct (Z.eqb_spec (rec_PeriodStartAt a) (rec_PeriodStartAt b)); lia. Qed.

Lemma record_not_less_le a b : record_less a b = false -> record_le b a.
Proof. unfold record_less, record_le. destruct (Z.eqb_spec (rec_PeriodStartAt a) (rec_PeriodStartAt b)); lia. Qed.

Lemma record_le_trans a b c : record_le a b -> record_le b c -> record_le a c.
Proof. unfold record_le. lia. Qed.

Lemma insert_record_perm x l : Permutation (x :: l) (insert_record x l).
Proof.
  induction l as [|y l IH]; simpl; [done|]. destruct (record_less y x); [|done].
  rewrite perm_swap. by constructor.
Qed.

Lemma sort_records_perm l : Permutation l (sort_records l).
Proof.
  induction l as [|x l IH]; simpl; [done|].
  rewrite <- insert_record_perm. by constructor.
Qed.

Lemma insert_record_sorted x l : StronglySorted record_le l -> StronglySorted record_le (insert_record x l).
Proof.
  induction l as [|y l IH]; intros Hs; simpl; [by repeat constructor|].
  inversion Hs as [|? ? Hs' Hy]; subst. destruct (record_less y x) eqn:E.
  - constructor; [by apply IH|]. apply record_less_le in E.
    rewrite Forall_forall in Hy |- *. intros z Hz.
    assert (Hz' : z ∈ x :: l) by (eapply elem_of_Permutation_proper; [apply insert_record_perm|done]).
    apply elem_of_cons in Hz' as [->|Hz']; [done|auto].
  - constructor; [done|]. apply record_not_less_le in E. constructor; [done|].
    eapply Forall_impl; [exact Hy|]. intros z. by apply record_le_trans.
Qed.

Lemma sort_records_sorted l : StronglySorted record_le (sort_records l).
Proof. induction l as [|x l IH]; simpl; [constructor|]. by apply insert_record_sorted. Qed.
