(* ===== verification/Clock.v ===== *)
(** * Time and dates

    What the source uses of the [time] package, for UTC times: a time is the
    number of nanoseconds since the Unix epoch; dates are those of the
    proleptic Gregorian calendar. *)

From S2P Require Import Prelude.

Definition Millisecond : Z := 1000000.
Definition Second : Z := 1000000000.
Definition Minute : Z := 60 * Second.
Definition Hour : Z := 60 * Minute.
Definition Day : Z := 24 * Hour.

(** The zero [time.Time], 1 January of year 1. *)
Definition zero_time : Z := -62135596800 * Second.
Definition IsZero (t : Z) : bool := t =? zero_time.

(** ** The calendar *)

(** Day of the 400-year era (beginning on 1 March) to year of the era, month
    and day. *)
Definition civil_of_era_day (doe : Z) : Z * Z * Z :=
  let yoe := (doe - doe / 1460 + doe / 36524 - doe / 146096) / 365 in
  let doy := doe - (365 * yoe + yoe / 4 - yoe / 100) in
  let mp := (5 * doy + 2) / 153 in
  (yoe, (if mp <? 10 then mp + 3 else mp - 9), doy - (153 * mp + 2) / 5 + 1).

Definition era_day_of_civil (yoe m d : Z) : Z :=
  let doy := (153 * (if 2 <? m then m - 3 else m + 9) + 2) / 5 + d - 1 in
  365 * yoe + yoe / 4 - yoe / 100 + doy.

(** Days since the epoch to year, month and day, and back. *)
Definition civil_of_days (z : Z) : Z * Z * Z :=
  let z' := z + 719468 in
  let '(yoe, m, d) := civil_of_era_day (z' mod 146097) in
  let y := yoe + (z' / 146097) * 400 in
  ((if m <=? 2 then y + 1 else y), m, d).

Definition days_of_civil (y m d : Z) : Z :=
  let y' := if m <=? 2 then y - 1 else y in
  (y' / 400) * 146097 + era_day_of_civil (y' mod 400) m d - 719468.

Definition days_in_month (y m : Z) : Z :=
  if m =? 2 then
    if ((y mod 4 =? 0) && negb (y mod 100 =? 0)) || (y mod 400 =? 0) then 29 else 28
  else if (m =? 4) || (m =? 6) || (m =? 9) || (m =? 11) then 30 else 31.

Definition days_of_time (t : Z) : Z := t / Day.

(** [time.Date(y, m, d, h, 0, 0, 0, time.UTC)] for a valid date. *)
Definition Date (y m d h : Z) : Z := days_of_civil y m d * Day + h * Hour.

(** [t.AddDate(0, 0, n)] in UTC. *)
Definition AddDays (t n : Z) : Z := t + n * Day.

(** ** The [DateOnly] layout *)

Definition digit_char (z : Z) : ascii := ascii_of_nat (Z.to_nat (48 + z)).
Definition two_digits (z : Z) : string :=
  String (digit_char (z / 10 mod 10)) (String (digit_char (z mod 10)) "").

(** [t.Format(time.DateOnly)]; years have four digits from 0 to 9999. *)
Definition format_date (y m d : Z) : string :=
  two_digits (y / 100) +:+ two_digits (y mod 100) +:+ "-" +:+ two_digits m +:+ "-" +:+ two_digits d.
Definition FormatDateOnly (t : Z) : string :=
  let '(y, m, d) := civil_of_days (days_of_time t) in format_date y m d.

Definition digit_value (c : ascii) : option Z :=
  let n := Z.of_nat (nat_of_ascii c) in if (48 <=? n) && (n <=? 57) then Some (n - 48) else None.
Definition two_value (a b : ascii) : option Z :=
  match digit_value a, digit_value b with Some x, Some y => Some (10 * x + y) | _, _ => None end.

(** [time.Parse(time.DateOnly, s)]: the date, when the text is one. *)
Definition ParseDateOnly (s : string) : option (Z * Z * Z) :=
  match s with
  | String y1 (String y2 (String y3 (String y4 (String s1 (String m1 (String m2
      (String s2 (String d1 (String d2 EmptyString))))))))) =>
      match two_value y1 y2, two_value y3 y4, two_value m1 m2, two_value d1 d2 with
      | Some yh, Some yl, Some m, Some d =>
          let y := 100 * yh + yl in
          if Ascii.eqb s1 "-" && Ascii.eqb s2 "-" && (1 <=? m) && (m <=? 12) &&
             (1 <=? d) && (d <=? days_in_month y m)
          then Some (y, m, d) else None
      | _, _, _, _ => None
      end
  | _ => None
  end.

(** ** Correctness of the calendar *)

Fixpoint check_upto (n : nat) (z : Z) (f : Z -> bool) : bool :=
  match n with O => true | S k => f z && check_upto k (z + 1) f end.

Lemma check_upto_correct n z f k : check_upto n z f = true -> z <= k < z + Z.of_nat n -> f k = true.
Proof.
  revert z. induction n as [|n IH]; intros z; simpl; [lia|].
  intros [Hz Hn]%andb_true_iff Hk. destruct (decide (k = z)) as [->|]; [done|].
  apply (IH (z + 1)); [done|lia].
Qed.

Definition era_day_ok (doe : Z) : bool :=
  let '(yoe, m, d) := civil_of_era_day doe in
  (era_day_of_civil yoe m d =? doe) && (0 <=? yoe) && (yoe <? 400) &&
  (1 <=? m) && (m <=? 12) && (1 <=? d) && (d <=? days_in_month (if m <=? 2 then yoe + 1 else yoe) m).

Lemma era_days_ok : check_upto (Z.to_nat 146097) 0 era_day_ok = true.
Proof. vm_compute. reflexivity. Qed.

Lemma era_day_roundtrip doe :
  0 <= doe < 146097 ->
  let '(yoe, m, d) := civil_of_era_day doe in
  era_day_of_civil yoe m d = doe /\ 0 <= yoe < 400 /\ 1 <= m <= 12 /\
  1 <= d <= days_in_month (if m <=? 2 then yoe + 1 else yoe) m.
Proof.
  intros H. pose proof (check_upto_correct _ _ _ doe era_days_ok ltac:(lia)) as E.
  unfold era_day_ok in E. destruct (civil_of_era_day doe) as [[yoe m] d]. lia.
Qed.

(** The calendar repeats every 400 years. *)
Lemma days_in_month_era y m k : days_in_month (y + k * 400) m = days_in_month y m.
Proof.
  unfold days_in_month.
  replace ((y + k * 400) mod 4) with (y mod 4) by (replace (k * 400) with (k * 100 * 4) by lia; by rewrite Z.mod_add).
  replace ((y + k * 400) mod 100) with (y mod 100) by (replace (k * 400) with (k * 4 * 100) by lia; by rewrite Z.mod_add).
  by rewrite Z.mod_add.
Qed.

Lemma days_in_month_bound y m : days_in_month y m <= 31.
Proof. unfold days_in_month. repeat case_match; lia. Qed.

Lemma civil_roundtrip z :
  let '(y, m, d) := civil_of_days z in
  days_of_civil y m d = z /\ 1 <= m <= 12 /\ 1 <= d <= days_in_month y m.
Proof.
  unfold civil_of_days. pose proof (Z.mod_pos_bound (z + 719468) 146097 ltac:(lia)) as Hb.
  pose proof (era_day_roundtrip _ Hb) as H.
  destruct (civil_of_era_day ((z + 719468) mod 146097)) as [[yoe m] d].
  destruct H as (He & Hy & Hm & Hd). split.
  2: { split; [done|]. pose proof (days_in_month_era (if m <=? 2 then yoe + 1 else yoe) m ((z + 719468) / 146097)) as Hera.
       replace (if m <=? 2 then yoe + (z + 719468) / 146097 * 400 + 1 else yoe + (z + 719468) / 146097 * 400)
         with ((if m <=? 2 then yoe + 1 else yoe) + (z + 719468) / 146097 * 400) by (destruct (m <=? 2); lia).
       by rewrite Hera. }
  unfold days_of_civil. set (era := (z + 719468) / 146097).
  assert (E : (if m <=? 2 then (if m <=? 2 then yoe + era * 400 + 1 else yoe + era * 400) - 1
               else if m <=? 2 then yoe + era * 400 + 1 else yoe + era * 400) = yoe + era * 400)
    by (destruct (m <=? 2); lia).
  rewrite E, Z.div_add, Z.mod_add, Z.div_small, Z.mod_small, He by lia.
  pose proof (Z.div_mod (z + 719468) 146097 ltac:(lia)). unfold era. lia.
Qed.

(** Midnight of the day of [t], as the scheduler computes it. *)
Lemma Date_of_time t h :
  let '(y, m, d) := civil_of_days (days_of_time t) in
  Date y m d h = (t / Day) * Day + h * Hour.
Proof.
  pose proof (civil_roundtrip (days_of_time t)) as H.
  destruct (civil_of_days (days_of_time t)) as [[y m] d]. unfold Date.
  destruct H as [-> _]. reflexivity.
Qed.

Lemma digit_value_char c v : digit_value c = Some v -> 0 <= v < 10 /\ digit_char v = c.
Proof.
  unfold digit_value. destruct ((48 <=? Z.of_nat (nat_of_ascii c)) && _) eqn:E; [|done].
  apply andb_true_iff in E as [H1 H2]. intros [= <-]. split; [lia|]. unfold digit_char.
  replace (Z.to_nat (48 + (Z.of_nat (nat_of_ascii c) - 48))) with (nat_of_ascii c) by lia.
  apply ascii_nat_embedding.
Qed.

Lemma two_value_digits a b v : two_value a b = Some v -> 0 <= v < 100 /\ two_digits v = String a (String b "").
Proof.
  unfold two_value. destruct (digit_value a) as [x|] eqn:Ea; [|done].
  destruct (digit_value b) as [y|] eqn:Eb; [|done]. intros [= <-].
  apply digit_value_char in Ea as [Hx <-]. apply digit_value_char in Eb as [Hy <-].
  split; [lia|]. unfold two_digits.
  replace ((10 * x + y) / 10 mod 10) with x; [replace ((10 * x + y) mod 10) with y; [done|]|].
  - rewrite Z.add_comm, Z.mul_comm, Z.mod_add, Z.mod_small; lia.
  - rewrite Z.mul_comm, Z.div_add_l by lia. rewrite (Z.div_small y), Z.add_0_r, Z.mod_small; lia.
Qed.

(** A text that parses as a date is exactly the formatted date, so comparing
    the re-formatted date with the text never rejects a parsed one. *)
Lemma ParseDateOnly_format s y m d :
  ParseDateOnly s = Some (y, m, d) -> format_date y m d = s /\ 1 <= m <= 12 /\ 1 <= d <= days_in_month y m.
Proof.
  unfold ParseDateOnly. repeat (case_match; try done). intros [= <- <- <-].
  repeat match goal with
    | H : two_value _ _ = Some _ |- _ => apply two_value_digits in H as [? ?]
    | H : _ && _ = true |- _ => apply andb_true_iff in H as [? ?]
    | H : Ascii.eqb _ _ = true |- _ => apply Ascii.eqb_eq in H; subst
    end.
  split; [|lia]. unfold format_date.
  match goal with |- context [two_digits ((100 * ?h + ?l) / 100)] =>
    replace ((100 * h + l) / 100) with h; [replace ((100 * h + l) mod 100) with l|] end.
  - repeat match goal with H : two_digits _ = _ |- _ => rewrite H; clear H end. done.
  - rewrite Z.add_comm, Z.mul_comm, Z.mod_add, Z.mod_small; lia.
  - rewrite Z.mul_comm, Z.div_add_l, Z.div_small; lia.
Qed.
