(* ===== verification/Report.v ===== *)
(** * The run report

    [internal/funding/report.go]: the report a funding run fills in while it
    executes.  The Go methods mutate the report through its pointer; here
    each is a function from report to report.  A report is never nil where
    the service calls these methods, so their nil guards have no counterpart. *)

From S2P Require Import Prelude DecimalSpec Model Clock.

(** ** Types *)

(* go: internal/funding/report.go 15-23 ReportStatus *)
Inductive ReportStatus : Type :=
| ReportStatusUnset
| ReportStatusSuccess
| ReportStatusWarning
| ReportStatusNoData
| ReportStatusRetrying
| ReportStatusCritical.

(* go: internal/funding/report.go 25-33 ReportStepStatus *)
Inductive ReportStepStatus : Type :=
| ReportStepPending
| ReportStepSuccess
| ReportStepWarning
| ReportStepSkipped
| ReportStepFailed
| ReportStepOther (s : string).

(* go: internal/funding/daily_consolidation.go 15-20 DailyConsolidationStatus *)
Inductive DailyConsolidationStatus : Type :=
| DailyConsolidationClaimablesCaptured
| DailyConsolidationCompleted
| DailyConsolidationOther (s : string).

#[export] Instance ReportStatus_eq_dec : EqDecision ReportStatus.
Proof. solve_decision. Defined.
#[export] Instance ReportStepStatus_eq_dec : EqDecision ReportStepStatus.
Proof. solve_decision. Defined.
#[export] Instance DailyConsolidationStatus_eq_dec : EqDecision DailyConsolidationStatus.
Proof. solve_decision. Defined.

(* go: internal/funding/report.go 35-39 ReportExecution *)
Record ReportExecution : Type := mkExecution {
  ex_Attempt : Z;
  ex_MaxAttempts : Z;
  ex_Recovery : bool
}.

(* go: internal/funding/report.go 41-46 ReportStage *)
Record ReportStage : Type := mkStage {
  stg_Key : string;
  stg_Label : string;
  stg_Status : ReportStepStatus;
  stg_Summary : string
}.

(* go: internal/funding/report.go 48-67 BuilderReport *)
Record BuilderReport : Type := mkBuilderReport {
  br_Name : string;
  br_Address : string;
  br_ClaimableUSDC : string;
  br_ClaimableObserved : bool;
  br_ClaimableQueryAttempts : Z;
  br_ClaimAttempts : Z;
  br_ClaimUncertain : bool;
  br_ClaimStatus : ReportStepStatus;
  br_ClaimSummary : string;
  br_SweepAmount : string;
  br_SweepStatus : ReportStepStatus;
  br_SweepSummary : string;
  br_FinalTotal : string;
  br_FinalAvailable : string;
  br_RateLimitRemaining : Z;
  br_RateLimitObserved : bool;
  br_RateLimitQueryFailed : bool;
  br_RateLimitVisibilityUnconfirmed : bool
}.

(* go: internal/funding/report.go 69-85 DailyConsolidationReport *)
Record DailyConsolidationReport : Type := mkDailyReport {
  dcr_UTCDate : string;
  dcr_Status : DailyConsolidationStatus;
  dcr_ClaimablesCapturedAt : Z;
  dcr_CompletedAt : Z;
  dcr_TotalClaimableUSDC : string;
  dcr_BuilderCount : Z;
  dcr_RecordedBuilders : Z;
  dcr_ObservedBuilders : Z;
  dcr_UncertainClaims : Z;
  dcr_Observed : bool;
  dcr_Missing : bool;
  dcr_LoadFailed : bool;
  dcr_CoversPayout : bool;
  dcr_BelowPayout : bool;
  dcr_ShortfallUSDC : string
}.

(* go: internal/funding/report.go 87-97 PayoutReport *)
Record PayoutReport : Type := mkPayoutReport {
  pr_Status : ReportStepStatus;
  pr_Amount : string;
  pr_Settlement : string;
  pr_Recipient : string;
  pr_SettlementTotalBefore : string;
  pr_SubmitAttempts : Z;
  pr_Blocked : bool;
  pr_ConfirmationEvidence : string;
  pr_Nonce : Z
}.

(* go: internal/funding/report.go 99-107 PayoutTargetReport *)
Record PayoutTargetReport : Type := mkTargetReport {
  ptr_Kind : PayoutKind;
  ptr_RecordsRead : bool;
  ptr_RecordCount : Z;
  ptr_RawTotal : string;
  ptr_PayoutTotal : string;
  ptr_Payout : PayoutReport;
  ptr_DatabaseStatus : ReportStepStatus
}.

(* go: internal/funding/report.go 109-117 SettlementBalanceReport *)
Record SettlementBalanceReport : Type := mkSettlementReport {
  sb_Address : string;
  sb_Total : string;
  sb_Hold : string;
  sb_Available : string;
  sb_Observed : bool;
  sb_QueryFailed : bool;
  sb_PostPayoutUnconfirmed : bool
}.

(* go: internal/funding/report.go 119-153 RunReport *)
Record RunReport : Type := mkReport {
  rep_Status : ReportStatus;
  rep_Compact : bool;
  rep_Trigger : Trigger;
  rep_Outcome : string;
  rep_Attempt : Z;
  rep_MaxAttempts : Z;
  rep_Recovery : bool;
  rep_Network : string;
  rep_RunID : string;
  rep_UTCDate : string;
  rep_Phase : Phase;
  rep_StartedAt : Z;
  rep_ClaimablesCapturedAt : Z;
  rep_FinishedAt : Z;
  rep_RecordCount : Z;
  rep_RecordsRead : bool;
  rep_RawTotal : string;
  rep_PayoutTotal : string;
  rep_Stages : list ReportStage;
  rep_Builders : list BuilderReport;
  rep_DailyConsolidation : DailyConsolidationReport;
  rep_Payouts : list PayoutTargetReport;
  rep_SettlementBalance : SettlementBalanceReport;
  rep_SettlementRateLimitRemaining : Z;
  rep_SettlementRateLimitObserved : bool;
  rep_SettlementRateLimitQueryFailed : bool;
  rep_SettlementRateLimitVisibilityUnconfirmed : bool;
  rep_Warnings : list string;
  rep_FailureStage : string;
  rep_FailureSummary : string;
  rep_NextAction : string;
  rep_token : option Token;
  rep_submittedAccounts : gset string
}.

#[export] Instance ReportStage_settable : Settable ReportStage := fun r =>
  mkStage (stg_Key r) (stg_Label r) (stg_Status r) (stg_Summary r).
#[export] Instance BuilderReport_settable : Settable BuilderReport := fun r =>
  mkBuilderReport (br_Name r) (br_Address r) (br_ClaimableUSDC r) (br_ClaimableObserved r)
    (br_ClaimableQueryAttempts r) (br_ClaimAttempts r) (br_ClaimUncertain r) (br_ClaimStatus r)
    (br_ClaimSummary r) (br_SweepAmount r) (br_SweepStatus r) (br_SweepSummary r)
    (br_FinalTotal r) (br_FinalAvailable r) (br_RateLimitRemaining r) (br_RateLimitObserved r)
    (br_RateLimitQueryFailed r) (br_RateLimitVisibilityUnconfirmed r).
#[export] Instance DailyConsolidationReport_settable : Settable DailyConsolidationReport := fun r =>
  mkDailyReport (dcr_UTCDate r) (dcr_Status r) (dcr_ClaimablesCapturedAt r) (dcr_CompletedAt r)
    (dcr_TotalClaimableUSDC r) (dcr_BuilderCount r) (dcr_RecordedBuilders r) (dcr_ObservedBuilders r)
    (dcr_UncertainClaims r) (dcr_Observed r) (dcr_Missing r) (dcr_LoadFailed r)
    (dcr_CoversPayout r) (dcr_BelowPayout r) (dcr_ShortfallUSDC r).
#[export] Instance PayoutReport_settable : Settable PayoutReport := fun r =>
  mkPayoutReport (pr_Status r) (pr_Amount r) (pr_Settlement r) (pr_Recipient r)
    (pr_SettlementTotalBefore r) (pr_SubmitAttempts r) (pr_Blocked r)
    (pr_ConfirmationEvidence r) (pr_Nonce r).
#[export] Instance PayoutTargetReport_settable : Settable PayoutTargetReport := fun r =>
  mkTargetReport (ptr_Kind r) (ptr_RecordsRead r) (ptr_RecordCount r) (ptr_RawTotal r)
    (ptr_PayoutTotal r) (ptr_Payout r) (ptr_DatabaseStatus r).
#[export] Instance SettlementBalanceReport_settable : Settable SettlementBalanceReport := fun r =>
  mkSettlementReport (sb_Address r) (sb_Total r) (sb_Hold r) (sb_Available r) (sb_Observed r)
    (sb_QueryFailed r) (sb_PostPayoutUnconfirmed r).
#[export] Instance RunReport_settable : Settable RunReport := fun r =>
  mkReport (rep_Status r) (rep_Compact r) (rep_Trigger r) (rep_Outcome r) (rep_Attempt r)
    (rep_MaxAttempts r) (rep_Recovery r) (rep_Network r) (rep_RunID r) (rep_UTCDate r)
    (rep_Phase r) (rep_StartedAt r) (rep_ClaimablesCapturedAt r) (rep_FinishedAt r)
    (rep_RecordCount r) (rep_RecordsRead r) (rep_RawTotal r) (rep_PayoutTotal r)
    (rep_Stages r) (rep_Builders r) (rep_DailyConsolidation r) (rep_Payouts r)
    (rep_SettlementBalance r) (rep_SettlementRateLimitRemaining r)
    (rep_SettlementRateLimitObserved r) (rep_SettlementRateLimitQueryFailed r)
    (rep_SettlementRateLimitVisibilityUnconfirmed r) (rep_Warnings r) (rep_FailureStage r)
    (rep_FailureSummary r) (rep_NextAction r) (rep_token r) (rep_submittedAccounts r).

(** ** Errors that end the process *)

(** [errors.As(err, **FatalError)]. *)
(* go: internal/funding/payout.go 32-44 IsFatal *)
Fixpoint IsFatal (err : error) : bool :=
  match err with
  | FatalError _ => true
  | Wrapf _ _ i | RetryExhaustedError _ i => IsFatal i
  | Join l r => IsFatal l || IsFatal r
  | _ => false
  end.

(** ** Lookup and update *)

(* go: internal/funding/report.go 294-296 targetStageKey *)
Definition targetStageKey (kind : PayoutKind) (stage : string) : string :=
  kind_string kind +:+ "_" +:+ stage.

(** Updating the first element that satisfies a test, as an assignment through
    the pointer a search loop returns. *)
Fixpoint update_first {A : Type} (test : A -> bool) (f : A -> A) (l : list A) : list A :=
  match l with
  | [] => []
  | x :: r => if test x then f x :: r else x :: update_first test f r
  end.

(* go: internal/funding/report.go 358-368 stage *)
Definition stage (key : string) (r : RunReport) : option ReportStage :=
  List.find (fun s => String.eqb (stg_Key s) key) (rep_Stages r).

(* go: internal/funding/report.go 370-375 setStage *)
Definition setStage (key : string) (status : ReportStepStatus) (summary : string) (r : RunReport) : RunReport :=
  r <| rep_Stages ::= update_first (fun s => String.eqb (stg_Key s) key)
         (fun s => s <| stg_Status := status |> <| stg_Summary := summary |>) |>.

(* go: internal/funding/report.go 315-322 setTargetStage *)
Definition setTargetStage (kind : PayoutKind) (stage : string) (status : ReportStepStatus)
    (summary : string) (r : RunReport) : RunReport :=
  setStage (targetStageKey kind stage) status summary r.

Definition kind_eqb (a b : PayoutKind) : bool := bool_decide (a = b).

Definition empty_payout_report : PayoutReport :=
  mkPayoutReport ReportStepPending "" "" "" "" 0 false "" 0.

(** [r.target(kind)] returns a pointer to the report of the target, which it
    appends when there is none. *)
(* go: internal/funding/report.go 298-313 target *)
Definition ensure_target (kind : PayoutKind) (r : RunReport) : RunReport :=
  if List.existsb (fun p => kind_eqb (ptr_Kind p) kind) (rep_Payouts r) then r
  else r <| rep_Payouts ::= (fun ps => ps ++ [mkTargetReport kind false 0 "" "" empty_payout_report ReportStepPending]) |>.

(* go: internal/funding/report.go 298-313 target *)
Definition update_target_report (kind : PayoutKind) (f : PayoutTargetReport -> PayoutTargetReport)
    (r : RunReport) : RunReport :=
  ensure_target kind r <| rep_Payouts ::= update_first (fun p => kind_eqb (ptr_Kind p) kind) f |>.

Definition update_payout_report (kind : PayoutKind) (f : PayoutReport -> PayoutReport)
    (r : RunReport) : RunReport :=
  update_target_report kind (fun t => t <| ptr_Payout ::= f |>) r.

Definition target_report (kind : PayoutKind) (r : RunReport) : option PayoutTargetReport :=
  List.find (fun p => kind_eqb (ptr_Kind p) kind) (rep_Payouts r).

(* go: internal/funding/report.go 377-387 builder *)
Definition builder (address : string) (r : RunReport) : option BuilderReport :=
  List.find (fun b => EqualFold (br_Address b) address) (rep_Builders r).

(** Assignments through the pointer [r.builder(address)], when it is not
    nil. *)
(* go: internal/funding/report.go 377-387 builder *)
Definition update_builder (address : string) (f : BuilderReport -> BuilderReport) (r : RunReport) : RunReport :=
  r <| rep_Builders ::= update_first (fun b => EqualFold (br_Address b) address) f |>.

(** ** Warnings, submissions, failures *)

(* go: internal/funding/report.go 389-403 addWarning *)
Definition addWarning (message : string) (r : RunReport) : RunReport :=
  let message := TrimSpace message in
  if string_is_empty message then r
  else if List.existsb (fun existing => String.eqb existing message) (rep_Warnings r) then r
  else r <| rep_Warnings ::= (fun ws => ws ++ [message]) |>.

(* go: internal/funding/report.go 340-348 markSubmitted *)
Definition markSubmitted (address : string) (r : RunReport) : RunReport :=
  r <| rep_submittedAccounts ::= (fun s => {[address_key address]} ∪ s) |>.

(* go: internal/funding/report.go 350-356 submitted *)
Definition submitted (address : string) (r : RunReport) : bool :=
  bool_decide (address_key address ∈ rep_submittedAccounts r).

(* go: internal/funding/report.go 405-420 addSweepAmount *)
Definition addSweepAmount `{DecimalOps} (amount : string) (b : BuilderReport) : BuilderReport :=
  if string_is_empty amount then b
  else match dec_parse amount with
       | None => b
       | Some next =>
           let total :=
             if string_is_empty (br_SweepAmount b) then dec_zero
             else match dec_parse (br_SweepAmount b) with Some parsed => parsed | None => dec_zero end in
           b <| br_SweepAmount := dec_string (dec_add total next) |>
       end.

(* go: internal/funding/report.go 422-432 fail *)
Definition fail_report (stage summary nextAction : string) (r : RunReport) : RunReport :=
  let r := r <| rep_FailureStage := stage |> <| rep_FailureSummary := summary |>
             <| rep_NextAction := nextAction |> in
  if string_is_empty stage then r else setStage stage ReportStepFailed summary r.

(* go: internal/funding/report.go 434-453 failTarget *)
Definition failTarget (kind : PayoutKind) (stage summary nextAction : string) (r : RunReport) : RunReport :=
  let r := r <| rep_FailureStage := targetStageKey kind stage |>
             <| rep_FailureSummary := summary |> <| rep_NextAction := nextAction |> in
  let r := ensure_target kind r in
  let r := if String.eqb stage "payout"
           then update_payout_report kind (fun p => p <| pr_Status := ReportStepFailed |>) r else r in
  let r := if String.eqb stage "database"
           then update_target_report kind (fun t => t <| ptr_DatabaseStatus := ReportStepFailed |>) r
           else r in
  setTargetStage kind stage ReportStepFailed summary r.

(* go: internal/funding/report.go 324-338 markTargetNoData *)
Definition markTargetNoData (kind : PayoutKind) (r : RunReport) : RunReport :=
  let r := update_target_report kind (fun t =>
    t <| ptr_RecordsRead := true |> <| ptr_RecordCount := 0 |>
      <| ptr_RawTotal := "0.000000000000000000" |> <| ptr_PayoutTotal := "0" |>
      <| ptr_Payout ::= (fun p => p <| pr_Amount := "0" |> <| pr_Status := ReportStepSkipped |>) |>
      <| ptr_DatabaseStatus := ReportStepSkipped |>) r in
  let r := setTargetStage kind "payout" ReportStepSkipped "没有待处理记录" r in
  setTargetStage kind "database" ReportStepSkipped "没有待完成记录" r.

(** ** Construction *)

(* go: internal/funding/report.go 624-633 cloneBuilderNames *)
Definition cloneBuilderNames (values : list (string * string)) : gmap string string :=
  List.fold_left (fun cloned '(address, name) =>
    let address := address_key address in
    if string_is_empty address then cloned else <[address := TrimSpace name]> cloned) values ∅.

Definition empty_daily_report : DailyConsolidationReport :=
  mkDailyReport "" (DailyConsolidationOther "") zero_time zero_time "" 0 0 0 0 false false false false false "".

Definition new_builder_report (names : gmap string string) (address : string) : BuilderReport :=
  let name := default "" (names !! address_key address) in
  mkBuilderReport (if string_is_empty name then "Builder" else name) address "" false 0 0 false
    ReportStepPending "" "" ReportStepPending "" "" "" 0 false false false.

(* go: internal/funding/report.go 155-204 newRunReport *)
Definition newRunReport (now : Z) (trigger : Trigger) (execution : ReportExecution)
    (network : string) (builders : list string) (builderNames : gmap string string)
    (settlement referralRecipient : string) : RunReport :=
  {| rep_Status := ReportStatusUnset; rep_Compact := false; rep_Trigger := trigger;
     rep_Outcome := ""; rep_Attempt := ex_Attempt execution;
     rep_MaxAttempts := ex_MaxAttempts execution; rep_Recovery := ex_Recovery execution;
     rep_Network := TrimSpace network; rep_RunID := ""; rep_UTCDate := "";
     rep_Phase := PhaseOther ""; rep_StartedAt := now; rep_ClaimablesCapturedAt := zero_time;
     rep_FinishedAt := zero_time; rep_RecordCount := 0; rep_RecordsRead := false;
     rep_RawTotal := ""; rep_PayoutTotal := "";
     rep_Stages :=
       [ mkStage "snapshot" "数据快照" ReportStepPending "";
         mkStage "rewards" "Reward" ReportStepPending "";
         mkStage "sweep" "资金归集" ReportStepPending "";
         mkStage (targetStageKey PayoutKindReferral "payout") "Referral Payout" ReportStepPending "";
         mkStage (targetStageKey PayoutKindReferral "database") "Referral 数据库" ReportStepPending "";
         mkStage "finalize" "状态归档" ReportStepPending "" ];
     rep_Builders := map (new_builder_report builderNames) builders;
     rep_DailyConsolidation := empty_daily_report;
     rep_Payouts :=
       [ mkTargetReport PayoutKindReferral false 0 "" ""
           (mkPayoutReport ReportStepPending "" settlement referralRecipient "" 0 false "" 0)
           ReportStepPending ];
     rep_SettlementBalance := mkSettlementReport settlement "" "" "" false false false;
     rep_SettlementRateLimitRemaining := 0; rep_SettlementRateLimitObserved := false;
     rep_SettlementRateLimitQueryFailed := false;
     rep_SettlementRateLimitVisibilityUnconfirmed := false;
     rep_Warnings := []; rep_FailureStage := ""; rep_FailureSummary := ""; rep_NextAction := "";
     rep_token := None; rep_submittedAccounts := ∅ |}.

(** ** Following the run state *)

(* go: internal/funding/payout.go 26-26 uncertainPayoutBlockedReasonPrefix *)
Definition uncertainPayoutBlockedReasonPrefix : string := "final payout result remained uncertain".
(* go: internal/funding/payout.go 27-27 explicitlyRejectedPayoutBlockedReason *)
Definition explicitlyRejectedPayoutBlockedReason : string := "final payout was explicitly rejected".

(* go: internal/funding/payout.go 430-433 isUncertainPayoutBlock *)
Definition isUncertainPayoutBlock (target : PayoutTargetState) : bool :=
  match tgt_Payout target with
  | None => false
  | Some _ => HasPrefix (tgt_BlockedReason target) uncertainPayoutBlockedReasonPrefix
  end.

Definition record_count (target : PayoutTargetState) : Z :=
  Z.of_nat (length (man_Records (tgt_Manifest target))).

(* go: internal/funding/report.go 260-292 syncTargetStatuses *)
Definition syncTargetStatuses (t : PayoutTargetState) (r : RunReport) : RunReport :=
  let kind := tgt_Kind t in
  let payout_status s := update_payout_report kind (fun p => p <| pr_Status := s |>) in
  let database_status s := update_target_report kind (fun p => p <| ptr_DatabaseStatus := s |>) in
  match tgt_Phase t with
  | PhasePayoutConfirmed =>
      setTargetStage kind "payout" ReportStepSuccess "Payout 已确认" (payout_status ReportStepSuccess r)
  | PhaseCompleted =>
      match man_Records (tgt_Manifest t) with
      | [] =>
          let r := payout_status ReportStepSkipped r in
          let r := database_status ReportStepSkipped r in
          let r := setTargetStage kind "payout" ReportStepSkipped "没有待处理记录" r in
          setTargetStage kind "database" ReportStepSkipped "没有待完成记录" r
      | _ :: _ =>
          let r :=
            if String.eqb (man_PayoutTotal (tgt_Manifest t)) "0"
            then setTargetStage kind "payout" ReportStepSkipped "无需付款" (payout_status ReportStepSkipped r)
            else setTargetStage kind "payout" ReportStepSuccess "Payout 已确认" (payout_status ReportStepSuccess r) in
          let r := database_status ReportStepSuccess r in
          setTargetStage kind "database" ReportStepSuccess (itoa (record_count t) +:+ " 条记录已完成") r
      end
  | _ => r
  end.

(** One iteration of the loop of [syncState] over the targets, with the
    running totals. *)
(* go: internal/funding/report.go 222-255 syncState *)
Definition syncTarget `{DecimalOps} (acc : RunReport * decimal * decimal) (t : PayoutTargetState)
    : RunReport * decimal * decimal :=
  let '(r, rawTotal, payoutTotal) := acc in
  let m := tgt_Manifest t in
  let kind := tgt_Kind t in
  let r := update_target_report kind (fun p =>
    p <| ptr_RecordsRead := true |> <| ptr_RecordCount := record_count t |>
      <| ptr_RawTotal := man_RawTotal m |> <| ptr_PayoutTotal := man_PayoutTotal m |>
      <| ptr_Payout ::= (fun y => y <| pr_Amount := man_PayoutTotal m |>
           <| pr_Settlement := man_Settlement m |> <| pr_Recipient := man_Recipient m |>) |>) r in
  let r := r <| rep_RecordCount ::= (fun n => n + record_count t) |> in
  let rawTotal := match dec_parse (man_RawTotal m) with Some d => dec_add rawTotal d | None => rawTotal end in
  let payoutTotal := match dec_parse (man_PayoutTotal m) with Some d => dec_add payoutTotal d | None => payoutTotal end in
  let r := if string_is_empty (sb_Address (rep_SettlementBalance r))
           then r <| rep_SettlementBalance ::= (fun b => b <| sb_Address := man_Settlement m |>) |> else r in
  let r := match rep_token r with
           | None => r <| rep_token := man_Token m |>
           | Some _ => r
           end in
  let r := match tgt_Payout t with
           | Some j => update_payout_report kind (fun y =>
               y <| pr_SettlementTotalBefore := jrn_TotalBefore j |>
                 <| pr_SubmitAttempts := jrn_SubmitAttempts j |>
                 <| pr_Nonce := pa_Nonce (jrn_Prepared j) |>) r
           | None => r
           end in
  let r := update_payout_report kind (fun y => y <| pr_Blocked := isUncertainPayoutBlock t |>) r in
  let r := if string_is_empty (tgt_ConfirmationEvidence t) then r
           else update_payout_report kind (fun y => y <| pr_ConfirmationEvidence := tgt_ConfirmationEvidence t |>) r in
  (syncTargetStatuses t r, rawTotal, payoutTotal).

(* go: internal/funding/report.go 206-258 syncState *)
Definition syncState `{DecimalOps} (state : RunState) (r : RunReport) : RunReport :=
  let r := r <| rep_RunID := run_RunID state |> <| rep_UTCDate := run_UTCDate state |> in
  let r := match activePayoutTarget state with
           | Ok (Some active) => r <| rep_Phase := tgt_Phase active |>
           | Ok None => r <| rep_Phase := PhaseCompleted |>
           | Err _ => r
           end in
  let r := r <| rep_RecordCount := 0 |>
             <| rep_RecordsRead := match run_Targets state with [] => false | _ => true end |> in
  let '(r, rawTotal, payoutTotal) := List.fold_left syncTarget (run_Targets state) (r, dec_zero, dec_zero) in
  r <| rep_RawTotal := dec_fixed rawTotal 18 |> <| rep_PayoutTotal := dec_string payoutTotal |>.

(** ** Builder steps *)

Definition builder_status (claim : bool) (b : BuilderReport) : ReportStepStatus :=
  if claim then br_ClaimStatus b else br_SweepStatus b.

(** The counters of successes, warnings and skips. *)
(* go: internal/funding/report.go 544-558 aggregateBuilderStep *)
Definition count_steps (builders : list BuilderReport) (claim : bool) : Z * Z * Z :=
  List.fold_left (fun '(success, warning, skipped) b =>
    match builder_status claim b with
    | ReportStepFailed | ReportStepWarning => (success, warning + 1, skipped)
    | ReportStepSuccess => (success + 1, warning, skipped)
    | ReportStepSkipped => (success, warning, skipped + 1)
    | _ => (success, warning, skipped)
    end) builders (0, 0, 0).

(* go: internal/funding/report.go 543-569 aggregateBuilderStep *)
Definition aggregateBuilderStep (builders : list BuilderReport) (claim : bool) : ReportStepStatus :=
  let '(success, warning, skipped) := count_steps builders claim in
  if 0 <? warning then ReportStepWarning
  else if 0 <? success then ReportStepSuccess
  else if skipped =? Z.of_nat (length builders) then ReportStepSkipped
  else ReportStepPending.

(* go: internal/funding/report.go 571-588 builderStepSummary *)
Definition builderStepSummary (builders : list BuilderReport) (claim : bool) : string :=
  let '(success, warning, skipped) := count_steps builders claim in
  "成功 " +:+ itoa success +:+ "，跳过 " +:+ itoa skipped +:+ "，告警 " +:+ itoa warning.

(* go: internal/funding/report.go 590-610 builderActionSummary *)
Definition builderActionSummary (action outcome : string) : string :=
  let actionName :=
    if String.eqb action "claimable" then "零点 Claimable"
    else if String.eqb action "claimRewards" then "Reward 领取"
    else if String.eqb action "spotBalance" then "余额"
    else if String.eqb action "spotSend" then "资金归集"
    else action in
  let outcomeName :=
    if String.eqb outcome "query" then "查询失败"
    else if String.eqb outcome "prepare" then "请求准备失败"
    else if String.eqb outcome "rejected" then "被明确拒绝"
    else if String.eqb outcome "unknown" then "结果不确定"
    else "未完成" in
  actionName +:+ outcomeName.

(* go: internal/funding/report.go 612-622 markBuilderStepsSkipped *)
Definition markBuilderStepsSkipped (summary : string) (r : RunReport) : RunReport :=
  r <| rep_Builders ::= map (fun b =>
    b <| br_ClaimStatus := ReportStepSkipped |> <| br_ClaimSummary := summary |>
      <| br_SweepStatus := ReportStepSkipped |> <| br_SweepSummary := summary |>) |>.

(** ** Closing the report *)

(* go: internal/funding/report.go 512-541 reconcileDailyConsolidation *)
Definition reconcileDailyConsolidation `{DecimalOps} (r : RunReport) : RunReport :=
  let r := r <| rep_DailyConsolidation ::= (fun c =>
    c <| dcr_CoversPayout := false |> <| dcr_BelowPayout := false |> <| dcr_ShortfallUSDC := "" |>) |> in
  let c := rep_DailyConsolidation r in
  if negb (dcr_Observed c) || (dcr_BuilderCount c <=? 0) ||
     negb (dcr_RecordedBuilders c =? dcr_BuilderCount c) ||
     negb (dcr_ObservedBuilders c =? dcr_BuilderCount c) then r
  else
    match dec_parse (dcr_TotalClaimableUSDC c), dec_parse (rep_PayoutTotal r) with
    | Some claimable, Some payout =>
        if negb (dec_less claimable payout)
        then r <| rep_DailyConsolidation ::= (fun c => c <| dcr_CoversPayout := true |>) |>
        else
          let shortfall := dec_sub payout claimable in
          let r := r <| rep_DailyConsolidation ::= (fun c =>
            c <| dcr_BelowPayout := true |> <| dcr_ShortfallUSDC := dec_string shortfall |>) |> in
          addWarning ("UTC 00:00 Claimable 合计 " +:+ dec_string claimable +:+
            " USDC，低于 Referral Payout " +:+ dec_string payout +:+ " USDC，短缺 " +:+
            dec_string shortfall +:+ " USDC，请人工核查结算口径") r
    | _, _ => r
    end.

(** The boolean says whether the report is to be delivered. *)
(* go: internal/funding/report.go 455-510 finalize *)
Definition finalize `{DecimalOps} (now : Z) (runErr : option error) (r : RunReport) : RunReport * bool :=
  let r := r <| rep_FinishedAt := now |> in
  match runErr with
  | None =>
      let r := reconcileDailyConsolidation r in
      let status :=
        match rep_Warnings r with
        | _ :: _ => ReportStatusWarning
        | [] => if String.eqb (rep_Outcome r) "no_data" then ReportStatusNoData else ReportStatusSuccess
        end in
      (r <| rep_Status := status |>, true)
  | Some err =>
      if is_canceled err then (r, false)
      else
        let r := reconcileDailyConsolidation r in
        let retryAvailable :=
          negb (IsFatal err) && (0 <? rep_Attempt r) && (0 <? rep_MaxAttempts r) &&
          (rep_Attempt r <? rep_MaxAttempts r) in
        if retryAvailable then
          let r := r <| rep_Status := ReportStatusRetrying |> <| rep_Compact := true |> in
          let r := if string_is_empty (rep_FailureSummary r)
                   then r <| rep_FailureSummary := "资金任务未能完成。" |> else r in
          let r := if string_is_empty (rep_NextAction r)
                   then r <| rep_NextAction := "服务将在约 1 分钟后自动重试，无需立即人工操作。" |> else r in
          (r, true)
        else
          let r := r <| rep_Status := ReportStatusCritical |> in
          let r := if negb (IsFatal err) && (0 <? rep_Attempt r) && (rep_Attempt r =? rep_MaxAttempts r)
                   then r <| rep_Outcome := "retry_exhausted" |> else r in
          let r := if string_is_empty (rep_FailureSummary r)
                   then r <| rep_FailureSummary := "资金任务未能完成。" |> else r in
          let r :=
            if string_is_empty (rep_NextAction r) then
              if String.eqb (rep_FailureStage r) "sweep"
              then r <| rep_NextAction := "自动重试已耗尽，请检查 Builder 余额、Reward 可见性和 Settlement hold。" |>
              else r <| rep_NextAction := "请检查服务日志和当前持久化状态后再决定是否重启。" |>
            else r in
          (r, true)
  end.
