(* ===== verification/Json.v ===== *)
(** * JSON

    What the source uses of [encoding/json]: compact encoding of values with
    Go's string escaping, a validating decoder, and the decoding of numbers
    into uint64.  Bytes from 0x80 upwards are copied unchanged in both
    directions, that is, text is taken to be valid UTF-8 without the line
    separators U+2028 and U+2029. *)

From S2P Require Import Prelude.

Inductive json : Type :=
| JNull
| JBool (b : bool)
| JNum (literal : string)
| JStr (s : string)
| JArr (l : list json)
| JObj (fields : list (string * json)).

(** ** Encoding *)

Definition quote_char : ascii := ascii_of_nat 34.
Definition backslash : ascii := ascii_of_nat 92.

Definition escape_char (c : ascii) : string :=
  let n := Z.of_nat (nat_of_ascii c) in
  if n =? 34 then String backslash (String quote_char "")
  else if n =? 92 then String backslash (String backslash "")
  else if n =? 8 then String backslash "b"
  else if n =? 12 then String backslash "f"
  else if n =? 10 then String backslash "n"
  else if n =? 13 then String backslash "r"
  else if n =? 9 then String backslash "t"
  else if (n <? 32) || (n =? 60) || (n =? 62) || (n =? 38) then
    String backslash ("u00" +:+ hex_encode [n])
  else String c "".

Fixpoint escape (s : string) : string :=
  match s with EmptyString => "" | String c r => escape_char c +:+ escape r end.

Definition encode_string (s : string) : string :=
  String quote_char (escape s +:+ String quote_char "").

Fixpoint join_with (sep : string) (l : list string) : string :=
  match l with [] => "" | [x] => x | x :: r => x +:+ sep +:+ join_with sep r end.

Fixpoint encode (v : json) : string :=
  match v with
  | JNull => "null"
  | JBool b => if b then "true" else "false"
  | JNum lit => lit
  | JStr s => encode_string s
  | JArr l => "[" +:+ join_with "," (map encode l) +:+ "]"
  | JObj fs => "{" +:+ join_with "," (map (fun '(k, x) => encode_string k +:+ ":" +:+ encode x) fs) +:+ "}"
  end.

(** ** Decoding *)

Definition is_json_space (c : ascii) : bool :=
  let n := nat_of_ascii c in
  ((n =? 32) || (n =? 9) || (n =? 13) || (n =? 10))%nat.

Fixpoint skip_space (s : string) : string :=
  match s with
  | String c r => if is_json_space c then skip_space r else s
  | EmptyString => s
  end.

Definition hex_value (c : ascii) : option Z :=
  let n := Z.of_nat (nat_of_ascii c) in
  if (48 <=? n) && (n <=? 57) then Some (n - 48)
  else if (97 <=? n) && (n <=? 102) then Some (n - 87)
  else if (65 <=? n) && (n <=? 70) then Some (n - 55)
  else None.

Definition hex4 (a b c d : ascii) : option Z :=
  match hex_value a, hex_value b, hex_value c, hex_value d with
  | Some x, Some y, Some z, Some w => Some (((x * 16 + y) * 16 + z) * 16 + w)
  | _, _, _, _ => None
  end.

(** UTF-8 encoding of a code point. *)
Definition utf8_of (n : Z) : string :=
  if n <? 128 then bytes_of [n]
  else if n <? 2048 then bytes_of [192 + n / 64; 128 + n mod 64]
  else if n <? 65536 then bytes_of [224 + n / 4096; 128 + n / 64 mod 64; 128 + n mod 64]
  else bytes_of [240 + n / 262144; 128 + n / 4096 mod 64; 128 + n / 64 mod 64; 128 + n mod 64].

Definition surrogate (n : Z) : bool := (55296 <=? n) && (n <? 57344).

(** The value of the escape [\uXXXX] with the text that follows: a surrogate
    pair is one code point, a lone surrogate is U+FFFD. *)
Definition unicode_escape (n : Z) (s : string) : string * string :=
  if surrogate n then
    match s with
    | String b (String u (String h1 (String h2 (String h3 (String h4 r))))) =>
        match hex4 h1 h2 h3 h4 with
        | Some m =>
            if Ascii.eqb b backslash && Ascii.eqb u "u" && (n <? 56320) && (56320 <=? m) && (m <? 57344)
            then (utf8_of ((n - 55296) * 1024 + (m - 56320) + 65536), r)
            else (utf8_of 65533, s)
        | None => (utf8_of 65533, s)
        end
    | _ => (utf8_of 65533, s)
    end
  else (utf8_of n, s).

Definition simple_escape (c : ascii) : option ascii :=
  if Ascii.eqb c quote_char then Some quote_char
  else if Ascii.eqb c backslash then Some backslash
  else if Ascii.eqb c "/" then Some "/"%char
  else if Ascii.eqb c "b" then Some (ascii_of_nat 8)
  else if Ascii.eqb c "f" then Some (ascii_of_nat 12)
  else if Ascii.eqb c "n" then Some (ascii_of_nat 10)
  else if Ascii.eqb c "r" then Some (ascii_of_nat 13)
  else if Ascii.eqb c "t" then Some (ascii_of_nat 9)
  else None.

(** The rest of a string literal after its opening quote. *)
Fixpoint parse_string (fuel : nat) (s : string) : option (string * string) :=
  match fuel with
  | O => None
  | S f =>
      match s with
      | EmptyString => None
      | String c r =>
          if Ascii.eqb c quote_char then Some ("", r)
          else if Ascii.eqb c backslash then
            match r with
            | EmptyString => None
            | String e r' =>
                if Ascii.eqb e "u" then
                  match r' with
                  | String a (String b (String x (String y r''))) =>
                      match hex4 a b x y with
                      | Some n =>
                          let '(t, rest) := unicode_escape n r'' in
                          match parse_string f rest with
                          | Some (u, rest') => Some (t +:+ u, rest')
                          | None => None
                          end
                      | None => None
                      end
                  | _ => None
                  end
                else match simple_escape e, parse_string f r' with
                     | Some c', Some (u, rest) => Some (String c' u, rest)
                     | _, _ => None
                     end
            end
          else if (nat_of_ascii c <? 32)%nat then None
          else match parse_string f r with
               | Some (u, rest) => Some (String c u, rest)
               | None => None
               end
      end
  end.

Definition is_digit (c : ascii) : bool :=
  let n := nat_of_ascii c in ((48 <=? n) && (n <=? 57))%nat.

Fixpoint span_digits (s : string) : string * string :=
  match s with
  | String c r => if is_digit c then let '(d, r') := span_digits r in (String c d, r') else ("", s)
  | EmptyString => ("", s)
  end.

(** The longest number literal at the head of the text. *)
Definition parse_int_part (s : string) : option (string * string) :=
  match s with
  | String c r =>
      if Ascii.eqb c "0" then Some ("0", r)
      else if is_digit c then Some (span_digits s) else None
  | EmptyString => None
  end.
Definition parse_frac (s : string) : option (string * string) :=
  match s with
  | String c r =>
      if Ascii.eqb c "." then
        let '(d, r') := span_digits r in
        if string_is_empty d then None else Some (String c d, r')
      else Some ("", s)
  | EmptyString => Some ("", s)
  end.
Definition parse_exp (s : string) : option (string * string) :=
  match s with
  | String c r =>
      if Ascii.eqb c "e" || Ascii.eqb c "E" then
        let '(sign, r1) := match r with
                           | String x r1 => if Ascii.eqb x "+" || Ascii.eqb x "-" then (String x "", r1) else ("", r)
                           | EmptyString => ("", r)
                           end in
        let '(d, r2) := span_digits r1 in
        if string_is_empty d then None else Some (String c (sign +:+ d), r2)
      else Some ("", s)
  | EmptyString => Some ("", s)
  end.
Definition parse_number (s : string) : option (string * string) :=
  let '(sign, s0) := match s with
                     | String c r => if Ascii.eqb c "-" then ("-", r) else ("", s)
                     | EmptyString => ("", s)
                     end in
  match parse_int_part s0 with
  | None => None
  | Some (i, s1) =>
      match parse_frac s1 with
      | None => None
      | Some (f, s2) =>
          match parse_exp s2 with
          | None => None
          | Some (e, s3) => Some (sign +:+ i +:+ f +:+ e, s3)
          end
      end
  end.

(** One value, after leading white space; [parse_elems] and [parse_fields]
    are the rest of an array or object whose first element is expected. *)
Fixpoint parse_value (fuel : nat) (s : string) : option (json * string) :=
  match fuel with
  | O => None
  | S f =>
      match skip_space s with
      | EmptyString => None
      | String c r =>
          if Ascii.eqb c quote_char then
            match parse_string (S (String.length r)) r with
            | Some (t, rest) => Some (JStr t, rest)
            | None => None
            end
          else if Ascii.eqb c "[" then
            match skip_space r with
            | String c' r' =>
                if Ascii.eqb c' "]" then Some (JArr [], r')
                else match parse_elems f r with Some (l, rest) => Some (JArr l, rest) | None => None end
            | EmptyString => None
            end
          else if Ascii.eqb c "{" then
            match skip_space r with
            | String c' r' =>
                if Ascii.eqb c' "}" then Some (JObj [], r')
                else match parse_fields f r with Some (l, rest) => Some (JObj l, rest) | None => None end
            | EmptyString => None
            end
          else match strip "null" (String c r) with
               | Some rest => Some (JNull, rest)
               | None =>
                   match strip "true" (String c r) with
                   | Some rest => Some (JBool true, rest)
                   | None =>
                       match strip "false" (String c r) with
                       | Some rest => Some (JBool false, rest)
                       | None =>
                           match parse_number (String c r) with
                           | Some (lit, rest) => Some (JNum lit, rest)
                           | None => None
                           end
                       end
                   end
               end
      end
  end
with parse_elems (fuel : nat) (s : string) : option (list json * string) :=
  match fuel with
  | O => None
  | S f =>
      match parse_value f s with
      | None => None
      | Some (v, s1) =>
          match skip_space s1 with
          | String c r =>
              if Ascii.eqb c "," then
                match parse_elems f r with Some (l, rest) => Some (v :: l, rest) | None => None end
              else if Ascii.eqb c "]" then Some ([v], r) else None
          | EmptyString => None
          end
      end
  end
with parse_fields (fuel : nat) (s : string) : option (list (string * json) * string) :=
  match fuel with
  | O => None
  | S f =>
      match skip_space s with
      | EmptyString => None
      | String q r =>
          if Ascii.eqb q quote_char then
            match parse_string (S (String.length r)) r with
            | None => None
            | Some (k, s1) =>
                match skip_space s1 with
                | String colon r1 =>
                    if Ascii.eqb colon ":" then
                      match parse_value f r1 with
                      | None => None
                      | Some (v, s2) =>
                          match skip_space s2 with
                          | String c r2 =>
                              if Ascii.eqb c "," then
                                match parse_fields f r2 with
                                | Some (l, rest) => Some ((k, v) :: l, rest)
                                | None => None
                                end
                              else if Ascii.eqb c "}" then Some ([(k, v)], r2) else None
                          | EmptyString => None
                          end
                      end
                    else None
                | EmptyString => None
                end
            end
          else None
      end
  end.

(** A whole document. *)
Definition parse_json (s : string) : option json :=
  match parse_value (2 * String.length s + 2) s with
  | Some (v, rest) => match skip_space rest with EmptyString => Some v | _ => None end
  | None => None
  end.

(** [strconv.ParseUint(lit, 10, 64)] on a number literal. *)
Fixpoint digits_value (acc : Z) (s : string) : option Z :=
  match s with
  | EmptyString => Some acc
  | String c r => if is_digit c then digits_value (acc * 10 + Z.of_nat (nat_of_ascii c - 48)) r else None
  end.
Definition uint64_of_literal (lit : string) : option Z :=
  if string_is_empty lit then None
  else match digits_value 0 lit with
       | Some n => if n <? uint64_mod then Some n else None
       | None => None
       end.
