(* ===== verification/JsonFacts.v ===== *)
(** * The round trip of JSON

    Decoding the encoding of a value gives the value back, for every value
    whose number literals are canonical integers.  The persisted snapshots
    rely on it: what [Save] wrote, the next process reads. *)

From Stdlib Require Import Decimal DecimalString DecimalPos DecimalZ DecimalFacts.
From S2P Require Import Prelude Json.

(** ** Strings *)

Lemma parse_string_escape_char fuel c rest :
  parse_string (S fuel) (escape_char c +:+ rest) =
  match parse_string fuel rest with Some (u, rest') => Some (String c u, rest') | None => None end.
Proof. destruct c as [[] [] [] [] [] [] [] []]; reflexivity. Qed.

Lemma parse_string_escape s fuel rest :
  (String.length s < fuel)%nat ->
  parse_string fuel (escape s +:+ String quote_char rest) = Some (s, rest).
Proof.
  revert fuel. induction s as [|c s IH]; intros fuel Hf; (destruct fuel as [|fuel]; [simpl in Hf; lia|]); [done|].
  cbn [escape]. rewrite string_app_assoc, parse_string_escape_char, IH by (simpl in Hf; lia). done.
Qed.

Lemma length_escape_char c : (1 <= String.length (escape_char c))%nat.
Proof. destruct c as [[] [] [] [] [] [] [] []]; vm_compute; lia. Qed.

Lemma length_escape s : (String.length s <= String.length (escape s))%nat.
Proof.
  induction s as [|c s IH]; simpl; [done|]. rewrite string_length_app. pose proof (length_escape_char c). lia.
Qed.

Lemma encode_string_app s rest :
  encode_string s +:+ rest = String quote_char (escape s +:+ String quote_char rest).
Proof. unfold encode_string. simpl. by rewrite string_app_assoc. Qed.

(** The string literal as the value parser sees it after the quote. *)
Lemma parse_string_literal s rest :
  parse_string (S (String.length (escape s +:+ String quote_char rest))) (escape s +:+ String quote_char rest) =
  Some (s, rest).
Proof.
  apply parse_string_escape. rewrite string_length_app. simpl. pose proof (length_escape s). lia.
Qed.

(** ** Numbers *)

(** A text after a number literal that does not continue it. *)
Definition num_end (rest : string) : Prop :=
  match rest with
  | EmptyString => True
  | String c _ => is_digit c = false /\ Ascii.eqb c "." = false /\ Ascii.eqb c "e" = false /\ Ascii.eqb c "E" = false
  end.

Fixpoint all_digits (s : string) : bool :=
  match s with EmptyString => true | String c r => is_digit c && all_digits r end.

(** The literals of the integers: no superfluous zero. *)
Definition canonical_unsigned (lit : string) : bool :=
  match lit with
  | EmptyString => false
  | String c r => is_digit c && all_digits r && (negb (Ascii.eqb c "0") || string_is_empty r)
  end.

Definition canonical (lit : string) : bool :=
  match lit with
  | EmptyString => false
  | String c r => if Ascii.eqb c "-" then canonical_unsigned r else canonical_unsigned lit
  end.

Lemma span_digits_all d rest : all_digits d = true -> num_end rest -> span_digits (d +:+ rest) = (d, rest).
Proof.
  intros Hd Hr. induction d as [|c d IH]; simpl.
  - destruct rest as [|c rest]; [done|]. destruct Hr as [Hc _]. simpl. by rewrite Hc.
  - apply andb_true_iff in Hd as [Hc Hd]. by rewrite Hc, IH.
Qed.

Lemma parse_int_part_canonical lit rest :
  canonical_unsigned lit = true -> num_end rest -> parse_int_part (lit +:+ rest) = Some (lit, rest).
Proof.
  intros Hc Hr. destruct lit as [|c lit]; [done|]. simpl in Hc.
  apply andb_true_iff in Hc as [[Hc Hl]%andb_true_iff Hz]. simpl. destruct (Ascii.eqb c "0") eqn:E0.
  - apply Ascii.eqb_eq in E0 as ->. destruct lit; [done|discriminate Hz].
  - by rewrite Hc, span_digits_all.
Qed.

Lemma parse_number_canonical lit rest :
  canonical lit = true -> num_end rest -> parse_number (lit +:+ rest) = Some (lit, rest).
Proof.
  intros Hc Hr.
  assert (Hend : parse_frac rest = Some ("", rest) /\ parse_exp rest = Some ("", rest)).
  { unfold parse_frac, parse_exp. destruct rest as [|x rest]; [done|]. destruct Hr as (_ & H1 & H2 & H3).
    by rewrite H1, H2, H3. }
  destruct Hend as [Hf He]. destruct lit as [|c lit]; [done|]. unfold parse_number. simpl in Hc |- *.
  destruct (Ascii.eqb c "-") eqn:Hminus.
  - apply Ascii.eqb_eq in Hminus as ->. rewrite parse_int_part_canonical, Hf, He by done.
    simpl. by rewrite !string_app_nil_r.
  - change (String c (lit +:+ rest)) with (String c lit +:+ rest).
    rewrite parse_int_part_canonical, Hf, He by done. simpl. by rewrite !string_app_nil_r.
Qed.

(** *** Printed integers *)

Lemma digits_value_uint d p :
  digits_value (Z.pos p) (NilEmpty.string_of_uint d) = Some (Z.pos (Pos.of_uint_acc d p)).
Proof.
  revert p. induction d as [|d IH|d IH|d IH|d IH|d IH|d IH|d IH|d IH|d IH|d IH]; intros p; [done|..];
    cbn [NilEmpty.string_of_uint digits_value Pos.of_uint_acc]; simpl is_digit; cbn iota;
    rewrite <- IH; f_equal;
    match goal with |- context [Z.of_nat ?n] => let v := eval vm_compute in (Z.of_nat n) in change (Z.of_nat n) with v end;
    lia.
Qed.

Lemma digits_value_of_uint d : digits_value 0 (NilEmpty.string_of_uint d) = Some (Z.of_uint d).
Proof.
  induction d as [|d IH|d _|d _|d _|d _|d _|d _|d _|d _|d _]; [done|exact IH|..];
    exact (digits_value_uint d _).
Qed.

Lemma all_digits_uint d : all_digits (NilEmpty.string_of_uint d) = true.
Proof. induction d; simpl; done. Qed.

(** A positive number has no leading zero. *)
Lemma to_uint_no_zero p d : Pos.to_uint p <> D0 d.
Proof.
  intros E. pose proof (to_of (Decimal.Pos (Pos.to_uint p))) as H. unfold Z.of_int, Z.of_uint in H.
  rewrite Unsigned.of_to in H. simpl in H. injection H as H.
  assert (nzhead (Pos.to_uint p) <> Nil) as Hn.
  { intros Hn. apply unorm_0 in Hn. apply (Unsigned.to_uint_nonzero p). by rewrite H, Hn. }
  rewrite (unorm_nzhead _ Hn) in H. apply (nzhead_nonzero (Pos.to_uint p) d). by rewrite <- H.
Qed.

Lemma canonical_pos p : canonical_unsigned (NilZero.string_of_uint (Pos.to_uint p)) = true.
Proof.
  pose proof (to_uint_no_zero p) as H0. pose proof (Unsigned.to_uint_nonnil p) as Hn.
  destruct (Pos.to_uint p) as [|d|d|d|d|d|d|d|d|d|d]; [done|by destruct (H0 d)|..];
    simpl; by rewrite all_digits_uint.
Qed.

Lemma canonical_itoa z : canonical (itoa z) = true.
Proof.
  unfold itoa. destruct z as [|p|p]; [done| |]; simpl.
  - pose proof (canonical_pos p) as H. destruct (NilZero.string_of_uint (Pos.to_uint p)) as [|c r]; [done|].
    simpl. destruct (Ascii.eqb_spec c "-") as [->|_]; [|done]. discriminate H.
  - apply canonical_pos.
Qed.

Lemma digits_value_pos p : digits_value 0 (NilZero.string_of_uint (Pos.to_uint p)) = Some (Z.pos p).
Proof.
  pose proof (Unsigned.to_uint_nonnil p) as Hn. pose proof (digits_value_of_uint (Pos.to_uint p)) as H.
  unfold Z.of_uint in H. rewrite Unsigned.of_to in H. by destruct (Pos.to_uint p).
Qed.

(** ** Values *)

Fixpoint well_formed (v : json) : bool :=
  match v with
  | JNum lit => canonical lit
  | JArr l => List.forallb well_formed l
  | JObj fs => List.forallb (fun '(_, x) => well_formed x) fs
  | _ => true
  end.

Section JsonInd.
Variable P : json -> Prop.
Hypothesis Hnull : P JNull.
Hypothesis Hbool : forall b, P (JBool b).
Hypothesis Hnum : forall lit, P (JNum lit).
Hypothesis Hstr : forall s, P (JStr s).
Hypothesis Harr : forall l, Forall P l -> P (JArr l).
Hypothesis Hobj : forall fs, Forall (fun f => P (snd f)) fs -> P (JObj fs).

Fixpoint json_ind' (v : json) : P v :=
  match v with
  | JNull => Hnull
  | JBool b => Hbool b
  | JNum lit => Hnum lit
  | JStr s => Hstr s
  | JArr l => Harr l ((fix go l := match l return Forall P l with
                                  | [] => @List.Forall_nil _ P
                                  | x :: r => @List.Forall_cons _ P x r (json_ind' x) (go r)
                                  end) l)
  | JObj fs => Hobj fs ((fix go fs := match fs return Forall (fun f => P (snd f)) fs with
                                     | [] => @List.Forall_nil _ (fun f => P (snd f))
                                     | x :: r => @List.Forall_cons _ (fun f => P (snd f)) x r (json_ind' (snd x)) (go r)
                                     end) fs)
  end.
End JsonInd.

(** The first byte of an encoded value is neither white space nor a closing
    bracket. *)
Definition opens (s : string) : Prop :=
  match s with
  | EmptyString => False
  | String c _ => is_json_space c = false /\ Ascii.eqb c "]" = false /\ Ascii.eqb c "}" = false
  end.

Lemma opens_encode v rest : well_formed v = true -> opens (encode v +:+ rest).
Proof.
  destruct v as [|[]|lit|s|l|fs]; try done. destruct lit as [|c lit]; [done|]. simpl.
  by destruct c as [[] [] [] [] [] [] [] []].
Qed.

Lemma skip_space_opens s : opens s -> skip_space s = s.
Proof. destruct s as [|c s]; [done|]. simpl. by intros (-> & _). Qed.

Lemma encode_nonempty v : well_formed v = true -> (1 <= String.length (encode v))%nat.
Proof.
  intros Hv. pose proof (opens_encode v "" Hv) as Ho. rewrite string_app_nil_r in Ho.
  destruct (encode v); [done|simpl; lia].
Qed.

(** The text after an element of an array or object. *)
Definition follows_value (rest : string) : Prop :=
  match rest with
  | EmptyString => True
  | String c _ => c = ","%char \/ c = "]"%char \/ c = "}"%char
  end.

Lemma follows_num_end rest : follows_value rest -> num_end rest.
Proof. destruct rest as [|c rest]; [done|]. by intros [-> | [-> | ->]]. Qed.

(** [reads raw v]: the text [raw] is read as the value [v] wherever a value
    may stand. *)
Definition reads (raw : string) (v : json) : Prop :=
  opens raw /\ forall fuel rest, (2 * String.length raw <= fuel)%nat -> follows_value rest ->
  parse_value fuel (raw +:+ rest) = Some (v, rest).

Lemma opens_app raw rest : opens raw -> opens (raw +:+ rest).
Proof. by destruct raw. Qed.

Lemma opens_nonempty raw : opens raw -> (1 <= String.length raw)%nat.
Proof. destruct raw; [done|simpl; lia]. Qed.

(** The texts of arrays and objects, from those of their parts. *)
Definition arr_text (raws : list string) : string := "[" +:+ join_with "," raws +:+ "]".
Definition field_text (f : string * string) : string := let '(k, raw) := f in encode_string k +:+ ":" +:+ raw.
Definition obj_text (fs : list (string * string)) : string := "{" +:+ join_with "," (map field_text fs) +:+ "}".

Lemma encode_arr l : encode (JArr l) = arr_text (map encode l).
Proof. reflexivity. Qed.

Lemma encode_obj fs : encode (JObj fs) = obj_text (map (fun '(k, v) => (k, encode v)) fs).
Proof.
  unfold obj_text. simpl. do 2 f_equal. rewrite map_map. f_equal. apply map_ext. by intros [k v].
Qed.

Lemma join_cons2 a b (l : list string) : join_with "," (a :: b :: l) = a +:+ "," +:+ join_with "," (b :: l).
Proof. reflexivity. Qed.

Lemma parse_elems_text raws l fuel rest :
  Forall2 reads raws l -> raws <> [] ->
  (2 * String.length (join_with "," raws) + 1 <= fuel)%nat ->
  parse_elems fuel (join_with "," raws +:+ String "]" rest) = Some (l, rest).
Proof.
  intros Hl. revert fuel. induction Hl as [|raw v raws l [Ho Hv] Hl IH]; intros fuel Hne Hf; [done|].
  destruct fuel as [|fuel]; [lia|]. destruct Hl as [|raw' v' raws l Hv' Hl].
  - simpl in Hf |- *. rewrite Hv; [done|lia|by right; left].
  - rewrite join_cons2 in Hf |- *. rewrite !string_length_app in Hf. change (String.length ",") with 1%nat in Hf.
    rewrite !string_app_assoc. cbn [parse_elems]. rewrite Hv; [|lia|by left].
    set (tl := join_with "," (raw' :: raws)) in *. simpl. rewrite IH; [done|done|lia].
Qed.

(** One field of an object. *)
Lemma parse_fields_step fuel k raw v rest :
  reads raw v -> (2 * String.length raw <= fuel)%nat -> follows_value rest ->
  parse_fields (S fuel) (field_text (k, raw) +:+ rest) =
  match skip_space rest with
  | String c r2 =>
      if Ascii.eqb c "," then
        match parse_fields fuel r2 with Some (l, rest) => Some ((k, v) :: l, rest) | None => None end
      else if Ascii.eqb c "}" then Some ([(k, v)], r2) else None
  | EmptyString => None
  end.
Proof.
  intros [Ho Hv] Hf Hr. unfold field_text. rewrite !string_app_assoc, encode_string_app.
  cbn [parse_fields]. rewrite skip_space_opens by done. rewrite Ascii.eqb_refl, parse_string_literal.
  simpl. by rewrite Hv.
Qed.

Lemma length_field_text k raw : (String.length raw + 2 <= String.length (field_text (k, raw)))%nat.
Proof. unfold field_text. rewrite !string_length_app. unfold encode_string. cbn [String.length]. lia. Qed.

Definition field_reads (f : string * string) (g : string * json) : Prop := fst f = fst g /\ reads (snd f) (snd g).

Lemma parse_fields_text fs l fuel rest :
  Forall2 field_reads fs l -> fs <> [] ->
  (2 * String.length (join_with "," (map field_text fs)) + 1 <= fuel)%nat ->
  parse_fields fuel (join_with "," (map field_text fs) +:+ String "}" rest) = Some (l, rest).
Proof.
  intros Hl. revert fuel. induction Hl as [|[k raw] [k' v] fs l [Hk Hv] Hl IH]; intros fuel Hne Hf; [done|].
  simpl in Hk, Hv. subst k'. destruct fuel as [|fuel]; [lia|]. pose proof (length_field_text k raw) as Hlen.
  destruct Hl as [|f g fs l Hfg Hl].
  - change (join_with "," (map field_text [(k, raw)])) with (field_text (k, raw)) in *.
    rewrite (parse_fields_step fuel k raw v); [done|done|lia|by right; right].
  - change (map field_text ((k, raw) :: f :: fs)) with (field_text (k, raw) :: field_text f :: map field_text fs) in *.
    rewrite join_cons2 in Hf |- *. rewrite !string_length_app in Hf. change (String.length ",") with 1%nat in Hf.
    rewrite !string_app_assoc. change (field_text f :: map field_text fs) with (map field_text (f :: fs)) in *.
    set (tl := join_with "," (map field_text (f :: fs))) in *.
    rewrite (parse_fields_step fuel k raw v); [|done|lia|by left]. simpl. rewrite IH; [done|done|lia].
Qed.

(** An array or object that is not empty. *)
Lemma parse_value_array fuel s :
  opens s ->
  parse_value (S fuel) ("[" +:+ s) =
  match parse_elems fuel s with Some (l, rest) => Some (JArr l, rest) | None => None end.
Proof.
  intros Ho. simpl. rewrite skip_space_opens by done. destruct s as [|c s]; [done|].
  destruct Ho as (_ & Hc & _). by rewrite Hc.
Qed.

Lemma parse_value_object fuel s :
  opens s ->
  parse_value (S fuel) ("{" +:+ s) =
  match parse_fields fuel s with Some (l, rest) => Some (JObj l, rest) | None => None end.
Proof.
  intros Ho. simpl. rewrite skip_space_opens by done. destruct s as [|c s]; [done|].
  destruct Ho as (_ & _ & Hc). by rewrite Hc.
Qed.

Lemma reads_arr raws l : Forall2 reads raws l -> reads (arr_text raws) (JArr l).
Proof.
  intros Hl. split; [done|]. intros fuel rest Hf Hr. unfold arr_text in *.
  destruct fuel as [|fuel]; [simpl in Hf; lia|]. rewrite !string_length_app in Hf.
  change (String.length "[") with 1%nat in Hf. change (String.length "]") with 1%nat in Hf.
  destruct (decide (raws = [])) as [->|Hne]; [by inversion Hl|].
  rewrite !string_app_assoc, parse_value_array.
  - change ("]" +:+ rest) with (String "]" rest). rewrite (parse_elems_text raws l); [done|done|done|lia].
  - destruct Hl as [|raw v raws l [Ho _] _]; [done|].
    destruct raws; [|rewrite join_cons2, string_app_assoc]; by apply opens_app.
Qed.

Lemma reads_obj fs l : Forall2 field_reads fs l -> reads (obj_text fs) (JObj l).
Proof.
  intros Hl. split; [done|]. intros fuel rest Hf Hr. unfold obj_text in *.
  destruct fuel as [|fuel]; [simpl in Hf; lia|]. rewrite !string_length_app in Hf.
  change (String.length "{") with 1%nat in Hf. change (String.length "}") with 1%nat in Hf.
  destruct (decide (fs = [])) as [->|Hne]; [by inversion Hl|].
  rewrite !string_app_assoc, parse_value_object.
  - change ("}" +:+ rest) with (String "}" rest). rewrite (parse_fields_text fs l); [done|done|done|lia].
  - destruct fs as [|[k raw] fs]; [done|]. by destruct fs.
Qed.

Lemma reads_encode v : well_formed v = true -> reads (encode v) v.
Proof.
  induction v as [|b|lit|s|l IH|fs IH] using json_ind'; intros Hwf.
  - split; [done|]. intros [|fuel] rest Hf _; [simpl in Hf; lia|done].
  - split; [by destruct b|]. intros [|fuel] rest Hf _; [destruct b; simpl in Hf; lia|by destruct b].
  - pose proof (opens_encode (JNum lit) "" Hwf) as Ho. rewrite string_app_nil_r in Ho. split; [done|].
    intros fuel rest Hf Hr. pose proof (opens_nonempty _ Ho). destruct fuel as [|fuel]; [lia|].
    pose proof (parse_number_canonical lit rest Hwf (follows_num_end _ Hr)) as Hp.
    pose proof (opens_app _ rest Ho) as Ho'. cbn [encode parse_value] in *.
    rewrite skip_space_opens by done. destruct lit as [|c lit]; [done|]. simpl in Hwf, Hp |- *.
    destruct c as [[] [] [] [] [] [] [] []]; try discriminate Hwf; cbn -[parse_number]; by rewrite Hp.
  - split; [done|]. intros [|fuel] rest Hf _; [simpl in Hf; lia|].
    cbn [encode parse_value]. rewrite encode_string_app, skip_space_opens by done.
    rewrite Ascii.eqb_refl, parse_string_literal. done.
  - rewrite encode_arr. apply reads_arr. simpl in Hwf.
    induction IH as [|v l Hv _ IHl]; [constructor|]. simpl in Hwf. apply andb_true_iff in Hwf as [Hwv Hwl].
    constructor; auto.
  - rewrite encode_obj. apply reads_obj. simpl in Hwf.
    induction IH as [|[k v] l Hv _ IHl]; [constructor|]. simpl in Hwf. apply andb_true_iff in Hwf as [Hwv Hwl].
    constructor; [|auto]. by split; [|apply Hv].
Qed.

(** A text that reads as a value is a document of this value. *)
Lemma reads_document raw v : reads raw v -> parse_json raw = Some v.
Proof.
  intros [Ho Hv]. specialize (Hv (2 * String.length raw + 2)%nat "" ltac:(lia) I).
  rewrite string_app_nil_r in Hv. unfold parse_json. by rewrite Hv.
Qed.

(** Decoding inverts encoding. *)
Lemma parse_encode v : well_formed v = true -> parse_json (encode v) = Some v.
Proof. intros Hwf. by apply reads_document, reads_encode. Qed.
