(* ===== verification/JsonStruct.v ===== *)
(** * Go structs in JSON

    [json.Marshal] and [json.Unmarshal] on struct types, as far as the
    persisted files use them.  A document is cut into the exact texts of its
    fields and elements, because a [json.RawMessage] keeps its text; each
    decoder works on the text of one value.

    An encoder builds the text of an object from the names and the texts of
    its fields.  Decoders follow the rules of Go: fields are assigned in the
    order of the document, unknown names are ignored, names match up to case,
    null leaves a field alone, a value of the wrong type is an error.  A
    duplicated array field is decoded afresh instead of into the elements of
    the first one. *)

From Stdlib Require Import DecimalString.
From S2P Require Import Prelude Json JsonFacts.

(** ** Cutting a document *)

(** The text of the value at the head of [s], and the rest. *)
Definition take_value (s : string) : option (string * string) :=
  let s := skip_space s in
  match parse_value (2 * String.length s + 2) s with
  | Some (_, rest) => Some (String.substring 0 (String.length s - String.length rest) s, rest)
  | None => None
  end.

Fixpoint field_slices (fuel : nat) (s : string) : option (list (string * string)) :=
  match fuel with
  | O => None
  | S f =>
      match skip_space s with
      | EmptyString => None
      | String q r =>
          if Ascii.eqb q quote_char then
            match parse_string (S (String.length r)) r with
            | None => None
            | Some (k, s1) =>
                match skip_space s1 with
                | EmptyString => None
                | String colon r1 =>
                    if Ascii.eqb colon ":" then
                      match take_value r1 with
                      | None => None
                      | Some (raw, s2) =>
                          match skip_space s2 with
                          | EmptyString => None
                          | String c r2 =>
                              if Ascii.eqb c "," then
                                match field_slices f r2 with Some l => Some ((k, raw) :: l) | None => None end
                              else if Ascii.eqb c "}" then Some [(k, raw)] else None
                          end
                      end
                    else None
                end
            end
          else None
      end
  end.

(** The fields of an object. *)
Definition object_slices (raw : string) : option (list (string * string)) :=
  match skip_space raw with
  | String c r =>
      if Ascii.eqb c "{" then
        match skip_space r with
        | String c' _ => if Ascii.eqb c' "}" then Some [] else field_slices (String.length r) r
        | EmptyString => None
        end
      else None
  | EmptyString => None
  end.

Fixpoint elem_slices (fuel : nat) (s : string) : option (list string) :=
  match fuel with
  | O => None
  | S f =>
      match take_value s with
      | None => None
      | Some (raw, s1) =>
          match skip_space s1 with
          | EmptyString => None
          | String c r =>
              if Ascii.eqb c "," then
                match elem_slices f r with Some l => Some (raw :: l) | None => None end
              else if Ascii.eqb c "]" then Some [raw] else None
          end
      end
  end.

(** The elements of an array. *)
Definition array_slices (raw : string) : option (list string) :=
  match skip_space raw with
  | String c r =>
      if Ascii.eqb c "[" then
        match skip_space r with
        | String c' _ => if Ascii.eqb c' "]" then Some [] else elem_slices (String.length r) r
        | EmptyString => None
        end
      else None
  | EmptyString => None
  end.

Lemma substring_app a b : String.substring 0 (String.length a) (a +:+ b) = a.
Proof. induction a as [|c a IH]; simpl; [by destruct b|]. by rewrite IH. Qed.

Lemma take_value_reads raw v rest :
  reads raw v -> follows_value rest -> take_value (raw +:+ rest) = Some (raw, rest).
Proof.
  intros [Ho Hv] Hr. unfold take_value. rewrite (skip_space_opens (raw +:+ rest)) by by apply opens_app.
  rewrite Hv; [|rewrite string_length_app; lia|done]. do 2 f_equal.
  rewrite string_length_app. replace (_ - _)%nat with (String.length raw) by lia. apply substring_app.
Qed.

Definition readable (raw : string) : Prop := exists v, reads raw v.

Lemma field_slices_text fs fuel rest :
  Forall (fun f => readable (snd f)) fs -> fs <> [] -> (length fs <= fuel)%nat ->
  field_slices fuel (join_with "," (map field_text fs) +:+ String "}" rest) = Some fs.
Proof.
  intros Hfs. revert fuel. induction Hfs as [|[k raw] fs [v Hv] Hfs IH]; intros fuel Hne Hf; [done|].
  destruct fuel as [|fuel]; [simpl in Hf; lia|]. simpl in Hv, Hf.
  assert (Hstep : forall rest', follows_value rest' ->
    field_slices (S fuel) (field_text (k, raw) +:+ rest') =
    match skip_space rest' with
    | EmptyString => None
    | String c r2 =>
        if Ascii.eqb c "," then match field_slices fuel r2 with Some l => Some ((k, raw) :: l) | None => None end
        else if Ascii.eqb c "}" then Some [(k, raw)] else None
    end).
  { intros rest' Hr. unfold field_text. rewrite !string_app_assoc, encode_string_app.
    cbn [field_slices]. rewrite skip_space_opens by done. rewrite Ascii.eqb_refl, parse_string_literal.
    simpl. by rewrite (take_value_reads raw v). }
  destruct fs as [|f fs].
  - change (join_with "," (map field_text [(k, raw)])) with (field_text (k, raw)).
    by rewrite Hstep by by right; right.
  - change (map field_text ((k, raw) :: f :: fs)) with (field_text (k, raw) :: field_text f :: map field_text fs).
    rewrite join_cons2, !string_app_assoc, Hstep by by left. simpl skip_space. cbn iota.
    change (field_text f :: map field_text fs) with (map field_text (f :: fs)). simpl Ascii.eqb. cbn iota.
    rewrite IH; [done|done|simpl in *; lia].
Qed.

Lemma length_join_fields fs : (length fs <= String.length (join_with "," (map field_text fs)))%nat.
Proof.
  induction fs as [|[k raw] fs IH]; [simpl; lia|]. pose proof (length_field_text k raw).
  destruct fs as [|f fs]; [simpl; lia|].
  change (map field_text ((k, raw) :: f :: fs)) with (field_text (k, raw) :: map field_text (f :: fs)) in *.
  change (map field_text (f :: fs)) with (field_text f :: map field_text fs) in *.
  rewrite join_cons2, !string_length_app. simpl length in *. lia.
Qed.

(** Cutting an object gives back the texts it was built from. *)
Lemma object_slices_text fs :
  Forall (fun f => readable (snd f)) fs -> object_slices (obj_text fs) = Some fs.
Proof.
  intros Hfs. unfold object_slices, obj_text. destruct fs as [|[k raw] fs]; [done|].
  set (body := join_with "," (map field_text ((k, raw) :: fs))).
  assert (Ho : opens (body +:+ "}")) by by (unfold body; destruct fs).
  simpl skip_space. cbn iota. simpl Ascii.eqb. cbn iota. rewrite skip_space_opens by done.
  destruct (body +:+ "}") as [|c r] eqn:Eb; [done|]. destruct Ho as (_ & _ & ->). rewrite <- Eb. unfold body.
  change "}" with (String "}" ""). apply field_slices_text; [done|done|].
  rewrite string_length_app. pose proof (length_join_fields ((k, raw) :: fs)). simpl in *. lia.
Qed.

Lemma elem_slices_text raws fuel rest :
  Forall readable raws -> raws <> [] -> (length raws <= fuel)%nat ->
  elem_slices fuel (join_with "," raws +:+ String "]" rest) = Some raws.
Proof.
  intros Hr. revert fuel. induction Hr as [|raw raws [v Hv] Hr IH]; intros fuel Hne Hf; [done|].
  destruct fuel as [|fuel]; [simpl in Hf; lia|]. simpl in Hf. destruct raws as [|raw' raws].
  - cbn [elem_slices join_with]. by rewrite (take_value_reads raw v) by (done || by right; left).
  - rewrite join_cons2, !string_app_assoc. cbn [elem_slices].
    rewrite (take_value_reads raw v) by (done || by left). simpl skip_space. cbn iota. simpl Ascii.eqb. cbn iota.
    rewrite IH; [done|done|simpl in *; lia].
Qed.

Lemma length_join raws : Forall readable raws -> (length raws <= String.length (join_with "," raws))%nat.
Proof.
  induction 1 as [|raw raws [v [Ho _]] _ IH]; [simpl; lia|]. apply opens_nonempty in Ho.
  destruct raws as [|raw' raws]; [simpl; lia|]. rewrite join_cons2, !string_length_app. simpl length in *. lia.
Qed.

Lemma array_slices_text raws : Forall readable raws -> array_slices (arr_text raws) = Some raws.
Proof.
  intros Hr. unfold array_slices, arr_text. destruct raws as [|raw raws]; [done|].
  pose proof (length_join _ Hr) as Hlen. set (body := join_with "," (raw :: raws)) in *.
  assert (Ho : opens (body +:+ "]")).
  { apply Forall_cons in Hr as [[v [Ho _]] _]. unfold body.
    destruct raws; [|rewrite join_cons2, string_app_assoc]; by apply opens_app. }
  simpl skip_space. cbn iota. simpl Ascii.eqb. cbn iota. rewrite skip_space_opens by done.
  destruct (body +:+ "]") as [|c r] eqn:Eb; [done|]. destruct Ho as (_ & -> & _). rewrite <- Eb.
  change "]" with (String "]" ""). apply elem_slices_text; [done|done|].
  rewrite string_length_app. simpl in *. lia.
Qed.

Lemma readable_encode v : well_formed v = true -> readable (encode v).
Proof. exists v. by apply reads_encode. Qed.

Lemma readable_string s : readable (encode_string s).
Proof. by apply (readable_encode (JStr s)). Qed.

Lemma readable_int z : readable (itoa z).
Proof. apply (readable_encode (JNum (itoa z))). apply canonical_itoa. Qed.

Lemma readable_obj fs : Forall (fun f => readable (snd f)) fs -> readable (obj_text fs).
Proof.
  intros Hfs. assert (exists l, Forall2 field_reads fs l) as [l Hl].
  { induction Hfs as [|[k raw] fs [v Hv] _ [l IH]]; [by exists []|]. exists ((k, v) :: l). by constructor. }
  exists (JObj l). by apply reads_obj.
Qed.

Lemma readable_arr raws : Forall readable raws -> readable (arr_text raws).
Proof.
  intros Hr. assert (exists l, Forall2 reads raws l) as [l Hl].
  { induction Hr as [|raw raws [v Hv] _ [l IH]]; [by exists []|]. exists (v :: l). by constructor. }
  exists (JArr l). by apply reads_arr.
Qed.

(** ** Decoders *)

(** [strconv.ParseInt(lit, 10, 64)]. *)
Definition int64_of_literal (lit : string) : option Z :=
  match lit with
  | EmptyString => None
  | String c r =>
      if Ascii.eqb c "-" then
        if string_is_empty r then None
        else match digits_value 0 r with
             | Some n => if n <=? 9223372036854775808 then Some (- n) else None
             | None => None
             end
      else match digits_value 0 lit with
           | Some n => if n <? 9223372036854775808 then Some n else None
           | None => None
           end
  end.

(** Decoding a text into a part of [R]. *)
Definition decoder (R : Type) : Type := string -> R -> option R.

Section Decoders.
Context {R : Type}.

Definition dec_str (set : string -> R -> R) : decoder R := fun raw r =>
  match parse_json raw with
  | Some JNull => Some r
  | Some (JStr s) => Some (set s r)
  | _ => None
  end.

Definition dec_bool (set : bool -> R -> R) : decoder R := fun raw r =>
  match parse_json raw with
  | Some JNull => Some r
  | Some (JBool b) => Some (set b r)
  | _ => None
  end.

Definition dec_num (value : string -> option Z) (set : Z -> R -> R) : decoder R := fun raw r =>
  match parse_json raw with
  | Some JNull => Some r
  | Some (JNum lit) => match value lit with Some n => Some (set n r) | None => None end
  | _ => None
  end.
Definition dec_uint64 : (Z -> R -> R) -> decoder R := dec_num uint64_of_literal.
Definition dec_int64 : (Z -> R -> R) -> decoder R := dec_num int64_of_literal.

(** A [json.RawMessage] keeps the text. *)
Definition dec_raw (set : string -> R -> R) : decoder R := fun raw r => Some (set raw r).

Fixpoint assign_fields (assign : string -> decoder R) (fs : list (string * string)) (r : R) : option R :=
  match fs with
  | [] => Some r
  | (k, raw) :: fs => match assign k raw r with Some r => assign_fields assign fs r | None => None end
  end.

Definition dec_struct (assign : string -> decoder R) : decoder R := fun raw r =>
  match parse_json raw with
  | Some JNull => Some r
  | _ => match object_slices raw with Some fs => assign_fields assign fs r | None => None end
  end.
End Decoders.

(** A nested struct, a pointer to one, and a slice. *)
Definition dec_in {R A : Type} (get : R -> A) (set : A -> R -> R) (dec : decoder A) : decoder R := fun raw r =>
  match dec raw (get r) with Some a => Some (set a r) | None => None end.

Definition dec_ptr {R A : Type} (zero : A) (get : R -> option A) (set : option A -> R -> R) (dec : decoder A) : decoder R :=
  fun raw r =>
  match parse_json raw with
  | Some JNull => Some (set None r)
  | _ => match dec raw (default zero (get r)) with Some a => Some (set (Some a) r) | None => None end
  end.

Fixpoint dec_elems {A : Type} (zero : A) (dec : decoder A) (raws : list string) : option (list A) :=
  match raws with
  | [] => Some []
  | raw :: raws =>
      match dec raw zero, dec_elems zero dec raws with Some a, Some l => Some (a :: l) | _, _ => None end
  end.

Definition dec_slice {R A : Type} (zero : A) (set : list A -> R -> R) (dec : decoder A) : decoder R := fun raw r =>
  match parse_json raw with
  | Some JNull => Some (set [] r)
  | _ => match array_slices raw with
         | Some raws => match dec_elems zero dec raws with Some l => Some (set l r) | None => None end
         | None => None
         end
  end.

(** ** The decoders on encoded values *)

Lemma dec_str_encode {R : Type} (set : string -> R -> R) s r : dec_str set (encode_string s) r = Some (set s r).
Proof. unfold dec_str. change (encode_string s) with (encode (JStr s)). by rewrite parse_encode. Qed.

Lemma uint64_of_literal_itoa n : 0 <= n < uint64_mod -> uint64_of_literal (itoa n) = Some n.
Proof.
  intros Hn. unfold uint64_of_literal, itoa.
  destruct n as [|p|p]; [done| |lia]. simpl Z.to_int. cbn [NilZero.string_of_int].
  rewrite digits_value_pos. rewrite (proj2 (Z.ltb_lt _ _)) by lia.
  pose proof (canonical_pos p). by destruct (NilZero.string_of_uint (Pos.to_uint p)).
Qed.

Lemma dec_uint64_itoa {R : Type} (set : Z -> R -> R) n r :
  0 <= n < uint64_mod -> dec_uint64 set (itoa n) r = Some (set n r).
Proof.
  intros Hn. unfold dec_uint64, dec_num. change (itoa n) with (encode (JNum (itoa n))).
  rewrite parse_encode by apply canonical_itoa. by rewrite uint64_of_literal_itoa.
Qed.

Lemma dec_int64_itoa {R : Type} (set : Z -> R -> R) n r :
  -9223372036854775808 <= n < 9223372036854775808 -> dec_int64 set (itoa n) r = Some (set n r).
Proof.
  intros Hn. unfold dec_int64, dec_num. change (itoa n) with (encode (JNum (itoa n))).
  rewrite parse_encode by apply canonical_itoa. unfold int64_of_literal, itoa.
  destruct n as [|p|p]; [done| |]; simpl Z.to_int; cbn [NilZero.string_of_int].
  - pose proof (canonical_pos p) as Hc. pose proof (digits_value_pos p) as Hd.
    destruct (NilZero.string_of_uint (Pos.to_uint p)) as [|c s]; [done|].
    destruct (Ascii.eqb_spec c "-") as [->|_]; [discriminate Hc|]. rewrite Hd.
    by rewrite (proj2 (Z.ltb_lt _ _)) by lia.
  - rewrite Ascii.eqb_refl, digits_value_pos. pose proof (canonical_pos p).
    rewrite (proj2 (Z.leb_le _ _)) by lia. by destruct (NilZero.string_of_uint (Pos.to_uint p)).
Qed.

Lemma dec_struct_obj {R : Type} (assign : string -> decoder R) fs r :
  Forall (fun f => readable (snd f)) fs -> dec_struct assign (obj_text fs) r = assign_fields assign fs r.
Proof.
  intros Hfs. unfold dec_struct. destruct (readable_obj fs Hfs) as [v Hv].
  rewrite object_slices_text by done. rewrite (reads_document _ _ Hv).
  destruct v; try done. exfalso. destruct Hv as [_ Hv].
  specialize (Hv (2 * String.length (obj_text fs))%nat "" ltac:(lia) I). rewrite string_app_nil_r in Hv.
  revert Hv. unfold obj_text. rewrite !string_length_app. simpl. 
  destruct (skip_space _) as [|c s]; [done|]. destruct (Ascii.eqb c "}"); [done|]. by destruct (parse_fields _ _) as [[]|].
Qed.
