(* ===== verification/Sha256.v ===== *)
(** * SHA-256

    [crypto/sha256] as FIPS 180-4 defines it, on byte strings; 32-bit words
    are integers reduced modulo 2^32 where the standard adds them.  The
    checksum of a snapshot is the hexadecimal digest. *)

From S2P Require Import Prelude.

Definition word_mod : Z := 4294967296.
Definition add32 (a b : Z) : Z := (a + b) mod word_mod.
Definition not32 (a : Z) : Z := Z.lxor a 4294967295.
Definition rotr (n a : Z) : Z := Z.lor (Z.shiftr a n) (Z.shiftl a (32 - n) mod word_mod).

Definition Ch (x y z : Z) : Z := Z.lxor (Z.land x y) (Z.land (not32 x) z).
Definition Maj (x y z : Z) : Z := Z.lxor (Z.lxor (Z.land x y) (Z.land x z)) (Z.land y z).
Definition Sigma0 (x : Z) : Z := Z.lxor (Z.lxor (rotr 2 x) (rotr 13 x)) (rotr 22 x).
Definition Sigma1 (x : Z) : Z := Z.lxor (Z.lxor (rotr 6 x) (rotr 11 x)) (rotr 25 x).
Definition sigma0 (x : Z) : Z := Z.lxor (Z.lxor (rotr 7 x) (rotr 18 x)) (Z.shiftr x 3).
Definition sigma1 (x : Z) : Z := Z.lxor (Z.lxor (rotr 17 x) (rotr 19 x)) (Z.shiftr x 10).

(** *** Constants

    The standard takes them from the first primes: the round constants are the
    leading 32 bits of the fractional parts of their cube roots, the initial
    hash of their square roots. *)

Definition is_prime_number (n : Z) : bool :=
  List.forallb (fun d => negb (n mod (Z.of_nat d + 2) =? 0)) (seq 0 (Z.to_nat (n - 2))).

Definition small_primes : list Z :=
  List.filter is_prime_number (map (fun n => Z.of_nat n + 2) (seq 0 310)).

(** The integer part of the cube root of [n], one bit at a time from the bit
    [Z.of_nat bits] downwards; [r] holds the bits found so far. *)
Fixpoint cube_root (bits : nat) (n r : Z) : Z :=
  match bits with
  | O => r
  | S b => let r' := r + 2 ^ Z.of_nat b in cube_root b n (if r' * r' * r' <=? n then r' else r)
  end.

Definition root_bits (f : Z -> Z) (count : nat) : list Z := map (fun p => f p mod word_mod) (firstn count small_primes).

Definition round_constants : list Z :=
  Eval vm_compute in root_bits (fun p => cube_root 36 (p * 2 ^ 96) 0) 64.

Definition initial_hash : list Z :=
  Eval vm_compute in root_bits (fun p => Z.sqrt (p * 2 ^ 64)) 8.

(** ** Padding *)

Definition byte_of (c : ascii) : Z := Z.of_nat (nat_of_ascii c).
Definition bytes_of_string (s : string) : list Z := map byte_of (String.list_ascii_of_string s).

(** The big-endian bytes of [z], [n] of them. *)
Fixpoint be_bytes (n : nat) (z : Z) : list Z :=
  match n with O => [] | S n => Z.shiftr z (8 * Z.of_nat n) mod 256 :: be_bytes n z end.

Definition pad (m : list Z) : list Z :=
  let zeros := (55 - Z.of_nat (length m)) mod 64 in
  m ++ [128] ++ repeat 0 (Z.to_nat zeros) ++ be_bytes 8 (8 * Z.of_nat (length m)).

Fixpoint words_of (l : list Z) : list Z :=
  match l with
  | a :: b :: c :: d :: r => Z.lor (Z.shiftl (Z.lor (Z.shiftl (Z.lor (Z.shiftl a 8) b) 8) c) 8) d :: words_of r
  | _ => []
  end.

Fixpoint blocks_of (fuel : nat) (l : list Z) : list (list Z) :=
  match fuel, l with
  | S f, _ :: _ => firstn 16 l :: blocks_of f (skipn 16 l)
  | _, _ => []
  end.

(** ** Compression *)

(** The message schedule, most recent word first. *)
Fixpoint extend (n : nat) (rev_w : list Z) : list Z :=
  match n with
  | O => rev_w
  | S n =>
      let w i := nth i rev_w 0 in
      extend n (add32 (add32 (sigma1 (w 1%nat)) (w 6%nat)) (add32 (sigma0 (w 14%nat)) (w 15%nat)) :: rev_w)
  end.

Definition schedule (block : list Z) : list Z := rev (extend 48 (rev block)).

Definition round (st : list Z) (kw : Z * Z) : list Z :=
  match st with
  | [a; b; c; d; e; f; g; h] =>
      let t1 := add32 (add32 h (Sigma1 e)) (add32 (Ch e f g) (add32 (fst kw) (snd kw))) in
      let t2 := add32 (Sigma0 a) (Maj a b c) in
      [add32 t1 t2; a; b; c; add32 d t1; e; f; g]
  | _ => st
  end.

Definition compress (st block : list Z) : list Z :=
  map (fun '(x, y) => add32 x y) (zip st (fold_left round (zip round_constants (schedule block)) st)).

Definition sha256 (s : string) : list Z :=
  let words := words_of (pad (bytes_of_string s)) in
  concat (map (be_bytes 4) (fold_left compress (blocks_of (length words) words) initial_hash)).

(** [hex.EncodeToString(digest[:])]. *)
Definition sha256_hex (s : string) : string := hex_encode (sha256 s).

(** The test vectors of the standard. *)
Example sha256_empty :
  sha256_hex "" = "e3b0c44298fc1c149afbf4c8996fb92427ae41e4649b934ca495991b7852b855".
Proof. vm_compute. reflexivity. Qed.

Example sha256_abc :
  sha256_hex "abc" = "ba7816bf8f01cfea414140de5dae2223b00361a396177a9cb410ff61f20015ad".
Proof. vm_compute. reflexivity. Qed.

Example sha256_two_blocks :
  sha256_hex "abcdbcdecdefdefgefghfghighijhijkijkljklmklmnlmnomnopnopq" =
  "248d6a61d20638b8e5c026930c3e6039a33ce45964ff2167f6ecedd419db06c1".
Proof. vm_compute. reflexivity. Qed.
