(* ===== verification/Timestamp.v ===== *)
(** * Times in JSON

    [time.Time.MarshalJSON] and [UnmarshalJSON] for UTC times: RFC 3339 with
    nanoseconds, trailing zeros of the fraction removed.  The program writes
    UTC times only; a time with another zone offset is not accepted here.
    Also the text of a duration. *)

From S2P Require Import Prelude Clock JsonFacts JsonStruct.

(** ** Encoding *)

(** The first digits of the fraction [r / 10^k], without trailing zeros. *)
Fixpoint fraction (k : nat) (r : Z) : string :=
  match k with
  | O => ""
  | S k => if r =? 0 then "" else String (digit_char (r / 10 ^ Z.of_nat k)) (fraction k (r mod 10 ^ Z.of_nat k))
  end.

Definition clock_text (r : Z) : string :=
  two_digits (r / Hour) +:+ ":" +:+ two_digits (r mod Hour / Minute) +:+ ":" +:+ two_digits (r mod Minute / Second) +:+
  (if r mod Second =? 0 then "" else "." +:+ fraction 9 (r mod Second)) +:+ "Z".

(** The year must have four digits. *)
Definition format_time (t : Z) : option string :=
  let '(y, m, d) := civil_of_days (days_of_time t) in
  if (0 <=? y) && (y <=? 9999) then Some (format_date y m d +:+ "T" +:+ clock_text (t mod Day)) else None.

(** *** Durations *)

Definition Microsecond : Z := 1000.

(** The part after the point of [r / 10^k], with the point, or nothing. *)
Definition point (k : nat) (r : Z) : string := if r =? 0 then "" else "." +:+ fraction k r.

(** [time.Duration.String]. *)
Definition Duration_string (d : Z) : string :=
  let u := Z.abs d in
  let text :=
    if u =? 0 then "0s"
    else if u <? Microsecond then itoa u +:+ "ns"
    else if u <? Millisecond then itoa (u / Microsecond) +:+ point 3 (u mod Microsecond) +:+ bytes_of [194; 181] +:+ "s"
    else if u <? Second then itoa (u / Millisecond) +:+ point 6 (u mod Millisecond) +:+ "ms"
    else
      let seconds := u / Second in
      (if seconds <? 60 then ""
       else (if seconds <? 3600 then "" else itoa (seconds / 3600) +:+ "h") +:+ itoa (seconds / 60 mod 60) +:+ "m") +:+
      itoa (seconds mod 60) +:+ point 9 (u mod Second) +:+ "s" in
  if d <? 0 then "-" +:+ text else text.

(** ** Decoding *)

(** The value of a digit string as a fraction of [10^k] units; digits beyond
    the [k]-th are dropped. *)
Fixpoint fraction_value (k : nat) (s : string) : Z * string :=
  match s with
  | String c r =>
      match digit_value c with
      | Some v =>
          match k with
          | O => fraction_value O r
          | S k => let '(f, rest) := fraction_value k r in (v * 10 ^ Z.of_nat k + f, rest)
          end
      | None => (0, s)
      end
  | EmptyString => (0, s)
  end.

Definition parse_clock (s : string) : option Z :=
  match s with
  | String h1 (String h2 (String c1 (String m1 (String m2 (String c2 (String s1 (String s2 rest))))))) =>
      match two_value h1 h2, two_value m1 m2, two_value s1 s2 with
      | Some h, Some m, Some s =>
          if Ascii.eqb c1 ":" && Ascii.eqb c2 ":" && (h <? 24) && (m <? 60) && (s <? 60) then
            let seconds := h * Hour + m * Minute + s * Second in
            match rest with
            | String p (String d r) =>
                if Ascii.eqb p "." then
                  match digit_value d with
                  | Some _ =>
                      let '(f, rest) := fraction_value 9 (String d r) in
                      if String.eqb rest "Z" then Some (seconds + f) else None
                  | None => None
                  end
                else None
            | _ => if String.eqb rest "Z" then Some seconds else None
            end
          else None
      | _, _, _ => None
      end
  | _ => None
  end.

Definition parse_time (s : string) : option Z :=
  match ParseDateOnly (String.substring 0 10 s), String.substring 10 1 s with
  | Some (y, m, d), "T" =>
      match parse_clock (String.substring 11 (String.length s - 11) s) with
      | Some r => Some (days_of_civil y m d * Day + r)
      | None => None
      end
  | _, _ => None
  end.

(** The decoder of a [time.Time] field. *)
Definition dec_time {R : Type} (set : Z -> R -> R) : decoder R := fun raw r =>
  match Json.parse_json raw with
  | Some Json.JNull => Some r
  | Some (Json.JStr s) => match parse_time s with Some t => Some (set t r) | None => None end
  | _ => None
  end.

(** ** Round trip *)

Lemma digit_value_digit_char v : 0 <= v < 10 -> digit_value (digit_char v) = Some v.
Proof.
  intros Hv. assert (v = 0 \/ v = 1 \/ v = 2 \/ v = 3 \/ v = 4 \/ v = 5 \/ v = 6 \/ v = 7 \/ v = 8 \/ v = 9) as Hc by lia.
  by repeat destruct Hc as [->|Hc]; [..|subst].
Qed.

Lemma two_digits_value v : 0 <= v < 100 ->
  exists a b, two_digits v = String a (String b "") /\ two_value a b = Some v.
Proof.
  intros Hv. do 2 eexists. split; [reflexivity|]. unfold two_value.
  rewrite !digit_value_digit_char by (apply Z.mod_pos_bound; lia). f_equal.
  rewrite (Z.mod_small (v / 10)) by (split; [apply Z.div_pos; lia|apply Z.div_lt_upper_bound; lia]).
  pose proof (Z.div_mod v 10 ltac:(lia)). lia.
Qed.

Lemma ParseDateOnly_format_date y m d :
  0 <= y <= 9999 -> 1 <= m <= 12 -> 1 <= d <= days_in_month y m ->
  String.length (format_date y m d) = 10%nat /\ ParseDateOnly (format_date y m d) = Some (y, m, d).
Proof.
  intros Hy Hm Hd. pose proof (days_in_month_bound y m).
  destruct (two_digits_value (y / 100)) as (y1 & y2 & Ey & Vy).
  { split; [apply Z.div_pos; lia|apply Z.div_lt_upper_bound; lia]. }
  destruct (two_digits_value (y mod 100) ltac:(apply Z.mod_pos_bound; lia)) as (y3 & y4 & Ez & Vz).
  destruct (two_digits_value m ltac:(lia)) as (m1 & m2 & Em & Vm).
  destruct (two_digits_value d ltac:(lia)) as (d1 & d2 & Ed & Vd).
  unfold format_date. rewrite Ey, Ez, Em, Ed. simpl. split; [done|]. rewrite Vy, Vz, Vm, Vd.
  replace (100 * (y / 100) + y mod 100) with y by (apply Z.div_mod; lia).
  rewrite !(proj2 (Z.leb_le _ _)) by lia. done.
Qed.

Lemma fraction_value_fraction k r rest :
  0 <= r < 10 ^ Z.of_nat k -> (forall c s, rest = String c s -> digit_value c = None) ->
  fraction_value k (fraction k r +:+ rest) = (r, rest).
Proof.
  intros Hr Hrest. revert r Hr. induction k as [|k IH]; intros r Hr.
  - simpl in Hr |- *. assert (r = 0) as -> by lia. destruct rest as [|c s]; [done|]. simpl.
    by rewrite (Hrest c s eq_refl).
  - simpl fraction. destruct (Z.eqb_spec r 0) as [->|Hr0].
    + simpl. destruct rest as [|c s]; [done|]. simpl. by rewrite (Hrest c s eq_refl).
    + assert (Hp : 0 < 10 ^ Z.of_nat k) by (apply Z.pow_pos_nonneg; lia).
      rewrite Nat2Z.inj_succ, Z.pow_succ_r in Hr by lia. simpl.
      rewrite digit_value_digit_char by (split; [apply Z.div_pos; lia|apply Z.div_lt_upper_bound; lia]).
      rewrite IH by (apply Z.mod_pos_bound; lia). f_equal. rewrite Z.mul_comm. symmetry. apply Z.div_mod. lia.
Qed.

Lemma fraction_starts k r : 0 < r < 10 ^ Z.of_nat k ->
  exists c s v, fraction k r = String c s /\ digit_value c = Some v.
Proof.
  destruct k as [|k]; [simpl; lia|]. intros Hr. simpl fraction. rewrite (proj2 (Z.eqb_neq _ _)) by lia.
  assert (Hp : 0 < 10 ^ Z.of_nat k) by (apply Z.pow_pos_nonneg; lia).
  rewrite Nat2Z.inj_succ, Z.pow_succ_r in Hr by lia.
  do 3 eexists. split; [reflexivity|]. apply digit_value_digit_char.
  split; [apply Z.div_pos; lia|apply Z.div_lt_upper_bound; lia].
Qed.

Lemma parse_clock_text r : 0 <= r < Day -> parse_clock (clock_text r) = Some r.
Proof.
  intros Hr. unfold clock_text. assert (Hd : Day = 24 * Hour) by done.
  assert (Hh : Hour = 60 * Minute) by done. assert (Hm : Minute = 60 * Second) by done.
  assert (Hs : 0 < Second) by done. assert (Hs9 : Second = 10 ^ Z.of_nat 9) by done.
  pose proof (Z.mod_pos_bound r Hour ltac:(lia)) as Hmh. pose proof (Z.mod_pos_bound r Minute ltac:(lia)) as Hmm.
  pose proof (Z.mod_pos_bound r Second ltac:(lia)) as Hms.
  assert (Hvh : 0 <= r / Hour < 24) by (split; [apply Z.div_pos; lia|apply Z.div_lt_upper_bound; lia]).
  assert (Hvm : 0 <= r mod Hour / Minute < 60) by (split; [apply Z.div_pos; lia|apply Z.div_lt_upper_bound; lia]).
  assert (Hvs : 0 <= r mod Minute / Second < 60) by (split; [apply Z.div_pos; lia|apply Z.div_lt_upper_bound; lia]).
  assert (Hsum : r / Hour * Hour + r mod Hour / Minute * Minute + r mod Minute / Second * Second + r mod Second = r).
  { pose proof (Z.div_mod r Hour ltac:(lia)). pose proof (Z.div_mod (r mod Hour) Minute ltac:(lia)).
    pose proof (Z.div_mod (r mod Minute) Second ltac:(lia)).
    assert ((r mod Hour) mod Minute = r mod Minute) by (symmetry; apply Znumtheory.Zmod_div_mod; [lia|lia|by exists 60]).
    assert ((r mod Minute) mod Second = r mod Second) by (symmetry; apply Znumtheory.Zmod_div_mod; [lia|lia|by exists 60]).
    lia. }
  destruct (two_digits_value (r / Hour) ltac:(lia)) as (h1 & h2 & Eh & Vh).
  destruct (two_digits_value (r mod Hour / Minute) ltac:(lia)) as (m1 & m2 & Em & Vm).
  destruct (two_digits_value (r mod Minute / Second) ltac:(lia)) as (s1 & s2 & Es & Vs).
  rewrite Eh, Em, Es. clear Eh Em Es.
  assert (Hgo : forall tail f, (if r mod Second =? 0 then "" else "." +:+ fraction 9 (r mod Second)) +:+ "Z" = tail ->
    match tail with
    | String p (String d q) =>
        if Ascii.eqb p "." then
          match digit_value d with
          | Some _ =>
              let '(f, rest) := fraction_value 9 (String d q) in
              if String.eqb rest "Z" then Some (r - r mod Second + f) else None
          | None => None
          end
        else None
    | _ => if String.eqb tail "Z" then Some (r - r mod Second) else None
    end = Some f -> f = r ->
    parse_clock ((String h1 (String h2 "")) +:+ ":" +:+ (String m1 (String m2 "")) +:+ ":" +:+
      (String s1 (String s2 "")) +:+ tail) = Some r).
  { intros tail f _ Ht ->. simpl. rewrite Vh, Vm, Vs, !(proj2 (Z.ltb_lt _ _)) by lia. cbn [andb].
    replace (r / Hour * Hour + r mod Hour / Minute * Minute + r mod Minute / Second * Second) with (r - r mod Second) by lia.
    exact Ht. }
  eapply Hgo; [reflexivity| |reflexivity]. destruct (Z.eqb_spec (r mod Second) 0) as [E0|E0].
  - simpl. f_equal. lia.
  - destruct (fraction_starts 9 (r mod Second)) as (c & s & v & Ef & Ev); [rewrite <- Hs9; lia|].
    pose proof (fraction_value_fraction 9 (r mod Second) "Z" ltac:(rewrite <- Hs9; lia) ltac:(by intros ? ? [= <- <-])) as Hv.
    rewrite Ef in Hv |- *. change ("." +:+ String c s) with (String "." (String c s)).
    change (String "." (String c s) +:+ "Z") with (String "." (String c (s +:+ "Z"))).
    change (String c s +:+ "Z") with (String c (s +:+ "Z")) in Hv.
    cbv match. rewrite Ascii.eqb_refl, Ev, Hv. simpl. f_equal. lia.
Qed.

Lemma substring_skip a b n : String.substring (String.length a) n (a +:+ b) = String.substring 0 n b.
Proof. induction a as [|c a IH]; [done|]. simpl. done. Qed.

Lemma substring_all b : String.substring 0 (String.length b) b = b.
Proof. induction b as [|c b IH]; simpl; [done|]. by rewrite IH. Qed.

(** Reading a written time gives the same instant. *)
Lemma parse_format_time t text : format_time t = Some text -> parse_time text = Some t.
Proof.
  unfold format_time. pose proof (civil_roundtrip (days_of_time t)) as Hc.
  destruct (civil_of_days (days_of_time t)) as [[y m] d]. destruct Hc as (Hdays & Hm & Hd).
  destruct ((0 <=? y) && (y <=? 9999)) eqn:Ey; [|done]. apply andb_true_iff in Ey as [Ey1 Ey2].
  intros Ht. apply (inj Some) in Ht. subst text.
  destruct (ParseDateOnly_format_date y m d ltac:(lia) Hm Hd) as [Hlen Hp].
  pose proof (parse_clock_text (t mod Day) ltac:(apply Z.mod_pos_bound; done)) as Hck.
  set (a := format_date y m d) in *. set (b := clock_text (t mod Day)) in *. unfold parse_time.
  replace (String.substring 0 10 (a +:+ "T" +:+ b)) with a by (rewrite <- Hlen; symmetry; apply substring_app).
  replace (String.substring 10 1 (a +:+ "T" +:+ b)) with "T"
    by (rewrite <- Hlen, substring_skip; simpl; by destruct b).
  replace (String.substring 11 (String.length (a +:+ "T" +:+ b) - 11) (a +:+ "T" +:+ b)) with b.
  - rewrite Hp, Hck, Hdays. unfold days_of_time. f_equal. pose proof (Z.div_mod t Day ltac:(done)). lia.
  - rewrite <- string_app_assoc. assert (Hl : String.length (a +:+ "T") = 11%nat) by (rewrite string_length_app, Hlen; done).
    rewrite string_length_app, Hl. replace (11 + String.length b - 11)%nat with (String.length b) by lia.
    rewrite <- Hl at 1. rewrite substring_skip. symmetry. apply substring_all.
Qed.

Lemma dec_time_encode {R : Type} (set : Z -> R -> R) t text r :
  format_time t = Some text -> dec_time set (Json.encode_string text) r = Some (set t r).
Proof.
  intros Ht. unfold dec_time. change (Json.encode_string text) with (Json.encode (Json.JStr text)).
  rewrite parse_encode by done. by rewrite (parse_format_time t).
Qed.
