(* ===== verification/Envelope.v ===== *)
(** * The persisted snapshot

    [internal/state/envelope.go]: the run state in JSON under a schema version
    and a SHA-256 checksum of its own encoding.  The encoding follows the
    struct tags of the persisted types: field names, their order, and
    [omitempty].

    The nil slice and the empty slice are one value here, written as null;
    the run never persists an empty slice of records. *)

From S2P Require Import Prelude Clock Model Json JsonFacts JsonStruct Sha256 Timestamp.

(* go: internal/state/envelope.go 14-14 schemaVersion *)
Definition schemaVersion : Z := 3.

(** ** Encoding *)

(** A string field with [omitempty]. *)
Definition omit_empty (k v : string) : list (string * string) :=
  if string_is_empty v then [] else [(k, encode_string v)].
Definition omit_nil (k : string) (raw : option string) : list (string * string) :=
  match raw with Some raw => [(k, raw)] | None => [] end.

(* go: internal/hyperliquid/info/types.go 5-11 Token *)
Definition enc_token (t : Token) : string :=
  obj_text [("name", encode_string (tok_Name t)); ("token_id", encode_string (tok_TokenID t));
            ("index", itoa (tok_Index t)); ("wei_decimals", itoa (tok_WeiDecimals t));
            ("wire_token", encode_string (tok_WireToken t))].

(* go: internal/funding/model.go 11-15 Record *)
Definition enc_record (r : FundingRecord) : string :=
  obj_text [("id", itoa (rec_ID r)); ("period_start_at", itoa (rec_PeriodStartAt r));
            ("amount", encode_string (rec_Amount r))].

(* go: internal/funding/model.go 40-40 Records *)
Definition enc_records (l : list FundingRecord) : string :=
  match l with [] => "null" | _ => arr_text (map enc_record l) end.

(* go: internal/funding/model.go 39-46 Manifest *)
Definition enc_manifest (m : Manifest) : string :=
  obj_text ([("records", enc_records (man_Records m));
             ("raw_total", encode_string (man_RawTotal m)); ("payout_total", encode_string (man_PayoutTotal m))] ++
            omit_nil "token" (enc_token <$> man_Token m) ++
            [("settlement", encode_string (man_Settlement m)); ("recipient", encode_string (man_Recipient m))]).

(** [json.Compact] with HTML escaping, as a [json.RawMessage] is written; the
    text must be valid JSON, and the nil message is null. *)
Fixpoint compact_text (in_string escaped : bool) (s : string) : string :=
  match s with
  | EmptyString => ""
  | String c r =>
      if in_string then
        if escaped then String c (compact_text true false r)
        else if Ascii.eqb c quote_char then String c (compact_text false false r)
        else if Ascii.eqb c backslash then String c (compact_text true true r)
        else let n := Z.of_nat (nat_of_ascii c) in
             if (n =? 60) || (n =? 62) || (n =? 38)
             then String backslash ("u00" +:+ hex_encode [n]) +:+ compact_text true false r
             else String c (compact_text true false r)
      else if is_json_space c then compact_text false false r
      else String c (compact_text (Ascii.eqb c quote_char) false r)
  end.

Definition compact_raw (raw : string) : option string :=
  if string_is_empty raw then Some "null"
  else match parse_json raw with Some _ => Some (compact_text false false raw) | None => None end.

(* go: internal/hyperliquid/exchange/types.go 5-13 PreparedAction *)
Definition enc_prepared (a : PreparedAction) : option string :=
  body ← compact_raw (pa_RequestBody a);
  Some (obj_text ([("kind", encode_string (pa_Kind a)); ("signer", encode_string (pa_Signer a))] ++
    omit_empty "destination" (pa_Destination a) ++ omit_empty "token" (pa_Token a) ++
    omit_empty "amount" (pa_Amount a) ++ [("nonce", itoa (pa_Nonce a)); ("request_body", body)])).

(* go: internal/funding/model.go 58-62 PayoutJournal *)
Definition enc_journal (j : PayoutJournal) : option string :=
  prepared ← enc_prepared (jrn_Prepared j);
  Some (obj_text [("prepared", prepared); ("total_before", encode_string (jrn_TotalBefore j));
                  ("submit_attempts", itoa (jrn_SubmitAttempts j))]).

Definition enc_option {A : Type} (enc : A -> option string) (a : option A) : option (option string) :=
  match a with Some a => text ← enc a; Some (Some text) | None => Some None end.

(* go: internal/funding/model.go 66-73 PayoutTargetState *)
Definition enc_target (t : PayoutTargetState) : option string :=
  payout ← enc_option enc_journal (tgt_Payout t);
  Some (obj_text ([("kind", encode_string (kind_string (tgt_Kind t))); ("phase", encode_string (phase_string (tgt_Phase t)));
                   ("manifest", enc_manifest (tgt_Manifest t))] ++
    omit_nil "payout" payout ++ omit_empty "blocked_reason" (tgt_BlockedReason t) ++
    omit_empty "confirmation_evidence" (tgt_ConfirmationEvidence t))).

Definition trigger_string (t : Trigger) : string :=
  match t with
  | TriggerUTC => "utc_payout"
  | TriggerUTCConsolidation => "utc_consolidation"
  | TriggerRunOnStart => "run_on_start"
  | TriggerConsolidateOnly => "consolidate_only"
  | TriggerOther s => s
  end.

(** The manifest of the run itself is not persisted. *)
(* go: internal/funding/model.go 75-86 RunState *)
Definition enc_state (s : RunState) : option string :=
  targets ← mapM enc_target (run_Targets s);
  createdAt ← format_time (run_CreatedAt s);
  updatedAt ← format_time (run_UpdatedAt s);
  Some (obj_text ([("run_id", encode_string (run_RunID s)); ("trigger", encode_string (trigger_string (run_Trigger s)));
                   ("utc_date", encode_string (run_UTCDate s))] ++
    match targets with [] => [] | _ => [("targets", arr_text targets)] end ++
    [("created_at", encode_string createdAt); ("updated_at", encode_string updatedAt)])).

Definition envelope_text (version : Z) (checksum state : string) : string :=
  obj_text [("schema_version", itoa version); ("checksum", encode_string checksum); ("state", state)].

(* go: internal/state/envelope.go 22-37 marshalEnvelope *)
Definition marshalEnvelope (s : RunState) : result string :=
  match enc_state s with
  | None => Err (Wrapf "encode run state: %w" [] (Errorf "unsupported value" []))
  | Some stateJSON => Ok (envelope_text schemaVersion (sha256_hex stateJSON) stateJSON)
  end.

(** ** Decoding *)

Definition field {R : Type} (table : list (string * decoder R)) (k : string) : decoder R :=
  match List.find (fun f => EqualFold k (fst f)) table with
  | Some (_, dec) => dec
  | None => fun _ r => Some r
  end.

(* go: internal/hyperliquid/info/types.go 5-11 Token *)
Definition dec_token : decoder Token := dec_struct (field [
  ("name", dec_str (fun v t => mkToken v (tok_TokenID t) (tok_Index t) (tok_WeiDecimals t) (tok_WireToken t)));
  ("token_id", dec_str (fun v t => mkToken (tok_Name t) v (tok_Index t) (tok_WeiDecimals t) (tok_WireToken t)));
  ("index", dec_int64 (fun v t => mkToken (tok_Name t) (tok_TokenID t) v (tok_WeiDecimals t) (tok_WireToken t)));
  ("wei_decimals", dec_int64 (fun v t => mkToken (tok_Name t) (tok_TokenID t) (tok_Index t) v (tok_WireToken t)));
  ("wire_token", dec_str (fun v t => mkToken (tok_Name t) (tok_TokenID t) (tok_Index t) (tok_WeiDecimals t) v))]).
Definition zero_token : Token := mkToken "" "" 0 0 "".

(* go: internal/funding/model.go 11-15 Record *)
Definition dec_record : decoder FundingRecord := dec_struct (field [
  ("id", dec_uint64 (fun v r => mkFundingRecord v (rec_PeriodStartAt r) (rec_Amount r)));
  ("period_start_at", dec_uint64 (fun v r => mkFundingRecord (rec_ID r) v (rec_Amount r)));
  ("amount", dec_str (fun v r => mkFundingRecord (rec_ID r) (rec_PeriodStartAt r) v))]).
Definition zero_record : FundingRecord := mkFundingRecord 0 0 "".

(* go: internal/funding/model.go 39-46 Manifest *)
Definition dec_manifest : decoder Manifest := dec_struct (field [
  ("records", dec_slice zero_record (fun v m => m <| man_Records := v |>) dec_record);
  ("raw_total", dec_str (fun v m => m <| man_RawTotal := v |>));
  ("payout_total", dec_str (fun v m => m <| man_PayoutTotal := v |>));
  ("token", dec_ptr zero_token man_Token (fun v m => m <| man_Token := v |>) dec_token);
  ("settlement", dec_str (fun v m => m <| man_Settlement := v |>));
  ("recipient", dec_str (fun v m => m <| man_Recipient := v |>))]).

#[export] Instance PreparedAction_settable : Settable PreparedAction := fun a =>
  mkPrepared (pa_Kind a) (pa_Signer a) (pa_Destination a) (pa_Token a) (pa_Amount a) (pa_Nonce a) (pa_RequestBody a).

(* go: internal/hyperliquid/exchange/types.go 5-13 PreparedAction *)
Definition dec_prepared : decoder PreparedAction := dec_struct (field [
  ("kind", dec_str (fun v a => a <| pa_Kind := v |>));
  ("signer", dec_str (fun v a => a <| pa_Signer := v |>));
  ("destination", dec_str (fun v a => a <| pa_Destination := v |>));
  ("token", dec_str (fun v a => a <| pa_Token := v |>));
  ("amount", dec_str (fun v a => a <| pa_Amount := v |>));
  ("nonce", dec_uint64 (fun v a => a <| pa_Nonce := v |>));
  ("request_body", dec_raw (fun v a => a <| pa_RequestBody := v |>))]).
Definition zero_prepared : PreparedAction := mkPrepared "" "" "" "" "" 0 "".

(* go: internal/funding/model.go 58-62 PayoutJournal *)
Definition dec_journal : decoder PayoutJournal := dec_struct (field [
  ("prepared", dec_in jrn_Prepared (fun v j => j <| jrn_Prepared := v |>) dec_prepared);
  ("total_before", dec_str (fun v j => j <| jrn_TotalBefore := v |>));
  ("submit_attempts", dec_int64 (fun v j => j <| jrn_SubmitAttempts := v |>))]).
Definition zero_journal : PayoutJournal := mkJournal zero_prepared "" 0.

Definition kind_of (s : string) : PayoutKind := if String.eqb s "referral" then PayoutKindReferral else PayoutKindOther s.
Definition phase_of (s : string) : Phase :=
  if String.eqb s "prepared" then PhasePrepared
  else if String.eqb s "payout_prepared" then PhasePayoutPrepared
  else if String.eqb s "payout_submitting" then PhasePayoutSubmitting
  else if String.eqb s "payout_replaying" then PhasePayoutReplaying
  else if String.eqb s "payout_confirmed" then PhasePayoutConfirmed
  else if String.eqb s "completed" then PhaseCompleted
  else if String.eqb s "blocked" then PhaseBlocked
  else PhaseOther s.
Definition trigger_of (s : string) : Trigger :=
  if String.eqb s "utc_payout" then TriggerUTC
  else if String.eqb s "utc_consolidation" then TriggerUTCConsolidation
  else if String.eqb s "run_on_start" then TriggerRunOnStart
  else if String.eqb s "consolidate_only" then TriggerConsolidateOnly
  else TriggerOther s.

(* go: internal/funding/model.go 66-73 PayoutTargetState *)
Definition dec_target : decoder PayoutTargetState := dec_struct (field [
  ("kind", dec_str (fun v t => t <| tgt_Kind := kind_of v |>));
  ("phase", dec_str (fun v t => t <| tgt_Phase := phase_of v |>));
  ("manifest", dec_in tgt_Manifest (fun v t => t <| tgt_Manifest := v |>) dec_manifest);
  ("payout", dec_ptr zero_journal tgt_Payout (fun v t => t <| tgt_Payout := v |>) dec_journal);
  ("blocked_reason", dec_str (fun v t => t <| tgt_BlockedReason := v |>));
  ("confirmation_evidence", dec_str (fun v t => t <| tgt_ConfirmationEvidence := v |>))]).
Definition zero_target : PayoutTargetState :=
  mkTarget (PayoutKindOther "") (PhaseOther "") empty_manifest None "" "".

(* go: internal/funding/model.go 75-86 RunState *)
Definition dec_state : decoder RunState := dec_struct (field [
  ("run_id", dec_str (fun v s => s <| run_RunID := v |>));
  ("trigger", dec_str (fun v s => s <| run_Trigger := trigger_of v |>));
  ("utc_date", dec_str (fun v s => s <| run_UTCDate := v |>));
  ("targets", dec_slice zero_target (fun v s => s <| run_Targets := v |>) dec_target);
  ("created_at", dec_time (fun v s => s <| run_CreatedAt := v |>));
  ("updated_at", dec_time (fun v s => s <| run_UpdatedAt := v |>))]).
Definition zero_state : RunState := mkRunState "" (TriggerOther "") "" [] zero_time zero_time empty_manifest.

(* go: internal/state/envelope.go 16-20 envelope *)
Record envelope : Type := mkEnvelope {
  env_SchemaVersion : Z;
  env_Checksum : string;
  env_State : RunState
}.
#[export] Instance envelope_settable : Settable envelope := fun e =>
  mkEnvelope (env_SchemaVersion e) (env_Checksum e) (env_State e).

(* go: internal/state/envelope.go 16-20 envelope *)
Definition dec_envelope : decoder envelope := dec_struct (field [
  ("schema_version", dec_int64 (fun v e => e <| env_SchemaVersion := v |>));
  ("checksum", dec_str (fun v e => e <| env_Checksum := v |>));
  ("state", dec_in env_State (fun v e => e <| env_State := v |>) dec_state)]).

(** [json.Unmarshal] checks the whole document first. *)
Definition unmarshal_envelope_json (data : string) : option envelope :=
  match parse_json data with
  | Some _ => dec_envelope data (mkEnvelope 0 "" zero_state)
  | None => None
  end.

(* go: internal/state/envelope.go 39-57 unmarshalEnvelope *)
Definition unmarshalEnvelope (data : string) : result RunState :=
  match unmarshal_envelope_json data with
  | None => Err (Wrapf "decode state envelope: %w" [] (Errorf "invalid JSON" []))
  | Some saved =>
      if negb (env_SchemaVersion saved =? schemaVersion)
      then Err (Errorf "unsupported state schema version %d" [itoa (env_SchemaVersion saved)])
      else match enc_state (env_State saved) with
           | None => Err (Wrapf "encode state for checksum: %w" [] (Errorf "unsupported value" []))
           | Some stateJSON =>
               if negb (String.eqb (env_Checksum saved) (sha256_hex stateJSON))
               then Err (Errorf "state checksum mismatch" [])
               else Ok (env_State saved)
           end
  end.
