(* ===== verification/EnvelopeFacts.v ===== *)
(** * What the snapshot format guarantees

    A snapshot that [Save] wrote is read back exactly ([envelope_roundtrip]),
    and one whose state was changed under its checksum is refused unless the
    change is a SHA-256 collision ([envelope_tamper_evident]). *)

From S2P Require Import Prelude Clock Model Json JsonFacts JsonStruct Sha256 Timestamp Envelope.

(** ** Compact JSON is stable *)

(** Compacting [s] in front of any text leaves it alone. *)
Definition compacted (s : string) : Prop :=
  forall rest, compact_text false false (s +:+ rest) = s +:+ compact_text false false rest.

Lemma compacted_app a b : compacted a -> compacted b -> compacted (a +:+ b).
Proof. intros Ha Hb rest. by rewrite string_app_assoc, Ha, Hb, string_app_assoc. Qed.

Lemma compact_escape_char c rest :
  compact_text true false (escape_char c +:+ rest) = escape_char c +:+ compact_text true false rest.
Proof. destruct c as [[] [] [] [] [] [] [] []]; reflexivity. Qed.

Lemma compact_escape s rest :
  compact_text true false (escape s +:+ String quote_char rest) =
  escape s +:+ String quote_char (compact_text false false rest).
Proof.
  induction s as [|c s IH]; [done|]. cbn [escape]. by rewrite !string_app_assoc, compact_escape_char, IH.
Qed.

Lemma compacted_string s : compacted (encode_string s).
Proof.
  intros rest. rewrite !encode_string_app. rewrite <- compact_escape. reflexivity.
Qed.

Lemma compacted_digits s : all_digits s = true -> compacted s.
Proof.
  induction s as [|c s IH]; [done|]. simpl. intros [Hc Hs]%andb_true_iff rest.
  simpl. rewrite <- (IH Hs). by destruct c as [[] [] [] [] [] [] [] []].
Qed.

Lemma compacted_number lit : canonical lit = true -> compacted lit.
Proof.
  assert (Hu : forall lit, canonical_unsigned lit = true -> compacted lit).
  { intros l Hl. apply compacted_digits. destruct l as [|c l]; [done|]. simpl in Hl |- *.
    by apply andb_true_iff in Hl as [Hl _]. }
  destruct lit as [|c lit]; [done|]. simpl. destruct (Ascii.eqb_spec c "-") as [->|_]; [|exact (Hu (String c lit))].
  intros Hc. by apply (compacted_app "-"); [|apply Hu].
Qed.

Lemma compacted_join sep l : compacted sep -> Forall compacted l -> compacted (join_with sep l).
Proof.
  intros Hsep. induction 1 as [|x l Hx Hl IH]; [done|]. simpl. destruct l as [|y l]; [done|].
  by apply compacted_app; [|apply compacted_app].
Qed.

Lemma compacted_encode v : well_formed v = true -> compacted (encode v).
Proof.
  induction v as [|[]|lit|s|l IH|fs IH] using json_ind'; intros Hwf; [done..| | | |].
  - by apply compacted_number.
  - apply compacted_string.
  - cbn [encode]. apply (compacted_app "["); [done|]. apply compacted_app; [|done]. apply compacted_join; [done|].
    simpl in Hwf. induction IH as [|v l Hv _ IHl]; [constructor|]. simpl in Hwf.
    apply andb_true_iff in Hwf as [Hwv Hwl]. constructor; auto.
  - cbn [encode]. apply (compacted_app "{"); [done|]. apply compacted_app; [|done]. apply compacted_join; [done|].
    simpl in Hwf. induction IH as [|[k v] l Hv _ IHl]; [constructor|]. simpl in Hwf.
    apply andb_true_iff in Hwf as [Hwv Hwl]. constructor; [|auto].
    apply compacted_app; [apply compacted_string|]. by apply (compacted_app ":"); [|apply Hv].
Qed.

Lemma compact_raw_encode v : well_formed v = true -> compact_raw (encode v) = Some (encode v).
Proof.
  intros Hwf. unfold compact_raw. pose proof (encode_nonempty v Hwf) as Hne.
  rewrite parse_encode by done. pose proof (compacted_encode v Hwf "") as Hc.
  rewrite !string_app_nil_r in Hc. rewrite Hc. by destruct (encode v); [simpl in Hne; lia|].
Qed.

(** ** The states a run persists *)

Definition int64 (z : Z) : Prop := -9223372036854775808 <= z < 9223372036854775808.
Definition uint64 (z : Z) : Prop := 0 <= z < uint64_mod.

Record token_ok (t : Token) : Prop := {
  tk_index : int64 (tok_Index t);
  tk_decimals : int64 (tok_WeiDecimals t)
}.
Record record_ok (r : FundingRecord) : Prop := {
  rk_id : uint64 (rec_ID r);
  rk_period : uint64 (rec_PeriodStartAt r)
}.
Record manifest_ok (m : Manifest) : Prop := {
  mk_records : Forall record_ok (man_Records m);
  mk_token : forall t, man_Token m = Some t -> token_ok t
}.
(** A request body is the encoding of a JSON value. *)
Record prepared_ok (a : PreparedAction) : Prop := {
  pk_nonce : uint64 (pa_Nonce a);
  pk_body : exists v, well_formed v = true /\ pa_RequestBody a = encode v
}.
Record journal_ok (j : PayoutJournal) : Prop := {
  jk_prepared : prepared_ok (jrn_Prepared j);
  jk_attempts : int64 (jrn_SubmitAttempts j)
}.
(** No [..Other] constructor spells a known constant. *)
Record target_ok (t : PayoutTargetState) : Prop := {
  gk_kind : kind_of (kind_string (tgt_Kind t)) = tgt_Kind t;
  gk_phase : phase_of (phase_string (tgt_Phase t)) = tgt_Phase t;
  gk_manifest : manifest_ok (tgt_Manifest t);
  gk_payout : forall j, tgt_Payout t = Some j -> journal_ok j
}.
Record state_ok (s : RunState) : Prop := {
  sk_trigger : trigger_of (trigger_string (run_Trigger s)) = run_Trigger s;
  sk_targets : Forall target_ok (run_Targets s);
  sk_manifest : run_Manifest s = empty_manifest
}.

(** ** The round trip, type by type *)

(** [decodes dec text zero a]: the text is a JSON value other than null that
    decodes to [a]. *)
Definition decodes {A : Type} (dec : decoder A) (text : string) (zero a : A) : Prop :=
  (exists v, reads text v /\ v <> JNull) /\ dec text zero = Some a.

Lemma decodes_readable {A : Type} (dec : decoder A) text zero a : decodes dec text zero a -> readable text.
Proof. intros [(v & Hv & _) _]. by exists v. Qed.

Lemma dec_in_decodes {R A : Type} (get : R -> A) set (dec : decoder A) text r a :
  decodes dec text (get r) a -> dec_in get set dec text r = Some (set a r).
Proof. intros [_ Hd]. unfold dec_in. by rewrite Hd. Qed.

Lemma dec_ptr_decodes {R A : Type} zero (get : R -> option A) set (dec : decoder A) text r a :
  decodes dec text zero a -> get r = None -> dec_ptr zero get set dec text r = Some (set (Some a) r).
Proof.
  intros [(v & Hv & Hn) Hd] Hg. unfold dec_ptr. rewrite (reads_document _ _ Hv), Hg. simpl. rewrite Hd. by destruct v.
Qed.

Lemma dec_elems_decodes {A : Type} zero (dec : decoder A) texts l :
  Forall2 (fun text a => decodes dec text zero a) texts l -> dec_elems zero dec texts = Some l.
Proof. induction 1 as [|text a texts l [_ Hd] _ IH]; simpl; [done|]. by rewrite Hd, IH. Qed.

Lemma dec_slice_decodes {R A : Type} zero (set : list A -> R -> R) (dec : decoder A) texts l r :
  Forall2 (fun text a => decodes dec text zero a) texts l ->
  readable (arr_text texts) /\ dec_slice zero set dec (arr_text texts) r = Some (set l r).
Proof.
  intros Hl. assert (Hr : Forall readable texts).
  { induction Hl; constructor; eauto using decodes_readable. }
  split; [by apply readable_arr|]. unfold dec_slice.
  assert (exists vs, Forall2 reads texts vs) as [vs Hvs].
  { clear Hl. induction Hr as [|raw raws [v Hv] _ [vs IH]]; [by exists []|]. exists (v :: vs). by constructor. }
  rewrite (reads_document _ _ (reads_arr _ _ Hvs)), array_slices_text by done.
  by rewrite (dec_elems_decodes _ _ _ _ Hl).
Qed.

Lemma dec_slice_null {R A : Type} zero (set : list A -> R -> R) (dec : decoder A) r :
  dec_slice zero set dec "null" r = Some (set [] r).
Proof. reflexivity. Qed.

(** Objects: their fields are readable, so decoding runs over them. *)
Lemma decodes_obj {A : Type} (assign : string -> decoder A) fs zero a :
  Forall (fun f => readable (snd f)) fs -> assign_fields assign fs zero = Some a ->
  decodes (dec_struct assign) (obj_text fs) zero a.
Proof.
  intros Hfs Ha. split; [|by rewrite dec_struct_obj].
  assert (exists l, Forall2 field_reads fs l) as [l Hl].
  { clear Ha. induction Hfs as [|[k raw] fs [v Hv] _ [l IH]]; [by exists []|]. exists ((k, v) :: l). by constructor. }
  exists (JObj l). by split; [apply reads_obj|].
Qed.

Lemma assign_fields_app {R : Type} (assign : string -> decoder R) a b r r' :
  assign_fields assign a r = Some r' -> assign_fields assign (a ++ b) r = assign_fields assign b r'.
Proof.
  revert r. induction a as [|[k raw] a IH]; intros r; simpl; [by intros [= ->]|].
  destruct (assign k raw r); [apply IH|done].
Qed.

Lemma readable_omit_empty k v : Forall (fun f => readable (snd f)) (omit_empty k v).
Proof. unfold omit_empty. destruct (string_is_empty v); repeat constructor. apply readable_string. Qed.

Lemma readable_omit_nil k raw : (forall text, raw = Some text -> readable text) -> Forall (fun f => readable (snd f)) (omit_nil k raw).
Proof. intros H. destruct raw as [text|]; repeat constructor. by apply H. Qed.

Create HintDb readable.
#[export] Hint Resolve readable_string readable_int readable_omit_empty readable_omit_nil : readable.

Ltac solve_readable :=
  repeat first [ apply Forall_nil_2 | apply Forall_cons_2 | apply Forall_app_2 ]; simpl; eauto using decodes_readable with readable.

Lemma field_cons {R : Type} n (d : decoder R) table k :
  field ((n, d) :: table) k = if EqualFold k n then d else field table k.
Proof. unfold field. simpl. by destruct (EqualFold k n). Qed.

(** A field omitted when empty, whose zero value is empty. *)
Lemma assign_omit_empty {R : Type} (assign : string -> decoder R) (set : string -> R -> R) k v fs r :
  assign k = dec_str set -> (v = "" -> set v r = r) ->
  assign_fields assign (omit_empty k v ++ fs) r = assign_fields assign fs (set v r).
Proof.
  intros Hk Hz. unfold omit_empty. destruct v as [|c v]; simpl; [by rewrite Hz|].
  rewrite Hk. by rewrite dec_str_encode.
Qed.

(** Finds the decoder of a field name. *)
Ltac find_field :=
  repeat (rewrite field_cons;
          match goal with |- context [EqualFold ?a ?b] =>
            let v := eval vm_compute in (EqualFold a b) in change (EqualFold a b) with v end;
          cbv iota).

(** Runs the decoder of the next field with the rules of the encoded
    values. *)
Ltac decode_field :=
  cbn [assign_fields app omit_nil]; cbv beta; find_field;
  first [ rewrite dec_str_encode | rewrite dec_int64_itoa by assumption | rewrite dec_uint64_itoa by assumption
        | erewrite dec_time_encode by eassumption
        | erewrite dec_in_decodes by eassumption | erewrite dec_ptr_decodes by first [eassumption|reflexivity] ];
  cbv iota.

Lemma decodes_token t : token_ok t -> decodes dec_token (enc_token t) zero_token t.
Proof.
  intros [Hi Hd]. apply decodes_obj; [solve_readable|]. do 5 decode_field. by destruct t.
Qed.

Lemma decodes_record r : record_ok r -> decodes dec_record (enc_record r) zero_record r.
Proof.
  intros [Hi Hd]. apply decodes_obj; [solve_readable|]. do 3 decode_field. by destruct r.
Qed.

Lemma decodes_records {R : Type} (set : list FundingRecord -> R -> R) l r :
  Forall record_ok l ->
  readable (enc_records l) /\ dec_slice zero_record set dec_record (enc_records l) r = Some (set l r).
Proof.
  intros Hl. destruct l as [|x l]; [split; [by apply (readable_encode JNull)|reflexivity]|].
  unfold enc_records. apply dec_slice_decodes. induction Hl as [|y k Hy _ IH]; constructor; [by apply decodes_record|done].
Qed.

Lemma decodes_manifest m : manifest_ok m -> decodes dec_manifest (enc_manifest m) empty_manifest m.
Proof.
  intros [Hr Ht]. unfold enc_manifest.
  pose proof (decodes_records (fun v m => m <| man_Records := v |>) (man_Records m) empty_manifest Hr) as [Hrr Hrd].
  set (records := enc_records (man_Records m)) in *. clearbody records.
  assert (Htok : forall t, man_Token m = Some t -> decodes dec_token (enc_token t) zero_token t).
  { intros t E. by apply decodes_token, Ht. }
  apply decodes_obj.
  - solve_readable. apply readable_omit_nil. intros text. destruct (man_Token m) as [t|]; simpl; [|done].
    intros [= <-]. by eapply decodes_readable, Htok.
  - cbn [assign_fields app]. find_field. rewrite Hrd. cbv iota. do 2 decode_field.
    destruct m as [l raw total [t|] settlement recipient]; simpl in *.
    + pose proof (Htok t eq_refl) as Hd. do 3 decode_field. reflexivity.
    + do 2 decode_field. reflexivity.
Qed.

Lemma decodes_prepared a : prepared_ok a ->
  exists text, enc_prepared a = Some text /\ decodes dec_prepared text zero_prepared a.
Proof.
  intros [Hn (v & Hv & Hb)]. unfold enc_prepared. rewrite Hb, compact_raw_encode by done. simpl.
  eexists. split; [reflexivity|]. apply decodes_obj.
  - solve_readable. by apply readable_encode.
  - do 2 decode_field.
    rewrite (assign_omit_empty _ (fun v a => a <| pa_Destination := v |>)) by (done || by intros ->).
    rewrite (assign_omit_empty _ (fun v a => a <| pa_Token := v |>)) by (done || by intros ->).
    rewrite (assign_omit_empty _ (fun v a => a <| pa_Amount := v |>)) by (done || by intros ->).
    decode_field. cbn [assign_fields]. find_field. unfold dec_raw. rewrite <- Hb. by destruct a.
Qed.

Lemma decodes_journal j : journal_ok j ->
  exists text, enc_journal j = Some text /\ decodes dec_journal text zero_journal j.
Proof.
  intros [Hp Ha]. destruct (decodes_prepared _ Hp) as (text & He & Hd). unfold enc_journal. rewrite He. simpl.
  eexists. split; [reflexivity|]. apply decodes_obj; [solve_readable|].
  change zero_prepared with (jrn_Prepared zero_journal) in Hd. do 3 decode_field. by destruct j.
Qed.

Lemma decodes_target t : target_ok t ->
  exists text, enc_target t = Some text /\ decodes dec_target text zero_target t.
Proof.
  intros [Hk Hp Hm Hj]. pose proof (decodes_manifest _ Hm) as Hman. unfold enc_target.
  assert (exists payout, enc_option enc_journal (tgt_Payout t) = Some payout /\
    match tgt_Payout t, payout with
    | Some j, Some text => decodes dec_journal text zero_journal j
    | None, None => True
    | _, _ => False
    end) as (payout & He & Hpay).
  { destruct (tgt_Payout t) as [j|]; simpl; [|by eexists].
    destruct (decodes_journal j (Hj j eq_refl)) as (text & -> & Hd). by eexists. }
  rewrite He. simpl. eexists. split; [reflexivity|].
  change empty_manifest with (tgt_Manifest zero_target) in Hman. apply decodes_obj.
  - solve_readable. apply readable_omit_nil. intros text ->. destruct (tgt_Payout t); [|done].
    by eapply decodes_readable.
  - do 2 decode_field. change (tgt_Manifest zero_target) with
      (tgt_Manifest (zero_target <| tgt_Kind := kind_of (kind_string (tgt_Kind t)) |>
                                 <| tgt_Phase := phase_of (phase_string (tgt_Phase t)) |>)) in Hman.
    decode_field. rewrite Hk, Hp.
    destruct t as [kind phase m [j|] blocked evidence], payout as [text|]; simpl in *; try done.
    + decode_field.
      rewrite (assign_omit_empty _ (fun v t => t <| tgt_BlockedReason := v |>)) by (done || by intros ->).
      rewrite <- (app_nil_r (omit_empty _ evidence)).
      by rewrite (assign_omit_empty _ (fun v t => t <| tgt_ConfirmationEvidence := v |>)) by (done || by intros ->).
    + rewrite (assign_omit_empty _ (fun v t => t <| tgt_BlockedReason := v |>)) by (done || by intros ->).
      rewrite <- (app_nil_r (omit_empty _ evidence)).
      by rewrite (assign_omit_empty _ (fun v t => t <| tgt_ConfirmationEvidence := v |>)) by (done || by intros ->).
Qed.

Lemma decodes_state s text : state_ok s -> enc_state s = Some text -> decodes dec_state text zero_state s.
Proof.
  intros [Htr Htg Hm]. unfold enc_state.
  assert (exists texts, mapM enc_target (run_Targets s) = Some texts /\
    Forall2 (fun text t => decodes dec_target text zero_target t) texts (run_Targets s)) as (texts & He & Hl).
  { induction Htg as [|t l Ht _ (texts & He & Hl)]; [by exists []|].
    destruct (decodes_target t Ht) as (text' & He' & Hd). exists (text' :: texts).
    split; [simpl; rewrite He'; simpl; by rewrite He|by constructor]. }
  rewrite He. simpl. destruct (format_time (run_CreatedAt s)) as [createdAt|] eqn:Ec; [|done]. simpl.
  destruct (format_time (run_UpdatedAt s)) as [updatedAt|] eqn:Eu; [|done]. simpl. intros Ht.
  apply (inj Some) in Ht. subst text.
  pose proof (dec_slice_decodes zero_target (fun v s => s <| run_Targets := v |>) dec_target texts (run_Targets s)
    (zero_state <| run_RunID := run_RunID s |> <| run_Trigger := trigger_of (trigger_string (run_Trigger s)) |>
                <| run_UTCDate := run_UTCDate s |>) Hl) as [Hlr Hld].
  apply decodes_obj.
  - solve_readable. destruct texts; solve_readable.
  - do 3 decode_field. destruct texts as [|text texts].
    + assert (run_Targets s = []) as Hnil by (destruct (run_Targets s); [done|inversion Hl]).
      do 2 decode_field. rewrite Htr. destruct s; simpl in Hnil, Hm |- *; subst; reflexivity.
    + cbn [assign_fields app]. find_field. rewrite Hld. cbv iota. do 2 decode_field. rewrite Htr.
      destruct s; simpl in Hm |- *; subst; reflexivity.
Qed.

(** ** The envelope around it *)

Definition zero_envelope : envelope := mkEnvelope 0 "" zero_state.

Lemma marshalEnvelope_text s data : marshalEnvelope s = Ok data ->
  exists text, enc_state s = Some text /\ data = envelope_text schemaVersion (sha256_hex text) text.
Proof. unfold marshalEnvelope. destruct (enc_state s) as [text|]; [|done]. intros [= <-]. by exists text. Qed.

(** The fields of a written envelope, whatever state it carries. *)
Lemma dec_envelope_text version checksum raw : int64 version -> readable raw ->
  dec_envelope (envelope_text version checksum raw) zero_envelope =
  s ← dec_state raw zero_state; Some (mkEnvelope version checksum s).
Proof.
  intros Hv Hr. unfold dec_envelope, envelope_text. rewrite dec_struct_obj by (solve_readable; apply readable_int).
  do 2 decode_field. cbn [assign_fields]. find_field. unfold dec_in. cbn. by destruct (dec_state raw zero_state).
Qed.

Lemma readable_envelope version checksum raw : readable raw -> readable (envelope_text version checksum raw).
Proof. intros Hr. apply readable_obj. solve_readable. Qed.

Lemma schemaVersion_int64 : int64 schemaVersion.
Proof. unfold int64, schemaVersion. lia. Qed.

(** A document is accepted exactly when its checksum is that of the encoding
    of the state it decodes to. *)
Lemma unmarshalEnvelope_text checksum raw : readable raw ->
  unmarshalEnvelope (envelope_text schemaVersion checksum raw) =
  match dec_state raw zero_state with
  | None => Err (Wrapf "decode state envelope: %w" [] (Errorf "invalid JSON" []))
  | Some s =>
      match enc_state s with
      | None => Err (Wrapf "encode state for checksum: %w" [] (Errorf "unsupported value" []))
      | Some text => if String.eqb checksum (sha256_hex text) then Ok s else Err (Errorf "state checksum mismatch" [])
      end
  end.
Proof.
  intros Hr. unfold unmarshalEnvelope, unmarshal_envelope_json.
  destruct (readable_envelope schemaVersion checksum raw Hr) as [v Hv]. rewrite (reads_document _ _ Hv).
  change (mkEnvelope 0 "" zero_state) with zero_envelope.
  rewrite dec_envelope_text by (done || apply schemaVersion_int64).
  destruct (dec_state raw zero_state) as [s|]; [|done]. simpl. destruct (enc_state s); [|done].
  by destruct (String.eqb checksum _).
Qed.

(** ** Properties *)

(** The text of an envelope gives its state back. *)
Lemma unmarshal_state_text s text :
  state_ok s -> enc_state s = Some text ->
  unmarshalEnvelope (envelope_text schemaVersion (sha256_hex text) text) = Ok s.
Proof.
  intros Hs He. pose proof (decodes_state s text Hs He) as Hd.
  rewrite unmarshalEnvelope_text by (by eapply decodes_readable). destruct Hd as [_ ->].
  by rewrite He, String.eqb_refl.
Qed.

(** C22: a snapshot is read back exactly as it was written: the run state, its
    targets, manifests, journals and signed request bytes, and the two
    timestamps to the nanosecond. *)
Theorem envelope_roundtrip s data :
  state_ok s -> marshalEnvelope s = Ok data -> unmarshalEnvelope data = Ok s.
Proof.
  intros Hs (text & He & ->)%marshalEnvelope_text. by apply unmarshal_state_text.
Qed.

(** C23: a snapshot whose state was altered under the checksum it was written
    with is refused, unless the altered state has the encoding of the written
    one or is a SHA-256 collision with it. *)
Theorem envelope_tamper_evident s data raw s' :
  marshalEnvelope s = Ok data -> readable raw ->
  exists text, enc_state s = Some text /\ data = envelope_text schemaVersion (sha256_hex text) text /\
    (unmarshalEnvelope (envelope_text schemaVersion (sha256_hex text) raw) = Ok s' ->
     exists text', enc_state s' = Some text' /\ (text' = text \/ text' <> text /\ sha256_hex text' = sha256_hex text)).
Proof.
  intros (text & He & ->)%marshalEnvelope_text Hr. exists text. split; [done|]. split; [done|].
  rewrite unmarshalEnvelope_text by done. destruct (dec_state raw zero_state) as [s1|]; [|done].
  destruct (enc_state s1) as [text'|] eqn:E; [|done]. destruct (String.eqb_spec (sha256_hex text) (sha256_hex text')); [|done].
  intros [= <-]. exists text'. split; [done|]. destruct (decide (text' = text)); auto.
Qed.

(** ** Witnesses *)

Definition sample_request : json :=
  JObj [("action", JObj [("type", JStr "spotSend"); ("amount", JStr "12.5")]); ("nonce", JNum "1700000000000")].

Definition sample_journal : PayoutJournal :=
  mkJournal (mkPrepared "spot_send" "0xaa" "0xbb" "USDC:0x6d1e" "12.5" 1700000000000 (encode sample_request)) "20.25" 1.

Definition sample_state : RunState :=
  mkRunState "f3a1" TriggerUTC "2024-01-02"
    [mkTarget PayoutKindReferral PhasePayoutSubmitting
       (mkManifest [mkFundingRecord 7 1704067200 "12.5"] "12.5" "12.5" (Some (mkToken "USDC" "0x6d1e" 0 8 "USDC:0x6d1e"))
          "0xaa" "0xbb")
       (Some sample_journal) "" ""]
    1704153600000000000 1704153600123456789 empty_manifest.

Lemma sample_state_ok : state_ok sample_state.
Proof.
  split; [reflexivity| |reflexivity]. constructor; [|constructor]. split; [reflexivity..| |].
  - split; [repeat constructor; simpl; unfold uint64_mod; lia|]. intros t [= <-]. split; unfold int64; simpl; lia.
  - intros j [= <-]. split; [split; [unfold uint64; simpl; unfold uint64_mod; lia|]|unfold int64; simpl; lia].
    by exists sample_request.
Qed.

Lemma envelope_roundtrip_witness : exists data, marshalEnvelope sample_state = Ok data /\ unmarshalEnvelope data = Ok sample_state.
Proof.
  assert (exists text, enc_state sample_state = Some text) as [text He] by (eexists; vm_compute; reflexivity).
  exists (envelope_text schemaVersion (sha256_hex text) text).
  assert (marshalEnvelope sample_state = Ok (envelope_text schemaVersion (sha256_hex text) text)) as Hm
    by (unfold marshalEnvelope; by rewrite He).
  split; [exact Hm|]. exact (envelope_roundtrip sample_state _ sample_state_ok Hm).
Defined.

Lemma envelope_tamper_evident_witness : exists text,
  enc_state zero_state = Some text /\
  (unmarshalEnvelope (envelope_text schemaVersion (sha256_hex text) "{}") = Ok zero_state ->
   exists text', enc_state zero_state = Some text' /\ (text' = text \/ text' <> text /\ sha256_hex text' = sha256_hex text)).
Proof.
  assert (exists text, enc_state zero_state = Some text) as [text He] by (eexists; vm_compute; reflexivity).
  assert (marshalEnvelope zero_state = Ok (envelope_text schemaVersion (sha256_hex text) text)) as Hm
    by (unfold marshalEnvelope; by rewrite He).
  destruct (envelope_tamper_evident zero_state _ "{}" zero_state Hm (readable_obj [] (Forall_nil_2 _))) as (t & Ht & _ & H).
  exists t. exact (conj Ht H).
Defined.
