(* ===== verification/ActionValidation.v ===== *)
(** * Validation of the payout journal

    [internal/funding/action_validation.go]: a payout request is only sent,
    replayed or treated as confirmed when the persisted request and its
    signed body agree with the immutable manifest. *)

From Stdlib Require Import QArith Lqa.
From S2P Require Import Prelude DecimalSpec Model Json.

(** The anonymous struct the request body is decoded into. *)
(* go: internal/funding/action_validation.go 32-38 validatePreparedPayout *)
Record RequestBody : Type := mkBody {
  body_Type : string;
  body_Destination : string;
  body_Token : string;
  body_Amount : string;
  body_Time : Z;
  body_Nonce : Z
}.

#[export] Instance RequestBody_settable : Settable RequestBody := fun r =>
  mkBody (body_Type r) (body_Destination r) (body_Token r) (body_Amount r) (body_Time r) (body_Nonce r).

(** Decoding a JSON value into a Go field: null leaves the field, a value of
    another type is an error. *)
Definition decode_string_field {R : Type} (set : string -> R -> R) (v : json) (r : R) : option R :=
  match v with JNull => Some r | JStr s => Some (set s r) | _ => None end.
Definition decode_uint64_field {R : Type} (set : Z -> R -> R) (v : json) (r : R) : option R :=
  match v with
  | JNull => Some r
  | JNum lit => match uint64_of_literal lit with Some n => Some (set n r) | None => None end
  | _ => None
  end.

(** Fields are assigned in the order of the document; unknown names are
    ignored and names match up to case. *)
Fixpoint decode_fields {R : Type} (assign : string -> json -> R -> option R)
    (fs : list (string * json)) (r : R) : option R :=
  match fs with
  | [] => Some r
  | (k, v) :: rest =>
      match assign k v r with Some r' => decode_fields assign rest r' | None => None end
  end.

Definition decode_struct {R : Type} (assign : string -> json -> R -> option R) (v : json) (r : R) : option R :=
  match v with JNull => Some r | JObj fs => decode_fields assign fs r | _ => None end.

Definition assign_action (k : string) (v : json) (b : RequestBody) : option RequestBody :=
  if EqualFold k "Type" then decode_string_field (fun s b => b <| body_Type := s |>) v b
  else if EqualFold k "Destination" then decode_string_field (fun s b => b <| body_Destination := s |>) v b
  else if EqualFold k "Token" then decode_string_field (fun s b => b <| body_Token := s |>) v b
  else if EqualFold k "Amount" then decode_string_field (fun s b => b <| body_Amount := s |>) v b
  else if EqualFold k "Time" then decode_uint64_field (fun n b => b <| body_Time := n |>) v b
  else Some b.

Definition assign_body (k : string) (v : json) (b : RequestBody) : option RequestBody :=
  if EqualFold k "action" then decode_struct assign_action v b
  else if EqualFold k "nonce" then decode_uint64_field (fun n b => b <| body_Nonce := n |>) v b
  else Some b.

(* go: internal/funding/action_validation.go 32-41 validatePreparedPayout *)
Definition unmarshal_body (data : string) : option RequestBody :=
  match parse_json data with
  | Some v => decode_struct assign_body v (mkBody "" "" "" "" 0 0)
  | None => None
  end.

(** A function that only returns an error: [None] is the nil error. *)
(* go: internal/funding/action_validation.go 13-49 validatePreparedPayout *)
Definition validatePreparedPayout `{DecimalOps} (target : PayoutTargetState) (action : PreparedAction)
    : option error :=
  let m := tgt_Manifest target in
  match man_Token m with
  | None => Some (Errorf "payout manifest token is missing" [])
  | Some token =>
      if negb (String.eqb (pa_Kind action) "spotSend") ||
         negb (EqualFold (pa_Signer action) (man_Settlement m)) ||
         negb (EqualFold (pa_Destination action) (man_Recipient m)) ||
         negb (String.eqb (pa_Token action) (tok_WireToken token))
      then Some (Errorf "prepared payout does not match immutable manifest" [])
      else
        match dec_parse (pa_Amount action), dec_parse (man_PayoutTotal m) with
        | Some amount, Some want =>
            if negb (dec_equal amount want)
            then Some (Errorf "prepared payout amount does not match immutable manifest" [])
            else if string_is_empty (pa_RequestBody action)
            then Some (Errorf "prepared payout request body is empty" [])
            else
              match unmarshal_body (pa_RequestBody action) with
              | None => Some (Wrapf "decode prepared payout request: %w" [] (Errorf "invalid JSON" []))
              | Some body =>
                  match dec_parse (body_Amount body) with
                  | None => Some (Errorf "prepared payout request body does not match persisted action" [])
                  | Some bodyAmount =>
                      if negb (String.eqb (body_Type body) "spotSend") ||
                         negb (EqualFold (body_Destination body) (pa_Destination action)) ||
                         negb (String.eqb (body_Token body) (pa_Token action)) ||
                         negb (dec_equal bodyAmount amount) ||
                         negb (body_Nonce body =? pa_Nonce action) ||
                         negb (body_Time body =? pa_Nonce action)
                      then Some (Errorf "prepared payout request body does not match persisted action" [])
                      else None
                  end
              end
        | _, _ => Some (Errorf "prepared payout amount does not match immutable manifest" [])
        end
  end.

(* go: internal/funding/action_validation.go 51-73 validatePayoutJournal *)
Definition validatePayoutJournal `{DecimalOps} (target : PayoutTargetState) : option error :=
  match tgt_Payout target with
  | None => Some (Errorf "payout journal is missing" [])
  | Some journal =>
      match validatePreparedPayout target (jrn_Prepared journal) with
      | Some err => Some err
      | None =>
          match dec_parse (jrn_TotalBefore journal) with
          | None => Some (Errorf "payout settlement total-before boundary is invalid" [])
          | Some before =>
              if dec_neg before then Some (Errorf "payout settlement total-before boundary is invalid" [])
              else match dec_parse (man_PayoutTotal (tgt_Manifest target)) with
                   | None => Some (Errorf "payout amount is invalid" [])
                   | Some amount =>
                       if negb (dec_pos amount) then Some (Errorf "payout amount is invalid" [])
                       else if dec_less before amount
                       then Some (Errorf "payout settlement total-before boundary is below payout amount" [])
                       else if (jrn_SubmitAttempts journal <? 1) || (2 <? jrn_SubmitAttempts journal)
                       then Some (Errorf "payout submit attempts must be one or two" [])
                       else None
                   end
          end
      end
  end.

(* go: internal/funding/action_validation.go 75-77 validateConfirmedPayoutState *)
Definition validateConfirmedPayoutState `{DecimalOps} (target : PayoutTargetState) : option error :=
  validatePayoutJournal target.

(** [active] is a pointer into [state.Targets] in Go: the comparison with the
    resolved target is a comparison of pointers, and the callers pass the
    active target itself. *)
(* go: internal/funding/action_validation.go 79-103 validateTargetProgress *)
Definition validateTargetProgress `{DecimalOps} (state : RunState) : option error :=
  match activePayoutTarget state with
  | Err err => Some err
  | Ok None => Some (Errorf "active payout target does not match persisted progress" [])
  | Ok (Some active) =>
      match tgt_Payout active with
      | None => None
      | Some journal =>
          match validatePayoutJournal active with
          | Some err => Some err
          | None =>
              match tgt_Phase active with
              | PhasePayoutPrepared | PhasePayoutSubmitting =>
                  if negb (jrn_SubmitAttempts journal =? 1)
                  then Some (Errorf "%s requires exactly one reserved submit attempt" [phase_string (tgt_Phase active)])
                  else None
              | PhasePayoutReplaying =>
                  if negb (jrn_SubmitAttempts journal =? 2)
                  then Some (Errorf "payout replaying requires exactly two reserved submit attempts" [])
                  else None
              | _ => None
              end
          end
      end
  end.

(** ** What a valid journal guarantees *)

Section Facts.
Context `{Laws : DecimalLaws}.

(** The agreement of a persisted action with the manifest it pays. *)
Record action_matches (m : Manifest) (a : PreparedAction) : Prop := {
  am_kind : pa_Kind a = "spotSend";
  am_signer : EqualFold (pa_Signer a) (man_Settlement m) = true;
  am_destination : EqualFold (pa_Destination a) (man_Recipient m) = true;
  am_token : exists t, man_Token m = Some t /\ pa_Token a = tok_WireToken t;
  am_amount : exists x y, dec_parse (pa_Amount a) = Some x /\ dec_parse (man_PayoutTotal m) = Some y /\
                          (dec_value x == dec_value y)%Q;
  am_body : exists b z x, unmarshal_body (pa_RequestBody a) = Some b /\
              body_Type b = "spotSend" /\
              EqualFold (body_Destination b) (man_Recipient m) = true /\
              body_Token b = pa_Token a /\
              dec_parse (body_Amount b) = Some z /\ dec_parse (man_PayoutTotal m) = Some x /\
              (dec_value z == dec_value x)%Q /\
              body_Nonce b = pa_Nonce a /\ body_Time b = pa_Nonce a
}.

Lemma validatePreparedPayout_iff target a :
  validatePreparedPayout target a = None <-> action_matches (tgt_Manifest target) a.
Proof.
  unfold validatePreparedPayout. split.
  - intros Hv. repeat (case_match; try discriminate).
    repeat match goal with
      | E : _ || _ = false |- _ => apply orb_false_iff in E as [? ?]
      | E : negb _ = false |- _ => apply negb_false_iff in E
      | E : String.eqb _ _ = true |- _ => apply String.eqb_eq in E
      | E : dec_equal _ _ = true |- _ => apply dec_equal_iff in E
      | E : (_ =? _) = true |- _ => apply Z.eqb_eq in E
      end.
    constructor; eauto 10.
    do 3 eexists. split_and!; eauto.
    + eapply EqualFold_trans; eauto.
    + etransitivity; eauto.
  - intros [Hk Hs Hd (t & Ht & Htok) (x & y & Hx & Hy & Exy) (b & z & x' & Hb & T1 & T2 & T3 & T4 & T5 & T6 & T7 & T8)].
    rewrite Ht, Hx, Hy, Hk, Hs, Hd, Htok, String.eqb_refl. cbn [negb orb].
    rewrite String.eqb_refl. cbn [negb].
    rewrite (proj2 (dec_equal_iff x y) Exy). cbn [negb].
    assert (Hne : string_is_empty (pa_RequestBody a) = false)
      by (destruct (pa_RequestBody a); [discriminate|done]).
    rewrite Hne, Hb, T4, T1, T3, Htok, !String.eqb_refl, T7, T8, !Z.eqb_refl.
    assert (E : x' = y) by congruence. subst x'.
    rewrite (proj2 (dec_equal_iff z x)) by (rewrite T6, Exy; reflexivity).
    rewrite (EqualFold_trans (body_Destination b) (man_Recipient (tgt_Manifest target)) (pa_Destination a));
      [done|done|by rewrite EqualFold_sym].
Qed.

(** The boundary recorded before the payout covers it. *)
Record journal_ok (target : PayoutTargetState) (j : PayoutJournal) : Prop := {
  jo_action : action_matches (tgt_Manifest target) (jrn_Prepared j);
  jo_amounts : exists before amount,
    dec_parse (jrn_TotalBefore j) = Some before /\
    dec_parse (man_PayoutTotal (tgt_Manifest target)) = Some amount /\
    (0 < dec_value amount)%Q /\ (dec_value amount <= dec_value before)%Q;
  jo_attempts : jrn_SubmitAttempts j = 1 \/ jrn_SubmitAttempts j = 2
}.

Lemma validatePayoutJournal_iff target :
  validatePayoutJournal target = None <-> exists j, tgt_Payout target = Some j /\ journal_ok target j.
Proof.
  unfold validatePayoutJournal. destruct (tgt_Payout target) as [j|]; [|naive_solver].
  destruct (validatePreparedPayout target (jrn_Prepared j)) as [e|] eqn:Ev.
  - split; [done|]. intros (j' & [= <-] & [Ha _ _]).
    apply validatePreparedPayout_iff in Ha. congruence.
  - apply validatePreparedPayout_iff in Ev. split.
    + intros E. repeat (case_match; try discriminate).
      exists j. split; [done|]. constructor; [done| |lia].
      do 2 eexists. split_and!; eauto.
      * apply dec_pos_iff. by apply negb_false_iff.
      * by apply dec_less_false.
    + intros (j' & [= <-] & [_ (b & a & Hb & Ha & Hp & Hle) Hs]). rewrite Hb, Ha.
      rewrite (proj2 (dec_neg_false b)) by lra.
      rewrite (proj2 (dec_pos_iff a)) by lra.
      rewrite (proj2 (dec_less_false b a)) by lra. cbn [negb].
      destruct Hs as [-> | ->]; done.
Qed.
End Facts.
