(* ===== verification/Effects.v ===== *)
(** * The dependencies of the funding service

    [internal/funding/ports.go] as an effect signature: one operation per
    method of the interfaces the orchestrator is built from (state store,
    daily store, repository, chain, clock, nonce source, sleeper, notifier)
    and per use of the context and of the random source.  [Panic] stops the
    process; [Schedule] asks which of two goroutines moves next;
    [StackOverflow] is performed when a recursive call exceeds the depth the
    model allows, and the development proves that it never is.

    The operations that read or write the orchestrator's own memory, that
    persist the run state and that raise alerts are defined here too, because
    every other component uses them.  Logger calls have no effect on the
    modelled behaviour and are left out. *)

From S2P Require Import Prelude DecimalSpec Prog Model Clock Report.

(** ** Values exchanged with the dependencies *)

(* go: internal/funding/ports.go 73-78 AlertSeverity *)
Inductive AlertSeverity : Type := AlertSeverityWarning | AlertSeverityCritical.

(* go: internal/funding/ports.go 26-30 StateLoadMetadata *)
Record StateLoadMetadata : Type := mkMetadata {
  meta_RecoveredFromBackup : bool;
  meta_PrimaryInvalid : bool;
  meta_PrimaryError : option error
}.
Definition empty_metadata : StateLoadMetadata := mkMetadata false false None.

(* go: internal/funding/daily_consolidation.go 35-47 DailyConsolidationBuilder *)
Record DailyConsolidationBuilder : Type := mkDailyBuilder {
  dcb_Address : string;
  dcb_ClaimableUSDC : string;
  dcb_ClaimableObserved : bool;
  dcb_ClaimableQueryAttempts : Z;
  dcb_ClaimAttempts : Z;
  dcb_ClaimUncertain : bool;
  dcb_ClaimStatus : ReportStepStatus;
  dcb_ClaimSummary : string;
  dcb_SweepAmount : string;
  dcb_SweepStatus : ReportStepStatus;
  dcb_SweepSummary : string
}.

(* go: internal/funding/daily_consolidation.go 26-33 DailyConsolidation *)
Record DailyConsolidation : Type := mkDailyConsolidation {
  dc_UTCDate : string;
  dc_Status : DailyConsolidationStatus;
  dc_StartedAt : Z;
  dc_ClaimablesCapturedAt : Z;
  dc_CompletedAt : Z;
  dc_Builders : list DailyConsolidationBuilder
}.

(** ** The signature *)

(* go: internal/funding/ports.go 14-78 Chain *)
Inductive FundingOp `{DecimalOps} : Type :=
| CanonicalUSDC
| ClaimableUSDC (address : string) (token : Token)
| SpotBalance (address : string) (token : Token)
| QueryUserRateLimit (address : string)
| PrepareClaim (builder : string) (nonce : Z)
| PrepareSpotSend (from destination : string) (token : Token) (amount : decimal) (nonce : Z)
| Submit (action : PreparedAction)
| ListPending
| Complete (ids : list Z)
| LoadWithMetadata
| Save (state : RunState)
| Archive (state : RunState) (outcome : string)
| Clear
| LoadDailyConsolidation (utcDate : string)
| SaveDailyConsolidation (record : DailyConsolidation)
| Now
| NextNonce
| Sleep (delay : Z)
| RandRead (bytes : Z)
| CtxErr
| Alert (key : string) (severity : AlertSeverity) (message : string)
| Report (report : RunReport)
| Schedule
| Panic
| StackOverflow.

(* go: internal/funding/ports.go 14-78 Chain *)
Definition FundingResp `{DecimalOps} (o : FundingOp) : Type :=
  match o with
  | CanonicalUSDC => result Token
  | ClaimableUSDC _ _ => result decimal
  | SpotBalance _ _ => result SpotBalanceAmounts
  | QueryUserRateLimit _ => result UserRateLimit
  | PrepareClaim _ _ | PrepareSpotSend _ _ _ _ _ => result PreparedAction
  | Submit _ => SubmitResult * option error
  | ListPending => result (list FundingRecord)
  | Complete _ | Save _ | Archive _ _ | Clear | SaveDailyConsolidation _ | Sleep _ | CtxErr => option error
  | LoadWithMetadata => result (option RunState * StateLoadMetadata)
  | LoadDailyConsolidation _ => result (option DailyConsolidation)
  | Now | NextNonce => Z
  | RandRead _ => result (list Z)
  | Alert _ _ _ | Report _ => unit
  | Schedule => bool
  | Panic | StackOverflow => Empty_set
  end.

#[export] Instance FundingSig `{DecimalOps} : EffSig := {| Op := FundingOp; Resp := FundingResp |}.

(** ** The orchestrator *)

(** The parts of the orchestrator that do not change. *)
(* go: internal/funding/orchestrator.go 35-53 Orchestrator *)
Record Config : Type := mkConfig {
  cfg_builders : list string;
  cfg_builderNames : gmap string string;
  cfg_settlement : string;
  cfg_recipient : string;
  cfg_network : string;
  cfg_notifier : bool
}.

(** The memory the methods share: the run state and the report they receive
    as pointers, and the alert tables of the orchestrator. *)
(* go: internal/funding/orchestrator.go 35-53 Orchestrator *)
Record Mem : Type := mkMem {
  m_state : RunState;
  m_report : RunReport;
  m_alerts : gset string;
  m_lowLimits : gset string
}.

#[export] Instance Mem_settable : Settable Mem := fun m =>
  mkMem (m_state m) (m_report m) (m_alerts m) (m_lowLimits m).

Definition empty_report : RunReport :=
  newRunReport zero_time (TriggerOther "") (mkExecution 0 0 false) "" [] ∅ "" "".

Section Effects.
Context `{DecimalOps}.

(** Computations of the orchestrator. *)
Definition F (A : Type) : Type := M (Sig := FundingSig) Mem A.

(** An operation with its response. *)
Definition op (o : FundingOp) : F (FundingResp o) := call (Sig := FundingSig) o.

Lemma wpM_op {W : Type} (P : protocol W) w s (o : FundingOp) (Q : FundingResp o -> Mem -> W -> Prop) :
  allowed P w o -> (forall (r : FundingResp o) w', step P w o r w' -> Q r s w') -> wpM P w s (op o) Q.
Proof. exact (wpM_call P w s o Q). Qed.

Definition set_report (f : RunReport -> RunReport) : F unit := modify (fun m => m <| m_report ::= f |>).
Definition set_state (f : RunState -> RunState) : F unit := modify (fun m => m <| m_state ::= f |>).
Definition the_report : F RunReport := gets m_report.
Definition the_state : F RunState := gets m_state.

Definition empty_target : PayoutTargetState :=
  mkTarget (PayoutKindOther "") (PhaseOther "") empty_manifest None "" "".

(** Reading and writing through the pointer [&state.Targets[0]] that
    [activePayoutTarget] returns. *)
Definition first_target (s : RunState) : PayoutTargetState := default empty_target (head (run_Targets s)).
Definition the_target : F PayoutTargetState := gets (fun m => first_target (m_state m)).
Definition set_target (f : PayoutTargetState -> PayoutTargetState) : F unit := set_state (update_target f).

(** [*p]: a nil pointer stops the process. *)
Definition deref {A : Type} (p : option A) : F A :=
  match p with
  | Some a => mret a
  | None => op Panic ≫= (fun e : Empty_set => match e with end)
  end.

Definition stack_overflow {A : Type} : F A := op StackOverflow ≫= (fun e : Empty_set => match e with end).

(** [if err := m; err != nil { h; return err'}; k]: the error handler [h]
    receives the error. *)
Definition on_error (m : F (option error)) (h : error -> F (option error)) (k : F (option error)) : F (option error) :=
  e ← m; match e with Some err => h err | None => k end.

Definition fail_with (e : error) : F (option error) := mret (Some e).
Definition success : F (option error) := mret None.

(** *** Alerts *)

(* go: internal/funding/orchestrator.go 1413-1417 alert *)
Definition alert (cfg : Config) (key : string) (severity : AlertSeverity) (message : string) : F unit :=
  if cfg_notifier cfg then op (Alert key severity message) else mret tt.

(* go: internal/funding/orchestrator.go 1419-1434 alertOnce *)
Definition alertOnce (cfg : Config) (runID key : string) (severity : AlertSeverity) (message : string) : F unit :=
  let dedupeKey := runID +:+ ":" +:+ key in
  alerts ← gets m_alerts;
  if decide (dedupeKey ∈ alerts) then mret tt
  else
    modify (fun m => m <| m_alerts ::= (fun s => {[dedupeKey]} ∪ s) |>) ;;
    alert cfg dedupeKey severity message.

(* go: internal/funding/orchestrator.go 1436-1444 forgetAlerts *)
Definition forgetAlerts (runID : string) : F unit :=
  modify (fun m => m <| m_alerts ::= filter (fun key => HasPrefix key (runID +:+ ":") = false) |>).

(** *** The run state *)

(* go: internal/funding/manifest.go 47-53 NewRunID *)
Definition NewRunID : F (result string) :=
  value ← op (RandRead 8);
  mret (match value with
        | Err err => Err (Wrapf "generate run ID: %w" [] err)
        | Ok bytes => Ok (hex_encode bytes)
        end).

(* go: internal/funding/orchestrator.go 1300-1307 newState *)
Definition newState (trigger : Trigger) : F (result RunState) :=
  runID ← NewRunID;
  match runID with
  | Err err => mret (Err err)
  | Ok runID =>
      now ← op Now;
      mret (Ok (empty_run <| run_RunID := runID |> <| run_Trigger := trigger |>
                 <| run_UTCDate := FormatDateOnly now |> <| run_CreatedAt := now |>
                 <| run_UpdatedAt := now |>))
  end.

(* go: internal/funding/orchestrator.go 1321-1338 saveState *)
Definition saveState : F (option error) :=
  now ← op Now;
  set_state (fun s => s <| run_UpdatedAt := now |>) ;;
  state ← the_state;
  op (Save state).

(* go: internal/funding/orchestrator.go 1309-1319 saveActivePhase *)
Definition saveActivePhase (phase : Phase) : F (option error) :=
  state ← the_state;
  match activePayoutTarget state with
  | Err err => mret (Some err)
  | Ok None => mret (Some (Errorf "cannot persist phase %q without an active payout target" [phase_string phase]))
  | Ok (Some _) =>
      set_target (fun t => t <| tgt_Phase := phase |>) ;;
      saveState
  end.

(** The pointer and the metadata; on an error both are empty. *)
(* go: internal/funding/orchestrator.go 1462-1505 loadCurrent *)
Definition loadCurrent (cfg : Config) : F (result (option RunState * StateLoadMetadata)) :=
  loaded ← op LoadWithMetadata;
  match loaded with
  | Err err => mret (Err err)
  | Ok (current, metadata) =>
      (if meta_RecoveredFromBackup metadata then
         let runID := match current with
                      | Some c => if string_is_empty (run_RunID c) then "state-store" else run_RunID c
                      | None => "state-store"
                      end in
         alertOnce cfg runID "state_corruption" AlertSeverityWarning "funding state recovered from backup"
       else mret tt) ;;
      mret (Ok (current, metadata))
  end.

(* go: internal/funding/orchestrator.go 1507-1513 decimalFromString *)
Definition decimalFromString (value : string) : result decimal :=
  match NewFromString value with
  | Err err => Err (Wrapf "parse persisted payout total: %w" [] err)
  | Ok parsed => Ok parsed
  end.
End Effects.

(** ** Goroutines

    A fan-out starts one goroutine per account and waits for all of them.
    Their operations interleave: [Schedule] picks, at every step, which of the
    two sides moves. *)

Section Goroutines.
Context `{DecimalOps}.

Fixpoint interleave {A B : Type} (m : prog A) : prog B -> prog (A * B) :=
  fix inner (n : prog B) : prog (A * B) :=
    match m, n with
    | Ret a, _ => prog_bind n (fun b => Ret (a, b))
    | Call _ _, Ret b => prog_bind m (fun a => Ret (a, b))
    | Call o k, Call o' k' =>
        Call (Schedule : Op) (fun left : bool =>
          if left then Call o (fun r => interleave (k r) n) else Call o' (fun r => inner (k' r)))
    end.

Fixpoint goroutines {A : Type} (ms : list (prog A)) : prog (list A) :=
  match ms with
  | [] => Ret []
  | m :: rest => prog_bind (interleave m (goroutines rest)) (fun '(a, l) => Ret (a :: l))
  end.

(** The results, in the order of the goroutines. *)
Definition spawn {A : Type} (ms : list (prog A)) : F (list A) :=
  fun s => prog_bind (goroutines ms) (fun l => Ret (l, s)).

Lemma ops_in_interleave {A B : Type} (P : Op -> Prop) (m : prog A) (n : prog B) :
  P (Schedule : Op) -> ops_in P m -> ops_in P n -> ops_in P (interleave m n).
Proof.
  intros HS. revert n. induction m as [a|o k IHm].
  - intros n _ Hn. destruct n; simpl; [done|]. destruct Hn as [Ho Hn]. split; [done|].
    intros r. by apply ops_in_bind.
  - intros n [Ho Hk] Hn. induction n as [b|o' k' IHn].
    + simpl. split; [done|]. intros r. by apply ops_in_bind.
    + destruct Hn as [Ho' Hk']. simpl. split; [done|]. intros [|].
      * split; [done|]. intros r. by apply IHm.
      * split; [done|]. intros r. by apply IHn.
Qed.

Lemma ops_in_goroutines {A : Type} (P : Op -> Prop) (ms : list (prog A)) :
  P (Schedule : Op) -> Forall (ops_in P) ms -> ops_in P (goroutines ms).
Proof.
  intros HS. induction 1 as [|m ms Hm _ IH]; simpl; [done|].
  apply ops_in_bind; [by apply ops_in_interleave|]. by intros [a l].
Qed.

(** Goroutines that each follow a discipline of histories follow it
    together. *)
Lemma history_interleave {A B : Type} permits (h : list (event FundingSig)) (m : prog A) (n : prog B) :
  (forall h h' o, h ⊆ h' -> permits h o -> permits h' o) -> (forall h, permits h (Schedule : Op)) ->
  wp (history permits) h m (fun _ _ => True) -> wp (history permits) h n (fun _ _ => True) ->
  wp (history permits) h (interleave m n) (fun _ _ => True).
Proof.
  intros Hmono HS. revert h n. induction m as [a|o k IHm]; intros h n Hm Hn.
  - assert (wp (history permits) h (prog_bind n (fun b => Ret (a, b))) (fun _ _ => True)) by by apply wp_bind.
    by destruct n.
  - revert h Hm Hn. induction n as [b|o' k' IHn]; intros h Hm Hn.
    + change (wp (history permits) h (prog_bind (Call o k) (fun a => Ret (a, b))) (fun _ _ => True)).
      by apply wp_bind.
    + simpl. split; [apply HS|]. intros [|] h' ->.
      * destruct Hm as [Ho Hk]. split; [eapply Hmono; [|exact Ho]; set_solver|]. intros r h' ->. apply IHm.
        -- eapply history_mono; [done|done| |by apply Hk]. set_solver.
        -- eapply history_mono; [done|done| |exact Hn]. set_solver.
      * destruct Hn as [Ho Hk]. split; [eapply Hmono; [|exact Ho]; set_solver|]. intros r h' ->. apply IHn.
        -- eapply history_mono; [done|done| |exact Hm]. set_solver.
        -- eapply history_mono; [done|done| |by apply Hk]. set_solver.
Qed.

Lemma history_bind_op {B : Type} permits h (o : FundingOp) (f : FundingResp o -> F B) R :
  permits h o -> (forall r : FundingResp o, historyM permits (Ev (o : Op) r :: h) (f r) R) ->
  historyM permits h (op o ≫= f) R.
Proof. intros Ho Hf s. split; [done|]. intros r h' ->. apply Hf. Qed.

Lemma history_bind_report {B : Type} permits h (g : RunReport -> RunReport) (f : unit -> F B) R :
  historyM permits h (f tt) R -> historyM permits h (set_report g ≫= f) R.
Proof. intros Hf s. apply Hf. Qed.

Lemma history_bind_the_report {B : Type} permits h (f : RunReport -> F B) R :
  (forall report, historyM permits h (f report) R) -> historyM permits h (the_report ≫= f) R.
Proof. intros Hf s. apply Hf. Qed.

Lemma follows_spawn {A B : Type} permits h (f : A -> prog B) (l : list A) :
  (forall h h' o, h ⊆ h' -> permits h o -> permits h' o) -> (forall h, permits h (Schedule : Op)) ->
  (forall x, x ∈ l -> wp (history permits) h (f x) (fun _ _ => True)) ->
  follows permits h (spawn (map f l)).
Proof.
  intros Hmono HS Hf s. apply wp_bind. simpl. induction l as [|x l IH]; simpl; [done|].
  apply wp_bind. eapply wp_mono; [by intros [a l'] w'|].
  apply history_interleave; [done|done|apply Hf; left|].
  apply IH. intros y Hy. apply Hf. by right.
Qed.

Lemma count_le_interleave {A B : Type} (P : Op -> bool) n n' (m : prog A) (m' : prog B) :
  P (Schedule : Op) = false -> count_le P n m -> count_le P n' m' -> count_le P (n + n') (interleave m m').
Proof.
  intros HS. revert n n' m'. induction m as [a|o k IHm].
  - intros n n' m' _ Hm. assert (count_le P (n' + 0) (prog_bind m' (fun b => Ret (a, b)))) as Hb
      by by apply count_le_bind.
    destruct m'; (eapply count_le_mono; [|exact Hb]); lia.
  - intros n n' m' Hm Hm'. revert n' Hm'. induction m' as [b|o' k' IHn]; intros n' Hm'.
    + apply (count_le_mono P (n + 0)); [lia|]. change (count_le P (n + 0)
        (prog_bind (Call o k) (fun a => Ret (a, b)))). by apply count_le_bind.
    + simpl. rewrite HS. intros [|].
      * simpl in Hm. simpl. destruct (P o); [|intros r; by apply IHm].
        destruct n; [done|]. simpl. intros r. by apply IHm.
      * simpl in Hm'. simpl. destruct (P o') eqn:E; [|intros r; by apply IHn].
        destruct n'; [done|]. rewrite Nat.add_succ_r. intros r. by apply IHn.
Qed.

(** The bounds of the goroutines add up. *)
Lemma count_le_goroutines {A B : Type} (P : Op -> bool) (f : A -> prog B) (bound : A -> nat) (l : list A) :
  P (Schedule : Op) = false -> (forall x, count_le P (bound x) (f x)) ->
  count_le P (list_sum (map bound l)) (goroutines (map f l)).
Proof.
  intros HS Hf. induction l as [|x l IH]; simpl; [done|].
  apply (count_le_mono P ((bound x + list_sum (map bound l)) + 0)); [lia|].
  apply count_le_bind; [by apply count_le_interleave|]. by intros [a l'].
Qed.

Lemma countM_spawn {A B : Type} (P : Op -> bool) (f : A -> prog B) (bound : A -> nat) (l : list A) :
  P (Schedule : Op) = false -> (forall x, count_le P (bound x) (f x)) ->
  countM P (list_sum (map bound l)) (spawn (map f l)).
Proof.
  intros HS Hf s. apply (count_le_mono P (list_sum (map bound l) + 0)); [lia|].
  apply count_le_bind; [by apply count_le_goroutines|done].
Qed.

Lemma opsM_spawn_map {A B : Type} (P : Op -> Prop) (f : A -> prog B) (l : list A) :
  P (Schedule : Op) -> (forall x, x ∈ l -> ops_in P (f x)) -> opsM P (spawn (map f l)).
Proof.
  intros HS Hf s. apply ops_in_bind; [|done]. apply ops_in_goroutines; [done|].
  apply Forall_forall. intros m Hm. apply list_elem_of_fmap in Hm as (x & -> & Hx). by apply Hf.
Qed.

Lemma opsM_on_error (P : Op -> Prop) (m : F (option error)) h k :
  opsM P m -> (forall e, opsM P (h e)) -> opsM P k -> opsM P (on_error m h k).
Proof. intros Hm Hh Hk. apply opsM_bind; [done|]. intros [e|]; [apply Hh|apply Hk]. Qed.

Lemma opsM_op (P : Op -> Prop) (o : FundingOp) : P o -> opsM P (op o).
Proof. intros Ho. by apply (opsM_call P). Qed.

Lemma opsM_fail_with (P : Op -> Prop) e : opsM P (fail_with e).
Proof. done. Qed.

Lemma opsM_success (P : Op -> Prop) : opsM P success.
Proof. done. Qed.

Lemma opsM_set_report (P : Op -> Prop) f : opsM P (set_report f).
Proof. done. Qed.

Lemma opsM_the_report (P : Op -> Prop) : opsM P the_report.
Proof. done. Qed.

End Goroutines.

#[export] Hint Resolve opsM_fail_with opsM_success opsM_set_report opsM_the_report : ops.
#[export] Hint Extern 1 (opsM _ (op _)) => apply opsM_op; exact I : ops.
#[export] Hint Extern 1 (opsM _ (op _)) => apply opsM_op; reflexivity : ops.
