(* ===== verification/Payout.v ===== *)
(** * Payout execution

    [internal/funding/payout.go] and the payout half of
    [internal/funding/orchestrator.go]: from a snapshot of the pending records
    to the durable intent, the submission of the signed request, the bounded
    observation of an ambiguous result, the single exact replay and the three
    ways a payout ends (confirmed, rejected, blocked).

    The methods call each other recursively ([completeDatabase] returns
    through [runActiveTarget]; an observation may end in a replay, which is
    observed again).  The bodies are written with the callee as a parameter
    and closed by a depth counter; [PayoutSafety] shows the counter is never
    used up. *)

From S2P Require Import Prelude DecimalSpec Prog Model Amount Clock Report ActionValidation Effects.

(* go: internal/funding/payout.go 22-22 payoutBalanceObservationAttempts *)
Definition payoutBalanceObservationAttempts : Z := 10.
(* go: internal/funding/payout.go 23-23 payoutBalanceQueryAttempts *)
Definition payoutBalanceQueryAttempts : nat := 20.
(* go: internal/funding/payout.go 24-24 payoutBalanceRequiredConfirmations *)
Definition payoutBalanceRequiredConfirmations : Z := 2.
(* go: internal/funding/payout.go 25-25 payoutBalanceObservationInterval *)
Definition payoutBalanceObservationInterval : Z := Second.
(* go: internal/funding/orchestrator.go 66-66 settlementBalanceQueryAttempts *)
Definition settlementBalanceQueryAttempts : nat := 5.
(* go: internal/funding/orchestrator.go 67-67 settlementBalanceQueryInterval *)
Definition settlementBalanceQueryInterval : Z := Second.
(* go: internal/funding/orchestrator.go 68-68 settlementBalanceRequiredConfirmations *)
Definition settlementBalanceRequiredConfirmations : Z := 2.

(* go: internal/funding/payout.go 301-307 payoutSettlementBoundaries *)
Definition payoutSettlementBoundaries `{DecimalOps} (before amount : decimal) : decimal * decimal * bool :=
  let withoutFee := dec_sub before amount in
  let withFee := dec_sub withoutFee (dec_of_int 1) in
  (withoutFee, withFee, negb (dec_neg withFee)).

(* go: internal/funding/payout.go 309-318 payoutSettlementEvidence *)
Definition payoutSettlementEvidence `{DecimalOps} (total before amount : decimal) : string * bool :=
  let '(withoutFee, withFee, feeBoundaryAvailable) := payoutSettlementBoundaries before amount in
  if negb (dec_neg withoutFee) && dec_equal total withoutFee then ("settlement_balance_decreased", true)
  else if feeBoundaryAvailable && dec_equal total withFee
  then ("settlement_balance_decreased_with_activation_fee", true)
  else ("", false).

(* go: internal/funding/payout.go 435-446 payoutEvidenceSummary *)
Definition payoutEvidenceSummary (evidence : string) : string :=
  if String.eqb evidence "exchange_response" then "Exchange 明确确认"
  else if String.eqb evidence "settlement_balance_decreased" then "Settlement 达到预期付款后余额"
  else if String.eqb evidence "settlement_balance_decreased_with_activation_fee"
  then "Settlement 达到含 1 USDC 新地址费用的预期余额"
  else "Payout 已确认".

Definition empty_settlement_report : SettlementBalanceReport :=
  mkSettlementReport "" "" "" "" false false false.

(* go: internal/funding/report_observation.go 161-172 markSettlementPayoutUnconfirmed *)
Definition markSettlementPayoutUnconfirmed (kind : PayoutKind) (r : RunReport) : RunReport :=
  let address := sb_Address (rep_SettlementBalance r) in
  let '(r, address) :=
    if string_is_empty (TrimSpace address)
    then let r := ensure_target kind r in
         (r, match target_report kind r with Some t => pr_Settlement (ptr_Payout t) | None => "" end)
    else (r, address) in
  r <| rep_SettlementBalance :=
         empty_settlement_report <| sb_Address := address |> <| sb_PostPayoutUnconfirmed := true |> |>.

Section Payout.
Context `{DecimalOps}.
Variable cfg : Config.

(** The kind of the active target, for the report updates. *)
Definition the_kind : F PayoutKind := t ← the_target; mret (tgt_Kind t).

Definition target_failed (stage summary next : string) : F unit :=
  kind ← the_kind; set_report (failTarget kind stage summary next).

Definition set_payout_status (status : ReportStepStatus) : F unit :=
  kind ← the_kind;
  set_report (update_payout_report kind (fun p => p <| pr_Status := status |>)).

Definition sync_report : F unit := state ← the_state; set_report (syncState state).

(* go: internal/funding/orchestrator.go 1394-1411 finishRun *)
Definition finishRun : F (option error) :=
  state ← the_state;
  on_error (op (Archive state "completed")) (fun err =>
    set_report (fail_report "finalize" "运行历史归档失败。" "请检查 data/history 目录和文件系统状态。") ;;
    fail_with err) (
  on_error (op Clear) (fun err =>
    set_report (fail_report "finalize" "已完成运行的 current 状态清理失败。" "请检查 data 目录并保留现场。") ;;
    fail_with err) (
  set_report (setStage "finalize" ReportStepSuccess "运行状态已归档并清理") ;;
  sync_report ;;
  forgetAlerts (run_RunID state) ;;
  success)).

(* go: internal/funding/orchestrator.go 1340-1392 completeDatabase *)
Definition completeDatabase_body (runActiveTarget : F (option error)) : F (option error) :=
  state ← the_state;
  target ← the_target;
  let kind := tgt_Kind target in
  let ids := map rec_ID (man_Records (tgt_Manifest target)) in
  on_error (op (Complete ids)) (fun err =>
    alertOnce cfg (run_RunID state) (kind_string kind +:+ "_database_completion_failed")
      AlertSeverityWarning "funding database completion failed" ;;
    target_failed "database" "MySQL funding records 未能标记完成。"
      "Payout 状态是安全的；服务会持续重试数据库操作，请检查 MySQL 可用性。" ;;
    fail_with err) (
  set_target (fun t => t <| tgt_Phase := PhaseCompleted |>) ;;
  (let '(status, summary) :=
     match ids with
     | [] => (ReportStepSkipped, "没有待完成记录")
     | _ => (ReportStepSuccess, itoa (Z.of_nat (length ids)) +:+ " 条记录已完成")
     end in
   set_report (setTargetStage kind "database" status summary) ;;
   set_report (update_target_report kind (fun t => t <| ptr_DatabaseStatus := status |>))) ;;
  on_error saveState (fun err =>
    target_failed "database" "数据库已完成，但目标完成状态持久化失败。"
      "数据库 Complete 可安全幂等重试；请检查 data 目录和文件系统状态。" ;;
    fail_with err) (
  sync_report ;;
  runActiveTarget)).

(** ** Ends of a payout *)

Section Ends.
Variable completeDatabase : F (option error).

(* go: internal/funding/payout.go 320-352 confirmPayout *)
Definition confirmPayout (evidence : string) : F (option error) :=
  set_target (fun t => t <| tgt_BlockedReason := "" |> <| tgt_ConfirmationEvidence := evidence |>) ;;
  on_error (saveActivePhase PhasePayoutConfirmed) (fun err =>
    target_failed "payout" "Payout 已确认，但确认状态持久化失败。" "请保留现场并核查链上付款，禁止直接重发。" ;;
    set_payout_status ReportStepSuccess ;;
    fail_with err) (
  target ← the_target;
  set_payout_status ReportStepSuccess ;;
  set_report (update_payout_report (tgt_Kind target) (fun p => p <| pr_ConfirmationEvidence := evidence |>)) ;;
  set_report (fun r =>
    if sb_PostPayoutUnconfirmed (rep_SettlementBalance r)
    then r <| rep_SettlementBalance := empty_settlement_report <| sb_Address := man_Settlement (tgt_Manifest target) |> |>
    else r) ;;
  set_report (setTargetStage (tgt_Kind target) "payout" ReportStepSuccess (payoutEvidenceSummary evidence)) ;;
  sync_report ;;
  completeDatabase).

(** [for snapshot := 0; snapshot < 2; snapshot++]: both rotating
    snapshots are advanced to [phase]. *)
Definition save_both (phase : Phase) : F (option error) :=
  on_error (saveActivePhase phase) fail_with (saveActivePhase phase).

(* go: internal/funding/payout.go 354-392 rejectPayout *)
Definition rejectPayout : F (option error) :=
  let reason := explicitlyRejectedPayoutBlockedReason in
  set_payout_status ReportStepFailed ;;
  set_report (fun r => r <| rep_Outcome := "rejected" |>) ;;
  target_failed "payout" "Payout 被 Hyperliquid 明确拒绝，已确认没有发生付款。"
    "修复拒绝原因后可以重启服务；数据库记录仍保持 pending。" ;;
  set_target (fun t => t <| tgt_BlockedReason := reason |>) ;;
  on_error (save_both PhaseBlocked) (fun err =>
    target_failed "payout" "Payout 被明确拒绝，拒绝状态持久化失败。" "请保留现场并检查 data 目录。" ;;
    fail_with (FatalError (Wrapf "persist rejected payout state: %w" [] err))) (
  sync_report ;;
  state ← the_state;
  on_error (op (Archive state "rejected")) (fun err =>
    set_report (fail_report "finalize" "明确拒绝现场归档失败。" "请检查 data/history 目录并保留 current 状态。") ;;
    fail_with (FatalError (Wrapf "archive rejected payout: %w" [] err))) (
  on_error (op Clear) (fun err =>
    set_report (fail_report "finalize" "明确拒绝现场已归档，但 current 状态清理失败。" "请检查 data 目录并保留现场。") ;;
    fail_with (FatalError (Wrapf "clear rejected payout state: %w" [] err))) (
  set_report (setStage "finalize" ReportStepSuccess "明确拒绝现场已归档并清理") ;;
  alertOnce cfg (run_RunID state) "payout_rejected" AlertSeverityCritical reason ;;
  fail_with (FatalError (Errorf "%s" [reason]))))).

(* go: internal/funding/payout.go 394-428 blockUncertainPayout *)
Definition blockUncertainPayout (reason alertKey : string) : F (option error) :=
  set_payout_status ReportStepFailed ;;
  set_report (fun r => r <| rep_Outcome := "blocked" |>) ;;
  target_failed "payout" "Payout 结果仍不确定，Settlement total 未能稳定达到任一精确付款后余额。"
    "已停止观察和重试；请结合最终报告与持久化的完整请求，核查 nonce 与 Settlement 余额。" ;;
  set_target (fun t => t <| tgt_BlockedReason := reason |>) ;;
  on_error (save_both PhaseBlocked) (fun err =>
    target_failed "payout" "Payout 结果不确定，且 blocked 状态持久化失败。" "立即停止服务并保留现场，禁止重发。" ;;
    fail_with (FatalError (Wrapf "persist blocked payout state: %w" [] err))) (
  sync_report ;;
  state ← the_state;
  on_error (op (Archive state "blocked")) (fun err =>
    set_report (fail_report "finalize" "Blocked Payout 现场归档失败。" "请检查 data/history 目录并保留 current 状态。") ;;
    fail_with (FatalError (Wrapf "archive blocked payout: %w" [] err))) (
  set_report (setStage "finalize" ReportStepSuccess "Blocked 现场已归档，current 已保留") ;;
  alertOnce cfg (run_RunID state) alertKey AlertSeverityCritical reason ;;
  fail_with (FatalError (Errorf "%s" [reason])))).

(** ** Observing an ambiguous result *)

(** How the observation loop ends. *)
Inductive observation : Type :=
| ObservationStopped (err : error)
| ObservationConfirmed (evidence : string)
| ObservationExhausted (successful queryErrors : Z) (allSuccessfulAtBefore : bool).

(** [queries] is the number of queries left, so that the loop condition
    [queryAttempt <= payoutBalanceQueryAttempts] is [queries <> 0]. *)
(* go: internal/funding/payout.go 214-278 observeUncertainPayout *)
Fixpoint observe_loop (queries : nat) (before amount : decimal) (successful consecutive queryErrors : Z)
    (allAtBefore : bool) (lastEvidence : string) : F observation :=
  match queries with
  | O => mret (ObservationExhausted successful queryErrors allAtBefore)
  | S queries =>
      if negb (successful <? payoutBalanceObservationAttempts)
      then mret (ObservationExhausted successful queryErrors allAtBefore)
      else
        slept ← op (Sleep payoutBalanceObservationInterval);
        match slept with
        | Some err => mret (ObservationStopped err)
        | None =>
            target ← the_target;
            token ← deref (man_Token (tgt_Manifest target));
            answer ← op (SpotBalance (man_Settlement (tgt_Manifest target)) token);
            match answer with
            | Err _ =>
                ctxErr ← op CtxErr;
                match ctxErr with
                | Some err => mret (ObservationStopped err)
                | None => observe_loop queries before amount successful 0 (queryErrors + 1) allAtBefore ""
                end
            | Ok balance =>
                let successful := successful + 1 in
                let allAtBefore := if negb (dec_equal (bal_Total balance) before) then false else allAtBefore in
                let '(evidence, matchesExpected) := payoutSettlementEvidence (bal_Total balance) before amount in
                let '(lastEvidence, consecutive) :=
                  if matchesExpected && String.eqb evidence lastEvidence then (lastEvidence, consecutive + 1)
                  else if matchesExpected then (evidence, 1)
                  else ("", 0) in
                if payoutBalanceRequiredConfirmations <=? consecutive
                then mret (ObservationConfirmed evidence)
                else observe_loop queries before amount successful consecutive queryErrors allAtBefore lastEvidence
            end
        end
  end.

(** Only a journal that reserved one submission may be replayed. *)
(* go: internal/funding/payout.go 280-283 observeUncertainPayout *)
Definition exact_replay_allowed (target : PayoutTargetState) (successful : Z) (allAtBefore : bool) : bool :=
  (bool_decide (tgt_Phase target = PhasePayoutSubmitting) || bool_decide (tgt_Phase target = PhasePayoutPrepared)) &&
  (match tgt_Payout target with Some j => jrn_SubmitAttempts j =? 1 | None => false end) &&
  (successful =? payoutBalanceObservationAttempts) && allAtBefore.

(* go: internal/funding/payout.go 291-295 observeUncertainPayout *)
Definition uncertain_reason (successful queryErrors attempts : Z) : string :=
  uncertainPayoutBlockedReasonPrefix +:+ " after " +:+ itoa successful +:+
  " successful settlement balance observations, " +:+ itoa queryErrors +:+ " query errors, and " +:+
  itoa attempts +:+ " submit attempts".

(* go: internal/funding/payout.go 187-299 observeUncertainPayout *)
Definition observeUncertainPayout_body (replayPreparedPayout : F (option error)) : F (option error) :=
  kind ← the_kind;
  set_report (markSettlementPayoutUnconfirmed kind) ;;
  target ← the_target;
  match validatePayoutJournal target with
  | Some err =>
      target_failed "payout" "持久化的 Payout journal 未通过安全校验。" "请保留 current 状态，禁止直接重发。" ;;
      fail_with (FatalError (Wrapf "validate uncertain payout journal: %w" [] err))
  | None =>
      journal ← deref (tgt_Payout target);
      match decimalFromString (jrn_TotalBefore journal),
            decimalFromString (man_PayoutTotal (tgt_Manifest target)) with
      | Err err, _ | _, Err err => fail_with err
      | Ok before, Ok amount =>
          let '(expectedAfter, _, _) := payoutSettlementBoundaries before amount in
          if dec_neg expectedAfter
          then fail_with (Errorf "expected post-payout settlement total is negative: before %s, payout %s"
                 [dec_string before; dec_string amount])
          else
            seen ← observe_loop payoutBalanceQueryAttempts before amount 0 0 0 true "";
            match seen with
            | ObservationStopped err => fail_with err
            | ObservationConfirmed evidence => confirmPayout evidence
            | ObservationExhausted successful queryErrors allAtBefore =>
                target ← the_target;
                if exact_replay_allowed target successful allAtBefore
                then replayPreparedPayout
                else blockUncertainPayout
                       (uncertain_reason successful queryErrors (jrn_SubmitAttempts journal))
                       "payout_ambiguous"
            end
      end
  end.

(** ** Submitting *)

Section Submitting.
Variable observeUncertainPayout : F (option error).

(* go: internal/funding/payout.go 146-185 submitPayoutAttempt *)
Definition submitPayoutAttempt (exactReplay : bool) : F (option error) :=
  target ← the_target;
  journal ← deref (tgt_Payout target);
  answer ← op (Submit (jrn_Prepared journal));
  set_report (markSubmitted (man_Settlement (tgt_Manifest target))) ;;
  match answer with
  | (outcome, None) =>
      if sr_Accepted outcome then confirmPayout "exchange_response"
      else if negb exactReplay && sr_Rejected outcome then rejectPayout
      else observeUncertainPayout
  | (_, Some _) => observeUncertainPayout
  end.

(* go: internal/funding/payout.go 114-144 replayPreparedPayout *)
Definition replayPreparedPayout_body : F (option error) :=
  target ← the_target;
  match tgt_Payout target with
  | None => fail_with (FatalError (Errorf "exact payout replay is not eligible" []))
  | Some journal =>
      if negb (jrn_SubmitAttempts journal =? 1)
      then fail_with (FatalError (Errorf "exact payout replay is not eligible" []))
      else match validatePayoutJournal target with
           | Some err => fail_with (FatalError (Wrapf "validate exact payout replay: %w" [] err))
           | None =>
               set_target (fun t => t <| tgt_Payout := Some (journal <| jrn_SubmitAttempts := 2 |>) |>
                                      <| tgt_BlockedReason := "" |>) ;;
               on_error (save_both PhasePayoutReplaying) (fun err =>
                 target_failed "payout" "Exact replay 边界持久化失败，未继续发送。"
                   "请保留 current 状态并人工核查；禁止构造新请求。" ;;
                 fail_with (FatalError (Wrapf "persist exact payout replay boundary: %w" [] err))) (
               sync_report ;;
               submitPayoutAttempt true)
           end
  end.

(* go: internal/funding/payout.go 90-112 submitPreparedPayout *)
Definition submitPreparedPayout : F (option error) :=
  state ← the_state;
  target ← the_target;
  match validateTargetProgress state with
  | Some err =>
      target_failed "payout" "Payout 目标状态未通过安全校验。" "请保留 current 状态，禁止直接重发。" ;;
      fail_with (FatalError err)
  | None =>
      match validatePayoutJournal target with
      | Some err =>
          target_failed "payout" "持久化的 Payout journal 未通过安全校验。" "请保留 current 状态，禁止直接重发。" ;;
          fail_with err
      | None =>
          on_error (saveActivePhase PhasePayoutSubmitting) (fun err =>
            target_failed "payout" "无法持久化 Payout submitting 边界，付款未提交。" "请检查 data 目录和文件系统状态。" ;;
            fail_with err) (
          sync_report ;;
          submitPayoutAttempt false)
      end
  end.

(* go: internal/funding/payout.go 46-88 executePayout *)
Definition executePayout (before : SpotBalanceAmounts) (amount : decimal) : F (option error) :=
  state ← the_state;
  target ← the_target;
  let m := tgt_Manifest target in
  set_report (update_payout_report (tgt_Kind target) (fun p =>
    p <| pr_Amount := dec_string amount |> <| pr_SettlementTotalBefore := dec_string (bal_Total before) |>)) ;;
  token ← deref (man_Token m);
  nonce ← op NextNonce;
  answer ← op (PrepareSpotSend (man_Settlement m) (man_Recipient m) token amount nonce);
  match answer with
  | Err err =>
      alertOnce cfg (run_RunID state) "payout_prepare_failed" AlertSeverityWarning "final payout preparation failed" ;;
      target_failed "payout" "Payout 请求准备失败。" "请检查 Settlement signer、Token 和收款地址配置。" ;;
      fail_with err
  | Ok prepared =>
      match validatePreparedPayout target prepared with
      | Some err =>
          target_failed "payout" "Payout 请求未通过安全校验。" "请保留现场并检查不可变 Manifest 和签名请求。" ;;
          fail_with err
      | None =>
          set_report (update_payout_report (tgt_Kind target) (fun p => p <| pr_Nonce := pa_Nonce prepared |>)) ;;
          set_target (fun t => t <| tgt_Payout := Some (mkJournal prepared (dec_string (bal_Total before)) 1) |>) ;;
          on_error (saveActivePhase PhasePayoutPrepared) (fun err =>
            target_failed "payout" "Payout 意图持久化失败，付款未开始。" "请检查 data 目录和文件系统状态。" ;;
            fail_with err) (
          sync_report ;;
          submitPreparedPayout)
      end
  end.
End Submitting.

(** An observation may authorise one replay, whose result is observed in
    turn: [depth] bounds the number of nested observations. *)
Fixpoint observeUncertainPayout (depth : nat) : F (option error) :=
  observeUncertainPayout_body
    (replayPreparedPayout_body
      (match depth with O => stack_overflow | S depth => observeUncertainPayout depth end)).
End Ends.
End Payout.

(** Two observations are the most the code can perform: the second one starts
    with two reserved attempts. *)
Definition observation_depth : nat := 1.
