(* ===== verification/Recovery.v ===== *)
(** * Runs and their recovery

    The rest of [internal/funding/orchestrator.go] and
    [internal/funding/recovery.go]: starting a run from the pending records,
    waiting for a stable and sufficient settlement balance, and resuming a
    run from whatever snapshot survived. *)

From S2P Require Import Prelude DecimalSpec Prog Model Amount Clock Report ActionValidation Effects Payout.

(* go: internal/funding/recovery.go 190-211 markRecoveredPayoutSubmission *)
Definition markRecoveredPayoutSubmission (target : PayoutTargetState) (metadata : StateLoadMetadata)
    (r : RunReport) : RunReport :=
  match tgt_Payout target with
  | None => r
  | Some _ =>
      let possiblySubmitted :=
        match tgt_Phase target with
        | PhasePayoutSubmitting | PhasePayoutReplaying | PhasePayoutConfirmed | PhaseBlocked => true
        | PhasePayoutPrepared => meta_RecoveredFromBackup metadata
        | _ => false
        end in
      if possiblySubmitted then markSubmitted (man_Settlement (tgt_Manifest target)) r else r
  end.

Section Recovery.
Context `{DecimalOps}.
Variable cfg : Config.

(** ** Paying a positive total *)

(** How the wait for a stable settlement balance ends. *)
Inductive settlement_wait : Type :=
| WaitStopped (err : error)
| WaitStable (balance : SpotBalanceAmounts)
| WaitExhausted (settlement : option SpotBalanceAmounts) (lastQueryErr : option error) (lastSufficient : bool).

(** [attempts] counts the attempts left; [settlement] is [None] until a
    balance has been observed; [candidate] and [stable] are the balance of
    the current streak of equal reads and its length. *)
(* go: internal/funding/orchestrator.go 250-301 runPositive *)
Fixpoint settlement_loop (attempts : nat) (address : string) (token : Token) (payout : decimal)
    (settlement : option SpotBalanceAmounts) (candidate : option SpotBalanceAmounts) (stable : Z)
    (lastQueryErr : option error) (lastSufficient : bool) : F settlement_wait :=
  match attempts with
  | O => mret (WaitExhausted settlement lastQueryErr lastSufficient)
  | S attempts =>
      let continue settlement candidate stable lastQueryErr lastSufficient :=
        (match attempts with
         | O => mret None
         | S _ => op (Sleep settlementBalanceQueryInterval)
         end) ≫= fun slept =>
        match slept with
        | Some err => mret (WaitStopped err)
        | None => settlement_loop attempts address token payout settlement candidate stable lastQueryErr lastSufficient
        end in
      answer ← op (SpotBalance address token);
      match answer with
      | Ok balance =>
          let sufficient := negb (dec_less (bal_Available balance) payout) in
          let '(candidate, stable) :=
            match candidate with
            | Some c => if (0 <? stable) && sameSpotBalance balance c then (Some c, stable + 1)
                        else (Some balance, 1)
            | None => (Some balance, 1)
            end in
          if sufficient && (settlementBalanceRequiredConfirmations <=? stable)
          then mret (WaitStable balance)
          else continue (Some balance) candidate stable lastQueryErr sufficient
      | Err queryErr => continue settlement candidate 0 (Some queryErr) lastSufficient
      end
  end.

Section Positive.
Variable completeDatabase : F (option error).

(* go: internal/funding/orchestrator.go 238-335 runPositive *)
Definition runPositive : F (option error) :=
  state ← the_state;
  target ← the_target;
  let kind := tgt_Kind target in
  token ← deref (man_Token (tgt_Manifest target));
  match decimalFromString (man_PayoutTotal (tgt_Manifest target)) with
  | Err err =>
      set_report (fail_report "snapshot" "持久化的 Payout 金额无法解析。" "请保留 current 状态并检查数据完整性。") ;;
      fail_with err
  | Ok payout =>
      waited ← settlement_loop settlementBalanceQueryAttempts (man_Settlement (tgt_Manifest target))
                 token payout None None 0 None false;
      match waited with
      | WaitStopped err => fail_with err
      | WaitStable balance =>
          executePayout cfg completeDatabase
            (observeUncertainPayout cfg completeDatabase observation_depth) balance payout
      | WaitExhausted None lastQueryErr _ =>
          set_report (failTarget kind "payout" "Settlement 余额查询失败，无法确认是否满足 Payout。" "") ;;
          alertOnce cfg (run_RunID state) "settlement_balance_query_failed" AlertSeverityWarning
            "settlement spot balance query failed" ;;
          fail_with (Wrapf "query settlement spot balance: %w" [] (default (Errorf "%!w(<nil>)" []) lastQueryErr))
      | WaitExhausted (Some settlement) _ true =>
          alertOnce cfg (run_RunID state) "settlement_balance_unstable" AlertSeverityWarning
            "settlement spot balance did not stabilize before payout" ;;
          set_report (failTarget kind "payout" "Settlement 余额未在有限查询内稳定，未提交 Payout。"
            "请等待余额索引稳定后重试。") ;;
          fail_with (Errorf "settlement balance did not stabilize before payout" [])
      | WaitExhausted (Some settlement) _ false =>
          alertOnce cfg (run_RunID state) "settlement_underfunded" AlertSeverityWarning
            "settlement available balance is below required payout" ;;
          set_report (failTarget kind "payout"
            ("Settlement 可用余额 " +:+ dec_string (bal_Available settlement) +:+
             " USDC，低于所需的 " +:+ dec_string payout +:+ " USDC。") "") ;;
          fail_with (Errorf "settlement available balance %s is below required payout total %s"
            [dec_string (bal_Available settlement); dec_string payout])
      end
  end.

(** The case analysis that [runActiveTarget] and [recoverState] share for
    a target that has not been paid. *)
Definition run_prepared (target : PayoutTargetState) : F (option error) :=
  match man_Records (tgt_Manifest target) with
  | [] => set_report (markTargetNoData (tgt_Kind target)) ;; completeDatabase
  | _ =>
      if String.eqb (man_PayoutTotal (tgt_Manifest target)) "0" then
        set_report (setTargetStage (tgt_Kind target) "payout" ReportStepSkipped "无需付款") ;;
        set_report (update_payout_report (tgt_Kind target) (fun p => p <| pr_Status := ReportStepSkipped |>)) ;;
        completeDatabase
      else runPositive
  end.

(* go: internal/funding/orchestrator.go 218-236 runActiveTarget *)
Definition runActiveTarget_body : F (option error) :=
  state ← the_state;
  match activePayoutTarget state with
  | Err err => fail_with (FatalError err)
  | Ok None => finishRun
  | Ok (Some target) => run_prepared target
  end.
End Positive.

(** [runActiveTarget] and [completeDatabase] call each other: [depth] bounds
    the nesting. *)
Fixpoint runActiveTarget (depth : nat) : F (option error) :=
  runActiveTarget_body
    (completeDatabase_body cfg
      (match depth with O => stack_overflow | S depth => runActiveTarget depth end)).

(** Once the target is completed nothing is left to call. *)
Definition completeDatabase : F (option error) := completeDatabase_body cfg (runActiveTarget 0).

(** ** A new run *)

(** The end of [runNew]: the prepared snapshot is made durable before
    anything is paid. *)
(* go: internal/funding/orchestrator.go 205-215 runNew *)
Definition start_run (totalRecords : Z) (payout : decimal) : F (option error) :=
  set_report (fun r => r <| rep_Outcome := "completed" |>) ;;
  sync_report ;;
  set_report (setStage "snapshot" ReportStepSuccess
    (itoa totalRecords +:+ " 条记录，Referral Payout " +:+ dec_string payout +:+ " USDC")) ;;
  on_error (saveActivePhase PhasePrepared) (fun err =>
    set_report (fail_report "snapshot" "资金快照持久化失败。" "请检查本地 data 目录和文件系统状态。") ;;
    fail_with err) (
  sync_report ;;
  runActiveTarget 1).

(* go: internal/funding/orchestrator.go 129-216 runNew *)
Definition runNew (trigger : Trigger) : F (option error) :=
  pending ← op ListPending;
  match pending with
  | Err err =>
      set_report (fail_report "snapshot" "数据库 pending funding records 查询失败。" "请检查 MySQL 可用性与查询权限。") ;;
      fail_with (Wrapf "list referral pending records: %w" [] err)
  | Ok [] =>
      set_report (fun r =>
        r <| rep_RecordsRead := true |> <| rep_RecordCount := 0 |>
          <| rep_RawTotal := "0.000000000000000000" |> <| rep_PayoutTotal := "0" |>
          <| rep_Outcome := "no_data" |>) ;;
      set_report (setStage "snapshot" ReportStepSuccess "没有待处理记录") ;;
      set_report (markTargetNoData PayoutKindReferral) ;;
      set_report (setStage "finalize" ReportStepSkipped "无需持久化运行状态") ;;
      success
  | Ok records =>
      run ← newState trigger;
      match run with
      | Err err => fail_with err
      | Ok run =>
          set_state (fun _ => run) ;;
          sync_report ;;
          let '(manifest, validationErr) :=
            buildManifest (mkManifestInput records None (cfg_settlement cfg) (cfg_recipient cfg)) false in
          set_state (fun s => s <| run_Targets := [mkTarget PayoutKindReferral PhasePrepared manifest None "" ""] |>) ;;
          sync_report ;;
          match validationErr with
          | Some validationErr =>
              set_report (fun r => r <| rep_RawTotal := "" |> <| rep_PayoutTotal := "" |>
                                     <| rep_Outcome := "failed_validation" |>) ;;
              set_report (fail_report "snapshot" "资金记录校验失败。" "请修复数据库中的异常 funding record 后再启动服务。") ;;
              state ← the_state;
              on_error (op (Archive state "failed_validation")) (fun archiveErr =>
                set_report (fail_report "finalize" "异常 funding records 运行归档失败。" "请检查 data/history 目录并保留服务现场。") ;;
                fail_with (FatalError (Wrapf "validate records: %w; archive failure: %v" [] validationErr))) (
              set_report (setStage "finalize" ReportStepSuccess "校验失败现场已归档") ;;
              alertOnce cfg (run_RunID state) "validation_failed" AlertSeverityCritical
                "funding snapshot validation failed" ;;
              fail_with (FatalError validationErr))
          | None =>
              match decimalFromString (man_PayoutTotal manifest) with
              | Err err => fail_with err
              | Ok payout =>
                  (if dec_pos payout then
                     token ← op CanonicalUSDC;
                     match token with
                     | Err tokenErr =>
                         set_report (fail_report "snapshot" "Canonical USDC metadata 查询失败。" "") ;;
                         fail_with tokenErr
                     | Ok token =>
                         set_target (fun t => t <| tgt_Manifest ::= (fun m => m <| man_Token := Some token |>) |>) ;;
                         success
                     end
                   else success) ≫= fun tokenErr =>
                  match tokenErr with
                  | Some tokenErr => fail_with tokenErr
                  | None =>
                      start_run (Z.of_nat (length records)) payout
                  end
              end
          end
      end
  end.

(** ** Resuming a run *)

Definition observe_payout : F (option error) :=
  observeUncertainPayout cfg completeDatabase observation_depth.

(* go: internal/funding/recovery.go 101-188 recoverState *)
Definition recoverState (metadata : StateLoadMetadata) : F (option error) :=
  state ← the_state;
  match activePayoutTarget state with
  | Err targetErr => fail_with (FatalError targetErr)
  | Ok None => finishRun
  | Ok (Some target) =>
      match validateTargetProgress state with
      | Some err => fail_with (FatalError err)
      | None =>
          set_report (markRecoveredPayoutSubmission target metadata) ;;
          match tgt_Phase target with
          | PhasePrepared => run_prepared completeDatabase target
          | PhasePayoutPrepared =>
              if meta_RecoveredFromBackup metadata then observe_payout
              else submitPreparedPayout cfg completeDatabase observe_payout
          | PhasePayoutSubmitting => observe_payout
          | PhasePayoutReplaying => observe_payout
          | PhasePayoutConfirmed =>
              match validateConfirmedPayoutState target with
              | Some err =>
                  set_report (markSettlementPayoutUnconfirmed (tgt_Kind target)) ;;
                  set_payout_status ReportStepFailed ;;
                  set_report (fun r => r <| rep_Outcome := "blocked" |>) ;;
                  target_failed "payout" "已确认 Payout 状态不完整，未更新数据库。"
                    "请保留 current 状态并核查持久化的完整请求、nonce 与付款前余额边界。" ;;
                  fail_with (FatalError (Wrapf "validate confirmed payout state: %w" [] err))
              | None =>
                  set_payout_status ReportStepSuccess ;;
                  set_report (setTargetStage (tgt_Kind target) "payout" ReportStepSuccess "已在此前执行中确认") ;;
                  completeDatabase
              end
          | PhaseBlocked =>
              set_target (fun t => if string_is_empty (tgt_BlockedReason t)
                                   then t <| tgt_BlockedReason := "funding run is blocked" |> else t) ;;
              set_report (markSettlementPayoutUnconfirmed (tgt_Kind target)) ;;
              set_payout_status ReportStepFailed ;;
              set_report (fun r => r <| rep_Outcome := "blocked" |>) ;;
              target_failed "payout" "检测到终态 blocked Payout，任务不会继续观察或重发。"
                "请根据最终报告人工核查；程序不会为该 journal 构造新请求。" ;;
              target ← the_target;
              fail_with (FatalError (Errorf "%s" [tgt_BlockedReason target]))
          | phase => fail_with (Errorf "unsupported persisted funding phase %q for %s"
                       [phase_string phase; kind_string (tgt_Kind target)])
          end
      end
  end.
End Recovery.
