(* ===== verification/ReportObservation.v ===== *)
(** * The settlement balance at the end of a run

    [internal/funding/report_observation.go]: after a run the report records
    the settlement balance; after a successful payout only a balance that
    matches one of the exact post-payout totals, twice in a row, is
    reported. *)

From S2P Require Import Prelude DecimalSpec Prog Model Clock Report Effects Payout.

(** * Observation of the user rate limits

    [internal/funding/rate_limit.go]: at the end of a run the remaining
    request budget of every controlled account is read; an account that just
    acted and sits right above the alert threshold is read again, because the
    first answer may predate its actions. *)

Definition userRateLimitAlertThreshold : Z := 200.
Definition userRateLimitVisibilityActionWindow : Z := 6.
(* go: internal/funding/rate_limit.go 20-20 userRateLimitVisibilityAttempts *)
Definition userRateLimitVisibilityAttempts : nat := 3.
(* go: internal/funding/rate_limit.go 21-21 userRateLimitVisibilityInterval *)
Definition userRateLimitVisibilityInterval : Z := Second.

(* go: internal/funding/rate_limit.go 24-27 controlledAccount *)
Record controlledAccount : Type := mkAccount {
  acc_kind : string;
  acc_address : string
}.

(* go: internal/funding/rate_limit.go 29-33 userRateLimitObservation *)
Record userRateLimitObservation : Type := mkObservation {
  obs_remaining : Z;
  obs_attempts : Z;
  obs_visibilityUnconfirmed : bool
}.

(* go: internal/funding/rate_limit.go 188-191 rateLimitNeedsVisibilityConfirmation *)
Definition rateLimitNeedsVisibilityConfirmation (remaining : Z) : bool :=
  (userRateLimitAlertThreshold <=? remaining) &&
  (remaining <? wrap64 (userRateLimitAlertThreshold + userRateLimitVisibilityActionWindow)).

(* go: internal/funding/rate_limit.go 193-201 accountLabel *)
Definition accountLabel (account : controlledAccount) (r : RunReport) : string :=
  match builder (acc_address account) r with
  | Some b => br_Name b
  | None => if String.eqb (acc_kind account) "settlement" then "Settlement" else acc_kind account
  end.

Section RateLimit.
Context `{DecimalOps}.
Variable cfg : Config.

(** The latch of an account: the result says whether to raise an alert. *)
(* go: internal/funding/rate_limit.go 208-223 updateRateLimitAlert *)
Definition updateRateLimitAlert (address : string) (atRisk : bool) : F bool :=
  let key := address_key address in
  limits ← gets m_lowLimits;
  if negb atRisk then
    modify (fun m => m <| m_lowLimits ::= (fun s => s ∖ {[key]}) |>) ;; mret false
  else if decide (key ∈ limits) then mret false
  else modify (fun m => m <| m_lowLimits ::= (fun s => {[key]} ∪ s) |>) ;; mret true.

(** [more] is the number of further attempts. *)
(* go: internal/funding/rate_limit.go 146-185 observeUserRateLimit *)
Fixpoint visibility_loop (more : nat) (address : string) (observation : userRateLimitObservation)
    : F userRateLimitObservation :=
  let unconfirmed o := mkObservation (obs_remaining o) (obs_attempts o) true in
  match more with
  | O => mret (unconfirmed observation)
  | S more =>
      slept ← op (Sleep userRateLimitVisibilityInterval);
      match slept with
      | Some _ => mret (unconfirmed observation)
      | None =>
          limit ← op (QueryUserRateLimit address);
          let observation := mkObservation (obs_remaining observation) (obs_attempts observation + 1)
                               (obs_visibilityUnconfirmed observation) in
          match limit with
          | Err _ => mret (unconfirmed observation)
          | Ok limit =>
              let remaining := RemainingRequests limit in
              let observation :=
                if remaining <? obs_remaining observation
                then mkObservation remaining (obs_attempts observation) (obs_visibilityUnconfirmed observation)
                else observation in
              if obs_remaining observation <? userRateLimitAlertThreshold
              then mret observation
              else visibility_loop more address observation
          end
      end
  end.

(* go: internal/funding/rate_limit.go 130-186 observeUserRateLimit *)
Definition observeUserRateLimit (account : controlledAccount) (actionSubmitted : bool)
    : F (result userRateLimitObservation) :=
  limit ← op (QueryUserRateLimit (acc_address account));
  match limit with
  | Err err => mret (Err err)
  | Ok limit =>
      let observation := mkObservation (RemainingRequests limit) 1 false in
      if negb actionSubmitted || negb (rateLimitNeedsVisibilityConfirmation (obs_remaining observation))
      then mret (Ok observation)
      else
        observation ← visibility_loop (userRateLimitVisibilityAttempts - 1) (acc_address account) observation;
        mret (Ok observation)
  end.

Definition is_builder (address : string) (r : RunReport) : bool :=
  match builder address r with Some _ => true | None => false end.

(** One iteration of the loop over the accounts. *)
(* go: internal/funding/rate_limit.go 57-126 observeUserRateLimits *)
Definition observe_account (account : controlledAccount) : F unit :=
  report ← the_report;
  answer ← observeUserRateLimit account (submitted (acc_address account) report);
  match answer with
  | Err _ =>
      set_report (fun r =>
        if is_builder (acc_address account) r
        then update_builder (acc_address account) (fun b => b <| br_RateLimitQueryFailed := true |>) r
        else if String.eqb (acc_kind account) "settlement"
        then r <| rep_SettlementRateLimitQueryFailed := true |> else r) ;;
      set_report (fun r => addWarning (accountLabel account r +:+ ": Rate Limit 查询失败") r)
  | Ok observation =>
      let remaining := obs_remaining observation in
      let unconfirmed := obs_visibilityUnconfirmed observation in
      set_report (fun r =>
        if is_builder (acc_address account) r
        then update_builder (acc_address account) (fun b =>
               b <| br_RateLimitObserved := true |> <| br_RateLimitRemaining := remaining |>
                 <| br_RateLimitVisibilityUnconfirmed := unconfirmed |>) r
        else if String.eqb (acc_kind account) "settlement"
        then r <| rep_SettlementRateLimitObserved := true |>
               <| rep_SettlementRateLimitRemaining := remaining |>
               <| rep_SettlementRateLimitVisibilityUnconfirmed := unconfirmed |>
        else r) ;;
      let low := remaining <? userRateLimitAlertThreshold in
      (if low then
         set_report (fun r => addWarning (accountLabel account r +:+ ": Rate Limit 仅剩 " +:+ itoa remaining) r)
       else if unconfirmed then
         set_report (fun r => addWarning (accountLabel account r +:+
           ": Rate Limit 动作后计数未确认刷新（最低观测值 " +:+ itoa remaining +:+ "）") r)
       else mret tt) ;;
      raise ← updateRateLimitAlert (acc_address account) (low || unconfirmed);
      if (raise : bool) then
        let nl := bytes_of [10] in
        let message :=
          if unconfirmed
          then "Hyperliquid user rate limit may be low because post-action visibility was not confirmed" +:+ nl +:+
               "account kind: " +:+ acc_kind account +:+ nl +:+ "address: " +:+ acc_address account +:+ nl +:+
               "lowest observed remaining: " +:+ itoa remaining
          else "Hyperliquid user rate limit is low" +:+ nl +:+
               "account kind: " +:+ acc_kind account +:+ nl +:+ "address: " +:+ acc_address account +:+ nl +:+
               "requests remaining: " +:+ itoa remaining in
        alert cfg ("user_rate_limit_low:" +:+ address_key (acc_address account)) AlertSeverityWarning message
      else mret tt
  end.

(* go: internal/funding/rate_limit.go 45-128 observeUserRateLimits *)
Definition observeUserRateLimits : F unit :=
  report ← the_report;
  let settlement :=
    if string_is_empty (TrimSpace (sb_Address (rep_SettlementBalance report)))
    then cfg_settlement cfg else sb_Address (rep_SettlementBalance report) in
  each (map (mkAccount "builder") (cfg_builders cfg) ++ [mkAccount "settlement" settlement]) observe_account.
End RateLimit.

(* go: internal/funding/report_observation.go 16-16 settlementFinalBalanceObservationAttempts *)
Definition settlementFinalBalanceObservationAttempts : Z := 5.
(* go: internal/funding/report_observation.go 17-17 settlementFinalBalanceQueryAttempts *)
Definition settlementFinalBalanceQueryAttempts : nat := 20.
(* go: internal/funding/report_observation.go 18-18 settlementFinalBalanceObservationInterval *)
Definition settlementFinalBalanceObservationInterval : Z := Second.
(* go: internal/funding/report_observation.go 19-19 settlementFinalBalanceConfirmations *)
Definition settlementFinalBalanceConfirmations : Z := 2.

(** The expected totals of a payout report: [None] when the report does not
    ask for any. *)
(* go: internal/funding/report_observation.go 178-201 postPayoutBalanceBoundaries *)
Definition payout_boundaries `{DecimalOps} (payout : PayoutReport) : option (result (list decimal)) :=
  if negb (bool_decide (pr_Status payout = ReportStepSuccess)) then None
  else match dec_parse (pr_Amount payout), dec_parse (pr_SettlementTotalBefore payout) with
       | Some amount, before =>
           if negb (dec_pos amount) then None
           else match before with
                | None => Some (Err (Errorf "invalid successful payout balance boundary" []))
                | Some totalBefore =>
                    let '(expected, withNewAddressFee, feeBoundaryAvailable) :=
                      payoutSettlementBoundaries totalBefore amount in
                    if dec_neg expected
                    then Some (Err (Errorf "negative successful payout balance boundary" []))
                    else Some (Ok (expected :: (if feeBoundaryAvailable then [withNewAddressFee] else [])))
                end
       | None, _ => Some (Err (Errorf "invalid successful payout balance boundary" []))
       end.

(** The last payout that asks for boundaries decides. *)
(* go: internal/funding/report_observation.go 174-203 postPayoutBalanceBoundaries *)
Definition postPayoutBalanceBoundaries `{DecimalOps} (r : RunReport) : option (result (list decimal)) :=
  List.fold_left (fun found t => match payout_boundaries (ptr_Payout t) with Some b => Some b | None => found end)
    (rep_Payouts r) None.

(* go: internal/funding/report_observation.go 205-212 matchesAnyBalanceBoundary *)
Definition matchesAnyBalanceBoundary `{DecimalOps} (total : decimal) (boundaries : list decimal) : bool :=
  List.existsb (dec_equal total) boundaries.

(* go: internal/funding/report_observation.go 222-232 recordSettlementFinalBalance *)
Definition recordSettlementFinalBalance `{DecimalOps} (settlement : string) (balance : SpotBalanceAmounts)
    (r : RunReport) : RunReport :=
  let hold := dec_sub (bal_Total balance) (bal_Available balance) in
  r <| rep_SettlementBalance :=
         mkSettlementReport settlement (dec_string (bal_Total balance)) (dec_string hold)
           (dec_string (bal_Available balance)) true false false |>.

(* go: internal/funding/report_observation.go 234-252 markSettlementFinalBalanceQueryFailed *)
Definition markSettlementFinalBalanceQueryFailed (settlement : string) (r : RunReport) : RunReport :=
  addWarning "Settlement: 任务结束余额查询失败"
    (r <| rep_SettlementBalance := mkSettlementReport settlement "" "" "" false true false |>).

Definition settlement_unconfirmed (settlement : string) : SettlementBalanceReport :=
  mkSettlementReport settlement "" "" "" false false true.

(* go: internal/funding/report_observation.go 254-268 markSettlementFinalBalanceBoundaryInvalid *)
Definition markSettlementFinalBalanceBoundaryInvalid (settlement : string) (r : RunReport) : RunReport :=
  addWarning "Settlement: Payout 已成功但付款后余额边界无效，任务结束余额无法确认"
    (r <| rep_SettlementBalance := settlement_unconfirmed settlement |>).

Section ReportObservation.
Context `{DecimalOps}.
Variable cfg : Config.

Inductive final_observation : Type :=
| FinalWaitFailed
| FinalConfirmed (balance : SpotBalanceAmounts)
| FinalExhausted (observedAny : bool).

(** [queries] is the number of queries left; [candidate] is the balance of
    the current streak; [limit] is the number of successful observations
    allowed, which grows when the expected value first appears at its
    end. *)
(* go: internal/funding/report_observation.go 67-143 observeSettlementFinalBalance *)
Fixpoint final_loop (queries : nat) (settlement : string) (token : Token) (expectedTotals : list decimal)
    (observedAny : bool) (successful limit : Z) (candidate : option SpotBalanceAmounts) (consecutive : Z)
    : F final_observation :=
  match queries with
  | O => mret (FinalExhausted observedAny)
  | S queries =>
      if negb (successful <? limit) then mret (FinalExhausted observedAny)
      else
        slept ← op (Sleep settlementFinalBalanceObservationInterval);
        match slept with
        | Some _ => mret FinalWaitFailed
        | None =>
            answer ← op (SpotBalance settlement token);
            match answer with
            | Err _ => final_loop queries settlement token expectedTotals observedAny successful limit candidate 0
            | Ok balance =>
                let successful := successful + 1 in
                let matchesExpected := matchesAnyBalanceBoundary (bal_Total balance) expectedTotals in
                let '(candidate, consecutive) :=
                  if matchesExpected then
                    match candidate with
                    | Some c => if (0 <? consecutive) && sameSpotBalance balance c
                                then (Some c, consecutive + 1) else (Some balance, 1)
                    | None => (Some balance, 1)
                    end
                  else (candidate, 0) in
                let limit :=
                  if matchesExpected && (consecutive <? settlementFinalBalanceConfirmations) &&
                     (limit <=? successful) && (limit <? Z.of_nat settlementFinalBalanceQueryAttempts)
                  then limit + 1 else limit in
                if settlementFinalBalanceConfirmations <=? consecutive
                then mret (FinalConfirmed balance)
                else final_loop queries settlement token expectedTotals true successful limit candidate consecutive
            end
        end
  end.

(* go: internal/funding/report_observation.go 22-159 observeSettlementFinalBalance *)
Definition observeSettlementFinalBalance : F unit :=
  report ← the_report;
  if sb_PostPayoutUnconfirmed (rep_SettlementBalance report) then mret tt
  else
    resolved ← (match rep_token report with
                | Some token => mret (Ok token)
                | None => op CanonicalUSDC
                end : F (result Token));
    match resolved with
    | Err _ =>
        set_report (fun r => addWarning "Settlement: 任务结束余额查询失败"
          (r <| rep_SettlementBalance ::= (fun s => s <| sb_QueryFailed := true |>) |>))
    | Ok token =>
        set_report (fun r => r <| rep_token := Some token |>) ;;
        report ← the_report;
        let settlement := TrimSpace (sb_Address (rep_SettlementBalance report)) in
        let settlement := if string_is_empty settlement then cfg_settlement cfg else settlement in
        match postPayoutBalanceBoundaries report with
        | Some (Err _) => set_report (markSettlementFinalBalanceBoundaryInvalid settlement)
        | None =>
            answer ← op (SpotBalance settlement token);
            match answer with
            | Err _ => set_report (markSettlementFinalBalanceQueryFailed settlement)
            | Ok balance => set_report (recordSettlementFinalBalance settlement balance)
            end
        | Some (Ok expectedTotals) =>
            seen ← final_loop settlementFinalBalanceQueryAttempts settlement token expectedTotals false 0
                     settlementFinalBalanceObservationAttempts None 0;
            match seen with
            | FinalWaitFailed => set_report (markSettlementFinalBalanceQueryFailed settlement)
            | FinalConfirmed balance => set_report (recordSettlementFinalBalance settlement balance)
            | FinalExhausted false => set_report (markSettlementFinalBalanceQueryFailed settlement)
            | FinalExhausted true =>
                set_report (fun r =>
                  addWarning "Settlement: Payout 后余额未在有限观察内更新，任务结束余额无法确认"
                    (r <| rep_SettlementBalance := settlement_unconfirmed settlement |>))
            end
        end
    end.
End ReportObservation.
