(* ===== verification/Daily.v ===== *)
(** * The daily consolidation record

    [internal/funding/daily_consolidation.go]: the record of the UTC 00:00
    claim-and-sweep task, its validation, its construction from a report and
    its attachment to the report of the payout run that follows. *)

From S2P Require Import Prelude DecimalSpec Prog Model Clock Report Effects.

(* go: internal/funding/daily_consolidation.go 131-141 validDailyStep *)
Definition validDailyStep (status : ReportStepStatus) (allowPending : bool) : bool :=
  match status with
  | ReportStepPending => allowPending
  | ReportStepSuccess | ReportStepWarning | ReportStepSkipped => true
  | _ => false
  end.

(* go: internal/funding/daily_consolidation.go 372-377 fallbackSummary *)
Definition fallbackSummary (value fallback : string) : string :=
  if string_is_empty (TrimSpace value) then fallback else value.

(* go: internal/funding/daily_consolidation.go 347-360 markIncompleteBuilderActions *)
Definition markIncompleteBuilderActions (b : BuilderReport) : BuilderReport :=
  let summary := "零点任务在执行完成前中断" in
  let b := if bool_decide (br_ClaimStatus b = ReportStepPending)
           then b <| br_ClaimStatus := ReportStepWarning |> <| br_ClaimSummary := summary |> else b in
  if bool_decide (br_SweepStatus b = ReportStepPending)
  then b <| br_SweepStatus := ReportStepWarning |> <| br_SweepSummary := summary |> else b.

(* go: internal/funding/daily_consolidation.go 362-370 markMissingDailyConsolidation *)
Definition markMissingDailyConsolidation (warning : string) (r : RunReport) : RunReport :=
  let summary := "UTC 00:00 归集记录不可用" in
  let r := setStage "rewards" ReportStepSkipped summary r in
  let r := setStage "sweep" ReportStepSkipped summary r in
  let r := markBuilderStepsSkipped summary r in
  if bool_decide (rep_Trigger r = TriggerUTC) then addWarning warning r else r.

Section Daily.
Context `{DecimalOps}.

(** ** Validation *)

(* go: internal/funding/daily_consolidation.go 117-129 validateOptionalNonnegativeAmount *)
Definition validateOptionalNonnegativeAmount (value : string) : option error :=
  if string_is_empty (TrimSpace value) then None
  else match NewFromString value with
       | Err err => Some err
       | Ok amount => if dec_neg amount then Some (Errorf "amount is negative" []) else None
       end.

(* go: internal/funding/daily_consolidation.go 110-115 validateRequiredNonnegativeAmount *)
Definition validateRequiredNonnegativeAmount (value : string) : option error :=
  if string_is_empty (TrimSpace value) then Some (Errorf "amount is required" [])
  else validateOptionalNonnegativeAmount value.

(** The checks on one builder entry, in the order of the code. *)
(* go: internal/funding/daily_consolidation.go 82-105 Validate *)
Definition validate_builder (status : DailyConsolidationStatus) (b : DailyConsolidationBuilder) : option error :=
  if dcb_ClaimableQueryAttempts b <=? 0
  then Some (Errorf "claimable query attempts for %q are required" [dcb_Address b])
  else
    match (if dcb_ClaimableObserved b then
             match validateRequiredNonnegativeAmount (dcb_ClaimableUSDC b) with
             | Some err => Some (Wrapf "invalid claimable amount for %q: %w" [dcb_Address b] err)
             | None => None
             end
           else if negb (string_is_empty (TrimSpace (dcb_ClaimableUSDC b)))
           then Some (Errorf "unobserved claimable for %q has an amount" [dcb_Address b])
           else None) with
    | Some err => Some err
    | None =>
        if dcb_ClaimAttempts b <? 0 then Some (Errorf "invalid claim attempts for %q" [dcb_Address b])
        else match validateOptionalNonnegativeAmount (dcb_SweepAmount b) with
             | Some err => Some (Wrapf "invalid sweep amount for %q: %w" [dcb_Address b] err)
             | None =>
                 let allowPending := bool_decide (status = DailyConsolidationClaimablesCaptured) in
                 if negb (validDailyStep (dcb_ClaimStatus b) allowPending) ||
                    negb (validDailyStep (dcb_SweepStatus b) allowPending)
                 then Some (Errorf "invalid daily consolidation status for %q" [dcb_Address b])
                 else if dcb_ClaimUncertain b && negb (bool_decide (dcb_ClaimStatus b = ReportStepWarning))
                 then Some (Errorf "uncertain claim for %q must have warning status" [dcb_Address b])
                 else None
             end
    end.

(* go: internal/funding/daily_consolidation.go 73-106 Validate *)
Fixpoint validate_builders (status : DailyConsolidationStatus) (index : Z) (seen : gset string)
    (bs : list DailyConsolidationBuilder) : option error :=
  match bs with
  | [] => None
  | b :: rest =>
      let address := address_key (dcb_Address b) in
      if string_is_empty address
      then Some (Errorf "daily consolidation builder %d address is required" [itoa index])
      else if bool_decide (address ∈ seen)
      then Some (Errorf "duplicate daily consolidation builder address %q" [dcb_Address b])
      else match validate_builder status b with
           | Some err => Some err
           | None => validate_builders status (index + 1) ({[address]} ∪ seen) rest
           end
  end.

(* go: internal/funding/daily_consolidation.go 49-108 Validate *)
Definition Validate (c : DailyConsolidation) : option error :=
  match ParseDateOnly (dc_UTCDate c) with
  | None => Some (Errorf "invalid daily consolidation UTC date %q" [dc_UTCDate c])
  | Some (y, m, d) =>
      if negb (String.eqb (format_date y m d) (dc_UTCDate c))
      then Some (Errorf "invalid daily consolidation UTC date %q" [dc_UTCDate c])
      else if IsZero (dc_StartedAt c) || IsZero (dc_ClaimablesCapturedAt c)
      then Some (Errorf "daily consolidation capture times are required" [])
      else
        match (match dc_Status c with
               | DailyConsolidationClaimablesCaptured =>
                   if negb (IsZero (dc_CompletedAt c))
                   then Some (Errorf "captured daily consolidation has a completion time" []) else None
               | DailyConsolidationCompleted =>
                   if IsZero (dc_CompletedAt c)
                   then Some (Errorf "completed daily consolidation completion time is required" []) else None
               | DailyConsolidationOther s => Some (Errorf "invalid daily consolidation status %q" [s])
               end) with
        | Some err => Some err
        | None =>
            match dc_Builders c with
            | [] => Some (Errorf "daily consolidation builders are required" [])
            | bs => validate_builders (dc_Status c) 0 ∅ bs
            end
        end
  end.

(** ** From a report *)

(* go: internal/funding/daily_consolidation.go 221-229 dailyConsolidationFromReport *)
Definition daily_builder (b : BuilderReport) : DailyConsolidationBuilder :=
  mkDailyBuilder (br_Address b) (br_ClaimableUSDC b) (br_ClaimableObserved b) (br_ClaimableQueryAttempts b)
    (br_ClaimAttempts b) (br_ClaimUncertain b) (br_ClaimStatus b) (br_ClaimSummary b)
    (br_SweepAmount b) (br_SweepStatus b) (br_SweepSummary b).

(* go: internal/funding/daily_consolidation.go 205-232 dailyConsolidationFromReport *)
Definition dailyConsolidationFromReport (utcDate : string) (status : DailyConsolidationStatus)
    (completedAt : Z) (r : RunReport) : DailyConsolidation :=
  mkDailyConsolidation utcDate status (rep_StartedAt r) (rep_ClaimablesCapturedAt r) completedAt
    (map daily_builder (rep_Builders r)).

(** ** Attaching the record to a payout report *)

(* go: internal/funding/daily_consolidation.go 283-295 attachDailyConsolidation *)
Definition copy_entry (status : DailyConsolidationStatus) (entry : DailyConsolidationBuilder)
    (b : BuilderReport) : BuilderReport :=
  let b := b <| br_ClaimableUSDC := dcb_ClaimableUSDC entry |>
             <| br_ClaimableObserved := dcb_ClaimableObserved entry |>
             <| br_ClaimableQueryAttempts := dcb_ClaimableQueryAttempts entry |>
             <| br_ClaimAttempts := dcb_ClaimAttempts entry |>
             <| br_ClaimUncertain := dcb_ClaimUncertain entry |>
             <| br_ClaimStatus := dcb_ClaimStatus entry |>
             <| br_ClaimSummary := dcb_ClaimSummary entry |>
             <| br_SweepAmount := dcb_SweepAmount entry |>
             <| br_SweepStatus := dcb_SweepStatus entry |>
             <| br_SweepSummary := dcb_SweepSummary entry |> in
  if bool_decide (status = DailyConsolidationCompleted) then b else markIncompleteBuilderActions b.

Record attachment : Type := mkAttachment {
  at_builders : list BuilderReport;
  at_summary : DailyConsolidationReport;
  at_total : decimal;
  at_report : RunReport
}.

(** One iteration of the loop over the builders of the report: the builders
    visited so far, the summary, the total, and the report that collects
    the warnings. *)
(* go: internal/funding/daily_consolidation.go 276-314 attachDailyConsolidation *)
Definition attach_entry (status : DailyConsolidationStatus) (entries : gmap string DailyConsolidationBuilder)
    (acc : attachment) (b : BuilderReport) : attachment :=
  match entries !! address_key (br_Address b) with
  | None => mkAttachment (at_builders acc ++ [b]) (at_summary acc) (at_total acc) (at_report acc)
  | Some entry =>
      let summary := at_summary acc <| dcr_RecordedBuilders ::= Z.add 1 |> in
      let b := copy_entry status entry b in
      let '(summary, total, r) :=
        if dcb_ClaimableObserved entry then
          (summary <| dcr_ObservedBuilders ::= Z.add 1 |>,
           match dec_parse (dcb_ClaimableUSDC entry) with
           | Some claimable => if dec_neg claimable then at_total acc else dec_add (at_total acc) claimable
           | None => at_total acc
           end, at_report acc)
        else (summary, at_total acc, addWarning (br_Name b +:+ ": 零点 Claimable 查询失败") (at_report acc)) in
      let summary := if dcb_ClaimUncertain entry then summary <| dcr_UncertainClaims ::= Z.add 1 |> else summary in
      let r := if bool_decide (br_ClaimStatus b = ReportStepWarning)
               then addWarning (br_Name b +:+ ": " +:+ fallbackSummary (br_ClaimSummary b) "Reward 领取存在告警") r
               else r in
      let r := if bool_decide (br_SweepStatus b = ReportStepWarning)
               then addWarning (br_Name b +:+ ": " +:+ fallbackSummary (br_SweepSummary b) "资金归集存在告警") r
               else r in
      mkAttachment (at_builders acc ++ [b]) summary total r
  end.

Definition daily_entries (record : DailyConsolidation) : gmap string DailyConsolidationBuilder :=
  List.fold_left (fun m b => <[address_key (dcb_Address b) := b]> m) (dc_Builders record) ∅.

(** The warnings of a scheduled payout run about an incomplete record. *)
(* go: internal/funding/daily_consolidation.go 324-344 attachDailyConsolidation *)
Definition daily_warnings (s : DailyConsolidationReport) (r : RunReport) : RunReport :=
  let r := if dcr_RecordedBuilders s =? dcr_BuilderCount s then r
           else addWarning ("UTC 00:00 归集记录仅包含 " +:+ itoa (dcr_RecordedBuilders s) +:+ "/" +:+
                  itoa (dcr_BuilderCount s) +:+ " 个 Builder") r in
  let r := if dcr_ObservedBuilders s =? dcr_BuilderCount s then r
           else addWarning ("UTC 00:00 Claimable 仅成功查询 " +:+ itoa (dcr_ObservedBuilders s) +:+ "/" +:+
                  itoa (dcr_BuilderCount s) +:+ " 个 Builder，当日对账数据不完整") r in
  let r := if bool_decide (dcr_Status s = DailyConsolidationCompleted) then r
           else addWarning "UTC 00:00 Claimable 已保存，但 claim 与资金归集任务未完整结束" r in
  if 0 <? dcr_UncertainClaims s
  then addWarning ("UTC 00:00 有 " +:+ itoa (dcr_UncertainClaims s) +:+
         " 个 Builder 的 claim 在有限观察后结果仍不确定，请人工核查") r
  else r.

(* go: internal/funding/daily_consolidation.go 267-344 attachDailyConsolidation *)
Definition attach_record (utcDate : string) (record : DailyConsolidation) (r : RunReport) : RunReport :=
  let summary := empty_daily_report <| dcr_UTCDate := utcDate |>
                   <| dcr_BuilderCount := Z.of_nat (length (rep_Builders r)) |>
                   <| dcr_Observed := true |> <| dcr_Status := dc_Status record |>
                   <| dcr_ClaimablesCapturedAt := dc_ClaimablesCapturedAt record |>
                   <| dcr_CompletedAt := dc_CompletedAt record |> in
  let acc := List.fold_left (attach_entry (dc_Status record) (daily_entries record)) (rep_Builders r)
               (mkAttachment [] summary dec_zero r) in
  let summary := at_summary acc in
  let summary := if 0 <? dcr_ObservedBuilders summary
                 then summary <| dcr_TotalClaimableUSDC := dec_string (at_total acc) |> else summary in
  let r := at_report acc <| rep_Builders := at_builders acc |> <| rep_DailyConsolidation := summary |> in
  let r := setStage "rewards" (aggregateBuilderStep (rep_Builders r) true) (builderStepSummary (rep_Builders r) true) r in
  let r := setStage "sweep" (aggregateBuilderStep (rep_Builders r) false) (builderStepSummary (rep_Builders r) false) r in
  if bool_decide (rep_Trigger r = TriggerUTC) then daily_warnings summary r else r.

(* go: internal/funding/daily_consolidation.go 234-345 attachDailyConsolidation *)
Definition attachDailyConsolidation (utcDate : string) : F unit :=
  loaded ← op (LoadDailyConsolidation utcDate);
  report ← the_report;
  let summary := empty_daily_report <| dcr_UTCDate := utcDate |>
                   <| dcr_BuilderCount := Z.of_nat (length (rep_Builders report)) |> in
  match loaded with
  | Err _ =>
      ctxErr ← op CtxErr;
      match ctxErr with
      | Some _ => mret tt
      | None =>
          set_report (fun r => markMissingDailyConsolidation "UTC 00:00 归集记录读取失败"
            (r <| rep_DailyConsolidation := summary <| dcr_LoadFailed := true |> |>))
      end
  | Ok None =>
      set_report (fun r => markMissingDailyConsolidation "未找到 UTC 00:00 归集记录"
        (r <| rep_DailyConsolidation := summary <| dcr_Missing := true |> |>))
  | Ok (Some record) => set_report (attach_record utcDate record)
  end.
End Daily.
