(* ===== verification/Run.v ===== *)
(** * The entry points of the funding task

    [internal/funding/recovery.go]: [Run], [RunScheduled] and [Recover], with
    the deferred observations and the delivery of the report. *)

From S2P Require Import Prelude DecimalSpec Prog Model Clock Report Effects Payout Recovery ReportObservation Daily.

Section Run.
Context `{DecimalOps}.
Variable cfg : Config.

(* go: internal/funding/recovery.go 213-220 deliverRunReport *)
Definition deliverRunReport (runErr : option error) : F unit :=
  if cfg_notifier cfg then
    now ← op Now;
    report ← the_report;
    let '(report, deliver) := finalize now runErr report in
    set_report (fun _ => report) ;;
    if deliver then op (Report report) else mret tt
  else mret tt.

Definition canceled (err : option error) : bool := match err with Some e => is_canceled e | None => false end.

(** The deferred calls, in the order they run. *)
(* go: internal/funding/recovery.go 34-44 run *)
Definition deferred (err : option error) : F (option error) :=
  (if canceled err then mret tt else observeSettlementFinalBalance cfg) ;;
  (if canceled err then mret tt else observeUserRateLimits cfg) ;;
  deliverRunReport err ;;
  mret err.

(* go: internal/funding/recovery.go 50-66 run *)
Definition run_body (trigger : Trigger) : F (option error) :=
  loaded ← loadCurrent cfg;
  report ← the_report;
  let current := match loaded with Ok (Some current, _) => Some current | _ => None end in
  let consolidationDate :=
    match current with
    | Some c => if string_is_empty (run_UTCDate c) then FormatDateOnly (rep_StartedAt report) else run_UTCDate c
    | None => FormatDateOnly (rep_StartedAt report)
    end in
  attachDailyConsolidation consolidationDate ;;
  match loaded with
  | Err err => fail_with err
  | Ok (Some current, metadata) =>
      set_state (fun _ => current) ;;
      set_report (fun r => r <| rep_Recovery := true |> <| rep_Outcome := "completed" |>) ;;
      sync_report ;;
      set_report (setStage "snapshot" ReportStepSuccess "从持久化状态恢复") ;;
      recoverState cfg metadata
  | Ok (None, _) => runNew cfg trigger
  end.

(* go: internal/funding/recovery.go 29-67 run *)
Definition run (trigger : Trigger) (execution : ReportExecution) : F (option error) :=
  now ← op Now;
  set_report (fun _ => newRunReport now trigger execution (cfg_network cfg) (cfg_builders cfg)
    (cfg_builderNames cfg) (cfg_settlement cfg) (cfg_recipient cfg)) ;;
  err ← run_body trigger;
  deferred err.

(* go: internal/funding/recovery.go 17-19 Run *)
Definition Run (trigger : Trigger) : F (option error) := run trigger (mkExecution 0 0 false).

(* go: internal/funding/recovery.go 21-27 RunScheduled *)
Definition RunScheduled (trigger : Trigger) (attempt maxAttempts : Z) : F (option error) :=
  run trigger (mkExecution attempt maxAttempts false).

(* go: internal/funding/recovery.go 69-99 Recover *)
Definition Recover : F (option error) :=
  loaded ← loadCurrent cfg;
  match loaded with
  | Err err => fail_with err
  | Ok (None, _) => success
  | Ok (Some current, metadata) =>
      now ← op Now;
      set_state (fun _ => current) ;;
      set_report (fun _ => newRunReport now (run_Trigger current) (mkExecution 0 0 true) (cfg_network cfg)
        (cfg_builders cfg) (cfg_builderNames cfg) (cfg_settlement cfg) (cfg_recipient cfg)) ;;
      set_report (fun r => r <| rep_Outcome := "completed" |>) ;;
      sync_report ;;
      set_report (setStage "snapshot" ReportStepSuccess "从持久化状态恢复") ;;
      attachDailyConsolidation (run_UTCDate current) ;;
      err ← recoverState cfg metadata;
      deferred err
  end.
End Run.
