(* ===== verification/PayoutWorld.v ===== *)
(** * The world a payout acts on

    The two rotating snapshots, the requests that have left the process and
    the records the database has completed, with the effect of every
    operation on them.  This is the specification of the store, the exchange
    and the repository that the payout code is verified against; [StoreRefinement]
    shows that the store implements its part.  A valid snapshot is one that can
    be read: the effects of [Save] and [LoadWithMetadata] are those of a file
    system on which reading a healthy file does not fail.
    [StoreRefinement.store_step] says what they are when it may, which is more
    than the payout code can bear: see [StoreRefinement].

    [allowed] is the contract the payout code keeps: when it may replace a
    snapshot, clear the run, complete the records and, above all, submit.
    [Inv] is the invariant that makes a payment unique, preserved by every
    allowed operation and by crashes that corrupt a snapshot. *)

From S2P Require Import Prelude DecimalSpec Prog Model Clock Report Effects Payout Recovery ReportObservation Daily Run.

(** * Computations that leave the run alone

    [quiet m]: [m] performs no operation on the snapshots, on the funding
    records or on the exchange's signed requests, and does not touch the run
    state in memory.  Reporting, alerting, balance queries and waiting are
    quiet; the safety argument steps over them with one lemma. *)

Section Quiet.
Context `{DecimalOps}.

(** Operations that change neither the disk nor the chain nor the
    database. *)
Definition harmless (o : FundingOp) : Prop :=
  match o with
  | Save _ | Clear | Complete _ | Submit _ | ListPending | LoadWithMetadata | StackOverflow => False
  | _ => True
  end.

Definition quiet_protocol : protocol unit :=
  {| allowed _ o := harmless o; step _ _ _ _ := True |}.

Definition quiet {A : Type} (m : F A) : Prop :=
  forall s, wpM quiet_protocol tt s m (fun _ s' _ => m_state s' = m_state s).

(** A quiet program runs under every protocol for which harmless operations
    are allowed and leave the world alone. *)
Lemma quiet_transfer {W A : Type} (P : protocol W) :
  (forall w o, harmless o -> allowed P w o) ->
  (forall w o r w', harmless o -> step P w o r w' -> w' = w) ->
  forall (p : prog A) (Post : A -> Prop) w,
    wp quiet_protocol tt p (fun a _ => Post a) -> wp P w p (fun a w' => w' = w /\ Post a).
Proof.
  intros Hallow Hstep p Post w. induction p as [a|o k IH]; simpl; [done|].
  intros [Ho Hk]. split; [by apply Hallow|].
  intros r w' Hs. rewrite (Hstep _ _ _ _ Ho Hs). apply IH. by apply (Hk r tt).
Qed.

Lemma wpM_quiet_in {W A : Type} (P : protocol W) (m : F A) w s Q :
  (forall w o, harmless o -> allowed P w o) ->
  (forall w o r w', harmless o -> step P w o r w' -> w' = w) ->
  quiet m -> (forall a s', m_state s' = m_state s -> Q a s' w) -> wpM P w s m Q.
Proof.
  intros Hallow Hstep Hm HQ. specialize (Hm s). unfold wpM in *.
  eapply wp_mono; [|apply (quiet_transfer P Hallow Hstep _ (fun '(_, s') => m_state s' = m_state s))].
  - intros [a s'] w' [-> Hs]. by apply HQ.
  - eapply wp_mono; [|exact Hm]. by intros [a s'] [].
Qed.

Lemma quiet_ret {A : Type} (a : A) : quiet (mret a).
Proof. by intros s. Qed.

Lemma quiet_fail_with e : quiet (fail_with e).
Proof. by intros s. Qed.

Lemma quiet_success : quiet success.
Proof. by intros s. Qed.

Lemma quiet_bind {A B : Type} (m : F A) (f : A -> F B) :
  quiet m -> (forall a, quiet (f a)) -> quiet (m ≫= f).
Proof.
  intros Hm Hf s. apply wpM_bind. eapply wpM_mono; [apply Hm|].
  intros a s' [] Hs. eapply wpM_mono; [apply Hf|]. intros b s'' [] Hs'. congruence.
Qed.

Lemma quiet_op o : harmless o -> quiet (op o).
Proof. intros Ho s. by apply wpM_op. Qed.

Lemma quiet_gets {A : Type} (f : Mem -> A) : quiet (gets f).
Proof. by intros s. Qed.

Lemma quiet_modify f : (forall m, m_state (f m) = m_state m) -> quiet (modify f).
Proof. intros Hf s. apply Hf. Qed.

Lemma quiet_set_report f : quiet (set_report f).
Proof. by apply quiet_modify. Qed.

Lemma quiet_deref {A : Type} (p : option A) : quiet (deref p).
Proof. destruct p; [apply quiet_ret|]. apply quiet_bind; [by apply quiet_op|intros []]. Qed.

Lemma quiet_each {A : Type} (l : list A) (body : A -> F unit) :
  (forall x, quiet (body x)) -> quiet (each l body).
Proof.
  intros Hb. induction l as [|x l IH]; simpl; [apply quiet_ret|].
  apply quiet_bind; [apply Hb|done].
Qed.

Lemma quiet_on_error m h k : quiet m -> (forall e, quiet (h e)) -> quiet k -> quiet (on_error m h k).
Proof. intros Hm Hh Hk. apply quiet_bind; [done|]. intros [e|]; auto. Qed.
End Quiet.

Create HintDb quiet.
#[export] Hint Opaque observe_loop settlement_loop visibility_loop final_loop observeUncertainPayout
  runActiveTarget : quiet.
#[export] Hint Resolve quiet_ret quiet_fail_with quiet_success quiet_gets quiet_set_report quiet_deref : quiet.
#[export] Hint Extern 1 (quiet (op _)) => apply quiet_op; exact I : quiet.
#[export] Hint Extern 2 (quiet (modify _)) => apply quiet_modify; reflexivity : quiet.

Ltac solve_quiet_step :=
  lazymatch goal with
  | |- quiet (match ?x with _ => _ end) => destruct x
  | |- _ => first
    [ solve [auto 2 with quiet]
    | apply quiet_on_error; [|intros ?|]
    | apply quiet_bind; [|intros ?]
    | apply quiet_each; intros ?
    | progress cbn beta iota zeta ]
  end.
Ltac solve_quiet := repeat solve_quiet_step.

Section QuietParts.
Context `{DecimalOps}.
Variable cfg : Config.

Lemma quiet_the_state : quiet the_state.
Proof. apply quiet_gets. Qed.

Lemma quiet_the_target : quiet the_target.
Proof. apply quiet_gets. Qed.

Lemma quiet_the_report : quiet the_report.
Proof. apply quiet_gets. Qed.

Lemma quiet_the_kind : quiet the_kind.
Proof. apply quiet_bind; [apply quiet_the_target|]. intros t. apply quiet_ret. Qed.

Lemma quiet_alert key sev msg : quiet (alert cfg key sev msg).
Proof. unfold alert. solve_quiet. Qed.

Lemma quiet_alertOnce runID key sev msg : quiet (alertOnce cfg runID key sev msg).
Proof. pose proof quiet_alert. unfold alertOnce. solve_quiet. Qed.

Lemma quiet_forgetAlerts runID : quiet (forgetAlerts runID).
Proof. unfold forgetAlerts. solve_quiet. Qed.

Lemma quiet_sync_report : quiet sync_report.
Proof. unfold sync_report, the_state. solve_quiet. Qed.

Lemma quiet_target_failed stage summary next : quiet (target_failed stage summary next).
Proof. unfold target_failed, the_kind, the_target. solve_quiet. Qed.

Lemma quiet_set_payout_status status : quiet (set_payout_status status).
Proof. unfold set_payout_status, the_kind, the_target. solve_quiet. Qed.

Lemma quiet_observe_loop queries : forall before amount a b c d e,
  quiet (observe_loop queries before amount a b c d e).
Proof.
  unfold the_target. induction queries; intros; cbn [observe_loop]; unfold the_target; solve_quiet.
Qed.

Lemma quiet_settlement_loop attempts : forall address token payout a b c d e,
  quiet (settlement_loop attempts address token payout a b c d e).
Proof. induction attempts; intros; cbn [settlement_loop]; solve_quiet. Qed.

Lemma quiet_newState trigger : quiet (newState trigger).
Proof. unfold newState, NewRunID. solve_quiet. Qed.

Lemma quiet_attachDailyConsolidation date : quiet (attachDailyConsolidation date).
Proof. unfold attachDailyConsolidation, the_report. solve_quiet. Qed.

Lemma quiet_visibility_loop more : forall address o, quiet (visibility_loop more address o).
Proof. induction more; intros; cbn [visibility_loop]; solve_quiet. Qed.

Lemma quiet_final_loop queries : forall a b c d e f g h, quiet (final_loop queries a b c d e f g h).
Proof. induction queries; intros; cbn [final_loop]; solve_quiet. Qed.

Lemma quiet_observeUserRateLimits : quiet (observeUserRateLimits cfg).
Proof.
  pose proof quiet_alert. pose proof quiet_visibility_loop.
  unfold observeUserRateLimits, observe_account, observeUserRateLimit, updateRateLimitAlert, the_report.
  solve_quiet.
Qed.

Lemma quiet_observeSettlementFinalBalance : quiet (observeSettlementFinalBalance cfg).
Proof.
  pose proof quiet_final_loop. unfold observeSettlementFinalBalance, the_report. solve_quiet.
Qed.

Lemma quiet_deferred err : quiet (deferred cfg err).
Proof.
  pose proof quiet_observeUserRateLimits. pose proof quiet_observeSettlementFinalBalance.
  unfold deferred, deliverRunReport, the_report. solve_quiet.
Qed.
End QuietParts.

#[export] Hint Resolve quiet_the_state quiet_the_target quiet_the_report quiet_the_kind
  quiet_alert quiet_alertOnce quiet_forgetAlerts quiet_sync_report
  quiet_target_failed quiet_set_payout_status quiet_observe_loop quiet_settlement_loop quiet_newState
  quiet_attachDailyConsolidation quiet_deferred : quiet.

(** ** State *)

Inductive slot : Type :=
| Absent
| Invalid
| Valid (s : RunState).

(** A request that left the process: the records it pays, its bytes, and
    whether the exchange answered with an explicit rejection. *)
Record submission : Type := mkSubmission {
  sub_ids : list Z;
  sub_action : PreparedAction;
  sub_rejected : bool
}.

Record world : Type := mkWorld {
  w_cur : slot;
  w_bak : slot;
  w_subs : list submission;
  w_done : gset Z
}.

#[export] Instance world_settable : Settable world := fun w =>
  mkWorld (w_cur w) (w_bak w) (w_subs w) (w_done w).

#[export] Instance slot_eq_dec : EqDecision slot.
Proof. solve_decision. Defined.
#[export] Instance submission_eq_dec : EqDecision submission.
Proof. solve_decision. Defined.

Definition initial_world : world := mkWorld Absent Absent [] ∅.

(** The records a run pays. *)
Definition run_ids (s : RunState) : list Z := map rec_ID (man_Records (tgt_Manifest (first_target s))).

Definition slot_ids (c : slot) : list Z := match c with Valid s => run_ids s | _ => [] end.

(** The requests that may have been executed. *)
Definition live (w : world) : list submission := filter (fun x => sub_rejected x = false) (w_subs w).

(** The possibly executed requests that pay exactly the records [I]. *)
Definition claims (w : world) (I : list Z) : list submission := filter (fun x => sub_ids x = I) (live w).

(** The possibly executed requests that pay the record [r]. *)
Definition covering (w : world) (r : Z) : list submission := filter (fun x => r ∈ sub_ids x) (live w).

Definition stored (w : world) (s : RunState) : Prop := w_cur w = Valid s \/ w_bak w = Valid s.

(** ** Effects *)

(** [Save]: the current snapshot, when it is valid, becomes the backup, and
    the new state is installed; an invalid current snapshot is replaced only
    under a valid backup.  An error may have left any prefix of the work.  A
    valid snapshot whose file fails to be read is treated as an invalid one by
    the code; that is not among these effects ([save_effect_under] has it). *)
Inductive save_effect (w : world) (s : RunState) : option error -> world -> Prop :=
| save_rotated s0 :
    w_cur w = Valid s0 -> save_effect w s None (w <| w_cur := Valid s |> <| w_bak := Valid s0 |>)
| save_first :
    w_cur w = Absent -> save_effect w s None (w <| w_cur := Valid s |>)
| save_replaced s0 :
    w_cur w = Invalid -> w_bak w = Valid s0 -> save_effect w s None (w <| w_cur := Valid s |>)
| save_failed e : save_effect w s (Some e) w
| save_failed_rotated e s0 :
    w_cur w = Valid s0 -> save_effect w s (Some e) (w <| w_cur := Absent |> <| w_bak := Valid s0 |>)
| save_failed_installed e w' : save_effect w s None w' -> save_effect w s (Some e) w'.

(** [Clear] removes the backup, then the current snapshot. *)
Inductive clear_effect (w : world) : option error -> world -> Prop :=
| clear_done : clear_effect w None (w <| w_cur := Absent |> <| w_bak := Absent |>)
| clear_failed e : clear_effect w (Some e) w
| clear_failed_backup e : clear_effect w (Some e) (w <| w_bak := Absent |>)
| clear_failed_sync e : clear_effect w (Some e) (w <| w_cur := Absent |> <| w_bak := Absent |>).

(** [LoadWithMetadata]: the current snapshot when it is valid, else the
    backup, flagged as such, else nothing when neither exists; it may also
    fail.  ([load_result_under] adds the backup of a valid current snapshot
    that could not be read.) *)
Definition load_result (w : world) (r : result (option RunState * StateLoadMetadata)) : Prop :=
  match r with
  | Err _ => True
  | Ok (None, meta) => w_cur w = Absent /\ w_bak w = Absent /\ meta_RecoveredFromBackup meta = false
  | Ok (Some s, meta) =>
      if meta_RecoveredFromBackup meta
      then (forall s', w_cur w <> Valid s') /\ w_bak w = Valid s
      else w_cur w = Valid s
  end.

(** The response counts as an explicit rejection as the payout code reads
    it. *)
Definition explicitly_rejected (r : SubmitResult * option error) : bool :=
  match r with
  | (outcome, None) => negb (sr_Accepted outcome) && sr_Rejected outcome
  | (_, Some _) => false
  end.

Section Protocol.
Context `{DecimalOps}.

(** The responses an operation may give and the world after it.
    [ListPending] never lists a record whose completion was reported.  Healthy
    snapshots can be read. *)
Definition funding_step (w : world) (o : FundingOp) : FundingResp o -> world -> Prop :=
  match o with
  | Save s => fun r w' => save_effect w s r w'
  | Clear => fun r w' => clear_effect w r w'
  | Complete ids => fun r w' =>
      match r with
      | None => w' = w <| w_done ::= (fun d => list_to_set ids ∪ d) |>
      | Some _ => w' = w
      end
  | Submit a => fun r w' =>
      w' = w <| w_subs ::= (fun l => l ++ [mkSubmission (slot_ids (w_cur w)) a (explicitly_rejected r)]) |>
  | ListPending => fun r w' =>
      w' = w /\ match r with Ok records => forall x, x ∈ records -> rec_ID x ∉ w_done w | Err _ => True end
  | LoadWithMetadata => fun r w' => w' = w /\ load_result w r
  | _ => fun _ w' => w' = w
  end.

(** ** The contract *)

Definition well_shaped (s : RunState) : Prop :=
  run_Targets s = [first_target s] /\ tgt_Kind (first_target s) = PayoutKindReferral.

(** The journal of [s] reserves [attempts] submissions, every possibly
    executed request for its records has the bytes of the journal, and there
    are at most [n]. *)
Definition reserves (w : world) (s : RunState) (attempts : Z -> Prop) (n : nat) : Prop :=
  exists j, tgt_Payout (first_target s) = Some j /\ attempts (jrn_SubmitAttempts j) /\
    Forall (fun x => sub_action x = jrn_Prepared j) (claims w (run_ids s)) /\
    (length (claims w (run_ids s)) <= n)%nat.

(** What a snapshot guarantees about the requests that left the process.
    A [payout_prepared] snapshot may be one step behind when it is the
    backup. *)
Definition snapshot_ok (backup : bool) (w : world) (s : RunState) : Prop :=
  match tgt_Phase (first_target s) with
  | PhasePrepared => claims w (run_ids s) = []
  | PhasePayoutPrepared => reserves w s (eq 1) (if backup then 1 else 0)
  | PhasePayoutSubmitting => reserves w s (eq 1) 1
  | PhasePayoutReplaying => reserves w s (eq 2) 2
  | PhasePayoutConfirmed | PhaseBlocked => reserves w s (fun _ => True) 2
  | PhaseCompleted => forall r, r ∈ run_ids s -> r ∈ w_done w
  | PhaseOther _ => False
  end.

Definition intends (s : RunState) (a : PreparedAction) (phase : Phase) : Prop :=
  tgt_Phase (first_target s) = phase /\
  exists j, tgt_Payout (first_target s) = Some j /\ jrn_Prepared j = a.

(** A request may leave the process only while both snapshots hold it and
    reserve the attempt. *)
Definition may_submit (w : world) (a : PreparedAction) : Prop :=
  exists s s', w_cur w = Valid s /\ w_bak w = Valid s' /\
    ((intends s a PhasePayoutSubmitting /\ intends s' a PhasePayoutPrepared /\ claims w (run_ids s) = []) \/
     (intends s a PhasePayoutReplaying /\ intends s' a PhasePayoutReplaying /\
      (length (claims w (run_ids s)) <= 1)%nat)).

Definition fresh_run (w : world) (s : RunState) : Prop :=
  w_cur w = Absent /\ w_bak w = Absent /\ tgt_Phase (first_target s) = PhasePrepared /\
  run_ids s <> [] /\ forall r, r ∈ run_ids s -> r ∉ w_done w.

Definition may_save (w : world) (s : RunState) : Prop :=
  well_shaped s /\ snapshot_ok false w s /\
  (fresh_run w s \/ exists s0, stored w s0 /\ run_ids s0 = run_ids s).

(** Records are completed once the payout is durably confirmed, or when
    there is nothing to pay. *)
Definition may_complete (w : world) (ids : list Z) : Prop :=
  exists s, stored w s /\ run_ids s = ids /\
    (tgt_Phase (first_target s) = PhasePayoutConfirmed \/
     (tgt_Phase (first_target s) = PhasePrepared /\
      (ids = [] \/ man_PayoutTotal (tgt_Manifest (first_target s)) = "0"))).

(** The snapshots may be removed when every possibly executed request pays
    only completed records. *)
Definition may_clear (w : world) : Prop :=
  forall x, x ∈ live w -> forall r, r ∈ sub_ids x -> r ∈ w_done w.

Definition funding_allowed (w : world) (o : FundingOp) : Prop :=
  match o with
  | Save s => may_save w s
  | Clear => may_clear w
  | Complete ids => may_complete w ids
  | Submit a => may_submit w a
  | StackOverflow => False
  | _ => True
  end.

Definition funding_protocol : protocol world := {| allowed := funding_allowed; step := funding_step |}.

(** ** The invariant *)

(** No record is paid twice: the requests that may have been executed and
    that pay a given record are at most two and have the same bytes. *)
Definition no_double_payment (w : world) : Prop :=
  forall r, (length (covering w r) <= 2)%nat /\
    forall x y, x ∈ covering w r -> y ∈ covering w r -> sub_action x = sub_action y.

(** The snapshots on disk all belong to the run that pays [I], and every
    other request has been settled. *)
Record owned_by (w : world) (I : list Z) : Prop := {
  ow_present : w_cur w <> Absent \/ w_bak w <> Absent;
  ow_same : forall s, stored w s -> well_shaped s /\ run_ids s = I;
  ow_cur : forall s, w_cur w = Valid s -> snapshot_ok false w s;
  ow_bak : forall s, w_bak w = Valid s -> snapshot_ok true w s;
  ow_rest : forall x, x ∈ live w ->
    sub_ids x = I \/ forall r, r ∈ sub_ids x -> r ∈ w_done w /\ r ∉ I
}.

Definition idle (w : world) : Prop := w_cur w = Absent /\ w_bak w = Absent /\ may_clear w.

Definition Inv (w : world) : Prop := no_double_payment w /\ (idle w \/ exists I, owned_by w I).

(** A crash may corrupt a snapshot. *)
Definition corrupted (c c' : slot) : Prop := c' = c \/ (c <> Absent /\ c' = Invalid).

Inductive crash : world -> world -> Prop :=
| crash_intro w cur bak :
    corrupted (w_cur w) cur -> corrupted (w_bak w) bak ->
    crash w (w <| w_cur := cur |> <| w_bak := bak |>).
End Protocol.
