(* ===== verification/Store.v ===== *)
(** * The snapshot store

    [internal/state/store.go]: the two rotating snapshots [current.json] and
    [current.json.bak] and the history directory.  Every operation on the file
    system is performed and may fail; deferred calls run where the code runs
    them, and the named result they amend is what the function returns. *)

From S2P Require Import Prelude DecimalSpec Prog Crash Clock Model Report Effects Json JsonFacts JsonStruct Sha256 Timestamp Envelope FileSystem.

(** ** Error texts *)

(** [fmt.Sprintf] over rendered arguments: every verb takes the next one, and
    [%w] takes the text of the wrapped error. *)
Fixpoint render (format : string) (in_verb : bool) (args : list string) (wrapped : string) : string :=
  match format with
  | EmptyString => ""
  | String c r =>
      if in_verb then
        if Ascii.eqb c "w" then wrapped +:+ render r false args wrapped
        else if is_digit c then render r true args wrapped
        else (if Ascii.eqb c "q" then dquote +:+ default "" (head args) +:+ dquote else default "" (head args))
             +:+ render r false (tail args) wrapped
      else if Ascii.eqb c "%" then render r true args wrapped
      else String c (render r false args wrapped)
  end.

(** [err.Error()]. *)
Fixpoint error_text (e : error) : string :=
  match e with
  | Canceled => "context canceled"
  | DeadlineExceeded => "context deadline exceeded"
  | Errorf format args => render format false args ""
  | Wrapf format args inner => render format false args (error_text inner)
  | Join l r => error_text l +:+ bytes_of [10] +:+ error_text r
  | FatalError inner => error_text inner
  | RetryExhaustedError _ inner => error_text inner
  | External _ text => text
  end.

(** The last four octal digits of a permission. *)
Definition octal4 (perm : Z) : string :=
  let d k := String (ascii_of_nat (Z.to_nat (48 + Z.land (Z.shiftr perm k) 7))) "" in
  d 9 +:+ d 6 +:+ d 3 +:+ d 0.

(** ** Paths *)

(* go: internal/state/store.go 17-17 currentFilename *)
Definition currentFilename : string := "current.json".
(* go: internal/state/store.go 18-18 backupFilename *)
Definition backupFilename : string := "current.json.bak".
(* go: internal/state/store.go 19-19 historyDirname *)
Definition historyDirname : string := "history".

(** [filepath.Join] of the data directory, which is not empty. *)
Definition data_path (dataDir : string) : path := (dataDir, []).

(** ** Helpers *)

(** [os.Remove], whose [os.ErrNotExist] the callers ignore. *)
Definition remove_ignoring_missing (p : path) : prog (option error) :=
  r ← perform (RemoveFile p);
  mret (match r with RemoveErr err => Some err | _ => None end).

(** The state, whether the file exists, and the error. *)
(* go: internal/state/store.go 190-213 loadSnapshot *)
Definition loadSnapshot (p : path) : prog (option RunState * bool * option error) :=
  info ← perform (Stat p);
  match info with
  | StatNotExist => mret (None, false, None)
  | StatErr err => mret (None, false, Some err)
  | StatInfo regular perm =>
      if negb regular then mret (None, true, Some (Errorf "snapshot is not a regular file" []))
      else if negb (Z.land perm 63 =? 0)
      then mret (None, true, Some (Errorf "snapshot permissions %04o allow group or other access" [octal4 perm]))
      else
        let! data := perform (ReadFile p) else (fun err => (None, true, Some err)) ;;
        match unmarshalEnvelope data with
        | Err err => mret (None, true, Some err)
        | Ok state => mret (Some state, true, None)
        end
  end.

(* go: internal/state/store.go 215-223 ensurePrivateDir *)
Definition ensurePrivateDir (p : path) : prog (option error) :=
  if string_is_empty (fst p) then mret (Some (Errorf "directory path is empty" []))
  else try perform (MkdirAll p 448) else Some ;; perform (ChmodDir p 448).

(** The writes between the deferred close and the return. *)
(* go: internal/state/store.go 242-254 writeSyncedEnvelopeTemp *)
Definition write_synced (marshal : result string) (file : file) : prog (option error) :=
  try perform (Chmod file 384) else Some ;;
  match marshal with
  | Err err => mret (Some err)
  | Ok data => try perform (Write file data) else Some ;; perform (Sync file)
  end.

(** The deferred function runs after the return statement has assigned the
    named results: it closes the file and, when there is an error, removes the
    file named by [path] - which an erroneous return has just set to the empty
    string. *)
(* go: internal/state/store.go 225-255 writeSyncedEnvelopeTemp *)
Definition write_temp (what : string) (dir : path) (prefix : string) (marshal : result string) : prog (result path) :=
  let! file := perform (CreateTemp dir prefix) else Err ;;
  err ← write_synced marshal file;
  let path_ := match err with None => file_Name file | Some _ => empty_path end in
  closeErr ← perform (Close file);
  match joined err ((fun e => Wrapf "close %s temp file: %w" [what] e) <$> closeErr) with
  | None => mret (Ok path_)
  | Some err =>
      removeErr ← remove_ignoring_missing path_;
      mret (Err (match removeErr with
                 | None => err
                 | Some e => Join err (Wrapf "remove %s temp file: %w" [what] e)
                 end))
  end.

(* go: internal/state/store.go 225-255 writeSyncedEnvelopeTemp *)
Definition writeSyncedEnvelopeTemp (dir : path) (prefix : string) (state : RunState) : prog (result path) :=
  write_temp "state snapshot" dir prefix (marshalEnvelope state).

(* go: internal/state/store.go 257-271 syncDir *)
Definition syncDir (p : path) : prog (option error) :=
  try perform (OpenDir p) else Some ;;
  err ← perform (SyncDir p);
  closeErr ← perform (CloseDir p);
  mret (joined err ((fun e => Wrapf "close state directory: %w" [] e) <$> closeErr)).

(* go: internal/state/store.go 273-278 validateFilenamePart *)
Definition validateFilenamePart (name value : string) : option error :=
  if string_is_empty value || String.eqb value "." || String.eqb value ".." || ContainsAny value ["/"; "\"]%char
  then Some (Errorf "invalid %s %q for archive filename" [name; value])
  else None.

(** The rest of a function after its temporary file exists, with the deferred
    removal. *)
Definition with_temp (what : string) (temp : path) (body : prog (option error)) : prog (option error) :=
  err ← body;
  removeErr ← remove_ignoring_missing temp;
  mret (joined err ((fun e => Wrapf "remove %s temp file: %w" [what] e) <$> removeErr)).

(** ** The operations *)

Section Store.
Variable dataDir : string.
Notation data := (data_path dataDir).
Definition current_path : path := filepath_Join data currentFilename.
Definition backup_path : path := filepath_Join data backupFilename.
Definition history_path : path := filepath_Join data historyDirname.

(* go: internal/state/store.go 39-72 LoadWithMetadata *)
Definition LoadWithMetadata : prog (result (option RunState * StateLoadMetadata)) :=
  canceled ← perform CtxErr;
  match canceled with
  | Some err => mret (Err err)
  | None =>
      '(current, currentExists, currentErr) ← loadSnapshot current_path;
      match currentErr, currentExists with
      | None, true => mret (Ok (current, empty_metadata))
      | _, _ =>
          '(backup, backupExists, backupErr) ← loadSnapshot backup_path;
          mret (match backupErr, backupExists, currentErr with
          | None, true, _ =>
              Ok (backup, mkMetadata true (match currentErr with Some _ => true | None => false end)
                            ((fun e => Wrapf "load %s: %w" [currentFilename] e) <$> currentErr))
          | None, false, None => Ok (None, empty_metadata)
          | Some backupErr, _, Some currentErr =>
              Err (Errorf "load snapshots: %s: %v; %s: %v"
                     [currentFilename; error_text currentErr; backupFilename; error_text backupErr])
          | _, _, Some currentErr => Err (Wrapf "load %s: %w" [currentFilename] currentErr)
          | Some backupErr, _, None => Err (Wrapf "load %s: %w" [backupFilename] backupErr)
          end)
      end
  end.

(** The rotation: a valid current snapshot becomes the backup; an invalid one
    stays, if there is a valid backup, to be replaced. *)
(* go: internal/state/store.go 94-117 Save *)
Definition rotate_current : prog (option error) :=
  '(_, exists_, loadErr) ← loadSnapshot current_path;
  match loadErr with
  | None =>
      if (exists_ : bool) then
        try perform (Rename current_path backup_path)
          else (fun err => Some (Wrapf "rotate current snapshot to backup: %w" [] err)) ;;
        mret None
      else mret None
  | Some loadErr =>
      '(_, backupExists, backupErr) ← loadSnapshot backup_path;
      mret (match backupErr with
      | Some backupErr =>
          Some (Wrapf "refuse to replace invalid current snapshot without a valid backup: %w" []
                  (Join (Wrapf "load %s: %w" [currentFilename] loadErr) (Wrapf "load %s: %w" [backupFilename] backupErr)))
      | None =>
          if (backupExists : bool) then None
          else Some (Wrapf "refuse to replace invalid current snapshot without a valid backup: %w" [] loadErr)
      end)
  end.

(* go: internal/state/store.go 118-123 Save *)
Definition install_current (temp : path) : prog (option error) :=
  try perform (Rename temp current_path) else (fun err => Some (Wrapf "install current snapshot: %w" [] err)) ;;
  try syncDir data else (fun err => Some (Wrapf "sync state directory: %w" [] err)) ;;
  mret None.

(* go: internal/state/store.go 74-125 Save *)
Definition Save (state : RunState) : prog (option error) :=
  try perform CtxErr else Some ;;
  try ensurePrivateDir data else (fun err => Some (Wrapf "prepare state directory: %w" [] err)) ;;
  let! temp := writeSyncedEnvelopeTemp data ".current.json.tmp-" state
    else (fun err => Some (Wrapf "write current snapshot temp file: %w" [] err)) ;;
  with_temp "current snapshot" temp (try rotate_current else Some ;; install_current temp).

(* go: internal/state/store.go 127-167 Archive *)
Definition Archive (state : RunState) (outcome : string) : prog (option error) :=
  try perform CtxErr else Some ;;
  try mret (validateFilenamePart "UTC date" (run_UTCDate state)) else Some ;;
  try mret (validateFilenamePart "run ID" (run_RunID state)) else Some ;;
  try mret (validateFilenamePart "result" outcome) else Some ;;
  try ensurePrivateDir data else (fun err => Some (Wrapf "prepare state directory: %w" [] err)) ;;
  try ensurePrivateDir history_path else (fun err => Some (Wrapf "prepare history directory: %w" [] err)) ;;
  let! temp := writeSyncedEnvelopeTemp history_path ".history.tmp-" state
    else (fun err => Some (Wrapf "write history temp file: %w" [] err)) ;;
  with_temp "history snapshot" temp (
    let filename := run_UTCDate state +:+ "-" +:+ run_RunID state +:+ "-" +:+ outcome +:+ ".json" in
    try perform (Rename temp (filepath_Join history_path filename))
      else (fun err => Some (Wrapf "install history snapshot: %w" [] err)) ;;
    try syncDir history_path else (fun err => Some (Wrapf "sync history directory: %w" [] err)) ;;
    try syncDir data else (fun err => Some (Wrapf "sync state directory: %w" [] err)) ;;
    mret None).

(** [for _, name := range names { os.Remove(...) }]. *)
Fixpoint remove_all (names : list string) : prog (option error) :=
  match names with
  | [] => mret None
  | name :: names =>
      try remove_ignoring_missing (filepath_Join data name) else (fun err => Some (Wrapf "remove %s: %w" [name] err)) ;;
      remove_all names
  end.

(* go: internal/state/store.go 169-188 Clear *)
Definition Clear : prog (option error) :=
  try perform CtxErr else Some ;;
  try ensurePrivateDir data else (fun err => Some (Wrapf "prepare state directory: %w" [] err)) ;;
  try remove_all [backupFilename; currentFilename] else Some ;;
  try syncDir data else (fun err => Some (Wrapf "sync state directory: %w" [] err)) ;;
  mret None.
End Store.
