(* ===== verification/StoreRefines.v ===== *)
(** * Refinement of the snapshot store

    The specifications of the store's helpers, by symbolic execution under the
    crash condition of [StoreSpec]; the operations are in [StoreTheorems]. *)

From S2P Require Import Prelude DecimalSpec Prog Crash FileSystem Model Clock Report Json JsonFacts JsonStruct Sha256 Timestamp Envelope EnvelopeFacts Effects PayoutWorld Store.

(** * The store implements its specification

    [PayoutWorld] says what the payout code may rely on: the effect of [Save]
    and [Clear] on the two snapshots and what [LoadWithMetadata] returns.
    Here the helpers of [Store] are specified, whatever fails on the way, for
    a file system on which reading a healthy file may fail ([transient]) or
    may not, and with the condition that holds at every moment: a crash leaves
    one of the states [A]. *)

(** ** From files to slots *)

Definition node_slot (n : node) : slot :=
  if nd_faulty n then Invalid
  else if negb (nd_regular n) then Invalid
  else if negb (Z.land (nd_perm n) 63 =? 0) then Invalid
  else match unmarshalEnvelope (nd_data n) with Ok s => Valid s | Err _ => Invalid end.

Definition file_slot (n : option node) : slot := match n with Some n => node_slot n | None => Absent end.

Section StoreSpec.
Variable dataDir : string.
Notation data := (data_path dataDir).
Notation current := (current_path dataDir).
Notation backup := (backup_path dataDir).

Definition named (f : fs) (m : gmap path nat) (p : path) : option node := m !! p ≫= fun i => fs_nodes f !! i.

(** What a directory state shows of the two snapshots. *)
Definition view (f : fs) (m : gmap path nat) : slot * slot :=
  (file_slot (named f m current), file_slot (named f m backup)).
Definition now_view (f : fs) : slot * slot := view f (fs_now f).

(** The directory states a crash may leave. *)
Definition names (f : fs) : list (gmap path nat) := fs_now f :: fs_past f.

Definition snapshot_path (p : path) : Prop := p = current \/ p = backup.

(** Names lead to files, and the snapshots were synchronised before they got
    their names. *)
Definition sound_names (f : fs) (m : gmap path nat) : Prop :=
  forall p i, m !! p = Some i ->
    exists n, fs_nodes f !! i = Some n /\ (snapshot_path p -> nd_synced n = true).
Definition sound (f : fs) : Prop := Forall (sound_names f) (names f).

(** The disk holds what the process sees. *)
Definition settled (f : fs) : Prop := Forall (fun m => view f m = now_view f) (names f).

Definition stores (f : fs) (w : world) : Prop := now_view f = (w_cur w, w_bak w).

(** The condition kept at every moment: every state a crash may leave
    satisfies [A]. *)
Definition crash_safe (A : slot * slot -> Prop) (f : fs) : Prop :=
  sound f /\ Forall (fun m => A (view f m)) (names f).

Lemma crash_safe_now A f : crash_safe A f -> A (now_view f).
Proof. intros [_ H]. by inversion H. Qed.

Lemma sound_now f : sound f -> sound_names f (fs_now f).
Proof. by inversion 1. Qed.

Lemma current_not_backup : current <> backup.
Proof. intros H. by apply join_inj in H as [_ H]. Qed.

Lemma snapshot_parent p : snapshot_path p -> parent p = data.
Proof. intros [-> | ->]; apply parent_join. Qed.

(** After a crash the disk shows one of the views. *)
Lemma crash_view A f g : crash_safe A f -> fs_crash f g -> A (now_view g) /\ settled g /\ sound g.
Proof.
  intros [Hs HA] (Hm & Hp & Hn).
  pose proof (proj1 (Forall_forall _ _) Hs _ Hm) as Hsm. pose proof (proj1 (Forall_forall _ _) HA _ Hm) as HAm.
  assert (forall p i, fs_now g !! p = Some i -> exists n', fs_nodes g !! i = Some n' /\ nd_synced n' = true /\
    (snapshot_path p -> fs_nodes f !! i = Some n')) as Hlook.
  { intros p i E. destruct (Hsm p i E) as (n & Hi & Hsy). specialize (Hn i). rewrite Hi in Hn.
    inversion Hn as [? n' Hsv|]; subst. exists n'. split; [done|]. unfold survives in Hsv.
    destruct (nd_synced n) eqn:En.
    - subst n'. auto.
    - destruct Hsv as [d ->]. split; [done|]. intros Hp'. by discriminate (Hsy Hp'). }
  assert (forall p, snapshot_path p -> named g (fs_now g) p = named f (fs_now g) p) as Hname.
  { intros p Hsp. unfold named. destruct (fs_now g !! p) as [i|] eqn:E; [|done]. simpl.
    destruct (Hlook p i E) as (n' & H1 & _ & H2). by rewrite H1, H2. }
  split; [|split].
  - unfold now_view, view. rewrite !Hname by (first [by left|by right]). exact HAm.
  - unfold settled, names. rewrite Hp. by repeat constructor.
  - unfold sound, names. rewrite Hp. repeat constructor. intros p i E.
    destruct (Hlook p i E) as (n' & H1 & H2 & _). by exists n'.
Qed.

(** ** What the file operations do to the views *)

(** Changing the names: the only thing to check is the new state. *)
Lemma crash_safe_set_names A f m :
  crash_safe A f -> sound_names f m -> A (view f m) ->
  crash_safe A (set_names m f) /\ now_view (set_names m f) = view f m.
Proof. intros [Hs HA] Hm Hv. split; [|done]. split; constructor; done. Qed.

(** A file that no snapshot name leads to. *)
Definition private (f : fs) (i : nat) : Prop := Forall (fun m => forall p, snapshot_path p -> m !! p <> Some i) (names f).

Lemma named_alter f m i g p : m !! p <> Some i -> named (set_node i g f) m p = named f m p.
Proof.
  intros Hp. unfold named. destruct (m !! p) as [j|]; [|done]. simpl. apply lookup_alter_ne. by intros ->.
Qed.

Lemma crash_safe_private A f i (g : node -> node) :
  crash_safe A f -> private f i ->
  crash_safe A (set_node i g f) /\ now_view (set_node i g f) = now_view f /\ private (set_node i g f) i.
Proof.
  intros [Hs HA] Hp.
  assert (forall m, m ∈ names f -> view (set_node i g f) m = view f m) as Hv.
  { intros m Hm. pose proof (proj1 (Forall_forall _ _) Hp m Hm) as Hpm. unfold view.
    rewrite !named_alter by (apply Hpm; first [by left|by right]). done. }
  split; [split|split]; [| |apply Hv; left|done].
  - apply Forall_forall. intros m Hm p j E. pose proof (proj1 (Forall_forall _ _) Hp m Hm) as Hpm.
    destruct (proj1 (Forall_forall _ _) Hs m Hm p j E) as (n & Hn & Hsy). simpl.
    destruct (decide (j = i)) as [->|Hne].
    + exists (g n). rewrite lookup_alter_eq, Hn. split; [done|]. intros Hsp. by destruct (Hpm p Hsp).
    + exists n. by rewrite lookup_alter_ne.
  - apply Forall_forall. intros m Hm. rewrite Hv by done. by apply (proj1 (Forall_forall _ _) HA).
Qed.

(** Names other than those of the snapshots do not matter. *)
Lemma view_ext f m m' : (forall p, snapshot_path p -> m' !! p = m !! p) -> view f m' = view f m.
Proof. intros H. unfold view, named. rewrite !H by (first [by left|by right]). done. Qed.

Lemma sound_names_delete f m p : sound_names f m -> sound_names f (delete p m).
Proof. intros Hm q i [_ E]%lookup_delete_Some. by apply Hm. Qed.

(** Removing a temporary file. *)
Lemma crash_safe_remove A f p :
  crash_safe A f -> ~ snapshot_path p ->
  crash_safe A (set_names (delete p (fs_now f)) f) /\ now_view (set_names (delete p (fs_now f)) f) = now_view f.
Proof.
  intros HC Hp. assert (view f (delete p (fs_now f)) = now_view f) as Hv.
  { apply view_ext. intros q Hq. apply lookup_delete_ne. by intros ->. }
  rewrite <- Hv. apply crash_safe_set_names; [done| |rewrite Hv; by apply crash_safe_now].
  apply sound_names_delete, sound_now, HC.
Qed.

(** Giving a synchronised file the name [q]. *)
Lemma sound_names_rename f m p q i n :
  sound_names f m -> fs_nodes f !! i = Some n -> (snapshot_path q -> nd_synced n = true) ->
  sound_names f (<[q := i]> (delete p m)).
Proof.
  intros Hm Hi Hn r j [[<- <-]|[_ E]]%lookup_insert_Some; [by exists n|]. by apply (sound_names_delete f m p Hm).
Qed.

(** A new temporary file is private. *)
Lemma crash_safe_create A f p i n :
  crash_safe A f -> ~ snapshot_path p -> fs_nodes f !! i = None ->
  let f' := set_names (<[p := i]> (fs_now f)) (f <| fs_nodes ::= <[i := n]> |>) in
  crash_safe A f' /\ now_view f' = now_view f /\ private f' i.
Proof.
  intros [Hs HA] Hp Hi f'.
  assert (forall m, sound_names f m -> forall q j, m !! q = Some j -> j <> i) as Hne.
  { intros m Hm q j E ->. destruct (Hm q i E) as (n' & Hn' & _). by rewrite Hi in Hn'. }
  assert (forall m, m ∈ names f -> view f' m = view f m) as Hv.
  { intros m Hm. pose proof (Hne m (proj1 (Forall_forall _ _) Hs m Hm)) as Hm'. unfold view, named. simpl.
    destruct (m !! current) as [j|] eqn:E1; simpl; [rewrite lookup_insert_ne by (by apply not_eq_sym, (Hm' _ _ E1))|];
    (destruct (m !! backup) as [k|] eqn:E2; simpl; [rewrite lookup_insert_ne by (by apply not_eq_sym, (Hm' _ _ E2))|]); done. }
  assert (view f' (<[p := i]> (fs_now f)) = view f (fs_now f)) as Hv'.
  { rewrite <- (Hv (fs_now f)) by left. apply view_ext. intros q Hq. apply lookup_insert_ne. by intros ->. }
  split; [split|split].
  - constructor.
    + intros q j. change (fs_now f') with (<[p := i]> (fs_now f)).
      intros [[<- <-]|[_ E]]%lookup_insert_Some; simpl.
      * exists n. by rewrite lookup_insert_eq.
      * destruct (sound_now f Hs q j E) as (n' & Hn' & Hsy). exists n'.
        by rewrite lookup_insert_ne by (by apply not_eq_sym, (Hne _ (sound_now f Hs) q)).
    + apply Forall_forall. intros m Hm q j E. pose proof (proj1 (Forall_forall _ _) Hs m Hm) as Hsm.
      destruct (Hsm q j E) as (n' & Hn' & Hsy). exists n'. simpl.
      by rewrite lookup_insert_ne by (by apply not_eq_sym, (Hne _ Hsm q)).
  - constructor; [change (A (view f' (<[p := i]> (fs_now f)))); rewrite Hv'; by inversion HA|].
    apply Forall_forall. intros m Hm. rewrite Hv by done. by apply (proj1 (Forall_forall _ _) HA).
  - exact Hv'.
  - constructor.
    + intros q Hq. change (<[p := i]> (fs_now f) !! q <> Some i). rewrite lookup_insert_ne by (by intros ->).
      intros E. by apply (Hne _ (sound_now f Hs) q i E).
    + apply Forall_forall. intros m Hm q _ E. by apply (Hne m (proj1 (Forall_forall _ _) Hs m Hm) q i E).
Qed.

(** Synchronising the data directory settles the snapshots. *)
Lemma crash_safe_sync A f d :
  crash_safe A f -> (d = data \/ forall p, snapshot_path p -> parent p <> d) ->
  crash_safe A (sync_names d f) /\ now_view (sync_names d f) = now_view f /\ (d = data -> settled (sync_names d f)).
Proof.
  intros HC Hd. pose proof HC as [Hs HA].
  assert (forall m, m ∈ map (settle d (fs_now f)) (fs_past f) ->
    sound_names f m /\ (d = data -> view f m = now_view f) /\ A (view f m)) as Hm.
  { intros m (m0 & -> & Hm0)%list_elem_of_fmap.
    assert (sound_names f m0) as Hs0 by (by apply (proj1 (Forall_forall _ _) Hs); right).
    assert (d = data -> view f (settle d (fs_now f) m0) = now_view f) as Hv.
    { intros ->. apply view_ext. intros p Hp. by rewrite lookup_settle, decide_True by by apply snapshot_parent. }
    split; [|split; [done|]].
    - intros p i. rewrite lookup_settle. case_decide; [apply (sound_now f Hs)|apply Hs0].
    - destruct Hd as [Hd|Hd]; [rewrite Hv by done; by apply crash_safe_now|].
      rewrite (view_ext _ m0); [by apply (proj1 (Forall_forall _ _) HA); right|].
      intros p Hp. by rewrite lookup_settle, decide_False by by apply Hd. }
  split; [split|split; [done|]].
  - constructor; [exact (sound_now f Hs)|]. apply Forall_forall. intros m Hm'. by apply Hm.
  - constructor; [exact (crash_safe_now A f HC)|]. apply Forall_forall. intros m Hm'. by apply Hm.
  - intros ->. unfold settled. constructor; [done|]. apply Forall_forall. intros m Hm'. by apply Hm.
Qed.
End StoreSpec.

Section Specs.
Variable transient : bool.
Variable dataDir : string.
Variable A : slot * slot -> Prop.
Notation data := (data_path dataDir).
Notation current := (current_path dataDir).
Notation backup := (backup_path dataDir).
Notation C := (crash_safe dataDir A).
Notation see := (now_view dataDir).
Notation safely := (wpc (file_protocol transient) C).

(** The next operation: its responses and effects by cases. *)
Ltac operate :=
  apply wpc_perform; [assumption|exact I|]; intros ? ? [Hstep _]; revert Hstep; cbn [step file_protocol file_step maybe].

(** ** Helpers that leave the disk alone *)

Lemma ensurePrivateDir_spec f p : C f -> safely f (ensurePrivateDir p) (fun _ f' => f' = f).
Proof.
  intros HC. unfold ensurePrivateDir. destruct (string_is_empty (fst p)); [by apply wpc_ret|].
  eapply (wpc_if_err _ _ _ _ _ _ (fun _ f' => f' = f)); [operate; by intros ->|done|].
  intros f' HC' ->. operate. by intros ->.
Qed.

(** What [loadSnapshot] answers about a slot: an error of a valid one is a
    failure that passes. *)
Definition loads (c : slot) (r : option RunState * bool * option error) : Prop :=
  let '(state, present, err) := r in
  match err with
  | Some _ => transient = true \/ forall s, c <> Valid s
  | None => if present then exists s, state = Some s /\ c = Valid s else state = None /\ c = Absent
  end.

Lemma loadSnapshot_spec f p : C f ->
  safely f (loadSnapshot p) (fun r f' => f' = f /\ loads (file_slot (named f (fs_now f) p)) r).
Proof.
  intros HC. unfold loadSnapshot.
  eapply (wpc_seq _ _ _ _ _ (fun r f' => file_step f (Stat p) r f' /\ (transient = false -> steady f (Stat p) r))).
  { apply wpc_perform; [done|exact I|]. intros r f' Hs. split; [|exact Hs]. by destruct Hs as [[-> _] _]. }
  intros r f' _ [[-> Hr] Hst].
  destruct r as [|err|regular perm]; [apply wpc_ret; [done|]..|].
  - split; [done|]. split; [done|]. unfold named. by rewrite Hr.
  - split; [done|]. cbn [loads]. destruct transient; [by left|]. right. intros s. specialize (Hst eq_refl).
    change (forall n, named f (fs_now f) p = Some n -> nd_faulty n = true) in Hst.
    destruct (named f (fs_now f) p) as [n|]; simpl; [|done]. unfold node_slot. by rewrite (Hst n eq_refl).
  - change (file_at f p) with (named f (fs_now f) p) in Hr.
    destruct Hr as (n & Hn & <- & <-). rewrite Hn. cbn [file_slot]. unfold node_slot.
    destruct (nd_regular n) eqn:Er; cbn [negb]; [|apply wpc_ret; [done|]; split; [done|]; right; intros s; by destruct (nd_faulty n)].
    destruct (Z.land (nd_perm n) 63 =? 0) eqn:Ep; cbn [negb];
      [|apply wpc_ret; [done|]; split; [done|]; right; intros s; by destruct (nd_faulty n)].
    eapply (wpc_let_ok _ _ _ _ _ _ (fun r f' => file_step f (ReadFile p) r f' /\ (transient = false -> steady f (ReadFile p) r))).
    + apply wpc_perform; [done|exact I|]. intros r f' Hs. split; [|exact Hs]. by destruct Hs as [[-> _] _].
    + intros err f' _ [[-> _] Hf]. split; [done|]. cbn [loads]. destruct transient; [by left|]. right. intros s. by rewrite (Hf eq_refl n Hn).
    + intros text f' _ [[-> (n' & Hn' & Hf & <-)] _]. change (file_at f p) with (named f (fs_now f) p) in Hn'.
      rewrite Hn in Hn'. injection Hn' as <-. rewrite Hf.
      destruct (unmarshalEnvelope (nd_data n)) as [s|e]; apply wpc_ret; [done| |done|]; split; try done; [by exists s|by right].
Qed.

(** ** Temporary files *)

Definition temp_ready (f : fs) (p : path) (text : string) : Prop :=
  ~ snapshot_path dataDir p /\
  exists i, fs_now f !! p = Some i /\ fs_nodes f !! i = Some (mkNode true 384 text true false).

Lemma remove_spec f p : C f -> ~ snapshot_path dataDir p ->
  safely f (remove_ignoring_missing p) (fun _ f' => see f' = see f /\ (settled dataDir f -> settled dataDir f')).
Proof.
  intros HC Hp. unfold remove_ignoring_missing.
  pose proof (crash_safe_remove dataDir A f p HC Hp) as [HC' Hv].
  set (f1 := set_names (delete p (fs_now f)) f) in *.
  assert (settled dataDir f -> settled dataDir f1) as Hset.
  { intros Hs. unfold settled. constructor; [done|]. rewrite Hv. exact Hs. }
  eapply (wpc_seq _ _ _ _ _ (fun _ f' => f' = f \/ f' = f1)).
  { operate. case_decide as E; [intros [_ ->]; auto|]. destruct r.
    - intros [_ ->]. auto.
    - intros [_ ->]. auto.
    - intros [-> | ->]; auto. }
  intros r f' HCf' [-> | ->]; by apply wpc_ret.
Qed.

Lemma write_synced_spec f marshal file :
  C f -> private dataDir f (file_ino file) -> fs_nodes f !! file_ino file = Some (mkNode true 384 "" false false) ->
  safely f (write_synced marshal file) (fun r f' =>
    see f' = see f /\ fs_now f' = fs_now f /\
    (r = None -> exists text, marshal = Ok text /\ fs_nodes f' !! file_ino file = Some (mkNode true 384 text true false))).
Proof.
  intros HC Hp Hn. unfold write_synced.
  assert (forall f g, C f -> private dataDir f (file_ino file) ->
    C (set_node (file_ino file) g f) /\ see (set_node (file_ino file) g f) = see f /\ private dataDir (set_node (file_ino file) g f) (file_ino file)) as Hset
    by (intros; by apply crash_safe_private).
  assert (forall f (g : node -> node) n, fs_nodes f !! (file_ino file) = Some n -> fs_nodes (set_node (file_ino file) g f) !! (file_ino file) = Some (g n)) as Hlook
    by (intros f0 g n E; simpl; by rewrite lookup_alter_eq, E).
  eapply (wpc_if_err _ _ _ _ _ _ (fun _ f' => see f' = see f /\ fs_now f' = fs_now f /\ private dataDir f' (file_ino file) /\
    fs_nodes f' !! (file_ino file) = Some (mkNode true 384 "" false false))).
  { operate. destruct (Hset f (fun n => n <| nd_perm := 384 |>) HC Hp) as (H1 & H2 & H3).
    assert (forall f', f' = f \/ f' = set_node (file_ino file) (fun n => n <| nd_perm := 384 |>) f -> C f' /\ see f' = see f /\
      fs_now f' = fs_now f /\ private dataDir f' (file_ino file) /\ fs_nodes f' !! (file_ino file) = Some (mkNode true 384 "" false false)) as H.
    { intros f1 [-> | ->]; [done|]. split_and!; try done. by rewrite (Hlook _ _ _ Hn). }
    destruct r; cbn [maybe]; intros Hs; apply H; [done|]. by right. }
  { by intros err f' _ (? & ? & _). }
  intros f1 HC1 (Hv1 & Hnow1 & Hp1 & Hn1). destruct marshal as [text|err]; [|by apply wpc_ret].
  eapply (wpc_if_err _ _ _ _ _ _ (fun r f' => see f' = see f /\ fs_now f' = fs_now f /\ private dataDir f' (file_ino file) /\
    (r = None -> fs_nodes f' !! (file_ino file) = Some (mkNode true 384 text false false)))).
  { operate. destruct r as [err|].
    - intros [d ->]. destruct (Hset f1 (fun n => n <| nd_data := d |> <| nd_synced := false |>) HC1 Hp1) as (H1 & H2 & H3).
      by rewrite <- Hv1.
    - intros ->. destruct (Hset f1 (fun n => n <| nd_data ::= (fun d => d +:+ text) |> <| nd_synced := false |>) HC1 Hp1) as (H1 & H2 & H3).
      split; [done|]. rewrite <- Hv1. split_and!; try done. intros _. by rewrite (Hlook _ _ _ Hn1). }
  { by intros err f' _ (? & ? & _). }
  intros f2 HC2 (Hv2 & Hnow2 & Hp2 & Hn2). specialize (Hn2 eq_refl).
  operate. destruct (Hset f2 (fun n => n <| nd_synced := true |>) HC2 Hp2) as (H1 & H2 & H3).
  destruct r as [err|]; cbn [maybe].
  - intros [-> | ->]; (split; [done|]); (split; [congruence|]); by rewrite <- Hnow2.
  - intros ->. split; [done|]. rewrite <- Hv2, <- Hnow2. split_and!; try done. intros _. exists text.
    split; [done|]. by rewrite (Hlook _ _ _ Hn2).
Qed.

Lemma empty_path_not_snapshot : ~ snapshot_path dataDir empty_path.
Proof. by intros []. Qed.

Lemma write_temp_spec f what dir prefix marshal :
  C f -> (forall suffix, ~ snapshot_path dataDir (filepath_Join dir (prefix +:+ suffix))) ->
  safely f (write_temp what dir prefix marshal) (fun r f' => see f' = see f /\
    match r with Ok p => exists text, marshal = Ok text /\ temp_ready f' p text | Err _ => True end).
Proof.
  intros HC Hnew. unfold write_temp.
  eapply (wpc_let_ok _ _ _ _ _ _ (fun r f' => see f' = see f /\
    match r with
    | Ok file => ~ snapshot_path dataDir (file_Name file) /\ private dataDir f' (file_ino file) /\
        fs_now f' !! file_Name file = Some (file_ino file) /\
        fs_nodes f' !! file_ino file = Some (mkNode true 384 "" false false)
    | Err _ => True
    end)).
  { operate. destruct r as [file|err]; [|by intros ->]. intros (suffix & Hname & _ & Hfresh & ->).
    assert (~ snapshot_path dataDir (file_Name file)) as Hp by (rewrite Hname; apply Hnew).
    destruct (crash_safe_create dataDir A f (file_Name file) (file_ino file) (mkNode true 384 "" false false) HC Hp Hfresh)
      as (H1 & H2 & H3). split_and!; try done; simpl; by rewrite lookup_insert_eq. }
  { by intros err f' _ [? _]. }
  intros file f1 HC1 (Hv1 & Hname & Hp & Hnow & Hn).
  eapply wpc_seq; [by apply write_synced_spec|]. intros err f2 HC2 (Hv2 & Hnow2 & Hready).
  eapply (wpc_seq _ _ _ _ _ (fun _ f' => f' = f2)); [operate; by intros ->|]. intros closeErr f3 _ ->.
  destruct err as [err|]; [|destruct closeErr as [closeErr|]]; cbn [joined fmap option_fmap option_map].
  - destruct closeErr as [closeErr|]; cbn [joined fmap option_fmap option_map];
      (eapply wpc_seq; [exact (remove_spec f2 _ HC2 empty_path_not_snapshot)|]);
      intros e f4 HC4 [Hv4 _]; apply wpc_ret; [done| |done|]; (split; [congruence|done]).
  - eapply wpc_seq; [by apply remove_spec|]. intros e f4 HC4 [Hv4 _]. apply wpc_ret; [done|]. split; [congruence|done].
  - apply wpc_ret; [done|]. split; [congruence|]. destruct (Hready eq_refl) as (text & Hm & Hn2). exists text.
    split; [done|]. split; [done|]. exists (file_ino file). by rewrite Hnow2.
Qed.

(** ** Directories *)

Lemma syncDir_spec f d : C f -> (d = data \/ forall p, snapshot_path dataDir p -> parent p <> d) ->
  safely f (syncDir d) (fun r f' => see f' = see f /\ (d = data -> r = None -> settled dataDir f')).
Proof.
  intros HC Hd. unfold syncDir. destruct (crash_safe_sync dataDir A f d HC Hd) as (HC' & Hv & Hs).
  eapply (wpc_if_err _ _ _ _ _ _ (fun _ f' => f' = f)); [operate; by intros ->|by intros err f' _ ->|].
  intros f1 _ ->.
  eapply (wpc_seq _ _ _ _ _ (fun r f' => see f' = see f /\ (d = data -> r = None -> settled dataDir f'))).
  { operate. destruct r; cbn [maybe]; [intros [-> | ->]; split_and!; done|]. intros ->. split_and!; auto. }
  intros err f1 HC1 [Hv1 Hs1].
  eapply (wpc_seq _ _ _ _ _ (fun _ f' => f' = f1)); [operate; by intros ->|]. intros closeErr f2 _ ->.
  apply wpc_ret; [done|]. split; [done|]. intros E. destruct err; [by destruct closeErr|]. intros _. by apply Hs1.
Qed.

(** ** Rotating and installing *)

(** Renaming a synchronised file over [q]. *)
Lemma rename_safe f p q i n : C f ->
  fs_now f !! p = Some i -> fs_nodes f !! i = Some n -> nd_synced n = true ->
  let m := <[q := i]> (delete p (fs_now f)) in
  A (view dataDir f m) -> C (set_names m f) /\ see (set_names m f) = view dataDir f m.
Proof.
  intros HC Hp Hi Hn m HA. apply crash_safe_set_names; [done| |done].
  by apply (sound_names_rename dataDir f _ p q i n); [apply sound_now, HC| |].
Qed.

Lemma view_rotated f i : fs_now f !! current = Some i ->
  view dataDir f (<[backup := i]> (delete current (fs_now f))) = (Absent, fst (see f)).
Proof.
  intros Hi. unfold now_view, view, named. rewrite lookup_insert_ne by (apply not_eq_sym, current_not_backup).
  by rewrite lookup_delete_eq, lookup_insert_eq, Hi.
Qed.

Lemma view_installed f p i n : ~ snapshot_path dataDir p -> fs_nodes f !! i = Some n ->
  view dataDir f (<[current := i]> (delete p (fs_now f))) = (node_slot n, snd (see f)).
Proof.
  intros Hp Hi. unfold now_view, view, named. rewrite lookup_insert_eq. simpl. rewrite Hi.
  rewrite lookup_insert_ne by apply current_not_backup. rewrite lookup_delete_ne; [done|].
  intros ->. apply Hp. by right.
Qed.

Lemma temp_ready_rotated f i p text :
  temp_ready f p text ->
  temp_ready (set_names (<[backup := i]> (delete current (fs_now f))) f) p text.
Proof.
  intros (Hp & j & Hj & Hn). split; [done|]. exists j. split; [|done]. simpl.
  rewrite lookup_insert_ne by (intros <-; apply Hp; by right).
  rewrite lookup_delete_ne by (intros <-; apply Hp; by left). done.
Qed.

(** What the two snapshots may show after the rotation: a valid current
    snapshot that could not be read stays where it is. *)
Definition rotates (c b : slot) (r : option error) (v : slot * slot) : Prop :=
  match r with
  | None => (exists s0, c = Valid s0 /\ v = (Absent, c)) \/
            (c = Absent /\ v = (c, b)) \/ (c = Invalid /\ (exists s0, b = Valid s0) /\ v = (c, b)) \/
            (transient = true /\ (exists s0, c = Valid s0) /\ (exists s1, b = Valid s1) /\ v = (c, b))
  | Some _ => v = (c, b) \/ (exists s0, c = Valid s0 /\ v = (Absent, c))
  end.

Lemma rotate_current_spec f p text :
  C f -> temp_ready f p text -> (forall s0, fst (see f) = Valid s0 -> A (Absent, Valid s0)) ->
  safely f (rotate_current dataDir) (fun r f' => rotates (fst (see f)) (snd (see f)) r (see f') /\ temp_ready f' p text).
Proof.
  intros HC Ht HA. unfold rotate_current.
  assert (file_slot (named f (fs_now f) current) = fst (see f)) as Hc by done.
  assert (file_slot (named f (fs_now f) backup) = snd (see f)) as Hb by done.
  eapply wpc_seq; [by apply loadSnapshot_spec|]. rewrite Hc. intros [[st ex] [err|]] f1 _ [-> Hl]; cbn [loads] in Hl.
  - eapply wpc_seq; [by apply loadSnapshot_spec|]. rewrite Hb.
    intros [[st' ex'] [err'|]] f1 _ [-> Hl']; (apply wpc_ret; [done|]).
    + split; [by left|done].
    + cbn [loads] in Hl'. destruct ex'.
      * destruct Hl' as (s0 & _ & Hs0). split; [|done]. destruct (fst (see f)) as [| |s] eqn:E.
        -- right. left. split; [done|]. rewrite <- E. apply surjective_pairing.
        -- right. right. left. split; [done|]. split; [by exists s0|]. rewrite <- E. apply surjective_pairing.
        -- destruct Hl as [Ht'|Hl]; [|by destruct (Hl s)]. right. right. right. split; [done|]. split; [by exists s|].
           split; [by exists s0|]. rewrite <- E. apply surjective_pairing.
      * split; [|done]. left. apply surjective_pairing.
  - destruct ex.
    + destruct Hl as (s0 & _ & Hs0).
      assert (exists i n, fs_now f !! current = Some i /\ fs_nodes f !! i = Some n /\ nd_synced n = true) as (i & n & Hi & Hn & Hsy).
      { destruct (fs_now f !! current) as [i|] eqn:E.
        - destruct (sound_now dataDir f (proj1 HC) current i E) as (n & Hn & Hsy). exists i, n.
          split; [done|]. split; [done|]. apply Hsy. by left.
        - rewrite <- Hc in Hs0. unfold named in Hs0. by rewrite E in Hs0. }
      destruct (rename_safe f current backup i n HC Hi Hn Hsy) as [HC1 Hv1].
      { rewrite (view_rotated f i Hi), Hs0. by apply HA. }
      rewrite (view_rotated f i Hi) in Hv1. pose proof (temp_ready_rotated f i p text Ht) as Ht1.
      eapply (wpc_if_err _ _ _ _ _ _ (fun r f' => temp_ready f' p text /\
        match r with
        | None => see f' = (Absent, fst (see f))
        | Some _ => see f' = see f \/ see f' = (Absent, fst (see f))
        end)).
      * operate. rewrite Hi. destruct r; cbn [maybe]; [intros [-> | ->]|intros ->]; split_and!; auto.
      * intros err f' _ [H1 [H2|H2]]; (split; [|done]); rewrite H2; [left; apply surjective_pairing|right; eauto].
      * intros f' HC' [H1 H2]. apply wpc_ret; [done|]. split; [|done]. left. by exists s0.
    + destruct Hl as [_ Hl]. apply wpc_ret; [done|]. split; [|done]. right. left. split; [done|]. apply surjective_pairing.
Qed.

Lemma install_current_spec f p text s :
  C f -> temp_ready f p text -> unmarshalEnvelope text = Ok s -> A (Valid s, snd (see f)) ->
  safely f (install_current dataDir p) (fun r f' =>
    (see f' = (Valid s, snd (see f)) \/ r <> None /\ see f' = see f) /\ (r = None -> settled dataDir f')).
Proof.
  intros HC (Hp & i & Hi & Hn) Hs HA. unfold install_current.
  pose proof (view_installed f p i _ Hp Hn) as Hv. unfold node_slot in Hv. cbn in Hv. rewrite Hs in Hv.
  destruct (rename_safe f p current i _ HC Hi Hn eq_refl) as [HC1 Hv1]; [by rewrite Hv|]. rewrite Hv in Hv1.
  eapply (wpc_if_err _ _ _ _ _ _ (fun r f' => see f' = (Valid s, snd (see f)) \/ r <> None /\ see f' = see f)).
  - operate. rewrite Hi. destruct r; cbn [maybe]; [intros [-> | ->]|intros ->]; split_and!; auto.
  - intros err f' _ [H|[_ H]]; (split; [|done]); [by left|by right].
  - intros f' HC' [H|[[] _]]; [|done].
    eapply wpc_if_err; [by apply syncDir_spec; [|left]| |].
    + intros err f2 _ [H2 _]. split; [left; congruence|done].
    + intros f2 HC2 [H2 Hset]. apply wpc_ret; [done|]. split; [left; congruence|]. intros _. by apply Hset.
Qed.
End Specs.
