(* ===== verification/StoreTheorems.v ===== *)
(** * What the snapshot store guarantees

    The effects of [Save], [Clear], [LoadWithMetadata] and [Archive] of
    [internal/state/store.go], by symbolic execution.  When every healthy file
    can be read they are the effects [PayoutWorld] assumes; [save_effect_under]
    and [load_result_under] add what happens when reading a healthy snapshot
    fails for a reason that passes: [Save] may then replace a valid current
    snapshot without keeping it as the backup, and [LoadWithMetadata] may
    return the backup of a valid current snapshot. *)

From S2P Require Import Prelude DecimalSpec DecimalImpl Prog Crash Clock Model Report Effects PayoutWorld Json JsonFacts JsonStruct Sha256 Timestamp Envelope EnvelopeFacts FileSystem Store StoreRefines.

(** ** Specifications of the operations *)

(** [Save] as the file system lets it be: with [transient], a valid current
    snapshot that could not be read is replaced under the valid backup. *)
Inductive save_effect_under (transient : bool) (w : world) (s : RunState) : option error -> world -> Prop :=
| save_specified r w' : save_effect w s r w' -> save_effect_under transient w s r w'
| save_unrotated r s0 s1 :
    transient = true -> w_cur w = Valid s0 -> w_bak w = Valid s1 ->
    save_effect_under transient w s r (w <| w_cur := Valid s |>).

Definition load_result_under (transient : bool) (w : world) (r : result (option RunState * StateLoadMetadata)) : Prop :=
  match r with
  | Ok (Some s, meta) =>
      if meta_RecoveredFromBackup meta
      then (transient = true \/ forall s', w_cur w <> Valid s') /\ w_bak w = Valid s
      else w_cur w = Valid s
  | _ => load_result w r
  end.

Lemma save_steady w s r w' : save_effect_under false w s r w' -> save_effect w s r w'.
Proof. by inversion 1. Qed.

Lemma load_steady w r : load_result_under false w r -> load_result w r.
Proof. destruct r as [[[s|] meta]|e]; [|done..]. simpl. destruct (meta_RecoveredFromBackup meta); [|done]. by intros [[] ?]. Qed.

Section Operations.
Variable transient : bool.
Variable dataDir : string.
Variable A : slot * slot -> Prop.
Notation data := (data_path dataDir).
Notation C := (crash_safe dataDir A).
Notation see := (now_view dataDir).
Notation safely := (wpc (file_protocol transient) C).
Notation saves := (save_effect_under transient).
Ltac operate :=
  apply wpc_perform; [assumption|exact I|]; intros ? ? [Hstep _]; revert Hstep; cbn [step file_protocol file_step maybe].

Definition shown (w : world) : slot * slot := (w_cur w, w_bak w).

(** Guards whose failure leaves the snapshots alone. *)
Lemma guard_ctx f (h : error -> option error) k (Q : option error -> fs -> Prop) : C f ->
  (forall e, Q (h e) f) -> safely f k Q -> safely f (try perform CtxErr else h ;; k) Q.
Proof.
  intros HC He Hk. eapply (wpc_if_err _ _ _ _ _ _ (fun _ f' => f' = f)); [operate; by intros ->| |].
  - intros e f' _ ->. apply He.
  - by intros f' _ ->.
Qed.

Lemma guard_dir f p (h : error -> option error) k (Q : option error -> fs -> Prop) : C f ->
  (forall e, Q (h e) f) -> safely f k Q -> safely f (try ensurePrivateDir p else h ;; k) Q.
Proof.
  intros HC He Hk. eapply wpc_if_err; [by apply ensurePrivateDir_spec| |].
  - intros e f' _ ->. apply He.
  - by intros f' _ ->.
Qed.

Lemma guard_check f (v : option error) (h : error -> option error) k (Q : option error -> fs -> Prop) : C f ->
  (forall e, Q (h e) f) -> (v = None -> safely f k Q) -> safely f (try mret v else h ;; k) Q.
Proof. intros HC He Hk. destruct v; cbn; [by apply (wpc_ret (file_protocol transient) C f)|]. by apply Hk. Qed.

Lemma temp_name_not_snapshot prefix suffix : HasPrefix prefix "." = true ->
  ~ snapshot_path dataDir (filepath_Join data (prefix +:+ suffix)).
Proof.
  intros (r & ->)%HasPrefix_spec [H | H]; by apply join_inj in H as [_ H].
Qed.

Lemma history_not_snapshot name : ~ snapshot_path dataDir (filepath_Join (history_path dataDir) name).
Proof. by intros [H | H]; apply join_inj in H as [H _]. Qed.

(** The value of the error does not matter. *)
Lemma save_effect_any_error w s e e' w' : saves w s (Some e) w' -> saves w s (Some e') w'.
Proof.
  inversion 1 as [? ? He|]; subst; [|by eapply save_unrotated]. apply save_specified.
  inversion He; subst; econstructor; eauto.
Qed.

Lemma saves_installed w s e w' : saves w s None w' -> saves w s (Some e) w'.
Proof. inversion 1; subst; [by apply save_specified, save_failed_installed|by eapply save_unrotated]. Qed.

Lemma Save_spec f w s :
  C f -> stores dataDir f w -> state_ok s ->
  (forall e w', saves w s (Some e) w' -> A (shown w')) ->
  safely f (Save dataDir s) (fun r f' =>
    (exists w', saves w s r w' /\ stores dataDir f' w') /\ (r = None -> settled dataDir f')).
Proof.
  intros HC Hw Hok HA. unfold stores in Hw.
  assert (forall e f', see f' = see f -> (exists w', saves w s (Some e) w' /\ stores dataDir f' w') /\
    (Some e = None -> settled dataDir f')) as Hkeep.
  { intros e f' Hf. split; [|done]. exists w. split; [apply save_specified, save_failed|]. unfold stores. congruence. }
  unfold Save. apply guard_ctx; [done|by intros; apply Hkeep|]. apply guard_dir; [done|by intros; apply Hkeep|].
  eapply wpc_let_ok; [by apply write_temp_spec; [done|intros; by apply temp_name_not_snapshot]| |].
  { intros e f' _ [Hf _]. by apply Hkeep. }
  intros temp f1 HC1 [Hv1 (text & Htext & Hready)]. assert (unmarshalEnvelope text = Ok s) as Hun.
  { destruct (marshalEnvelope_text s text Htext) as (raw & Hraw & ->). by apply unmarshal_state_text. }
  assert (see f1 = (w_cur w, w_bak w)) as Hw1 by congruence.
  unfold with_temp.
  eapply (wpc_seq _ _ _ _ _ (fun r f' => (exists w', saves w s r w' /\ stores dataDir f' w') /\
    (r = None -> settled dataDir f'))).
  2:{ intros err f2 HC2 [(w' & He & Hs) Hset].
      eapply wpc_seq; [apply remove_spec; [done|apply Hready]|]. intros removeErr f3 HC3 [Hv3 Hset3].
      apply wpc_ret; [done|]. assert (stores dataDir f3 w') as Hs3 by (unfold stores in *; congruence).
      destruct err as [e|], removeErr as [e'|]; cbn [joined fmap option_fmap option_map].
      - split; [|done]. exists w'. split; [|done]. by apply (save_effect_any_error _ _ e).
      - split; [|done]. by exists w'.
      - split; [|done]. exists w'. split; [|done]. by apply saves_installed.
      - split; [by exists w'|]. auto. }
  eapply wpc_if_err; [eapply rotate_current_spec; [done|apply Hready|]| |].
  - rewrite Hw1. intros s0 Hs0. cbn in Hs0.
    exact (HA (Errorf "" []) _ (save_specified _ _ _ _ _ (save_failed_rotated w s (Errorf "" []) s0 Hs0))).
  - rewrite Hw1. cbn [fst snd]. intros e f2 _ [[H | (s0 & H0 & H)] _].
    + apply Hkeep. congruence.
    + split; [|done]. eexists. split; [by apply save_specified, save_failed_rotated|]. unfold stores. rewrite H, H0. done.
  - rewrite Hw1. cbn [fst snd]. intros f2 HC2 [Hrot Hready2].
    assert (exists w1, saves w s None w1 /\ shown w1 = (Valid s, snd (see f2)) /\
      (forall e, exists w2, saves w s (Some e) w2 /\ see f2 = shown w2)) as (w1 & He1 & Hsh1 & Hrot1).
    { destruct Hrot as [(s0 & H0 & H)|[[H0 H]|[(H0 & (s0 & Hs0) & H)|(Ht & (s0 & H0) & (s1 & H1) & H)]]]; rewrite H.
      - eexists. split; [by apply save_specified, (save_rotated w s s0)|]. split; [cbn; by rewrite H0|]. intros e.
        eexists. split; [by apply save_specified, (save_failed_rotated w s e s0)|]. cbn. by rewrite H0.
      - eexists. split; [by apply save_specified, save_first|]. split; [done|]. intros e. exists w.
        split; [apply save_specified, save_failed|done].
      - eexists. split; [by apply save_specified, (save_replaced w s s0)|]. split; [done|]. intros e. exists w.
        split; [apply save_specified, save_failed|done].
      - eexists. split; [by apply (save_unrotated _ w s None s0 s1)|]. split; [done|]. intros e. exists w.
        split; [apply save_specified, save_failed|done]. }
    eapply wpc_mono; [|apply (install_current_spec transient dataDir A f2 temp text s)].
    + intros r f3 HC3 [Hr Hset]. split; [|done]. destruct Hr as [Hr|[Hne Hr]].
      * exists w1. split; [|unfold stores, shown in *; congruence]. destruct r as [e|]; [by apply saves_installed|done].
      * destruct r as [e|]; [|done]. destruct (Hrot1 e) as (w2 & He2 & Hs2). exists w2. split; [done|].
        unfold stores, shown in *. congruence.
    + done.
    + done.
    + done.
    + rewrite <- Hsh1. by eapply (HA (Errorf "" [])), saves_installed.
Qed.

(** Removing a snapshot: the slot becomes empty, or on an error may be. *)
Lemma view_remove_backup f : view dataDir f (delete (backup_path dataDir) (fs_now f)) = (fst (see f), Absent).
Proof.
  unfold now_view, view, named. rewrite lookup_delete_eq, lookup_delete_ne by (apply not_eq_sym, current_not_backup).
  done.
Qed.

Lemma view_remove_current f : view dataDir f (delete (current_path dataDir) (fs_now f)) = (Absent, snd (see f)).
Proof.
  unfold now_view, view, named. rewrite lookup_delete_eq, lookup_delete_ne by apply current_not_backup. done.
Qed.

Lemma remove_snapshot f p (v : slot * slot) :
  C f -> snapshot_path dataDir p -> view dataDir f (delete p (fs_now f)) = v -> A v ->
  safely f (remove_ignoring_missing p) (fun r f' => see f' = v \/ r <> None /\ see f' = see f).
Proof.
  intros HC Hp Hv HA. unfold remove_ignoring_missing.
  destruct (crash_safe_set_names dataDir A f (delete p (fs_now f)) HC) as [HC1 Hv1].
  { apply sound_names_delete, sound_now, HC. }
  { by rewrite Hv. }
  eapply (wpc_seq _ _ _ _ _ (fun r f' => see f' = v \/ (exists e, r = RemoveErr e) /\ see f' = see f)).
  - operate. case_decide as E; [by destruct Hp as [-> | ->]|]. destruct r as [| |e].
    + intros [_ ->]. split; [done|]. left. congruence.
    + intros [Hn ->]. split; [done|]. left. rewrite <- Hv. unfold now_view. by rewrite delete_id.
    + intros [-> | ->]; (split; [done|]); [right; eauto|left; congruence].
  - intros r f' HC' Hr. apply wpc_ret; [done|]. destruct Hr as [Hr|[[e ->] Hr]]; [by left|by right].
Qed.

Lemma Clear_spec f w : C f -> stores dataDir f w ->
  (forall e w', clear_effect w (Some e) w' -> A (shown w')) ->
  safely f (Clear dataDir) (fun r f' =>
    (exists w', clear_effect w r w' /\ stores dataDir f' w') /\ (r = None -> settled dataDir f')).
Proof.
  intros HC Hw HA. unfold stores in Hw.
  pose proof (HA (Errorf "" []) _ (clear_failed_backup w _)) as HA1.
  pose proof (HA (Errorf "" []) _ (clear_failed_sync w _)) as HA2.
  assert (forall e f' w', clear_effect w (Some e) w' -> see f' = shown w' ->
    (exists w', clear_effect w (Some e) w' /\ stores dataDir f' w') /\ (Some e = None -> settled dataDir f')) as Herr.
  { intros e f' w' He Hf. split; [|done]. by exists w'. }
  unfold Clear. apply guard_ctx; [done|intros; by eapply Herr; [apply clear_failed|]|].
  apply guard_dir; [done|intros; by eapply Herr; [apply clear_failed|]|].
  eapply (wpc_if_err _ _ _ _ _ _ (fun r f' => match r with
    | None => see f' = (Absent, Absent)
    | Some e => exists w', clear_effect w (Some e) w' /\ see f' = shown w'
    end)); [|intros e f' _ (w' & He & Hf); by eapply Herr|].
  - cbn [remove_all]. eapply wpc_if_err.
    + apply (remove_snapshot f _ (w_cur w, Absent)); [done|by right| |exact HA1].
      change (filepath_Join data backupFilename) with (backup_path dataDir). by rewrite view_remove_backup, Hw.
    + intros e f1 _ [Hf1|[_ Hf1]]; eexists; [split; [apply clear_failed_backup|done]|split; [apply clear_failed|]].
      unfold shown. congruence.
    + intros f1 HC1 [Hf1|[[] _]]; [|done]. eapply wpc_if_err.
      * apply (remove_snapshot f1 _ (Absent, Absent)); [done|by left| |exact HA2].
        change (filepath_Join data currentFilename) with (current_path dataDir). by rewrite view_remove_current, Hf1.
      * intros e f2 _ [Hf2|[_ Hf2]]; eexists; [split; [apply clear_failed_sync|done]|split; [apply clear_failed_backup|]].
        unfold shown. simpl. congruence.
      * intros f2 HC2 [Hf2|[[] _]]; [|done]. by apply wpc_ret.
  - intros f1 HC1 Hf1. eapply wpc_if_err; [by apply syncDir_spec; [|left]| |].
    + intros e f2 _ [Hf2 _]. eapply Herr; [apply clear_failed_sync|]. unfold shown. simpl. congruence.
    + intros f2 HC2 [Hf2 Hset]. apply wpc_ret; [done|]. split; [|intros _; by apply Hset].
      eexists. split; [apply clear_done|]. unfold stores. simpl. congruence.
Qed.

Lemma LoadWithMetadata_spec f w : C f -> stores dataDir f w ->
  safely f (LoadWithMetadata dataDir) (fun r f' => f' = f /\ load_result_under transient w r).
Proof.
  intros HC Hw. unfold stores in Hw. unfold LoadWithMetadata.
  eapply (wpc_seq _ _ _ _ _ (fun _ f' => f' = f)); [operate; by intros ->|]. intros [e|] f1 _ ->; [by apply wpc_ret|].
  assert (file_slot (named f (fs_now f) (current_path dataDir)) = w_cur w) as Hc by exact (f_equal fst Hw).
  assert (file_slot (named f (fs_now f) (backup_path dataDir)) = w_bak w) as Hb by exact (f_equal snd Hw).
  eapply wpc_seq; [by apply loadSnapshot_spec|]. rewrite Hc. intros [[st ex] err] f1 _ [-> Hl].
  destruct err as [e|]; [|destruct ex].
  - eapply wpc_seq; [by apply loadSnapshot_spec|]. rewrite Hb. intros [[st' ex'] err'] f1 _ [-> Hl'].
    apply wpc_ret; [done|]. split; [done|]. destruct err' as [e'|]; [done|]. cbn in Hl, Hl'.
    destruct ex'; [|done]. by destruct Hl' as (s & -> & Hs).
  - apply wpc_ret; [done|]. split; [done|]. by destruct Hl as (s & -> & Hs).
  - eapply wpc_seq; [by apply loadSnapshot_spec|]. rewrite Hb. intros [[st' ex'] err'] f1 _ [-> Hl'].
    apply wpc_ret; [done|]. split; [done|]. cbn in Hl, Hl'. destruct Hl as [_ Hl]. destruct err' as [e'|]; [done|].
    destruct ex'; [|by destruct Hl' as [_ Hl']]. destruct Hl' as (s & -> & Hs). cbn. split; [|done]. right. by rewrite Hl.
Qed.

(** Installing a temporary file under a name outside the data directory. *)
Lemma install_elsewhere f what temp text p d (h1 h2 h3 : error -> option error) :
  C f -> temp_ready dataDir f temp text -> ~ snapshot_path dataDir p -> d <> data ->
  safely f (with_temp what temp (
      try perform (Rename temp p) else h1 ;; try syncDir d else h2 ;; try syncDir data else h3 ;; mret None))
    (fun _ f' => see f' = see f).
Proof.
  intros HC (Hp & i & Hi & Hn) Hq Hd. unfold with_temp.
  eapply (wpc_seq _ _ _ _ _ (fun _ f' => see f' = see f)).
  2:{ intros err f2 HC2 Hv2. eapply wpc_seq; [by apply remove_spec|]. intros e f3 HC3 [Hv3 _].
      apply wpc_ret; [done|]. congruence. }
  assert (view dataDir f (<[p := i]> (delete temp (fs_now f))) = see f) as Hv.
  { apply view_ext. intros q Hsq. rewrite lookup_insert_ne by (by intros ->). rewrite lookup_delete_ne by (by intros ->). done. }
  destruct (rename_safe dataDir A f temp p i _ HC Hi Hn eq_refl) as [HC2 Hv2].
  { rewrite Hv. by apply crash_safe_now. }
  rewrite Hv in Hv2.
  eapply (wpc_if_err _ _ _ _ _ _ (fun _ f' => see f' = see f)); [|done|].
  - operate. rewrite Hi. destruct r; cbn [maybe]; [intros [-> | ->]|intros ->]; split; try done; congruence.
  - intros f2 HCf2 Hf2.
    assert (d = data \/ (forall q, snapshot_path dataDir q -> parent q <> d)) as Hh.
    { right. intros q Hsq. rewrite (snapshot_parent dataDir q Hsq). by apply not_eq_sym. }
    eapply wpc_if_err; [by apply syncDir_spec|by intros e f3 _ [? _]; congruence|]. intros f3 HC3 [Hf3 _].
    eapply wpc_if_err; [by apply syncDir_spec; [|left]|by intros e f4 _ [? _]; congruence|]. intros f4 HC4 [Hf4 _].
    apply wpc_ret; [done|]. congruence.
Qed.

(** [Archive] leaves the snapshots alone. *)
Lemma Archive_spec f s outcome : C f ->
  safely f (Archive dataDir s outcome) (fun r f' => see f' = see f /\
    (r = None -> validateFilenamePart "UTC date" (run_UTCDate s) = None /\
      validateFilenamePart "run ID" (run_RunID s) = None /\ validateFilenamePart "result" outcome = None)).
Proof.
  intros HC. unfold Archive.
  apply guard_ctx; [done|done|]. apply guard_check; [done|done|]. intros H1. apply guard_check; [done|done|]. intros H2.
  apply guard_check; [done|done|]. intros H3. do 2 (apply guard_dir; [done|done|]).
  eapply wpc_let_ok; [by apply write_temp_spec; [done|intros; apply history_not_snapshot]|by intros e f' _ [? _]|].
  intros temp f1 HC1 [Hv1 (text & _ & Ht)].
  eapply wpc_mono; [|eapply install_elsewhere; [done|exact Ht|apply history_not_snapshot|done]].
  intros r f2 _ Hv2. split; [congruence|done].
Qed.
End Operations.

(** ** A file system that never fails *)

Definition empty_fs : fs := mkFs ∅ ∅ [].

(** The next free inode, by counting up. *)
Fixpoint free_ino (fuel i : nat) (nodes : gmap nat node) : nat :=
  match fuel with
  | O => i
  | S fuel => match nodes !! i with None => i | Some _ => free_ino fuel (S i) nodes end
  end.

Definition perfect (chmod_fails : bool) (f : fs) (o : FileOp) : option (FileResp o * fs) :=
  match o return option (FileResp o * fs) with
  | CtxErr | MkdirAll _ _ | ChmodDir _ _ | Close _ | OpenDir _ | CloseDir _ => Some (None, f)
  | Stat p =>
      match fs_now f !! p with
      | None => Some (StatNotExist, f)
      | Some i => n ← fs_nodes f !! i; Some (StatInfo (nd_regular n) (nd_perm n), f)
      end
  | ReadFile p => n ← file_at f p; if nd_faulty n then None else Some (Ok (nd_data n), f)
  | CreateTemp dir prefix =>
      let p := filepath_Join dir (prefix +:+ "1") in
      let i := free_ino (S (size (fs_nodes f))) 0 (fs_nodes f) in
      match fs_now f !! p, fs_nodes f !! i with
      | None, None => Some (Ok (mkFile p i),
          set_names (<[p := i]> (fs_now f)) (f <| fs_nodes ::= <[i := mkNode true 384 "" false false]> |>))
      | _, _ => None
      end
  | Chmod file perm =>
      if chmod_fails then Some (Some (Errorf "operation not permitted" []), f)
      else Some (None, set_node (file_ino file) (fun n => n <| nd_perm := perm |>) f)
  | Write file text =>
      Some (None, set_node (file_ino file) (fun n => n <| nd_data ::= (fun d => d +:+ text) |> <| nd_synced := false |>) f)
  | Sync file => Some (None, set_node (file_ino file) (fun n => n <| nd_synced := true |>) f)
  | Rename p q => i ← fs_now f !! p; Some (None, set_names (<[q := i]> (delete p (fs_now f))) f)
  | RemoveFile p =>
      if decide (p = empty_path) then Some (RemoveNotExist, f)
      else match fs_now f !! p with
           | Some _ => Some (Removed, set_names (delete p (fs_now f)) f)
           | None => Some (RemoveNotExist, f)
           end
  | SyncDir p => Some (None, sync_names p f)
  end.

Lemma perfect_follows b f o r f' : perfect b f o = Some (r, f') -> file_step f o r f'.
Proof.
  destruct o; simpl.
  1,4,5,9,13,15: by intros [= <- <-].
  - destruct (fs_now f !! p) as [i|] eqn:E; simpl; [|by intros [= <- <-]].
    destruct (fs_nodes f !! i) as [n|] eqn:En; simpl; [|done]. intros [= <- <-]. split; [done|]. exists n.
    unfold file_at. by rewrite E.
  - destruct (file_at f p) as [n|]; simpl; [|done]. destruct (nd_faulty n) eqn:Ef; [done|]. intros [= <- <-].
    split; [done|]. by exists n.
  - destruct (fs_now f !! _) eqn:E; [done|]. destruct (fs_nodes f !! _) eqn:En; [done|]. intros [= <- <-].
    exists "1". done.
  - destruct b; intros [= <- <-]; simpl; [by left|done].
  - by intros [= <- <-].
  - by intros [= <- <-].
  - destruct (fs_now f !! p); simpl; [|done]. by intros [= <- <-].
  - case_decide; [by intros [= <- <-]|]. destruct (fs_now f !! p) eqn:E; intros [= <- <-]; [by split; [eexists|]|done].
  - by intros [= <- <-].
Qed.

(** Its queries do not fail. *)
Lemma perfect_steady b f o r f' : perfect b f o = Some (r, f') -> steady f o r.
Proof.
  destruct o; simpl; try done.
  - destruct (fs_now f !! p) as [i|]; simpl; [|by intros [= <- <-]]. destruct (fs_nodes f !! i); simpl; [|done]. by intros [= <- <-].
  - destruct (file_at f p) as [n|]; simpl; [|done]. destruct (nd_faulty n); [done|]. by intros [= <- <-].
Qed.

Lemma perfect_partial {A : Type} transient b f (m : prog A) a :
  fst (exec (perfect b) f m) = Ret a ->
  partial (file_protocol transient) f m (exec_trace (perfect b) f m) (snd (exec (perfect b) f m)) (Ret a).
Proof.
  intros <-. apply (exec_partial (file_protocol transient) id). intros h o r h' E. split; [by eapply perfect_follows|].
  intros _. by eapply perfect_steady.
Qed.
