(* ===== verification/ProcessLock.v ===== *)
(** * The process lock

    [internal/state/lock_unix.go]: one process at a time may use a data
    directory.  The lock is [flock] on the file [LOCK]; the operations are
    the calls to the kernel, whose behaviour [kernel_step] writes down: a lock
    belongs to an open file, is exclusive, and ends when the file is closed,
    at the latest with its process. *)

From S2P Require Import Prelude Prog Crash FileSystem Store.

(** ** The calls *)

Definition descriptor : Type := nat.

Inductive LockOp : Type :=
| FileO (o : FileOp)
| OpenFile (p : path) (perm : Z)
| ChmodFile (fd : descriptor) (perm : Z)
| FlockExclusive (fd : descriptor)
| FlockUnlock (fd : descriptor)
| CloseFile (fd : descriptor).

Definition LockResp (o : LockOp) : Type :=
  match o with
  | FileO o => FileResp o
  | OpenFile _ _ => result descriptor
  | ChmodFile _ _ | FlockExclusive _ | FlockUnlock _ | CloseFile _ => option error
  end.

Definition LockSig : EffSig := {| Op := LockOp; Resp := LockResp |}.
Notation L := (prog (Sig := LockSig)).
Definition lock_op (o : LockOp) : L (LockResp o) := Call (Sig := LockSig) o (fun r => Ret r).

Fixpoint lift_files {A : Type} (m : prog (Sig := FileSig) A) : L A :=
  match m with
  | Ret a => Ret a
  | Call o k => Call (Sig := LockSig) (FileO o) (fun r => lift_files (k r))
  end.

(** [unix.EWOULDBLOCK], which is [unix.EAGAIN]. *)
Definition EWOULDBLOCK : error := External 11 "resource temporarily unavailable".

(** ** The lock *)

(* go: internal/state/lock_unix.go 12-14 ProcessLock *)
Record ProcessLock : Type := mkProcessLock { lock_file : option descriptor }.

(** A failed step closes the file; the errors are joined. *)
Definition close_after (fd : descriptor) (err : error) : L (result ProcessLock) :=
  closeErr ← lock_op (CloseFile fd);
  mret (Err (match closeErr with Some closeErr => Join err (Wrapf "close process lock: %w" [] closeErr) | None => err end)).

(* go: internal/state/lock_unix.go 16-45 AcquireProcessLock *)
Definition AcquireProcessLock (dataDir : path) : L (result ProcessLock) :=
  dirErr ← lift_files (ensurePrivateDir dataDir);
  match dirErr with
  | Some err => mret (Err (Wrapf "prepare process lock directory: %w" [] err))
  | None =>
      opened ← lock_op (OpenFile (filepath_Join dataDir "LOCK") 384);
      match opened with
      | Err err => mret (Err (Wrapf "open process lock: %w" [] err))
      | Ok fd =>
          chmodErr ← lock_op (ChmodFile fd 384);
          match chmodErr with
          | Some err => close_after fd (Wrapf "set process lock permissions: %w" [] err)
          | None =>
              flockErr ← lock_op (FlockExclusive fd);
              match flockErr with
              | Some err =>
                  close_after fd (if bool_decide (err = EWOULDBLOCK) then Errorf "process lock is already locked" []
                                  else Wrapf "acquire process lock: %w" [] err)
              | None => mret (Ok (mkProcessLock (Some fd)))
              end
          end
      end
  end.

(** The error, and the lock as it is left: closing it again does nothing. *)
(* go: internal/state/lock_unix.go 47-56 Close *)
Definition Close (l : ProcessLock) : L (option error * ProcessLock) :=
  match lock_file l with
  | None => mret (None, l)
  | Some fd =>
      unlockErr ← lock_op (FlockUnlock fd);
      closeErr ← lock_op (CloseFile fd);
      mret (match unlockErr, closeErr with
            | Some a, Some b => Some (Join a b)
            | Some a, None => Some a
            | None, e => e
            end, mkProcessLock None)
  end.

(** ** The kernel *)

(** The open files with the process each belongs to, and the file that has
    the lock. *)
Record kernel : Type := mkKernel { kn_open : gmap descriptor nat; kn_lock : option descriptor }.

Definition release (fd : descriptor) (lock : option descriptor) : option descriptor :=
  if bool_decide (lock = Some fd) then None else lock.

(** What a call of the process [p] may answer and change.  A file is closed
    even when [close] reports an error. *)
Definition kernel_step (p : nat) (k : kernel) (o : LockOp) : LockResp o -> kernel -> Prop :=
  match o with
  | FileO _ | ChmodFile _ _ => fun _ k' => k' = k
  | OpenFile _ _ => fun r k' =>
      match r with
      | Err _ => k' = k
      | Ok fd => kn_open k !! fd = None /\ kn_lock k <> Some fd /\ k' = mkKernel (<[fd := p]> (kn_open k)) (kn_lock k)
      end
  | FlockExclusive fd => fun r k' =>
      match r with
      | None => kn_open k !! fd = Some p /\ (kn_lock k = None \/ kn_lock k = Some fd) /\ k' = mkKernel (kn_open k) (Some fd)
      | Some e => k' = k /\ (e = EWOULDBLOCK -> exists fd', kn_lock k = Some fd' /\ fd' <> fd)
      end
  | FlockUnlock fd => fun r k' =>
      match r with None => k' = mkKernel (kn_open k) (release fd (kn_lock k)) | Some _ => k' = k end
  | CloseFile fd => fun _ k' => k' = mkKernel (delete fd (kn_open k)) (release fd (kn_lock k))
  end.

(** ** Processes *)

(** A process acquires the lock, holds it, and closes it. *)
Inductive stage : Type :=
| Acquiring (m : L (result ProcessLock))
| Holding (l : ProcessLock)
| Closing (m : L (option error * ProcessLock))
| Closed.

Record machine : Type := mkMachine { mc_kernel : kernel; mc_procs : gmap nat stage }.

(** The end of a process closes its files. *)
Definition exit_files (p : nat) (k : kernel) : kernel :=
  mkKernel (filter (fun x => x.2 <> p) (kn_open k))
    (match kn_lock k with
     | Some fd => if bool_decide (kn_open k !! fd = Some p) then None else Some fd
     | None => None
     end).

Section Machine.
(** [state.DataDir], the same for every process. *)
Variable dataDir : path.

Inductive machine_step : machine -> machine -> Prop :=
| machine_start k ps p :
    ps !! p = None -> machine_step (mkMachine k ps) (mkMachine k (<[p := Acquiring (AcquireProcessLock dataDir)]> ps))
| machine_acquiring k ps p o c r k' :
    ps !! p = Some (Acquiring (Call (Sig := LockSig) o c)) -> kernel_step p k o r k' ->
    machine_step (mkMachine k ps) (mkMachine k' (<[p := Acquiring (c r)]> ps))
| machine_acquired k ps p l :
    ps !! p = Some (Acquiring (Ret (Ok l))) -> machine_step (mkMachine k ps) (mkMachine k (<[p := Holding l]> ps))
| machine_refused k ps p e :
    ps !! p = Some (Acquiring (Ret (Err e))) -> machine_step (mkMachine k ps) (mkMachine k (<[p := Closed]> ps))
| machine_close k ps p l :
    ps !! p = Some (Holding l) -> machine_step (mkMachine k ps) (mkMachine k (<[p := Closing (Close l)]> ps))
| machine_closing k ps p o c r k' :
    ps !! p = Some (Closing (Call (Sig := LockSig) o c)) -> kernel_step p k o r k' ->
    machine_step (mkMachine k ps) (mkMachine k' (<[p := Closing (c r)]> ps))
| machine_closed k ps p a :
    ps !! p = Some (Closing (Ret a)) -> machine_step (mkMachine k ps) (mkMachine k (<[p := Closed]> ps))
| machine_exit k ps p :
    machine_step (mkMachine k ps) (mkMachine (exit_files p k) (delete p ps)).

Definition initial_machine : machine := mkMachine (mkKernel ∅ None) ∅.
Definition reachable_machine (m : machine) : Prop := rtc machine_step initial_machine m.

(** The process that has the lock. *)
Definition holder (m : machine) : option nat := fd ← kn_lock (mc_kernel m); kn_open (mc_kernel m) !! fd.
End Machine.
