(* ===== verification/ProcessLockTheorems.v ===== *)
(** * At most one process

    The process lock is exclusive, whatever fails on the way to it and
    however its processes end ([process_lock_is_exclusive]).  [ServiceTheorems]
    relies on it: a process performs the operations of the funding code only
    between the end of [AcquireProcessLock] and [Close]. *)

From S2P Require Import Prelude Prog Crash FileSystem Store ProcessLock.

(** ** What a process sees *)

(** Its open files, and the one that has the lock. *)
Definition seen : Type := gset descriptor * option descriptor.

Definition view (p : nat) (k : kernel) : seen :=
  (dom (filter (fun x => x.2 = p) (kn_open k)),
   match kn_lock k with Some fd => if bool_decide (kn_open k !! fd = Some p) then Some fd else None | None => None end).

(** Calls on a file are made while it is open. *)
Definition view_allowed (v : seen) (o : LockOp) : Prop :=
  match o with
  | ChmodFile fd _ | FlockExclusive fd | FlockUnlock fd | CloseFile fd => fd ∈ v.1
  | _ => True
  end.

Definition view_step (v : seen) (o : LockOp) : LockResp o -> seen -> Prop :=
  match o with
  | FileO _ | ChmodFile _ _ => fun _ v' => v' = v
  | OpenFile _ _ => fun r v' =>
      match r with Err _ => v' = v | Ok fd => fd ∉ v.1 /\ v' = ({[fd]} ∪ v.1, v.2) end
  | FlockExclusive fd => fun r v' => v' = match r with None => (v.1, Some fd) | Some _ => v end
  | FlockUnlock fd => fun r v' => v' = match r with None => (v.1, release fd v.2) | Some _ => v end
  | CloseFile fd => fun _ v' => v' = (v.1 ∖ {[fd]}, release fd v.2)
  end.

Definition view_protocol : protocol (Sig := LockSig) seen := @Build_protocol LockSig _ view_allowed view_step.

Definition nothing : seen := (∅, None).
Definition locked (fd : descriptor) : seen := ({[fd]}, Some fd).

Lemma open_seen p k fd : fd ∈ (view p k).1 <-> kn_open k !! fd = Some p.
Proof.
  cbn [view fst]. rewrite elem_of_dom. split.
  - intros [q Hq]. apply map_lookup_filter_Some in Hq as [Hq He]. cbn in He. by subst q.
  - intros Hf. exists p. by apply map_lookup_filter_Some.
Qed.

Lemma lock_seen p k fd : (view p k).2 = Some fd <-> kn_lock k = Some fd /\ kn_open k !! fd = Some p.
Proof. cbn [view snd]. destruct (kn_lock k) as [fd'|]; [|naive_solver]. case_bool_decide; naive_solver. Qed.

(** A view is given by its files and its lock. *)
Lemma view_eq p k v :
  (forall fd, kn_open k !! fd = Some p <-> fd ∈ v.1) ->
  (forall fd, kn_lock k = Some fd /\ kn_open k !! fd = Some p <-> v.2 = Some fd) -> view p k = v.
Proof.
  intros Ho Hl. apply injective_projections.
  - apply set_eq. intros fd. by rewrite open_seen.
  - apply option_eq. intros fd. by rewrite lock_seen.
Qed.

Lemma release_other fd lock fd' : release fd lock = Some fd' <-> lock = Some fd' /\ fd' <> fd.
Proof. unfold release. case_bool_decide; naive_solver. Qed.

(** The lock belongs to an open file. *)
Definition lock_open (k : kernel) : Prop := forall fd, kn_lock k = Some fd -> is_Some (kn_open k !! fd).

(** A call is what its process sees of it, and the others see nothing. *)
Lemma call_seen p k o r k' :
  lock_open k -> view_allowed (view p k) o -> kernel_step p k o r k' ->
  lock_open k' /\ view_step (view p k) o r (view p k') /\ forall q, q <> p -> view q k' = view q k.
Proof.
  intros Hw Ha Hs. destruct o as [o|path perm|fd perm|fd|fd|fd]; cbn [kernel_step view_step view_allowed] in *.
  - by subst k'.
  - destruct r as [fd|e]; [|by subst k']. destruct Hs as (Hf & Hl & ->). unfold lock_open in *. cbn [kn_open kn_lock] in *. split_and!.
    + intros fd' Hd. destruct (decide (fd = fd')) as [->|]; [done|]. rewrite lookup_insert_ne by done. by apply Hw.
    + rewrite open_seen. by rewrite Hf.
    + apply view_eq; intros fd'; cbn [kn_open kn_lock fst snd]; destruct (decide (fd = fd')) as [->|Hn];
        rewrite ?lookup_insert_eq, ?lookup_insert_ne by done; rewrite ?elem_of_union, ?elem_of_singleton, ?open_seen, ?lock_seen; naive_solver.
    + intros q Hq. apply view_eq; intros fd'; cbn [kn_open kn_lock]; destruct (decide (fd = fd')) as [->|Hn];
        rewrite ?lookup_insert_eq, ?lookup_insert_ne by done; rewrite ?open_seen, ?lock_seen; naive_solver.
  - by subst k'.
  - destruct r as [e|]; [by destruct Hs as [-> _]|]. destruct Hs as (Hf & Hl & ->). unfold lock_open in *. cbn [kn_open kn_lock] in *. split_and!.
    + intros fd' [= <-]. by exists p.
    + apply view_eq; intros fd'; cbn [kn_open kn_lock fst snd]; rewrite ?open_seen; naive_solver.
    + intros q Hq. apply view_eq; intros fd'; cbn [kn_open kn_lock]; rewrite ?open_seen, ?lock_seen; naive_solver.
  - apply open_seen in Ha. destruct r as [e|]; [by subst k'|]. subst k'. unfold lock_open in *. cbn [kn_open kn_lock] in *. split_and!.
    + intros fd' [Hl _]%release_other. by apply Hw.
    + apply view_eq; intros fd'; cbn [kn_open kn_lock fst snd]; rewrite ?open_seen, ?release_other, ?lock_seen; naive_solver.
    + intros q Hq. apply view_eq; intros fd'; cbn [kn_open kn_lock]; rewrite ?open_seen, ?release_other, ?lock_seen; naive_solver.
  - apply open_seen in Ha. subst k'. unfold lock_open in *. cbn [kn_open kn_lock] in *. split_and!.
    + intros fd' [Hl Hn]%release_other. rewrite lookup_delete_ne by done. by apply Hw.
    + apply view_eq; intros fd'; cbn [kn_open kn_lock fst snd]; destruct (decide (fd = fd')) as [->|Hn];
        rewrite ?lookup_delete_eq, ?lookup_delete_ne by done;
        rewrite ?elem_of_difference, ?elem_of_singleton, ?open_seen, ?release_other, ?lock_seen; naive_solver.
    + intros q Hq. apply view_eq; intros fd'; cbn [kn_open kn_lock]; destruct (decide (fd = fd')) as [->|Hn];
        rewrite ?lookup_delete_eq, ?lookup_delete_ne by done; rewrite ?open_seen, ?release_other, ?lock_seen; naive_solver.
Qed.

Lemma exit_seen p k : lock_open k ->
  lock_open (exit_files p k) /\ view p (exit_files p k) = nothing /\ forall q, q <> p -> view q (exit_files p k) = view q k.
Proof.
  intros Hw. unfold exit_files.
  assert (forall fd q, filter (fun x => x.2 <> p) (kn_open k) !! fd = Some q <-> kn_open k !! fd = Some q /\ q <> p) as Hf.
  { intros fd q. apply map_lookup_filter_Some. }
  set (lock := match kn_lock k with Some fd => _ | None => None end).
  assert (forall fd, lock = Some fd <-> kn_lock k = Some fd /\ kn_open k !! fd <> Some p) as Hl.
  { intros fd. subst lock. destruct (kn_lock k) as [fd'|]; [|naive_solver]. case_bool_decide; naive_solver. }
  split_and!.
  - intros fd [Hk Hn]%Hl. cbn [kn_open]. destruct (Hw _ Hk) as [q Hq]. exists q. apply Hf. split; [done|]. by intros ->.
  - apply view_eq; intros fd; cbn [kn_open kn_lock]; rewrite Hf, ?Hl; unfold nothing; cbn; set_solver.
  - intros q Hq. apply view_eq; intros fd; cbn [kn_open kn_lock]; rewrite Hf, ?Hl, ?open_seen, ?lock_seen; naive_solver.
Qed.

(** ** One process *)

Lemma view_files {A B : Type} (m : prog (Sig := FileSig) A) (f : A -> L B) v Q :
  (forall a, wp view_protocol v (f a) Q) -> wp view_protocol v (lift_files m ≫= f) Q.
Proof. intros Hf. induction m as [a|o k IH]; [apply Hf|]. split; [done|]. intros r v' ->. apply IH. Qed.

Lemma its_file (fd : descriptor) (lock : option descriptor) : fd ∈ (({[fd]}, lock) : seen).1.
Proof. by apply elem_of_singleton. Qed.

Definition acquired (r : result ProcessLock) (v : seen) : Prop :=
  match r with Ok l => exists fd, l = mkProcessLock (Some fd) /\ v = locked fd | Err _ => v = nothing end.

(** An acquisition ends with the lock and its file, or with no file. *)
Lemma acquire_view dataDir : wp view_protocol nothing (AcquireProcessLock dataDir) acquired.
Proof.
  assert (forall fd err lock, release fd lock = None -> wp view_protocol ({[fd]}, lock) (close_after fd err) acquired) as Hclose.
  { intros fd err lock Hr. split; [by apply its_file|]. intros r v' ->. cbn. rewrite Hr. unfold nothing. by rewrite difference_diag_L. }
  unfold AcquireProcessLock. apply view_files. intros [e|]; [done|].
  split; [done|]. intros [fd|e] v'; [|by intros ->]. intros [_ ->]. cbn [fst snd nothing]. rewrite union_empty_r_L.
  split; [by apply its_file|]. intros [e|] v' ->; [by apply Hclose|].
  split; [by apply its_file|]. intros [e|] v' ->; [by apply Hclose|]. by exists fd.
Qed.

(** Closing gives everything back, also when a call fails. *)
Lemma close_view fd : wp view_protocol (locked fd) (Close (mkProcessLock (Some fd))) (fun r v => v = nothing /\ r.2 = mkProcessLock None).
Proof.
  split; [by apply its_file|]. intros unlocked v' ->. split; [destruct unlocked; by apply its_file|].
  intros closed v' ->. assert (release fd (if unlocked then locked fd else ((locked fd).1, release fd (locked fd).2)).2 = None) as Hr.
  { unfold release. destruct unlocked; cbn; repeat case_bool_decide; congruence. }
  destruct unlocked; cbn in *; rewrite Hr, difference_diag_L; by split.
Qed.

(** ** Many processes *)

Section System.
Variable dataDir : path.

Definition stage_ok (v : seen) (s : stage) : Prop :=
  match s with
  | Acquiring m => wp view_protocol v m acquired
  | Holding l => acquired (Ok l) v
  | Closing m => wp view_protocol v m (fun _ v => v = nothing)
  | Closed => v = nothing
  end.

Definition machine_ok (m : machine) : Prop :=
  lock_open (mc_kernel m) /\
  forall p, match mc_procs m !! p with Some s => stage_ok (view p (mc_kernel m)) s | None => view p (mc_kernel m) = nothing end.

(** A step of the process [p] that leaves the others alone. *)
Lemma machine_moves k k' ps p s :
  machine_ok (mkMachine k ps) -> lock_open k' -> (forall q, q <> p -> view q k' = view q k) -> stage_ok (view p k') s ->
  machine_ok (mkMachine k' (<[p := s]> ps)).
Proof.
  intros [_ Hps] Hw Hq Hs. split; [done|]. intros q. cbn [mc_procs mc_kernel].
  destruct (decide (q = p)) as [->|Hn]; [by rewrite lookup_insert_eq|]. rewrite lookup_insert_ne, Hq by done. apply (Hps q).
Qed.

Lemma machine_ok_step m m' : machine_ok m -> machine_step dataDir m m' -> machine_ok m'.
Proof.
  intros Hm Hs. pose proof Hm as [Hw Hps].
  destruct Hs as [k ps p Hp|k ps p o c r k' Hp Hk|k ps p l Hp|k ps p e Hp|k ps p l Hp|k ps p o c r k' Hp Hk|k ps p a Hp|k ps p];
    cbn [mc_procs mc_kernel] in *; specialize (Hps p) as Hv; try rewrite Hp in Hv.
  - apply (machine_moves k); try done. cbn [stage_ok]. rewrite Hv. apply acquire_view.
  - destruct Hv as [Ha Hc]. destruct (call_seen p k o r k' Hw Ha Hk) as (Hw' & Hv' & Hq). apply (machine_moves k); try done. by apply Hc.
  - by apply (machine_moves k).
  - by apply (machine_moves k).
  - apply (machine_moves k); try done. cbn [stage_ok acquired] in *. destruct Hv as (fd & -> & ->).
    eapply wp_mono; [|apply close_view]. by intros r v' [-> _].
  - destruct Hv as [Ha Hc]. destruct (call_seen p k o r k' Hw Ha Hk) as (Hw' & Hv' & Hq). apply (machine_moves k); try done. by apply Hc.
  - by apply (machine_moves k).
  - destruct (exit_seen p k Hw) as (Hw' & Hv' & Hq). split; [done|]. intros q. cbn [mc_procs mc_kernel].
    destruct (decide (q = p)) as [->|Hn]; [by rewrite lookup_delete_eq|]. rewrite lookup_delete_ne, Hq by done. apply (Hps q).
Qed.

Lemma reachable_machine_ok m : reachable_machine dataDir m -> machine_ok m.
Proof.
  intros Hr. unfold reachable_machine in Hr. remember initial_machine as m0 eqn:E.
  assert (machine_ok m0) as H0.
  { subst m0. split; [done|]. intros p. done. }
  clear E. induction Hr as [|x y z Hxy _ IH]; [done|]. apply IH. by eapply machine_ok_step.
Qed.

(** C28: The process lock is exclusive and is never lost or leaked.  In every history of any number of processes, whatever
    calls fail: a process that acquired the lock holds it until it closes it, so at most one process does; a process
    that was refused, that closed the lock or that has ended has neither the lock nor a file left; and the lock never
    passes from one process to another in one step. *)
Theorem process_lock_is_exclusive m :
  reachable_machine dataDir m ->
  (forall p l, mc_procs m !! p = Some (Holding l) -> holder m = Some p) /\
  (forall p fd, mc_procs m !! p = Some Closed \/ mc_procs m !! p = None -> kn_open (mc_kernel m) !! fd <> Some p) /\
  (forall m' p q, machine_step dataDir m m' -> holder m = Some p -> holder m' = Some q -> p = q).
Proof.
  intros Hr. pose proof (reachable_machine_ok m Hr) as [Hw Hps]. split_and!.
  - intros p l Hp. specialize (Hps p). rewrite Hp in Hps. destruct Hps as (fd & -> & Hv).
    assert ((view p (mc_kernel m)).2 = Some fd) as Hl by (by rewrite Hv). apply lock_seen in Hl as [Hl Ho].
    unfold holder. rewrite Hl. exact Ho.
  - intros p fd Hp Ho. apply open_seen in Ho. specialize (Hps p).
    assert (view p (mc_kernel m) = nothing) as Hv by (by destruct Hp as [Hp|Hp]; rewrite Hp in Hps). rewrite Hv in Ho.
    by apply elem_of_empty in Ho.
  - intros m' p q Hs Hp Hq.
    assert (forall k ps r, holder (mkMachine k ps) = Some r <-> exists fd, (view r k).2 = Some fd) as Hh.
    { intros k ps r. unfold holder. cbn [mc_kernel]. setoid_rewrite lock_seen. destruct (kn_lock k) as [fd|]; cbn; naive_solver. }
    destruct (decide (p = q)) as [|Hn]; [done|exfalso].
    assert (forall k fd fd', (view p k).2 = Some fd -> (view q k).2 = Some fd' -> False) as Hone.
    { intros k fd fd' [H1 H2]%lock_seen [H3 H4]%lock_seen. congruence. }
    assert (forall k k' r ps ps', (forall x, x <> r -> view x k' = view x k) -> holder (mkMachine k ps) = Some p -> holder (mkMachine k' ps') = Some q -> False) as Hmove.
    { intros k k' r ps ps' Hx [fd Hpk]%Hh [fd' Hqk]%Hh. destruct (decide (r = p)) as [->|Hrp].
      - rewrite Hx in Hqk by done. by eapply Hone.
      - rewrite <- (Hx p) in Hpk by done. by eapply Hone. }
    destruct Hs as [k ps r Hr'|k ps r o c a k' Hr' Hk|k ps r l Hr'|k ps r e Hr'|k ps r l Hr'|k ps r o c a k' Hr' Hk|k ps r a Hr'|k ps r];
      cbn [mc_procs mc_kernel] in *; specialize (Hps r) as Hv; try rewrite Hr' in Hv; try (eapply (Hmove k k r); [by intros|exact Hp|exact Hq]).
    + destruct Hv as [Ha _]. eapply (Hmove k k' r); [|exact Hp|exact Hq]. by apply (call_seen r k o a k').
    + destruct Hv as [Ha _]. eapply (Hmove k k' r); [|exact Hp|exact Hq]. by apply (call_seen r k o a k').
    + eapply (Hmove k _ r); [|exact Hp|exact Hq]. by apply exit_seen.
Qed.
End System.

(** ** Two processes *)

Section Witness.

(** A kernel where nothing fails but a lock that is taken. *)
Definition kernel_answer (p : nat) (k : kernel) (o : LockOp) : option (LockResp o * kernel) :=
  match o return option (LockResp o * kernel) with
  | FileO (MkdirAll _ _) => Some (None, k)
  | FileO (ChmodDir _ _) => Some (None, k)
  | FileO _ => None
  | ChmodFile _ _ => Some (None, k)
  | OpenFile _ _ =>
      let fd := fresh (dom (kn_open k) ∪ match kn_lock k with Some fd => {[fd]} | None => ∅ end) in
      Some (Ok fd, mkKernel (<[fd := p]> (kn_open k)) (kn_lock k))
  | FlockExclusive fd =>
      match kn_lock k with
      | Some fd' => if decide (fd' = fd) then None else Some (Some EWOULDBLOCK, k)
      | None => if decide (kn_open k !! fd = Some p) then Some (None, mkKernel (kn_open k) (Some fd)) else None
      end
  | FlockUnlock fd => Some (None, mkKernel (kn_open k) (release fd (kn_lock k)))
  | CloseFile fd => Some (None, mkKernel (delete fd (kn_open k)) (release fd (kn_lock k)))
  end.

Lemma kernel_answer_step p k o r k' : kernel_answer p k o = Some (r, k') -> kernel_step p k o r k'.
Proof.
  destruct o as [[]|path perm|fd perm|fd|fd|fd]; cbn [kernel_answer kernel_step]; try done; try (by intros [= <- <-]).
  - cbv zeta. intros [= <- <-]. set (used := dom (kn_open k) ∪ _). pose proof (is_fresh used) as Hf.
    split_and!; [| |done].
    + apply not_elem_of_dom. intros Hd. apply Hf. subst used. set_solver.
    + intros Hl. apply Hf. subst used. rewrite Hl. set_solver.
  - destruct (kn_lock k) as [fd'|] eqn:E; case_decide; try done; intros [= <- <-]; [|by split_and!; [|left|]].
    split; [done|]. intros _. by exists fd'.
Qed.

Lemma acquiring_history dataDir p m : forall k ps,
  reachable_machine dataDir (mkMachine k (<[p := Acquiring m]> ps)) ->
  let r := exec (Sig := LockSig) (kernel_answer p) k m in reachable_machine dataDir (mkMachine (snd r) (<[p := Acquiring (fst r)]> ps)).
Proof.
  induction m as [a|o c IH]; intros k ps Hr; [done|]. cbn [exec]. destruct (kernel_answer p k o) as [[r k']|] eqn:E; [|done].
  apply IH. eapply rtc_r; [exact Hr|]. rewrite <- (insert_insert_eq ps p (Acquiring (c r)) (Acquiring (Call (Sig := LockSig) o c))).
  eapply machine_acquiring; [apply lookup_insert_eq|]. by apply kernel_answer_step.
Qed.

(** The first process gets the lock, the second one is refused. *)
Definition data_dir : path := ("data", []).
Definition first_try := exec (Sig := LockSig) (kernel_answer 1) (mkKernel ∅ None) (AcquireProcessLock data_dir).
Definition second_try := exec (Sig := LockSig) (kernel_answer 2) (snd first_try) (AcquireProcessLock data_dir).
Definition two_processes : machine :=
  mkMachine (snd second_try) (<[2%nat := Closed]> (<[1%nat := Holding (mkProcessLock (Some 0%nat))]> ∅)).

Lemma process_lock_is_exclusive_witness :
  fst second_try = Ret (Err (Errorf "process lock is already locked" [])) /\ holder two_processes = Some 1%nat /\
  forall fd, kn_open (mc_kernel two_processes) !! fd <> Some 2%nat.
Proof.
  assert (fst first_try = Ret (Ok (mkProcessLock (Some 0%nat)))) as E1 by (vm_compute; reflexivity).
  assert (fst second_try = Ret (Err (Errorf "process lock is already locked" []))) as E2 by (vm_compute; reflexivity).
  assert (reachable_machine data_dir two_processes) as Hr.
  { assert (reachable_machine data_dir (mkMachine (snd first_try) (<[1%nat := Acquiring (fst first_try)]> ∅))) as H1.
    { apply acquiring_history. eapply rtc_r; [apply rtc_refl|]. by apply machine_start. }
    rewrite E1 in H1.
    assert (reachable_machine data_dir (mkMachine (snd first_try) (<[1%nat := Holding (mkProcessLock (Some 0%nat))]> ∅))) as H2.
    { eapply rtc_r; [exact H1|]. rewrite <- (insert_insert_eq ∅ 1%nat (Holding _) (Acquiring (Ret (Sig := LockSig) (Ok (mkProcessLock (Some 0%nat)))))).
      eapply machine_acquired, lookup_insert_eq. }
    assert (reachable_machine data_dir (mkMachine (snd second_try) (<[2%nat := Acquiring (fst second_try)]> (<[1%nat := Holding (mkProcessLock (Some 0%nat))]> ∅)))) as H3.
    { apply acquiring_history. eapply rtc_r; [exact H2|]. by apply machine_start. }
    rewrite E2 in H3. eapply rtc_r; [exact H3|]. unfold two_processes.
    rewrite <- (insert_insert_eq (<[1%nat := Holding (mkProcessLock (Some 0%nat))]> ∅) 2%nat Closed (Acquiring (Ret (Sig := LockSig) (Err (Errorf "process lock is already locked" []))))).
    eapply machine_refused, lookup_insert_eq. }
  destruct (process_lock_is_exclusive data_dir two_processes Hr) as (Hh & Hc & _). split; [exact E2|]. split.
  - eapply Hh. reflexivity.
  - intros fd. apply Hc. by left.
Defined.
End Witness.
