(* ===== verification/DailyStore.v ===== *)
(** * The store of the daily consolidation records

    [internal/state/daily_consolidation.go]: one file per UTC date, an
    indented JSON envelope with a schema version and a SHA-256 checksum of the
    compact encoding of the record. *)

From S2P Require Import Prelude DecimalSpec DecimalImpl Prog Crash Clock Model Report Effects Daily PayoutWorld Json JsonFacts JsonStruct Sha256 Timestamp Envelope EnvelopeFacts FileSystem Store StoreRefines StoreTheorems.

(* go: internal/state/daily_consolidation.go 17-17 dailyConsolidationDirname *)
Definition dailyConsolidationDirname : string := "daily-consolidations".
(* go: internal/state/daily_consolidation.go 18-18 dailyConsolidationSchemaVersion *)
Definition dailyConsolidationSchemaVersion : Z := 1.

(** ** The JSON encoding *)

Definition step_string (s : ReportStepStatus) : string :=
  match s with
  | ReportStepPending => "pending"
  | ReportStepSuccess => "success"
  | ReportStepWarning => "warning"
  | ReportStepSkipped => "skipped"
  | ReportStepFailed => "failed"
  | ReportStepOther s => s
  end.
Definition step_of (s : string) : ReportStepStatus :=
  if String.eqb s "pending" then ReportStepPending
  else if String.eqb s "success" then ReportStepSuccess
  else if String.eqb s "warning" then ReportStepWarning
  else if String.eqb s "skipped" then ReportStepSkipped
  else if String.eqb s "failed" then ReportStepFailed
  else ReportStepOther s.

Definition daily_status_string (s : DailyConsolidationStatus) : string :=
  match s with
  | DailyConsolidationClaimablesCaptured => "claimables_captured"
  | DailyConsolidationCompleted => "completed"
  | DailyConsolidationOther s => s
  end.
Definition daily_status_of (s : string) : DailyConsolidationStatus :=
  if String.eqb s "claimables_captured" then DailyConsolidationClaimablesCaptured
  else if String.eqb s "completed" then DailyConsolidationCompleted
  else DailyConsolidationOther s.

Definition enc_bool (b : bool) : string := if b then "true" else "false".
Definition omit_false (k : string) (b : bool) : list (string * string) := if b then [(k, "true")] else [].

(* go: internal/funding/daily_consolidation.go 35-47 DailyConsolidationBuilder *)
Definition enc_daily_builder (b : DailyConsolidationBuilder) : string :=
  obj_text ([("address", encode_string (dcb_Address b))] ++ omit_empty "claimable_usdc" (dcb_ClaimableUSDC b) ++
    [("claimable_observed", enc_bool (dcb_ClaimableObserved b));
     ("claimable_query_attempts", itoa (dcb_ClaimableQueryAttempts b));
     ("claim_attempts", itoa (dcb_ClaimAttempts b))] ++
    omit_false "claim_uncertain" (dcb_ClaimUncertain b) ++
    [("claim_status", encode_string (step_string (dcb_ClaimStatus b)))] ++
    omit_empty "claim_summary" (dcb_ClaimSummary b) ++ omit_empty "sweep_amount" (dcb_SweepAmount b) ++
    [("sweep_status", encode_string (step_string (dcb_SweepStatus b)))] ++
    omit_empty "sweep_summary" (dcb_SweepSummary b)).

(** [completed_at] is omitted when it is the zero time. *)
(* go: internal/funding/daily_consolidation.go 26-33 DailyConsolidation *)
Definition enc_daily (c : DailyConsolidation) : option string :=
  startedAt ← format_time (dc_StartedAt c);
  capturedAt ← format_time (dc_ClaimablesCapturedAt c);
  completedAt ← (if IsZero (dc_CompletedAt c) then Some [] else
                   text ← format_time (dc_CompletedAt c); Some [("completed_at", encode_string text)]);
  Some (obj_text ([("utc_date", encode_string (dc_UTCDate c));
                   ("status", encode_string (daily_status_string (dc_Status c)));
                   ("started_at", encode_string startedAt); ("claimables_captured_at", encode_string capturedAt)] ++
    completedAt ++
    [("builders", match dc_Builders c with [] => "null" | bs => arr_text (map enc_daily_builder bs) end)])).

#[export] Instance DailyConsolidationBuilder_settable : Settable DailyConsolidationBuilder := fun b =>
  mkDailyBuilder (dcb_Address b) (dcb_ClaimableUSDC b) (dcb_ClaimableObserved b) (dcb_ClaimableQueryAttempts b)
    (dcb_ClaimAttempts b) (dcb_ClaimUncertain b) (dcb_ClaimStatus b) (dcb_ClaimSummary b) (dcb_SweepAmount b)
    (dcb_SweepStatus b) (dcb_SweepSummary b).
#[export] Instance DailyConsolidation_settable : Settable DailyConsolidation := fun c =>
  mkDailyConsolidation (dc_UTCDate c) (dc_Status c) (dc_StartedAt c) (dc_ClaimablesCapturedAt c) (dc_CompletedAt c)
    (dc_Builders c).

(* go: internal/funding/daily_consolidation.go 35-47 DailyConsolidationBuilder *)
Definition dec_daily_builder : decoder DailyConsolidationBuilder := dec_struct (field [
  ("address", dec_str (fun v b => b <| dcb_Address := v |>));
  ("claimable_usdc", dec_str (fun v b => b <| dcb_ClaimableUSDC := v |>));
  ("claimable_observed", dec_bool (fun v b => b <| dcb_ClaimableObserved := v |>));
  ("claimable_query_attempts", dec_int64 (fun v b => b <| dcb_ClaimableQueryAttempts := v |>));
  ("claim_attempts", dec_int64 (fun v b => b <| dcb_ClaimAttempts := v |>));
  ("claim_uncertain", dec_bool (fun v b => b <| dcb_ClaimUncertain := v |>));
  ("claim_status", dec_str (fun v b => b <| dcb_ClaimStatus := step_of v |>));
  ("claim_summary", dec_str (fun v b => b <| dcb_ClaimSummary := v |>));
  ("sweep_amount", dec_str (fun v b => b <| dcb_SweepAmount := v |>));
  ("sweep_status", dec_str (fun v b => b <| dcb_SweepStatus := step_of v |>));
  ("sweep_summary", dec_str (fun v b => b <| dcb_SweepSummary := v |>))]).
Definition zero_daily_builder : DailyConsolidationBuilder :=
  mkDailyBuilder "" "" false 0 0 false (ReportStepOther "") "" "" (ReportStepOther "") "".

(* go: internal/funding/daily_consolidation.go 26-33 DailyConsolidation *)
Definition dec_daily : decoder DailyConsolidation := dec_struct (field [
  ("utc_date", dec_str (fun v c => c <| dc_UTCDate := v |>));
  ("status", dec_str (fun v c => c <| dc_Status := daily_status_of v |>));
  ("started_at", dec_time (fun v c => c <| dc_StartedAt := v |>));
  ("claimables_captured_at", dec_time (fun v c => c <| dc_ClaimablesCapturedAt := v |>));
  ("completed_at", dec_time (fun v c => c <| dc_CompletedAt := v |>));
  ("builders", dec_slice zero_daily_builder (fun v c => c <| dc_Builders := v |>) dec_daily_builder)]).
Definition zero_daily : DailyConsolidation :=
  mkDailyConsolidation "" (DailyConsolidationOther "") zero_time zero_time zero_time [].

(** [json.Indent] of a compact text with two spaces. *)
Definition newline (depth : nat) : string := bytes_of [10] +:+ String.concat "" (repeat "  " depth).

Fixpoint indent_text (in_string escaped need_indent : bool) (depth : nat) (s : string) : string :=
  match s with
  | EmptyString => ""
  | String c r =>
      if in_string then
        String c (indent_text (escaped || negb (Ascii.eqb c quote_char))
                    (negb escaped && Ascii.eqb c backslash) false depth r)
      else
        let closing := Ascii.eqb c "]" || Ascii.eqb c "}" in
        let depth := if need_indent && negb closing then S depth else depth in
        let pre := if need_indent && negb closing then newline depth else "" in
        if Ascii.eqb c "{" || Ascii.eqb c "[" then pre +:+ String c (indent_text false false true depth r)
        else if Ascii.eqb c "," then pre +:+ String c (newline depth +:+ indent_text false false false depth r)
        else if Ascii.eqb c ":" then pre +:+ String c (String " " (indent_text false false false depth r))
        else if closing then
          if need_indent then String c (indent_text false false false depth r)
          else newline (pred depth) +:+ String c (indent_text false false false (pred depth) r)
        else pre +:+ String c (indent_text (Ascii.eqb c quote_char) false false depth r)
  end.

(* go: internal/state/daily_consolidation.go 22-26 dailyConsolidationEnvelope *)
Definition daily_envelope_text (version : Z) (checksum consolidation : string) : string :=
  obj_text [("schema_version", itoa version); ("checksum", encode_string checksum); ("consolidation", consolidation)].

(* go: internal/state/daily_consolidation.go 159-174 marshalDailyConsolidationEnvelope *)
Definition marshalDailyConsolidationEnvelope (c : DailyConsolidation) : result string :=
  match enc_daily c with
  | None => Err (Wrapf "encode daily consolidation: %w" [] (Errorf "unsupported value" []))
  | Some consolidationJSON =>
      let compact := daily_envelope_text dailyConsolidationSchemaVersion (sha256_hex consolidationJSON) consolidationJSON in
      Ok (indent_text false false false 0 compact +:+ bytes_of [10])
  end.

(* go: internal/state/daily_consolidation.go 22-26 dailyConsolidationEnvelope *)
Record daily_envelope : Type := mkDailyEnvelope {
  denv_SchemaVersion : Z;
  denv_Checksum : string;
  denv_Consolidation : DailyConsolidation
}.
#[export] Instance daily_envelope_settable : Settable daily_envelope := fun e =>
  mkDailyEnvelope (denv_SchemaVersion e) (denv_Checksum e) (denv_Consolidation e).

(* go: internal/state/daily_consolidation.go 22-26 dailyConsolidationEnvelope *)
Definition dec_daily_envelope : decoder daily_envelope := dec_struct (field [
  ("schema_version", dec_int64 (fun v e => e <| denv_SchemaVersion := v |>));
  ("checksum", dec_str (fun v e => e <| denv_Checksum := v |>));
  ("consolidation", dec_in denv_Consolidation (fun v e => e <| denv_Consolidation := v |>) dec_daily)]).

(** ** The store *)

(* go: internal/state/daily_consolidation.go 201-207 validateUTCDate *)
Definition validateUTCDate (value : string) : option error :=
  match ParseDateOnly value with
  | Some (y, m, d) =>
      if String.eqb (format_date y m d) value then None else Some (Errorf "invalid UTC date %q" [value])
  | None => Some (Errorf "invalid UTC date %q" [value])
  end.

Section DailyStore.
Context `{DecimalOps}.
Variable dataDir : string.

(* go: internal/state/daily_consolidation.go 176-199 unmarshalDailyConsolidationEnvelope *)
Definition unmarshalDailyConsolidationEnvelope (data : string) : result DailyConsolidation :=
  match (if parse_json data then dec_daily_envelope data (mkDailyEnvelope 0 "" zero_daily) else None) with
  | None => Err (Wrapf "decode daily consolidation envelope: %w" [] (Errorf "invalid JSON" []))
  | Some saved =>
      if negb (denv_SchemaVersion saved =? dailyConsolidationSchemaVersion)
      then Err (Errorf "unsupported daily consolidation schema version %d" [itoa (denv_SchemaVersion saved)])
      else match enc_daily (denv_Consolidation saved) with
           | None => Err (Wrapf "encode daily consolidation for checksum: %w" [] (Errorf "unsupported value" []))
           | Some consolidationJSON =>
               if negb (String.eqb (denv_Checksum saved) (sha256_hex consolidationJSON))
               then Err (Errorf "daily consolidation checksum mismatch" [])
               else match Validate (denv_Consolidation saved) with
                    | Some err => Err err
                    | None => Ok (denv_Consolidation saved)
                    end
           end
  end.

(* go: internal/state/daily_consolidation.go 96-122 loadDailyConsolidation *)
Definition loadDailyConsolidation (p : path) : prog (option DailyConsolidation * bool * option error) :=
  info ← perform (Stat p);
  match info with
  | StatNotExist => mret (None, false, None)
  | StatErr err => mret (None, false, Some err)
  | StatInfo regular perm =>
      if negb regular then mret (None, true, Some (Errorf "daily consolidation is not a regular file" []))
      else if negb (Z.land perm 63 =? 0)
      then mret (None, true, Some (Errorf "daily consolidation permissions %04o allow group or other access" [octal4 perm]))
      else
        let! data := perform (ReadFile p) else (fun err => (None, true, Some err)) ;;
        match unmarshalDailyConsolidationEnvelope data with
        | Err err => mret (None, true, Some err)
        | Ok consolidation => mret (Some consolidation, true, None)
        end
  end.

Definition daily_dir : path := filepath_Join (data_path dataDir) dailyConsolidationDirname.

(* go: internal/state/daily_consolidation.go 30-55 LoadDailyConsolidation *)
Definition LoadDailyConsolidation (utcDate : string) : prog (result (option DailyConsolidation)) :=
  try perform CtxErr else Err ;;
  try mret (validateUTCDate utcDate) else Err ;;
  '(consolidation, exists_, err) ← loadDailyConsolidation (filepath_Join daily_dir (utcDate +:+ ".json"));
  mret (match err with
  | Some err => Err (Wrapf "load daily consolidation %s: %w" [utcDate] err)
  | None =>
      match consolidation with
      | Some c =>
          if negb (String.eqb (dc_UTCDate c) utcDate)
          then Err (Errorf "daily consolidation date %q does not match requested date %q" [dc_UTCDate c; utcDate])
          else Ok (Some c)
      | None => Ok None
      end
  end).

(* go: internal/state/daily_consolidation.go 124-157 writeSyncedDailyConsolidationTemp *)
Definition writeSyncedDailyConsolidationTemp (dir : path) (c : DailyConsolidation) : prog (result path) :=
  write_temp "daily consolidation" dir ".daily-consolidation.tmp-" (marshalDailyConsolidationEnvelope c).

(* go: internal/state/daily_consolidation.go 57-94 SaveDailyConsolidation *)
Definition SaveDailyConsolidation (c : DailyConsolidation) : prog (option error) :=
  try perform CtxErr else Some ;;
  try mret (Validate c) else Some ;;
  try ensurePrivateDir (data_path dataDir) else (fun err => Some (Wrapf "prepare state directory: %w" [] err)) ;;
  try ensurePrivateDir daily_dir else (fun err => Some (Wrapf "prepare daily consolidation directory: %w" [] err)) ;;
  let! temp := writeSyncedDailyConsolidationTemp daily_dir c
    else (fun err => Some (Wrapf "write daily consolidation temp file: %w" [] err)) ;;
  with_temp "daily consolidation" temp (
    try perform (Rename temp (filepath_Join daily_dir (dc_UTCDate c +:+ ".json")))
      else (fun err => Some (Wrapf "install daily consolidation: %w" [] err)) ;;
    try syncDir daily_dir else (fun err => Some (Wrapf "sync daily consolidation directory: %w" [] err)) ;;
    try syncDir (data_path dataDir) else (fun err => Some (Wrapf "sync state directory: %w" [] err)) ;;
    mret None).
End DailyStore.
