(* ===== verification/StoreRefinement.v ===== *)
(** * The store refines its specification

    The theorems on the file-backed store of [internal/state] as the state
    store and the daily store of the funding service: it refines the effects
    the payout safety is proved against, its operations are atomic with
    respect to a crash, a saved snapshot survives one, a daily record that
    is returned is a valid record of the requested date, and a temporary file
    that was not written completely is left behind.

    The theorems hold on a file system on which reading a healthy file may
    fail for a reason that passes ([transient]).  [store_step] is what the
    operations may do there, and without such failures it is what the payout
    safety assumes.  With them it is weaker: [Save] takes a valid current
    snapshot it cannot read for an invalid one and replaces it under a valid
    backup, without rotating it, and [LoadWithMetadata] returns the backup.
    Two consecutive saves then no longer put the same boundary into both
    generations ([passing_error_skips_rotation]). *)

From S2P Require Import Prelude DecimalSpec DecimalImpl Prog Crash Clock Model Report Effects Daily PayoutWorld Json JsonFacts JsonStruct Sha256 Timestamp Envelope EnvelopeFacts FileSystem Store StoreRefines StoreTheorems DailyStore.

(** ** The daily store *)

Section Daily.
Context `{DecimalOps}.
Variable transient : bool.
Variable dataDir : string.
Variable A : slot * slot -> Prop.
Notation C := (crash_safe dataDir A).
Notation see := (now_view dataDir).
Notation safely := (wpc (file_protocol transient) C).
Ltac operate :=
  apply wpc_perform; [assumption|exact I|]; intros ? ? [Hstep _]; revert Hstep; cbn [step file_protocol file_step maybe].

Lemma unmarshal_daily_valid data c : unmarshalDailyConsolidationEnvelope data = Ok c -> Validate c = None.
Proof.
  unfold unmarshalDailyConsolidationEnvelope. destruct (if parse_json data then _ else _) as [saved|]; [|done].
  destruct (negb _); [done|]. destruct (enc_daily _); [|done]. destruct (negb _); [done|].
  destruct (Validate _) eqn:E; [done|]. by intros [= <-].
Qed.

Lemma loadDailyConsolidation_spec f p : C f ->
  safely f (loadDailyConsolidation p) (fun r f' => f' = f /\
    forall c, fst (fst r) = Some c -> snd r = None /\ Validate c = None).
Proof.
  intros HC. unfold loadDailyConsolidation.
  eapply (wpc_seq _ _ _ _ _ (fun _ f' => f' = f)); [operate; by intros [-> _]|]. intros r f1 _ ->.
  destruct r as [|err|regular perm]; [by apply wpc_ret..|].
  destruct (negb regular); [by apply wpc_ret|]. destruct (negb (_ =? _)); [by apply wpc_ret|].
  eapply (wpc_let_ok _ _ _ _ _ _ (fun _ f' => f' = f)); [operate; by intros [-> _]|by intros err f1 _ ->|].
  intros data f1 _ ->. destruct (unmarshalDailyConsolidationEnvelope data) as [c|e] eqn:E; (apply wpc_ret; [done|]);
    (split; [done|]); [|done]. intros c' [= <-]. split; [done|]. by apply unmarshal_daily_valid in E.
Qed.

Lemma LoadDailyConsolidation_spec f utcDate : C f ->
  safely f (LoadDailyConsolidation dataDir utcDate) (fun r f' => f' = f /\
    forall c, r = Ok (Some c) -> validateUTCDate utcDate = None /\ dc_UTCDate c = utcDate /\ Validate c = None).
Proof.
  intros HC. unfold LoadDailyConsolidation.
  eapply (wpc_if_err _ _ _ _ _ _ (fun _ f' => f' = f)); [operate; by intros ->|by intros e f1 _ ->|]. intros f1 _ ->.
  destruct (validateUTCDate utcDate) as [e|] eqn:Ev; [by apply (wpc_ret (file_protocol transient) C f)|].
  cbn [if_err mbind prog_mbind mret prog_ret prog_bind].
  eapply wpc_seq; [by apply loadDailyConsolidation_spec|]. intros [[c ex] err] f1 _ [-> Hc]. cbn [fst snd] in Hc.
  apply wpc_ret; [done|]. split; [done|]. intros c' Hr. destruct err as [e|]; [done|]. destruct c as [c|]; [|done].
  destruct (String.eqb_spec (dc_UTCDate c) utcDate) as [Hd|Hd]; [|done]. injection Hr as <-.
  split; [done|]. split; [done|]. by apply Hc.
Qed.

Lemma daily_not_snapshot name : ~ snapshot_path dataDir (filepath_Join (daily_dir dataDir) name).
Proof. by intros [H1 | H1]; apply join_inj in H1 as [H1 _]. Qed.

Lemma SaveDailyConsolidation_spec f c : C f ->
  safely f (SaveDailyConsolidation dataDir c) (fun _ f' => see f' = see f).
Proof.
  intros HC. unfold SaveDailyConsolidation.
  apply guard_ctx; [done|done|]. apply guard_check; [done|done|]. intros _. do 2 (apply guard_dir; [done|done|]).
  eapply wpc_let_ok; [by apply write_temp_spec; [done|intros; apply daily_not_snapshot]|by intros e f' _ [? _]|].
  intros temp f1 HC1 [Hv1 (text & _ & Ht)].
  eapply wpc_mono; [|eapply install_elsewhere; [done|exact Ht|apply daily_not_snapshot|done]].
  intros r f2 _ Hv2. congruence.
Qed.
End Daily.

(** ** The store as the state store of the funding service *)

Section Refinement.
Context `{DecimalOps}.
Variable transient : bool.
Variable dataDir : string.

(** The operations of [funding.StateStore] and of
    [funding.DailyConsolidationStore], each with the function that
    implements it, and the response of a call that failed. *)
Definition implementation (o : FundingOp) : option (prog (FundingResp o)) :=
  match o with
  | Effects.LoadWithMetadata => Some (LoadWithMetadata dataDir)
  | Effects.Save s => Some (Save dataDir s)
  | Effects.Archive s outcome => Some (Archive dataDir s outcome)
  | Effects.Clear => Some (Clear dataDir)
  | Effects.LoadDailyConsolidation utcDate => Some (LoadDailyConsolidation dataDir utcDate)
  | Effects.SaveDailyConsolidation record => Some (SaveDailyConsolidation dataDir record)
  | _ => None
  end.

Definition failure (o : FundingOp) (e : error) : option (FundingResp o) :=
  match o with
  | Effects.LoadWithMetadata | Effects.LoadDailyConsolidation _ => Some (Err e)
  | Effects.Save _ | Effects.Archive _ _ | Effects.Clear | Effects.SaveDailyConsolidation _ => Some (Some e)
  | _ => None
  end.

(** The effects of the operations when reading a healthy snapshot may fail; if
    it may not, they are those the payout safety assumes. *)
Definition store_step (w : world) (o : FundingOp) : FundingResp o -> world -> Prop :=
  match o with
  | Effects.Save s => save_effect_under transient w s
  | Effects.LoadWithMetadata => fun r w' => w' = w /\ load_result_under transient w r
  | o => funding_step w o
  end.

Lemma store_step_steady w o r w' : transient = false -> store_step w o r w' -> funding_step w o r w'.
Proof.
  unfold store_step. destruct o; try done; cbn [funding_step]; intros ->.
  - intros [-> Hl]. split; [done|]. by apply load_steady.
  - by apply save_steady.
Qed.

(** What the client must respect: the states it saves are encodable. *)
Definition storable (o : FundingOp) : Prop := match o with Effects.Save s => state_ok s | _ => True end.

(** The states a crash may leave: those a failed call may leave. *)
Definition crash_states (w : world) (o : FundingOp) (v : slot * slot) : Prop :=
  exists e r w', failure o e = Some r /\ store_step w o r w' /\ shown w' = v.

Lemma implementation_spec f w (o : FundingOp) m A :
  implementation o = Some m -> storable o ->
  crash_safe dataDir A f -> stores dataDir f w -> (forall v, crash_states w o v -> A v) ->
  wpc (file_protocol transient) (crash_safe dataDir A) f m (fun r f' => exists w', store_step w o r w' /\ stores dataDir f' w').
Proof.
  intros Hm Hs HC Hw HA. destruct o; try discriminate Hm; simpl in Hm; apply (inj Some) in Hm; subst m.
  - eapply wpc_mono; [|by apply (LoadWithMetadata_spec transient dataDir A f w)]. intros r f' _ [-> Hl]. by exists w.
  - eapply wpc_mono; [|apply (Save_spec transient dataDir A f w state); [done..|]].
    + by intros r f' _ [Hr _].
    + intros e w' He. apply HA. by exists e, (Some e), w'.
  - eapply wpc_mono; [|by apply (Archive_spec transient dataDir A f state outcome)]. intros r f' _ [Hr _]. exists w. split; [done|]. unfold stores in *. congruence.
  - eapply wpc_mono; [|apply (Clear_spec transient dataDir A f w); [done..|]].
    + by intros r f' _ [Hr _].
    + intros e w' He. apply HA. by exists e, (Some e), w'.
  - eapply wpc_mono; [|by apply (LoadDailyConsolidation_spec transient dataDir A f utcDate)]. intros r f' _ [-> _]. by exists w.
  - eapply wpc_mono; [|by apply (SaveDailyConsolidation_spec transient dataDir A f record)]. intros r f' _ Hr. exists w.
    split; [done|]. unfold stores in *. congruence.
Qed.

(** C6: the file-backed store refines the state store the payout safety is
    proved against: whatever fails on the way, an execution of one of its
    operations has an effect and a response that [store_step] allows.  If no
    healthy file fails to be read, that is an effect and a response the payout
    safety assumes; if one may, what is added is that [Save] may replace a
    valid current snapshot and keep the older valid backup, and that
    [LoadWithMetadata] may return the backup of a valid current snapshot. *)
Theorem store_refines_specification f w (o : FundingOp) m tr f' r :
  implementation o = Some m -> storable o -> sound dataDir f -> stores dataDir f w ->
  partial (file_protocol transient) f m tr f' (Ret r) ->
  sound dataDir f' /\
  exists w', store_step w o r w' /\ stores dataDir f' w' /\ (transient = false -> funding_step w o r w').
Proof.
  intros Hm Hs Hf Hw Hp.
  assert (crash_safe dataDir (fun _ => True) f) as HC by (split; [done|]; by apply Forall_true).
  pose proof (implementation_spec f w o m _ Hm Hs HC Hw (fun _ _ => I)) as Hwp.
  destruct (wpc_partial _ _ _ _ _ _ _ _ Hp Hwp) as [[Hf' _] _]. split; [done|].
  destruct (wpc_returns _ _ _ _ _ _ _ _ Hp Hwp) as (w' & Hstep & Hw'). exists w'. split; [done|]. split; [done|].
  intros Ht. by apply store_step_steady.
Qed.

(** C7: the operations are atomic: if the process or the machine stops at any
    point of one, the disk holds two snapshots that a failed call may leave -
    never a torn or a missing state.  A healthy file may fail to be read on
    the way. *)
Theorem store_is_crash_atomic f w (o : FundingOp) m tr f' m' g :
  implementation o = Some m -> storable o -> sound dataDir f -> settled dataDir f -> stores dataDir f w ->
  partial (file_protocol transient) f m tr f' m' -> fs_crash f' g ->
  sound dataDir g /\ settled dataDir g /\
  exists e r w', failure o e = Some r /\ store_step w o r w' /\ stores dataDir g w' /\
    (transient = false -> funding_step w o r w').
Proof.
  intros Hm Hs Hf Hset Hw Hp Hg.
  assert (crash_states w o (shown w)) as Hnow.
  { destruct o; try discriminate Hm; exists Canceled; eexists; exists w; (split; [done|]); (split; [|done]); try done.
    - apply save_specified, save_failed.
    - apply clear_failed. }
  assert (crash_safe dataDir (crash_states w o) f) as HC.
  { split; [done|]. eapply Forall_impl; [exact Hset|]. intros n Hn. cbn in Hn. rewrite Hn, Hw. exact Hnow. }
  pose proof (implementation_spec f w o m _ Hm Hs HC Hw (fun _ H => H)) as Hwp.
  destruct (wpc_partial _ _ _ _ _ _ _ _ Hp Hwp) as [HC' _].
  destruct (crash_view dataDir _ _ _ HC' Hg) as ((e & r & w' & Hr & Hstep & Hv) & Hsg & Hsound).
  split; [done|]. split; [done|]. exists e, r, w'. split_and!; [done..|]. intros Ht. by apply store_step_steady.
Qed.

(** Once [Save] has returned without an error, the current snapshot is the
    saved state, and it and its backup survive a crash. *)
Theorem saved_state_survives f w s tr f' g :
  sound dataDir f -> stores dataDir f w -> state_ok s ->
  partial (file_protocol transient) f (Save dataDir s) tr f' (Ret None) -> fs_crash f' g ->
  exists w', save_effect_under transient w s None w' /\ w_cur w' = Valid s /\ stores dataDir f' w' /\ stores dataDir g w'.
Proof.
  intros Hf Hw Hs Hp Hg.
  assert (crash_safe dataDir (fun _ => True) f) as HC by (split; [done|]; by apply Forall_true).
  pose proof (Save_spec transient dataDir _ f w s HC Hw Hs (fun _ _ _ => I)) as Hwp.
  destruct (wpc_returns _ _ _ _ _ _ _ _ Hp Hwp) as [(w' & He & Hw') Hset].
  destruct (wpc_partial _ _ _ _ _ _ _ _ Hp Hwp) as [[Hf' _] _]. specialize (Hset eq_refl).
  exists w'. split; [done|]. split; [by inversion He as [? ? He'|]; [inversion He'|]; subst|]. split; [done|].
  assert (crash_safe dataDir (eq (now_view dataDir f')) f') as HC'.
  { split; [done|]. eapply Forall_impl; [exact Hset|]. by intros n ->. }
  destruct (crash_view dataDir _ _ _ HC' Hg) as [Hv _]. unfold stores in *. congruence.
Qed.
End Refinement.

(** A daily record is returned only when it is a valid record of the
    requested date with a matching checksum; loading changes nothing. *)
Theorem loaded_daily_record_is_valid `{DecimalOps} transient dataDir f utcDate tr f' c :
  sound dataDir f ->
  partial (file_protocol transient) f (LoadDailyConsolidation dataDir utcDate) tr f' (Ret (Ok (Some c))) ->
  f' = f /\ validateUTCDate utcDate = None /\ dc_UTCDate c = utcDate /\ Validate c = None.
Proof.
  intros Hf Hp.
  assert (crash_safe dataDir (fun _ => True) f) as HC by (split; [done|]; by apply Forall_true).
  pose proof (LoadDailyConsolidation_spec transient dataDir _ f utcDate HC) as Hwp.
  destruct (wpc_returns _ _ _ _ _ _ _ _ Hp Hwp) as [-> Hc]. split; [done|]. by apply Hc.
Qed.

(** ** The temporary files

    An execution creates at most one temporary file and removes it under the
    name its path variable holds. *)

Section Temporary.
Context `{DecimalOps}.
Variable transient : bool.
Variable dataDir : string.

Definition created_file (e : event FileSig) : option file :=
  let (o, r) := e in
  match o as o0 return FileResp o0 -> option file with
  | CreateTemp _ _ => fun r => match r with Ok file => Some file | Err _ => None end
  | _ => fun _ => None
  end r.
Definition synced_file (e : event FileSig) : option file :=
  let (o, r) := e in
  match o as o0 return FileResp o0 -> option file with
  | Sync file => fun r => match r with None => Some file | Some _ => None end
  | _ => fun _ => None
  end r.
Definition removed_path (e : event FileSig) : option path :=
  let (o, _) := e in match (o : FileOp) with RemoveFile p => Some p | _ => None end.

(** The temporary files an execution created, those whose contents were
    written completely and synchronised, and the paths it tried to remove. *)
Definition created (tr : list (event FileSig)) : list file := omap created_file tr.
Definition completed (tr : list (event FileSig)) : list file := omap synced_file tr.
Definition removals (tr : list (event FileSig)) : list path := omap removed_path tr.

Notation world := (fs * list (event FileSig))%type.
Notation P := (recorded (file_protocol transient)).
Notation runs := (wpc P (fun _ : world => True)).

Definition creates (o : FileOp) : bool := match o with CreateTemp _ _ => true | _ => false end.
Definition removes (o : FileOp) : bool := match o with RemoveFile _ => true | _ => false end.
Definition plain (o : FileOp) : Prop := creates o = false /\ removes o = false.

Definition quiet (h : list (event FileSig)) : Prop := created h = [] /\ removals h = [].
Definition finished (h : list (event FileSig)) : Prop := forall file, file ∈ created h -> file ∈ completed h.

(** What a failed write leaves: its file, under its name, and one removal, of
    the empty path. *)
Definition leaves (failed : Prop) (w : world) : Prop :=
  forall file, file ∈ created (snd w) -> file ∉ completed (snd w) ->
    failed /\ fs_now (fst w) !! file_Name file = Some (file_ino file) /\ removals (snd w) = [empty_path].

Lemma created_snoc h e : created (h ++ [e]) = created h ++ option_list (created_file e).
Proof. unfold created. rewrite omap_app. cbn. by destruct (created_file e). Qed.
Lemma completed_snoc h e : completed (h ++ [e]) = completed h ++ option_list (synced_file e).
Proof. unfold completed. rewrite omap_app. cbn. by destruct (synced_file e). Qed.
Lemma removals_snoc h e : removals (h ++ [e]) = removals h ++ option_list (removed_path e).
Proof. unfold removals. rewrite omap_app. cbn. by destruct (removed_path e). Qed.

Lemma finished_leaves failed w : finished (snd w) -> leaves failed w.
Proof. intros Hf file H1 H2. by destruct (H2 (Hf file H1)). Qed.
Lemma quiet_finished h : quiet h -> finished h.
Proof. intros [E _] file. rewrite E. by intros Hx%elem_of_nil. Qed.

(** Programs of operations that keep a property of the events. *)
Lemma runs_keep {B : Type} (R : FileOp -> Prop) (I : list (event FileSig) -> Prop) w (m : prog B) :
  (forall h (o : FileOp) (r : FileResp o), R o -> I h -> I (h ++ [Ev (o : @Op FileSig) r])) ->
  ops_in (Sig := FileSig) R m -> I (snd w) -> runs w m (fun _ w' => I (snd w')).
Proof.
  intros HI. revert w. induction m as [a|o k IH]; intros w; [by intros _ Hw|]. intros [Ho Hk] Hw.
  split; [done|]. split; [done|]. intros r w' [_ Hw']. apply IH; [apply Hk|]. rewrite Hw'. by apply HI.
Qed.

Lemma quiet_runs {B : Type} w (m : prog B) : ops_in (Sig := FileSig) plain m -> quiet (snd w) ->
  runs w m (fun _ w' => quiet (snd w')).
Proof.
  apply runs_keep. intros h o r [Hc Hr] [H1 H2]. split.
  - rewrite created_snoc, H1. by destruct o.
  - rewrite removals_snoc, H2. by destruct o.
Qed.

Lemma finished_runs {B : Type} w (m : prog B) : ops_in (Sig := FileSig) (fun o => creates o = false) m ->
  finished (snd w) -> runs w m (fun _ w' => finished (snd w')).
Proof.
  apply runs_keep. intros h o r Hc Hf file. rewrite created_snoc, completed_snoc.
  assert (created_file (Ev (o : @Op FileSig) r) = None) as -> by (by destruct o). cbn [option_list]. rewrite app_nil_r.
  intros Hx. apply elem_of_app. left. by apply Hf.
Qed.

(** A guard before the file is created. *)
Lemma guard_leaves {B : Type} w m h (k : prog B) (Q : B -> Prop) :
  quiet (snd w) -> ops_in (Sig := FileSig) plain m ->
  (forall w', quiet (snd w') -> runs w' k (fun r w' => leaves (Q r) w')) ->
  runs w (try m else h ;; k) (fun r w' => leaves (Q r) w').
Proof.
  intros Hw Hm Hk. eapply wpc_if_err; [by apply quiet_runs| |].
  - intros e w' _ Hw'. by apply finished_leaves, quiet_finished.
  - intros w' _ Hw'. by apply Hk.
Qed.

(** The created file keeps its name while it is written. *)
Definition open_file (file : file) (w : world) : Prop :=
  created (snd w) = [file] /\ removals (snd w) = [] /\ fs_now (fst w) !! file_Name file = Some (file_ino file).

Lemma open_step (file : file) w (o : FileOp) (r : FileResp o) w' :
  match o with Chmod _ _ | Write _ _ | Sync _ | Close _ => True | _ => False end ->
  open_file file w -> step P w o r w' -> open_file file w'.
Proof.
  intros Ho (H1 & H2 & H3) [[Hs _] Hh]. unfold open_file. rewrite Hh, created_snoc, removals_snoc, H1, H2.
  destruct o; try done; cbn in Hs |- *; (split; [done|]); (split; [done|]).
  - by destruct r; [destruct Hs as [-> | ->]|rewrite Hs].
  - by destruct r as [e|]; [destruct Hs as [d ->]|rewrite Hs].
  - by destruct r; [destruct Hs as [-> | ->]|rewrite Hs].
  - by rewrite Hs.
Qed.

Lemma write_synced_leaves file marshal w : open_file file w ->
  runs w (write_synced marshal file) (fun r w' => open_file file w' /\ (r = None -> file ∈ completed (snd w'))).
Proof.
  intros Hw. unfold write_synced.
  eapply (wpc_if_err _ _ _ _ _ _ (fun _ w' => open_file file w')).
  - apply wpc_perform; [done..|]. intros r w' Hs. split; [done|]. by refine (open_step _ _ _ _ _ _ Hw Hs).
  - by intros e w' _ Hw'.
  - intros w1 _ Hw1. destruct marshal as [data|e]; [|by apply wpc_ret].
    eapply (wpc_if_err _ _ _ _ _ _ (fun _ w' => open_file file w')).
    + apply wpc_perform; [done..|]. intros r w' Hs. split; [done|]. by refine (open_step _ _ _ _ _ _ Hw1 Hs).
    + by intros e w' _ Hw'.
    + intros w2 _ Hw2. apply wpc_perform; [done..|]. intros r w' Hs. split; [done|].
      split; [by refine (open_step _ _ _ _ _ _ Hw2 Hs)|]. intros ->. destruct Hs as [_ ->]. rewrite completed_snoc. apply elem_of_app. right. by left.
Qed.

Lemma join_not_empty dir name : filepath_Join dir name <> empty_path.
Proof. intros [= _ E]. by destruct (snd dir). Qed.

Lemma remove_empty_leaves w : runs w (remove_ignoring_missing empty_path)
  (fun _ w' => fst w' = fst w /\ created (snd w') = created (snd w) /\ completed (snd w') = completed (snd w) /\
    removals (snd w') = removals (snd w) ++ [empty_path]).
Proof.
  unfold remove_ignoring_missing. eapply (wpc_seq _ _ _ _ _ (fun _ w' => fst w' = fst w /\ created (snd w') = created (snd w) /\
    completed (snd w') = completed (snd w) /\ removals (snd w') = removals (snd w) ++ [empty_path])).
  - apply wpc_perform; [done..|]. intros r w' [[Hs _] Hh]. split; [done|]. cbn in Hs. destruct Hs as [_ Hs].
    rewrite Hs, Hh, created_snoc, completed_snoc, removals_snoc. cbn. by rewrite !app_nil_r.
  - intros r w' _ Hw'. by apply wpc_ret.
Qed.

(** Writing a temporary file: complete, or failed and left behind. *)
Lemma write_temp_leaves what dir prefix marshal w : quiet (snd w) ->
  runs w (write_temp what dir prefix marshal)
    (fun r w' => match r with Ok _ => finished (snd w') | Err _ => leaves True w' end).
Proof.
  intros Hw. unfold write_temp.
  eapply (wpc_let_ok _ _ _ _ _ _ (fun r w' => match r with Ok file => open_file file w' | Err _ => quiet (snd w') end)).
  - apply wpc_perform; [done..|]. intros r w' [[Hs _] Hh]. split; [done|]. destruct Hw as [H1 H2]. cbn in Hs.
    destruct r as [file|e].
    + destruct Hs as (suffix & _ & _ & _ & Hs). split; [by rewrite Hh, created_snoc, H1|].
      split; [by rewrite Hh, removals_snoc, H2|]. rewrite Hs. cbn. by rewrite lookup_insert_eq.
    + split; [by rewrite Hh, created_snoc, H1|by rewrite Hh, removals_snoc, H2].
  - intros e w' _ Hw'. by apply finished_leaves, quiet_finished.
  - intros file w1 _ Hw1. eapply wpc_seq; [by apply write_synced_leaves|]. intros err w2 _ [Hw2 Hdone].
    eapply (wpc_seq _ _ _ _ _ (fun _ w' => open_file file w' /\ (err = None -> file ∈ completed (snd w')))).
    { apply wpc_perform; [done..|]. intros r w' Hs. split; [done|]. split; [by refine (open_step _ _ _ _ _ _ Hw2 Hs)|].
      intros He. destruct Hs as [_ ->]. rewrite completed_snoc. apply elem_of_app. left. by apply Hdone. }
    intros closeErr w3 _ [(Hc & Hr & Hn) Hd].
    assert (err = None -> finished (snd w3)) as Hfin.
    { intros He file'. rewrite Hc, list_elem_of_singleton. intros ->. by apply Hd. }
    destruct err as [e|].
    + assert (joined (Some e) ((fun e => Wrapf ("close %s temp file: %w") [what] e) <$> closeErr) <> None) as Hj
        by (by destruct closeErr).
      destruct (joined _ _) as [e'|]; [|done].
      eapply wpc_seq; [apply remove_empty_leaves|]. intros removeErr w4 _ (Hf4 & Hc4 & Hd4 & Hr4). apply wpc_ret; [done|].
      intros file' Hin _. rewrite Hc4, Hc in Hin. apply list_elem_of_singleton in Hin as ->.
      split; [done|]. rewrite Hf4, Hr4, Hr. done.
    + specialize (Hfin eq_refl). destruct (joined _ _) as [e'|]; [|by apply wpc_ret].
      eapply wpc_seq; [apply finished_runs; [by split|exact Hfin]|]. intros removeErr w4 _ Hw4. apply wpc_ret; [done|].
      by apply finished_leaves.
Qed.

(** ** The operations of the store *)

Ltac plainly := repeat first [progress (unfold plain, creates, removes; cbn) | split | done | intros ? | case_match].

Lemma ensurePrivateDir_plain p : ops_in (Sig := FileSig) plain (ensurePrivateDir p).
Proof. unfold ensurePrivateDir. plainly. Qed.

Definition old_file {B : Type} (m : prog B) : Prop := ops_in (Sig := FileSig) (fun o => creates o = false) m.

Lemma old_bind {B C : Type} (m : prog B) (f : B -> prog C) : old_file m -> (forall a, old_file (f a)) -> old_file (m ≫= f).
Proof. apply ops_in_bind. Qed.

Lemma old_if_err {B : Type} m h (k : prog B) : old_file m -> old_file k -> old_file (try m else h ;; k).
Proof. intros Hm Hk. apply old_bind; [done|]. by intros [e|]. Qed.

Lemma old_perform (o : FileOp) : creates o = false -> old_file (perform (o : @Op FileSig)).
Proof. by split. Qed.

Lemma remove_old p : old_file (remove_ignoring_missing p).
Proof. by split. Qed.

Lemma loadSnapshot_old p : old_file (loadSnapshot p).
Proof.
  unfold loadSnapshot. apply old_bind; [by apply old_perform|]. intros [|e|regular perm]; [done..|].
  destruct (negb regular); [done|]. destruct (negb _); [done|]. split; [done|]. intros [data|e]; [|done]. cbn.
  by destruct (unmarshalEnvelope data).
Qed.

Lemma syncDir_old p : old_file (syncDir p).
Proof. unfold syncDir. apply old_if_err; [by apply old_perform|]. by repeat split. Qed.

Lemma rotate_old : old_file (rotate_current dataDir).
Proof.
  unfold rotate_current. apply old_bind; [apply loadSnapshot_old|]. intros [[st ex] [e|]].
  - apply old_bind; [apply loadSnapshot_old|]. by intros [[? ?] ?].
  - destruct ex; [|done]. apply old_if_err; [by apply old_perform|done].
Qed.

Lemma install_old temp p h1 h2 h3 d :
  old_file (try perform (Rename temp p : @Op FileSig) else h1 ;; try syncDir d else h2 ;;
            try syncDir (data_path dataDir) else h3 ;; mret (None : option error)).
Proof. apply old_if_err; [by apply old_perform|]. do 2 (apply old_if_err; [apply syncDir_old|]). done. Qed.

Lemma with_temp_leaves what temp body (Q : option error -> Prop) w : old_file body -> finished (snd w) ->
  runs w (with_temp what temp body) (fun r w' => leaves (Q r) w').
Proof.
  intros Hb Hw. eapply wpc_mono; [|apply finished_runs; [|exact Hw]].
  - intros r w' _ Hw'. by apply finished_leaves.
  - apply old_bind; [exact Hb|]. intros err. apply old_bind; [apply remove_old|]. done.
Qed.

(** After the temporary file is written. *)
Lemma written_leaves what dir prefix marshal (h : error -> option error) k w : quiet (snd w) ->
  (forall e, h e <> None) ->
  (forall temp w', finished (snd w') -> runs w' (k temp) (fun r w' => leaves (r <> None) w')) ->
  runs w (let! temp := write_temp what dir prefix marshal else h ;; k temp) (fun r w' => leaves (r <> None) w').
Proof.
  intros Hw Hh Hk. eapply wpc_let_ok; [by apply write_temp_leaves| |].
  - intros e w' _ Hw' file H1 H2. destruct (Hw' file H1 H2) as [_ Hw1]. by split; [apply Hh|].
  - intros temp w' _ Hw'. by apply Hk.
Qed.

Ltac guards := repeat (apply guard_leaves; [assumption|first [by repeat split|apply ensurePrivateDir_plain]|];
  let w := fresh "w" in intros w ?).

Lemma Save_leaves s w : quiet (snd w) -> runs w (Save dataDir s) (fun r w' => leaves (r <> None) w').
Proof.
  intros Hw. unfold Save. guards. apply written_leaves; [done..|]. intros temp w' Hw'.
  apply with_temp_leaves; [|done]. apply old_if_err; [apply rotate_old|]. unfold install_current.
  apply old_if_err; [by apply old_perform|]. by apply old_if_err; [apply syncDir_old|].
Qed.

Lemma Archive_leaves s outcome w : quiet (snd w) -> runs w (Archive dataDir s outcome) (fun r w' => leaves (r <> None) w').
Proof.
  intros Hw. unfold Archive. guards. apply written_leaves; [done..|]. intros temp w' Hw'.
  apply with_temp_leaves; [|done]. apply install_old.
Qed.

Lemma SaveDailyConsolidation_leaves c w : quiet (snd w) ->
  runs w (SaveDailyConsolidation dataDir c) (fun r w' => leaves (r <> None) w').
Proof.
  intros Hw. unfold SaveDailyConsolidation. guards. apply written_leaves; [done..|]. intros temp w' Hw'.
  apply with_temp_leaves; [|done]. apply install_old.
Qed.

(** The other operations create no file. *)
Lemma LoadWithMetadata_old : old_file (LoadWithMetadata dataDir).
Proof.
  unfold LoadWithMetadata. apply old_bind; [by apply old_perform|]. intros [e|]; [done|].
  apply old_bind; [apply loadSnapshot_old|]. intros [[st ex] err].
  destruct err, ex; try done; (apply old_bind; [apply loadSnapshot_old|]); by intros [[? ?] ?].
Qed.

Lemma LoadDailyConsolidation_old date : old_file (LoadDailyConsolidation dataDir date).
Proof.
  unfold LoadDailyConsolidation. apply old_if_err; [by apply old_perform|]. apply old_if_err; [done|].
  apply old_bind; [|by intros [[? ?] ?]]. unfold loadDailyConsolidation. apply old_bind; [by apply old_perform|].
  intros [|e|regular perm]; [done..|]. destruct (negb regular); [done|]. destruct (negb _); [done|].
  split; [done|]. intros [data|e]; [|done]. cbn. by destruct (unmarshalDailyConsolidationEnvelope data).
Qed.

Lemma Clear_old : old_file (Clear dataDir).
Proof.
  unfold Clear. apply old_if_err; [by apply old_perform|].
  apply old_if_err; [eapply ops_in_mono, ensurePrivateDir_plain; by intros o [? _]|].
  apply old_if_err; [|by apply old_if_err; [apply syncDir_old|]]. cbn [remove_all].
  do 2 (apply old_if_err; [apply remove_old|]). done.
Qed.

Lemma old_leaves {B : Type} (m : prog B) (Q : B -> Prop) w : old_file m -> quiet (snd w) ->
  runs w m (fun r w' => leaves (Q r) w').
Proof.
  intros Hm Hw. eapply wpc_mono; [|apply finished_runs; [exact Hm|by apply quiet_finished]].
  intros r w' _ Hw'. by apply finished_leaves.
Qed.

Lemma implementation_leaves (o : FundingOp) m w : implementation dataDir o = Some m -> quiet (snd w) ->
  runs w m (fun r w' => leaves (exists e, failure o e = Some r) w').
Proof.
  assert (forall m' : prog (option error), runs w m' (fun r w' => leaves (r <> None) w') ->
    runs w m' (fun r w' => leaves (exists e, Some (Some e) = Some r) w')) as Hsome.
  { intros m'. apply wpc_mono. intros r w' _ Hw' file H1 H2. destruct (Hw' file H1 H2) as [Hr Hk]. split; [|done].
    destruct r as [e|]; [by exists e|done]. }
  intros Hm Hw. destruct o; try discriminate Hm; simpl in Hm; apply (inj Some) in Hm; subst m; cbn [failure].
  - by apply old_leaves; [apply LoadWithMetadata_old|].
  - by apply Hsome, Save_leaves.
  - by apply Hsome, Archive_leaves.
  - by apply old_leaves; [apply Clear_old|].
  - by apply old_leaves; [apply LoadDailyConsolidation_old|].
  - by apply Hsome, SaveDailyConsolidation_leaves.
Qed.

(** C40: whenever an operation of the store has created its temporary file and
    has not written and synchronised it completely - setting the permissions,
    encoding, writing or synchronising failed - it fails and the file stays
    under its name: the only removal it attempts, deferred for this case, is
    given the empty path. *)
Theorem failed_write_leaves_the_temporary_file f (o : FundingOp) m tr f' r file :
  implementation dataDir o = Some m -> partial (file_protocol transient) f m tr f' (Ret r) ->
  file ∈ created tr -> file ∉ completed tr ->
  (exists e, failure o e = Some r) /\ fs_now f' !! file_Name file = Some (file_ino file) /\ removals tr = [empty_path].
Proof.
  intros Hm Hp Hin Hnot.
  pose proof (implementation_leaves o m (f, []) Hm (conj eq_refl eq_refl)) as Hwp.
  exact (wpc_returns _ _ _ _ _ _ _ _ (recorded_partial _ _ _ _ _ _ [] Hp) Hwp file Hin Hnot).
Qed.
End Temporary.

(** ** Witnesses *)

Section Witnesses.
#[local] Existing Instance DecimalImpl.dec_ops.

Lemma empty_fs_sound : sound "data" empty_fs.
Proof. constructor; [|constructor]. by intros p i. Qed.
Lemma empty_fs_settled : settled "data" empty_fs.
Proof. repeat constructor. Qed.
Lemma empty_fs_stores : stores "data" empty_fs initial_world.
Proof. reflexivity. Qed.

Lemma sample_save b r : fst (exec (perfect b) empty_fs (Save "data" sample_state)) = Ret r ->
  partial (file_protocol false) empty_fs (Save "data" sample_state)
    (exec_trace (perfect b) empty_fs (Save "data" sample_state))
    (snd (exec (perfect b) empty_fs (Save "data" sample_state))) (Ret r).
Proof. apply perfect_partial. Qed.

Lemma store_refines_specification_witness : exists tr f' w',
  partial (file_protocol false) empty_fs (Save "data" sample_state) tr f' (Ret None) /\
  sound "data" f' /\ funding_step initial_world (Effects.Save sample_state) None w' /\ stores "data" f' w'.
Proof.
  pose proof (sample_save false None ltac:(vm_compute; reflexivity)) as Hp.
  destruct (store_refines_specification false "data" empty_fs initial_world (Effects.Save sample_state) _ _ _ None
    eq_refl sample_state_ok empty_fs_sound empty_fs_stores Hp) as (Hf & w' & _ & Hw & Hs).
  exact (ex_intro _ _ (ex_intro _ _ (ex_intro _ w' (conj Hp (conj Hf (conj (Hs eq_refl) Hw)))))).
Defined.

Lemma store_is_crash_atomic_witness : exists tr f' m' g,
  partial (file_protocol false) empty_fs (Save "data" sample_state) tr f' m' /\ fs_crash f' g /\ settled "data" g.
Proof.
  assert (partial (file_protocol false) empty_fs (Save "data" sample_state) [] empty_fs (Save "data" sample_state)) as Hp by constructor.
  assert (fs_crash empty_fs empty_fs) as Hg by (split; [left|]; split; [done|]; intros i; constructor).
  pose proof (store_is_crash_atomic false "data" empty_fs initial_world (Effects.Save sample_state) _ _ _ _ empty_fs
    eq_refl sample_state_ok empty_fs_sound empty_fs_settled empty_fs_stores Hp Hg) as (_ & Hs & _).
  exact (ex_intro _ _ (ex_intro _ _ (ex_intro _ _ (ex_intro _ _ (conj Hp (conj Hg Hs)))))).
Defined.

(** The disk after a crash that loses nothing. *)
Definition intact (f : fs) : fs :=
  mkFs (fmap (fun n => n <| nd_synced := true |>) (fs_nodes f)) (fs_now f) [].

Lemma intact_crash f : fs_crash f (intact f).
Proof.
  split; [left|]. split; [done|]. intros i. simpl. rewrite lookup_fmap. destruct (fs_nodes f !! i) as [n|]; constructor.
  unfold survives. destruct n as [a b c [] e]; [done|]. by exists c.
Qed.

Lemma saved_state_survives_witness : exists tr f' w',
  partial (file_protocol false) empty_fs (Save "data" sample_state) tr f' (Ret None) /\
  w_cur w' = Valid sample_state /\ stores "data" (intact f') w'.
Proof.
  pose proof (sample_save false None ltac:(vm_compute; reflexivity)) as Hp.
  destruct (saved_state_survives false "data" empty_fs initial_world sample_state _ _ (intact _)
    empty_fs_sound empty_fs_stores sample_state_ok Hp (intact_crash _)) as (w' & _ & Hc & _ & Hw).
  exact (ex_intro _ _ (ex_intro _ _ (ex_intro _ w' (conj Hp (conj Hc Hw))))).
Defined.

(** The permissions of the new file cannot be set. *)
Lemma failed_write_leaves_the_temporary_file_witness : exists tr f' e,
  partial (file_protocol false) empty_fs (Save "data" sample_state) tr f' (Ret (Some e)) /\
  fs_now f' !! filepath_Join (data_path "data") ".current.json.tmp-1" = Some 0%nat /\ removals tr = [empty_path].
Proof.
  pose proof (sample_save true (Some (Wrapf "write current snapshot temp file: %w" [] (Errorf "operation not permitted" [])))
    ltac:(vm_compute; reflexivity)) as Hp.
  destruct (failed_write_leaves_the_temporary_file false "data" empty_fs (Effects.Save sample_state) _ _ _ _
    (mkFile (filepath_Join (data_path "data") ".current.json.tmp-1") 0) eq_refl Hp
    ltac:(vm_compute; left) ltac:(vm_compute; by intros ?%elem_of_nil)) as (_ & Hn & Hr).
  exact (ex_intro _ _ (ex_intro _ _ (ex_intro _ _ (conj Hp (conj Hn Hr))))).
Defined.

(** A file system on which reading the current snapshot fails. *)
Definition flaky (f : fs) (o : FileOp) : option (FileResp o * fs) :=
  match o return option (FileResp o * fs) with
  | ReadFile p =>
      if decide (p = current_path "data") then Some (Err (Errorf "input/output error" []), f) else perfect false f (ReadFile p)
  | o => perfect false f o
  end.

Lemma flaky_partial {B : Type} f (m : prog B) a : fst (exec flaky f m) = Ret a ->
  partial (file_protocol true) f m (exec_trace flaky f m) (snd (exec flaky f m)) (Ret a).
Proof.
  intros <-. apply (exec_partial (file_protocol true) id). intros h o r h' E. split; [|discriminate].
  assert (perfect false h o = Some (r, h') -> file_step h o r h') as Hp by apply perfect_follows.
  destruct o; try exact (Hp E). unfold flaky in E. destruct (decide _); [by injection E as <- <-|exact (Hp E)].
Qed.

Definition resaved (f : fs) : fs := snd (exec (perfect false) f (Save "data" sample_state)).
Definition saved_twice : fs := resaved (resaved empty_fs).

(** One passing error is enough to lose a generation: the save succeeds, the
    file of the backup stays and that of the valid current snapshot is gone. *)
Example passing_error_skips_rotation :
  partial (file_protocol true) saved_twice (Save "data" sample_state)
    (exec_trace flaky saved_twice (Save "data" sample_state)) (snd (exec flaky saved_twice (Save "data" sample_state))) (Ret None) /\
  map (fun f => (fs_now f !! current_path "data", fs_now f !! backup_path "data"))
    [saved_twice; snd (exec flaky saved_twice (Save "data" sample_state))] =
  [(Some 1%nat, Some 0%nat); (Some 2%nat, Some 0%nat)].
Proof.
  split; [|vm_compute; reflexivity].
  pose proof (flaky_partial saved_twice (Save "data" sample_state) None) as Hp. apply Hp. vm_compute. reflexivity.
Qed.

(** A record as the store writes it. *)
Definition sample_daily : DailyConsolidation :=
  mkDailyConsolidation "2024-01-02" DailyConsolidationCompleted 1704153600000000000 1704153601000000000 1704153602000000000
    [mkDailyBuilder "0xaa" "1.5" true 1 1 false ReportStepSuccess "" "1.5" ReportStepSuccess ""].

Definition daily_disk : fs :=
  match marshalDailyConsolidationEnvelope sample_daily with
  | Ok text => mkFs {[0%nat := mkNode true 384 text true false]}
                    {[filepath_Join (daily_dir "data") "2024-01-02.json" := 0%nat]} []
  | Err _ => empty_fs
  end.

Lemma daily_disk_sound : sound "data" daily_disk.
Proof.
  unfold daily_disk. destruct (marshalDailyConsolidationEnvelope sample_daily) as [text|]; [|apply empty_fs_sound].
  constructor; [|constructor]. intros p i E. cbn [fs_now] in E. apply lookup_singleton_Some in E as [<- <-].
  eexists. by split; [apply lookup_singleton_eq|].
Qed.

Lemma load_sample_daily :
  fst (exec (perfect false) daily_disk (LoadDailyConsolidation "data" "2024-01-02")) = Ret (Ok (Some sample_daily)).
Proof. vm_compute. reflexivity. Qed.

Lemma loaded_daily_record_is_valid_witness : exists tr f',
  partial (file_protocol false) daily_disk (LoadDailyConsolidation "data" "2024-01-02") tr f' (Ret (Ok (Some sample_daily))) /\
  f' = daily_disk /\ Validate sample_daily = None.
Proof.
  pose proof (perfect_partial false _ _ _ _ load_sample_daily) as Hp.
  destruct (loaded_daily_record_is_valid false "data" daily_disk _ _ _ _ daily_disk_sound Hp) as (Hf & _ & _ & Hv).
  exact (ex_intro _ _ (ex_intro _ _ (conj Hp (conj Hf Hv)))).
Defined.
End Witnesses.
