(* ===== verification/PayoutInv.v ===== *)
(** * The payout invariant is preserved

    Every allowed operation and every crash keeps [PayoutWorld.Inv]. *)

From S2P Require Import Prelude DecimalSpec Prog Model Clock Effects PayoutWorld.

(** ** Worlds with the same history *)

(** The facts below only look at the requests and the completed records. *)
Definition same_history (w w' : world) : Prop := w_subs w' = w_subs w /\ w_done w' = w_done w.

Lemma same_history_live w w' : same_history w w' -> live w' = live w.
Proof. intros [E _]. unfold live. by rewrite E. Qed.

Lemma same_history_claims w w' I : same_history w w' -> claims w' I = claims w I.
Proof. intros E. unfold claims. by rewrite (same_history_live _ _ E). Qed.

Lemma elem_of_claims w I x : x ∈ claims w I <-> x ∈ live w /\ sub_ids x = I.
Proof. unfold claims. rewrite list_elem_of_filter. tauto. Qed.

Lemma elem_of_covering w r x : x ∈ covering w r <-> x ∈ live w /\ r ∈ sub_ids x.
Proof. unfold covering. rewrite list_elem_of_filter. tauto. Qed.

Lemma filter_ext_in {A : Type} (P Q : A -> Prop) `{forall x, Decision (P x)} `{forall x, Decision (Q x)} (l : list A) :
  (forall x, x ∈ l -> P x <-> Q x) -> filter P l = filter Q l.
Proof.
  induction l as [|x l IH]; intros HPQ; [done|].
  rewrite !filter_cons. rewrite IH by (intros y Hy; apply HPQ; by right).
  specialize (HPQ x (list_elem_of_here _ _)). repeat case_decide; tauto.
Qed.

Section Preservation.
Context `{DecimalOps}.

Lemma snapshot_ok_history backup w w' s :
  same_history w w' -> snapshot_ok backup w s -> snapshot_ok backup w' s.
Proof.
  intros E. unfold snapshot_ok, reserves. rewrite (same_history_claims _ _ _ E).
  destruct E as [_ E]. by rewrite E.
Qed.

(** What a current snapshot guarantees, a backup guarantees too. *)
Lemma snapshot_ok_backup w s : snapshot_ok false w s -> snapshot_ok true w s.
Proof.
  unfold snapshot_ok. case_match; try done.
  intros (j & ? & ? & ? & ?). exists j. split_and!; [done..|lia].
Qed.

Lemma snapshot_ok_weaken backup w s : snapshot_ok backup w s -> snapshot_ok true w s.
Proof. destruct backup; [done|apply snapshot_ok_backup]. Qed.

Lemma no_double_payment_history w w' : same_history w w' -> no_double_payment w -> no_double_payment w'.
Proof.
  intros E Hn r. specialize (Hn r). unfold covering in *. by rewrite (same_history_live _ _ E).
Qed.

Lemma owned_history w w' I :
  same_history w w' -> owned_by w I ->
  (w_cur w' <> Absent \/ w_bak w' <> Absent) ->
  (forall s, w_cur w' = Valid s -> w_cur w = Valid s \/ (well_shaped s /\ run_ids s = I /\ snapshot_ok false w s)) ->
  (forall s, w_bak w' = Valid s -> stored w s) ->
  owned_by w' I.
Proof.
  intros E [Hp Hs Hc Hb Hr] Hp' Hc' Hb'. split.
  - done.
  - intros s [Hv|Hv]; [|by apply Hs, Hb'].
    destruct (Hc' s Hv) as [Ho|(? & ? & _)]; [|done]. apply Hs. by left.
  - intros s Hv. apply (snapshot_ok_history _ w); [done|].
    destruct (Hc' s Hv) as [Ho|(_ & _ & ?)]; [by apply Hc|done].
  - intros s Hv. apply (snapshot_ok_history _ w); [done|].
    destruct (Hb' s Hv) as [Ho|Ho]; [by apply snapshot_ok_backup, Hc|by apply Hb].
  - intros x. rewrite (same_history_live _ _ E). destruct E as [_ ->]. apply Hr.
Qed.

(** *** Saving *)

Lemma save_history w s r w' : save_effect w s r w' -> same_history w w'.
Proof. induction 1; done. Qed.

Lemma save_slots w s r w' :
  save_effect w s r w' ->
  (forall s', w_cur w' = Valid s' -> s' = s \/ w_cur w = Valid s') /\
  (forall s', w_bak w' = Valid s' -> stored w s') /\
  ((w_cur w' = Absent /\ w_bak w' = Absent) -> (w_cur w = Absent /\ w_bak w = Absent)).
Proof.
  unfold stored. induction 1; simpl in *; split_and!; naive_solver.
Qed.

Lemma fresh_rest w s :
  may_clear w -> (forall r, r ∈ run_ids s -> r ∉ w_done w) ->
  forall x, x ∈ live w -> sub_ids x = run_ids s \/ forall r, r ∈ sub_ids x -> r ∈ w_done w /\ r ∉ run_ids s.
Proof. intros Hc Hf x Hx. right. intros r Hr. split; [by apply (Hc x)|]. intros Hin. by apply (Hf r Hin), (Hc x). Qed.

Lemma owned_not_idle w I : owned_by w I -> w_cur w = Absent -> w_bak w = Absent -> False.
Proof. intros [[?|?] _ _ _ _]; congruence. Qed.

Lemma owned_of_stored w I s : owned_by w I -> stored w s -> run_ids s = I.
Proof. intros Ho Hs. by apply (ow_same _ _ Ho). Qed.

Lemma Inv_save w s r w' : Inv w -> may_save w s -> save_effect w s r w' -> Inv w'.
Proof.
  intros [Hn Hw] (Hws & Hok & Hown) He. pose proof (save_history _ _ _ _ He) as E.
  destruct (save_slots _ _ _ _ He) as (Hcur & Hbak & Habs).
  split; [by eapply no_double_payment_history|].
  destruct (decide (w_cur w' = Absent /\ w_bak w' = Absent)) as [[Ha Hb]|Hpres].
  { left. split; [done|split; [done|]].
    destruct Hw as [(_ & _ & Hc)|[I Ho]].
    - intros x. rewrite (same_history_live _ _ E). destruct E as [_ ->]. apply Hc.
    - exfalso. destruct (Habs (conj Ha Hb)). by eapply owned_not_idle. }
  right. exists (run_ids s).
  assert (Hp : w_cur w' <> Absent \/ w_bak w' <> Absent) by (destruct (decide (w_cur w' = Absent)); tauto).
  destruct Hw as [(Ha & Hb & Hc)|[I Ho]].
  - destruct Hown as [(_ & _ & _ & _ & Hf)|(s0 & [?|?] & _)]; [|congruence..].
    assert (Hval : forall s', w_cur w' = Valid s' -> s' = s)
      by (intros s' Hs'; destruct (Hcur s' Hs'); [done|congruence]).
    assert (Hnob : forall s', w_bak w' <> Valid s')
      by (intros s' Hs'; destruct (Hbak s' Hs'); congruence).
    split; [done| | | |].
    + intros s' [Hs'|Hs']; [by rewrite (Hval s' Hs')|by apply Hnob in Hs'].
    + intros s' Hs'. rewrite (Hval s' Hs'). by apply (snapshot_ok_history _ w).
    + intros s' Hs'. by apply Hnob in Hs'.
    + intros x. rewrite (same_history_live _ _ E). destruct E as [_ ->]. by apply fresh_rest.
  - assert (I = run_ids s) as ->.
    { destruct Hown as [(? & ? & _)|(s0 & Hs0 & <-)]; [by exfalso; eapply owned_not_idle|].
      symmetry. by eapply owned_of_stored. }
    apply (owned_history w); try done.
    intros s' Hs'. destruct (Hcur s' Hs') as [->|?]; [by right|by left].
Qed.

(** *** Clearing *)

Lemma Inv_clear w r w' : Inv w -> may_clear w -> clear_effect w r w' -> Inv w'.
Proof.
  intros [Hn Hw] Hc He. assert (E : same_history w w') by (by inversion He).
  assert (Hc' : may_clear w')
    by (intros x; rewrite (same_history_live _ _ E); destruct E as [_ ->]; apply Hc).
  split; [by eapply no_double_payment_history|].
  destruct (decide (w_cur w' = Absent /\ w_bak w' = Absent)) as [[Ha Hb]|Hpres]; [by left|].
  destruct Hw as [(Ha & Hb & _)|[I Ho]].
  - exfalso. apply Hpres. inversion He; by subst.
  - right. exists I. apply (owned_history w); try done.
    + destruct (decide (w_cur w' = Absent)); tauto.
    + intros s Hs. left. inversion He; subst; done.
    + intros s Hs. right. inversion He; subst; done.
Qed.

(** *** Completing *)

Lemma Inv_complete w ids : Inv w -> Inv (w <| w_done ::= (fun d => list_to_set ids ∪ d) |>).
Proof.
  intros [Hn Hw]. split; [exact Hn|]. destruct Hw as [(Ha & Hb & Hc)|[I Ho]].
  - left. split; [done|split; [done|]]. intros x Hx r Hr. simpl. apply elem_of_union_r. by apply (Hc x).
  - right. exists I. destruct Ho as [Hp Hs Hcur Hbak Hr].
    assert (Hup : forall b s, snapshot_ok b w s ->
              snapshot_ok b (w <| w_done ::= (fun d => list_to_set ids ∪ d) |>) s).
    { intros b s. unfold snapshot_ok. case_match; try done.
      intros Hd r Hi. simpl. apply elem_of_union_r. by apply Hd. }
    split; [done|done| | |].
    + intros s Hv. by apply Hup, Hcur.
    + intros s Hv. by apply Hup, Hbak.
    + intros x Hx. destruct (Hr x Hx) as [?|Hd]; [by left|]. right. intros r Hi.
      destruct (Hd r Hi). split; [|done]. simpl. by apply elem_of_union_r.
Qed.

(** *** Submitting *)

Section Submit.
Variables (w : world) (s s' : RunState) (a : PreparedAction) (rejected : bool).
Hypothesis Hcur : w_cur w = Valid s.
Hypothesis Hbak : w_bak w = Valid s'.
Hypothesis Hown : owned_by w (run_ids s).

Definition after_submit : world :=
  w <| w_subs ::= (fun l => l ++ [mkSubmission (slot_ids (w_cur w)) a rejected]) |>.

Lemma live_after_submit :
  live after_submit = live w ++ (if rejected then [] else [mkSubmission (run_ids s) a false]).
Proof.
  unfold live, after_submit. simpl. rewrite filter_app, Hcur. f_equal.
  rewrite filter_cons, filter_nil. simpl. by destruct rejected.
Qed.

Lemma claims_after_submit :
  claims after_submit (run_ids s) =
  claims w (run_ids s) ++ (if rejected then [] else [mkSubmission (run_ids s) a false]).
Proof.
  unfold claims. rewrite live_after_submit, filter_app. f_equal.
  destruct rejected; [done|]. rewrite filter_cons, filter_nil. simpl. by rewrite decide_True.
Qed.

Lemma reserves_after_submit t attempts n :
  run_ids t = run_ids s ->
  (exists j, tgt_Payout (first_target t) = Some j /\ jrn_Prepared j = a) ->
  (length (claims w (run_ids s)) < n)%nat ->
  reserves w t attempts 2 -> reserves after_submit t attempts n.
Proof.
  intros Hi (j & Hj & Ha) Hn (j' & Hj' & Hat & Hall & _).
  assert (j' = j) as -> by congruence.
  exists j. rewrite Hi in Hall |- *. rewrite claims_after_submit.
  split_and!; [done|done| |].
  - apply Forall_app. split; [done|]. destruct rejected; [done|]. by repeat constructor.
  - rewrite length_app. destruct rejected; simpl; lia.
Qed.

Lemma reserves_weaken t attempts n m : (n <= m)%nat -> reserves w t attempts n -> reserves w t attempts m.
Proof. intros Hnm (j & ? & ? & ? & ?). exists j. split_and!; [done..|lia]. Qed.

(** A record of the run is covered exactly by the requests of the run. *)
Lemma covering_is_claims r : r ∈ run_ids s -> covering w r = claims w (run_ids s).
Proof.
  intros Hr. unfold covering, claims. apply filter_ext_in. intros x Hx. split.
  - intros Hrx. destruct (ow_rest _ _ Hown x Hx) as [?|Hd]; [done|]. by destruct (Hd r Hrx).
  - by intros ->.
Qed.

Lemma covering_after_submit r :
  covering after_submit r =
  covering w r ++ (if rejected then [] else if decide (r ∈ run_ids s) then [mkSubmission (run_ids s) a false] else []).
Proof.
  unfold covering. rewrite live_after_submit, filter_app. f_equal.
  destruct rejected; [done|]. rewrite filter_cons, filter_nil. simpl. done.
Qed.

Lemma no_double_payment_submit :
  no_double_payment w ->
  Forall (fun x => sub_action x = a) (claims w (run_ids s)) ->
  (length (claims w (run_ids s)) <= 1)%nat ->
  no_double_payment after_submit.
Proof.
  intros Hn Hall Hlen r. rewrite covering_after_submit.
  destruct rejected; [rewrite app_nil_r; apply Hn|].
  case_decide as Hr; [|rewrite app_nil_r; apply Hn].
  rewrite (covering_is_claims r Hr). split; [rewrite length_app; simpl; lia|].
  assert (Hsame : forall x, x ∈ claims w (run_ids s) ++ [mkSubmission (run_ids s) a false] -> sub_action x = a).
  { apply Forall_forall, Forall_app. split; [done|]. by repeat constructor. }
  intros x y Hx Hy. rewrite (Hsame x Hx), (Hsame y Hy). done.
Qed.

Lemma owned_submit :
  snapshot_ok false after_submit s -> snapshot_ok true after_submit s' -> owned_by after_submit (run_ids s).
Proof.
  intros Hs Hs'. destruct Hown as [Hp Hsame _ _ Hr]. split.
  - exact Hp.
  - exact Hsame.
  - intros t Ht. simpl in Ht. assert (t = s) as -> by congruence. done.
  - intros t Ht. simpl in Ht. assert (t = s') as -> by congruence. done.
  - intros x. rewrite live_after_submit, elem_of_app. intros [Hx|Hx]; [by apply Hr|].
    destruct rejected; [by apply not_elem_of_nil in Hx|].
    apply list_elem_of_singleton in Hx as ->. by left.
Qed.
End Submit.

Lemma snapshot_reserves b w s j :
  snapshot_ok b w s -> tgt_Payout (first_target s) = Some j ->
  tgt_Phase (first_target s) = PhasePayoutPrepared \/ tgt_Phase (first_target s) = PhasePayoutSubmitting ->
  reserves w s (eq 1) 2.
Proof.
  unfold snapshot_ok. intros Hok Hj [E|E]; rewrite E in Hok; (eapply reserves_weaken; [|exact Hok]); [destruct b|]; lia.
Qed.

Lemma Inv_submit w a rejected : Inv w -> may_submit w a -> Inv (after_submit w a rejected).
Proof.
  intros [Hn Hw] (s & s' & Hcur & Hbak & Hcase).
  destruct Hw as [(? & _)|[I Ho]]; [congruence|].
  assert (I = run_ids s) as -> by (symmetry; eapply owned_of_stored; [done|by left]).
  assert (Hi : run_ids s' = run_ids s) by (eapply owned_of_stored; [done|by right]).
  pose proof (ow_cur _ _ Ho s Hcur) as Hs. pose proof (ow_bak _ _ Ho s' Hbak) as Hs'.
  destruct Hcase as [([E (j & Hj & Ha)] & [E' (j' & Hj' & Ha')] & Hnil)|([E (j & Hj & Ha)] & [E' (j' & Hj' & Ha')] & Hlen)].
  - split; [apply (no_double_payment_submit _ s); rewrite ?Hnil; auto|].
    right. exists (run_ids s). apply (owned_submit _ _ s'); try done.
    + unfold snapshot_ok in *. rewrite E in *.
      apply (reserves_after_submit w s); eauto; [rewrite Hnil; simpl; lia|].
      eapply reserves_weaken; [|exact Hs]. lia.
    + unfold snapshot_ok in *. rewrite E' in *.
      apply (reserves_after_submit w s); eauto; [rewrite Hnil; simpl; lia|].
      eapply reserves_weaken; [|exact Hs']. lia.
  - assert (Hall : Forall (fun x => sub_action x = a) (claims w (run_ids s))).
    { unfold snapshot_ok in Hs. rewrite E in Hs. destruct Hs as (j0 & Hj0 & _ & Hf & _).
      assert (j0 = j) as -> by congruence. by rewrite <- Ha. }
    split; [by apply (no_double_payment_submit _ s)|].
    right. exists (run_ids s). apply (owned_submit _ _ s'); try done.
    + unfold snapshot_ok in *. rewrite E in *. apply (reserves_after_submit w s); eauto. lia.
    + unfold snapshot_ok in *. rewrite E' in *. apply (reserves_after_submit w s); eauto. lia.
Qed.

(** *** All operations *)

Lemma Inv_step w o r w' : Inv w -> funding_allowed w o -> funding_step w o r w' -> Inv w'.
Proof.
  intros HI Ha Hs. destruct o; simpl in *; try (subst; done).
  - subst w'. by apply Inv_submit.
  - by destruct Hs as [-> _].
  - destruct r; subst; [done|]. by apply Inv_complete.
  - by destruct Hs as [-> _].
  - by eapply Inv_save.
  - by eapply Inv_clear.
Qed.

Lemma Inv_crash w w' : Inv w -> crash w w' -> Inv w'.
Proof.
  intros HI Hcrash. destruct Hcrash as [w cur bak Hcur Hbak].
  destruct HI as [Hn Hw]. split; [exact Hn|].
  destruct Hw as [(Ha & Hb & Hc)|[I Ho]].
  - left. split_and!; simpl; [|..|exact Hc].
    + destruct Hcur as [->|[? _]]; done.
    + destruct Hbak as [->|[? _]]; done.
  - right. exists I. apply (owned_history w); [done|done| | |].
    + destruct (ow_present _ _ Ho) as [Hp|Hp]; [left|right]; simpl.
      * destruct Hcur as [->|[_ ->]]; done.
      * destruct Hbak as [->|[_ ->]]; done.
    + intros s Hs. simpl in Hs. left. destruct Hcur as [->|[_ ->]]; done.
    + intros s Hs. simpl in Hs. right. destruct Hbak as [->|[_ ->]]; done.
Qed.

Lemma Inv_initial : Inv initial_world.
Proof.
  split.
  - intros r. split; [simpl; lia|]. intros x y Hx. by apply not_elem_of_nil in Hx.
  - left. split_and!; [done..|]. intros x Hx. by apply not_elem_of_nil in Hx.
Qed.
End Preservation.
