(* ===== verification/PayoutContract.v ===== *)
(** * Every payout function keeps the contract

    One lemma per function of the call graph, from [finishRun] up to
    [runNew] and [recoverState]. *)

From S2P Require Import Prelude DecimalSpec Prog Model Amount Clock Report ActionValidation Effects Payout Recovery PayoutWorld PayoutInv.

(** * The payout code keeps its contract

    Every operation the payout code performs is allowed by
    [PayoutWorld.funding_protocol]: it saves, completes, clears and submits
    only when the contract says it may.  The proof goes through the call
    graph once; each lemma states what its function needs to know about the
    world and about the run state in memory. *)

(** ** States related by an update of their only target *)

Lemma first_target_update f st : well_shaped st -> first_target (update_target f st) = f (first_target st).
Proof. intros [E _]. unfold first_target, update_target. simpl. by rewrite E. Qed.

Lemma update_target_shape f st :
  well_shaped st -> tgt_Kind (f (first_target st)) = PayoutKindReferral -> well_shaped (update_target f st).
Proof.
  intros Hw Hk. split; [|by rewrite first_target_update].
  rewrite first_target_update by done. destruct Hw as [E _]. unfold update_target. simpl.
  rewrite E at 1. done.
Qed.

Lemma active_target st :
  well_shaped st -> tgt_Phase (first_target st) <> PhaseCompleted ->
  activePayoutTarget st = Ok (Some (first_target st)).
Proof. intros [E Hk] Hp. by apply activePayoutTarget_some. Qed.

Lemma active_target_inv st t :
  activePayoutTarget st = Ok (Some t) -> well_shaped st /\ t = first_target st /\ tgt_Phase t <> PhaseCompleted.
Proof.
  intros E. apply activePayoutTarget_some in E as (E & Hk & Hp). unfold well_shaped, first_target.
  rewrite E. done.
Qed.

Lemma active_none_inv st :
  activePayoutTarget st = Ok None -> well_shaped st /\ tgt_Phase (first_target st) = PhaseCompleted.
Proof.
  intros E. apply activePayoutTarget_none in E as (t & E & Hk & Hp). unfold well_shaped, first_target.
  by rewrite E.
Qed.

(** The state [saveActivePhase] writes. *)
Definition saved (st : RunState) (phase : Phase) (now : Z) : RunState :=
  update_target (fun t => t <| tgt_Phase := phase |>) st <| run_UpdatedAt := now |>.

Lemma saved_target st phase now :
  well_shaped st -> first_target (saved st phase now) = first_target st <| tgt_Phase := phase |>.
Proof. intros Hw. by apply (first_target_update (fun t => t <| tgt_Phase := phase |>)). Qed.

Lemma saved_shape st phase now : well_shaped st -> well_shaped (saved st phase now).
Proof. intros Hw. apply (update_target_shape (fun t => t <| tgt_Phase := phase |>)); [done|]. by destruct Hw. Qed.

Lemma saved_ids st phase now : well_shaped st -> run_ids (saved st phase now) = run_ids st.
Proof. intros Hw. unfold run_ids. by rewrite saved_target. Qed.

Section Safety.
Context `{DecimalOps}.

Definition PI : protocol world := with_invariant funding_protocol Inv.

Definition safe {A : Type} (w : world) (s : Mem) (m : F A) : Prop := wpM PI w s m (fun _ _ _ => True).

(** ** Stepping rules *)

Lemma wpM_quiet {A : Type} (m : F A) w s Q :
  quiet m -> (forall a s', m_state s' = m_state s -> Q a s' w) -> wpM PI w s m Q.
Proof.
  apply wpM_quiet_in.
  - by intros w0 [].
  - intros w0 o r w' Ho [Hs _]. by destruct o.
Qed.

Lemma quietly {A B : Type} (m : F A) (f : A -> F B) w s st Q :
  quiet m -> m_state s = st -> (forall a s', m_state s' = st -> wpM PI w s' (f a) Q) -> wpM PI w s (m ≫= f) Q.
Proof. intros Hm Hs Hf. apply wpM_bind, wpM_quiet; [done|]. intros a s' Hs'. apply Hf. congruence. Qed.

Lemma reading_state {B : Type} (f : RunState -> F B) w s st Q :
  m_state s = st -> wpM PI w s (f st) Q -> wpM PI w s (the_state ≫= f) Q.
Proof. intros Hs Hf. apply wpM_bind, wpM_gets. by rewrite Hs. Qed.

Lemma reading_target {B : Type} (f : PayoutTargetState -> F B) w s st Q :
  m_state s = st -> wpM PI w s (f (first_target st)) Q -> wpM PI w s (the_target ≫= f) Q.
Proof. intros Hs Hf. apply wpM_bind, wpM_gets. by rewrite Hs. Qed.

Lemma writing_state {B : Type} g (f : unit -> F B) w s st Q :
  m_state s = st -> (forall s', m_state s' = g st -> wpM PI w s' (f tt) Q) ->
  wpM PI w s (set_state g ≫= f) Q.
Proof. intros Hs Hf. apply wpM_bind, wpM_modify, Hf. simpl. by rewrite Hs. Qed.

Lemma writing_target {B : Type} g (f : unit -> F B) w s st Q :
  m_state s = st -> (forall s', m_state s' = update_target g st -> wpM PI w s' (f tt) Q) ->
  wpM PI w s (set_target g ≫= f) Q.
Proof. apply writing_state. Qed.

Lemma dereferencing {A B : Type} (p : option A) (f : A -> F B) w s Q :
  (forall a, p = Some a -> wpM PI w s (f a) Q) -> wpM PI w s (deref p ≫= f) Q.
Proof.
  intros Hf. apply wpM_bind. destruct p as [a|]; [by apply wpM_ret, Hf|].
  apply wpM_bind, wpM_op; [done|]. intros [].
Qed.

Lemma safe_quiet {A : Type} (m : F A) w s : quiet m -> safe w s m.
Proof. intros Hm. by apply wpM_quiet. Qed.

Lemma safe_on_error (m : F (option error)) h k w s :
  wpM PI w s m (fun e s' w' => match e with Some err => safe w' s' (h err) | None => safe w' s' k end) ->
  safe w s (on_error m h k).
Proof.
  intros Hm. apply wpM_bind. eapply wpM_mono; [exact Hm|]. intros [e|] s' w' Hk; exact Hk.
Qed.

(** ** Saving a phase *)

Lemma wpM_saveState w s st Q :
  m_state s = st ->
  (forall now, may_save w (st <| run_UpdatedAt := now |>)) ->
  (forall r s' w' now, m_state s' = st <| run_UpdatedAt := now |> -> Inv w' ->
     save_effect w (st <| run_UpdatedAt := now |>) r w' -> Q r s' w') ->
  wpM PI w s saveState Q.
Proof.
  intros Hs Hsave HQ. unfold saveState.
  eapply quietly; [solve_quiet|exact Hs|]. intros now s1 Hs1.
  eapply writing_state; [exact Hs1|]. intros s2 Hs2.
  eapply reading_state; [exact Hs2|].
  apply (wpM_op PI w s2 (Save _)); [apply Hsave|]. intros r w' [He Hi]. by eapply HQ.
Qed.

(** After a successful save the state is the current snapshot, and the
    snapshot it replaced is the backup. *)
Record saved_world (w w' : world) (st : RunState) : Prop := {
  sw_history : same_history w w';
  sw_cur : w_cur w' = Valid st;
  sw_bak : forall s0, w_cur w = Valid s0 -> w_bak w' = Valid s0
}.

Lemma save_ok_world w w' st : save_effect w st None w' -> saved_world w w' st.
Proof. inversion 1; subst; (split; [done|done|]); simpl; intros; congruence. Qed.

Lemma wpM_saveActivePhase w s st phase Q :
  m_state s = st -> well_shaped st -> tgt_Phase (first_target st) <> PhaseCompleted ->
  (forall now, may_save w (saved st phase now)) ->
  (forall e s' w', Q (Some e) s' w') ->
  (forall s' w' now, m_state s' = saved st phase now -> Inv w' -> saved_world w w' (saved st phase now) ->
     Q None s' w') ->
  wpM PI w s (saveActivePhase phase) Q.
Proof.
  intros Hs Hw Hp Hsave Herr Hok. unfold saveActivePhase.
  eapply reading_state; [exact Hs|]. rewrite active_target by done.
  eapply writing_target; [exact Hs|]. intros s1 Hs1.
  eapply wpM_saveState; [exact Hs1|exact Hsave|].
  intros [e|] s' w' now Hs' Hi He; [apply Herr|]. eapply Hok; [exact Hs'|done|]. by apply save_ok_world.
Qed.

(** The usual shape of the callers: the error handler only reports. *)
Lemma safe_saveActivePhase w s st phase h k :
  m_state s = st -> well_shaped st -> tgt_Phase (first_target st) <> PhaseCompleted ->
  (forall now, may_save w (saved st phase now)) ->
  (forall e, quiet (h e)) ->
  (forall s' w' now, m_state s' = saved st phase now -> Inv w' -> saved_world w w' (saved st phase now) ->
     safe w' s' k) ->
  safe w s (on_error (saveActivePhase phase) h k).
Proof.
  intros Hs Hw Hp Hsave Hh Hk. apply safe_on_error. eapply wpM_saveActivePhase; [done..| |].
  - intros e s' w'. by apply safe_quiet.
  - intros s' w' now. apply Hk.
Qed.

(** ** What a function knows about the run it pays *)

(** The run in memory is the run on disk; every possibly executed request
    for its records has the bytes of its journal, and there are at most
    [n]. *)
Record paying (w : world) (st : RunState) (j : PayoutJournal) (n : nat) : Prop := {
  pay_shape : well_shaped st;
  pay_active : tgt_Phase (first_target st) <> PhaseCompleted;
  pay_stored : exists s0, stored w s0 /\ run_ids s0 = run_ids st;
  pay_journal : tgt_Payout (first_target st) = Some j;
  pay_bytes : Forall (fun x => sub_action x = jrn_Prepared j) (claims w (run_ids st));
  pay_count : (length (claims w (run_ids st)) <= n)%nat
}.

Lemma paying_weaken w st j n m : (n <= m)%nat -> paying w st j n -> paying w st j m.
Proof. intros Hnm [? ? ? ? ? ?]. split; [done..|lia]. Qed.

(** Changing anything but the journal, the records and the kind. *)
Lemma paying_update w st j n f :
  paying w st j n ->
  (forall t, tgt_Kind (f t) = tgt_Kind t /\ tgt_Manifest (f t) = tgt_Manifest t /\
             tgt_Payout (f t) = tgt_Payout t /\
             (tgt_Phase (f t) = tgt_Phase t \/ tgt_Phase (f t) <> PhaseCompleted)) ->
  paying w (update_target f st) j n.
Proof.
  intros [Hs Ha Hst Hj Hb Hc] Hf. destruct (Hf (first_target st)) as (E1 & E2 & E3 & E4).
  assert (Ei : run_ids (update_target f st) = run_ids st)
    by (unfold run_ids; by rewrite first_target_update, E2).
  split.
  - apply update_target_shape; [done|]. rewrite E1. by destruct Hs.
  - rewrite first_target_update by done. destruct E4; congruence.
  - by rewrite Ei.
  - by rewrite first_target_update, E3.
  - by rewrite Ei.
  - by rewrite Ei.
Qed.

Lemma paying_saved w st j n phase now :
  paying w st j n -> phase <> PhaseCompleted -> paying w (saved st phase now) j n.
Proof.
  intros Hp Hne.
  apply (paying_update w st j n (fun t => t <| tgt_Phase := phase |>)) in Hp; [|auto 10].
  destruct Hp. by split.
Qed.

Lemma paying_world w w' st j n :
  paying w st j n -> saved_world w w' st -> paying w' st j n.
Proof.
  intros [Hs Ha Hst Hj Hb Hc] [E Ec _]. split; [done|done| |done|..].
  - exists st. split; [by left|done].
  - by rewrite (same_history_claims _ _ _ E).
  - by rewrite (same_history_claims _ _ _ E).
Qed.

Lemma paying_reserves w st j n (attempts : Z -> Prop) :
  paying w st j n -> attempts (jrn_SubmitAttempts j) -> reserves w st attempts n.
Proof. intros [_ _ _ Hj Hb Hc] Ha. by exists j. Qed.

Lemma paying_may_save w st j n phase now :
  paying w st j n -> phase <> PhaseCompleted ->
  snapshot_ok false w (saved st phase now) -> may_save w (saved st phase now).
Proof.
  intros Hp Hne Hok. pose proof (paying_saved _ _ _ _ phase now Hp Hne) as [Hs _ Hst _ _ _].
  split; [done|]. split; [done|]. right. destruct Hst as (s0 & ? & ?). by exists s0.
Qed.

Lemma saved_phase st phase now : well_shaped st -> tgt_Phase (first_target (saved st phase now)) = phase.
Proof. intros Hw. by rewrite saved_target. Qed.

(** A phase whose snapshot only needs the journal. *)
Lemma paying_may_settle w st j n phase now :
  paying w st j n -> (n <= 2)%nat -> phase = PhasePayoutConfirmed \/ phase = PhaseBlocked ->
  may_save w (saved st phase now).
Proof.
  intros Hp Hn Hphase. assert (phase <> PhaseCompleted) by (by destruct Hphase; subst).
  eapply paying_may_save; [done..|]. unfold snapshot_ok. rewrite saved_phase by apply Hp.
  assert (G : reserves w (saved st phase now) (fun _ => True) 2)
    by (eapply paying_reserves; [eapply paying_weaken, paying_saved; done|done]).
  by destruct Hphase; subst.
Qed.
End Safety.

(** [quiet_step] steps over one quiet computation; [quiet_steps] over as many
    as there are.  The hypothesis [m_state s = st] names the state. *)
Ltac quiet_step :=
  lazymatch goal with
  | |- safe _ _ _ => unfold safe
  | |- _ => idtac
  end;
  lazymatch goal with
  | Hm : m_state ?s = ?st |- wpM _ _ ?s (_ ≫= _) _ =>
      eapply (quietly _ _ _ s st); [solve [solve_quiet]|exact Hm|];
      let a := fresh "a" in let s' := fresh "s" in
      clear Hm; intros a s' Hm; cbn beta iota zeta
  end.
Ltac quiet_steps := repeat quiet_step.

Section Contract.
Context `{DecimalOps}.
Variable cfg : Config.

Lemma safe_quiet_or_fail w s st m h k :
  m_state s = st -> quiet m -> (forall e, quiet (h e)) -> (forall s', m_state s' = st -> safe w s' k) ->
  safe w s (on_error m h k).
Proof.
  intros Hs Hm Hh Hk. apply safe_on_error, wpM_quiet; [done|]. intros [e|] s' Hs'.
  - by apply safe_quiet.
  - apply Hk. congruence.
Qed.

(** A completed snapshot accounts for every request that may have been
    executed. *)
Lemma completed_may_clear w st :
  Inv w -> stored w st -> tgt_Phase (first_target st) = PhaseCompleted -> may_clear w.
Proof.
  intros [_ [(_ & _ & ?)|[I Ho]]] Hst Hp; [done|].
  assert (Hok : snapshot_ok true w st).
  { destruct Hst as [Hv|Hv]; [apply snapshot_ok_backup, (ow_cur _ _ Ho), Hv|by apply (ow_bak _ _ Ho)]. }
  unfold snapshot_ok in Hok. rewrite Hp in Hok.
  intros x Hx r Hr. destruct (ow_rest _ _ Ho x Hx) as [E|Hd]; [|by apply Hd].
  apply Hok. rewrite (owned_of_stored _ _ _ Ho Hst). by rewrite <- E.
Qed.

Lemma finishRun_safe w s st : m_state s = st -> may_clear w -> safe w s finishRun.
Proof.
  intros Hs Hc. unfold finishRun. eapply reading_state; [exact Hs|].
  eapply safe_quiet_or_fail; [exact Hs|solve_quiet|intros; solve_quiet|]. intros s1 Hs1.
  apply safe_on_error. apply (wpM_op PI w s1 Clear); [exact Hc|]. intros [e|] w' _.
  - apply safe_quiet. solve_quiet.
  - apply safe_quiet. solve_quiet.
Qed.

(** [completeDatabase] hands over to [runActiveTarget] with the completed
    state durably installed. *)
Lemma completeDatabase_body_safe runActive w s st :
  m_state s = st -> well_shaped st -> Inv w -> may_complete w (run_ids st) ->
  (forall w' s' st', m_state s' = st' -> Inv w' -> w_cur w' = Valid st' -> well_shaped st' ->
     tgt_Phase (first_target st') = PhaseCompleted -> safe w' s' runActive) ->
  safe w s (completeDatabase_body cfg runActive).
Proof.
  intros Hs Hw Hi Hmay Hk. unfold completeDatabase_body.
  eapply reading_state; [exact Hs|]. eapply reading_target; [exact Hs|].
  change (map rec_ID _) with (run_ids st).
  apply safe_on_error. apply (wpM_op PI w s (Complete _)); [exact Hmay|].
  intros [e|] w1 [Hst Hi1]; [apply safe_quiet; solve_quiet|]. simpl in Hst. subst w1.
  eapply writing_target; [exact Hs|]. intros s1 Hs1.
  eapply quietly; [solve_quiet|exact Hs1|]. intros _ s2 Hs2.
  apply safe_on_error.
  assert (Hsave : forall now, may_save (w <| w_done ::= (fun d => list_to_set (run_ids st) ∪ d) |>)
                     (saved st PhaseCompleted now)).
  { intros now. split; [by apply saved_shape|]. split.
    - unfold snapshot_ok. rewrite saved_phase, saved_ids by done. simpl. intros r Hr.
      apply elem_of_union_l. by apply elem_of_list_to_set.
    - right. destruct Hmay as (s0 & ? & ? & _). exists s0. by rewrite saved_ids. }
  eapply wpM_saveState; [exact Hs2|exact Hsave|].
  intros [e|] s3 w3 now Hs3 Hi3 He; [apply safe_quiet; solve_quiet|].
  apply save_ok_world in He as [_ Hcur _].
  eapply quietly; [solve_quiet|exact Hs3|]. intros _ s4 Hs4.
  eapply Hk; [exact Hs4|done|exact Hcur|by apply saved_shape|by apply (saved_phase st PhaseCompleted now)].
Qed.

Lemma runActiveTarget_completed_safe depth w s st :
  m_state s = st -> Inv w -> w_cur w = Valid st -> well_shaped st ->
  tgt_Phase (first_target st) = PhaseCompleted -> safe w s (runActiveTarget cfg depth).
Proof.
  intros Hs Hi Hcur [E Hk] Hp. destruct depth; simpl; unfold runActiveTarget_body.
  all: eapply reading_state; [exact Hs|].
  all: rewrite (proj2 (activePayoutTarget_none st)) by eauto.
  all: eapply finishRun_safe; [exact Hs|]; eapply completed_may_clear; [done|by left|done].
Qed.

Lemma completeDatabase_safe w s st :
  m_state s = st -> well_shaped st -> Inv w -> may_complete w (run_ids st) ->
  safe w s (completeDatabase cfg).
Proof.
  intros Hs Hw Hi Hmay. eapply completeDatabase_body_safe; [done..|].
  intros w' s' st' ? ? ? ? ?. by eapply runActiveTarget_completed_safe.
Qed.

(** ** The ends of a payout *)

Lemma paying_cleared w st j :
  Inv w -> stored w st -> paying w st j 0 -> may_clear w.
Proof.
  intros [_ [(_ & _ & ?)|[I Ho]]] Hst Hp; [done|]. intros x Hx r Hr.
  destruct (ow_rest _ _ Ho x Hx) as [E|Hd]; [|by apply Hd]. exfalso.
  assert (Hin : x ∈ claims w (run_ids st)).
  { apply elem_of_claims. split; [done|]. by rewrite (owned_of_stored _ _ _ Ho Hst). }
  pose proof (pay_count _ _ _ _ Hp) as Hl. destruct (claims w (run_ids st)); [|simpl in Hl; lia].
  by apply not_elem_of_nil in Hin.
Qed.

Lemma confirmPayout_safe w s st j evidence :
  m_state s = st -> Inv w -> paying w st j 2 -> safe w s (confirmPayout (completeDatabase cfg) evidence).
Proof.
  intros Hs Hi Hp. unfold confirmPayout.
  eapply writing_target; [exact Hs|]. clear s Hs. intros s Hs.
  apply (paying_update _ _ _ _ (fun t => t <| tgt_BlockedReason := "" |>
           <| tgt_ConfirmationEvidence := evidence |>)) in Hp; [|auto 10].
  eapply safe_saveActivePhase; [exact Hs|apply Hp|apply Hp| |intros; solve_quiet|].
  { intros now. eapply paying_may_settle; [done|lia|by left]. }
  clear s Hs. intros s w' now Hs Hi' Hsw.
  eapply reading_target; [exact Hs|].
  quiet_steps. eapply completeDatabase_safe; [exact Hs|apply saved_shape, Hp|done|].
  eexists. split; [left; apply Hsw|]. split; [done|]. left. apply saved_phase, Hp.
Qed.

(** Both snapshots are advanced: after [save_both] each of them is a copy of
    the state in memory up to its time stamp. *)
Lemma safe_save_both w s st phase h k :
  m_state s = st -> well_shaped st -> tgt_Phase (first_target st) <> PhaseCompleted ->
  phase <> PhaseCompleted ->
  (forall now, may_save w (saved st phase now)) ->
  (forall w' now, Inv w' -> saved_world w w' (saved st phase now) ->
     forall now', may_save w' (saved (saved st phase now) phase now')) ->
  (forall e, quiet (h e)) ->
  (forall s' w1 w2 now now', Inv w2 ->
     saved_world w w1 (saved st phase now) ->
     saved_world w1 w2 (saved (saved st phase now) phase now') ->
     m_state s' = saved (saved st phase now) phase now' -> safe w2 s' k) ->
  safe w s (on_error (save_both phase) h k).
Proof.
  intros Hs Hw Hp Hph Hsave Hsave' Hh Hk. apply safe_on_error. unfold save_both, on_error.
  apply wpM_bind. eapply wpM_saveActivePhase; [exact Hs|done|done|done|..].
  - intros e s' w'. apply wpM_ret. by apply safe_quiet.
  - intros s' w' now Hs' Hi' Hsw. cbn beta iota.
    eapply wpM_saveActivePhase; [exact Hs'|by apply saved_shape|by rewrite saved_phase|by apply Hsave'|..].
    + intros e s'' w''. by apply safe_quiet.
    + intros s'' w'' now' Hs'' Hi'' Hsw'. by eapply Hk.
Qed.

(** Marking the run blocked on both snapshots. *)
Lemma safe_block_both w s st j n h k :
  m_state s = st -> paying w st j n -> (n <= 2)%nat ->
  (forall e, quiet (h e)) ->
  (forall s' w' st', m_state s' = st' -> Inv w' -> stored w' st' -> paying w' st' j n -> safe w' s' k) ->
  safe w s (on_error (save_both PhaseBlocked) h k).
Proof.
  intros Hs Hp Hn Hh Hk.
  assert (Hp1 : forall w1 now, saved_world w w1 (saved st PhaseBlocked now) ->
            paying w1 (saved st PhaseBlocked now) j n)
    by (intros w1 now Hsw; eapply paying_world; [by apply paying_saved|done]).
  eapply safe_save_both; [exact Hs|apply Hp|apply Hp|done| | |done|].
  - intros now. eapply paying_may_settle; [done|done|by right].
  - intros w' now Hi' Hsw now'. eapply paying_may_settle; [by eapply Hp1|done|by right].
  - intros s' w1 w2 now now' Hi2 Hsw1 Hsw2 Hs'.
    eapply Hk; [exact Hs'|done|left; apply Hsw2|].
    eapply paying_world; [|exact Hsw2]. apply paying_saved; [by apply Hp1|done].
Qed.

Lemma paying_blocked w st j n reason :
  paying w st j n -> paying w (update_target (fun t => t <| tgt_BlockedReason := reason |>) st) j n.
Proof. intros Hp. apply paying_update; [done|auto 10]. Qed.

Lemma rejectPayout_safe w s st j : m_state s = st -> Inv w -> paying w st j 0 -> safe w s (rejectPayout cfg).
Proof.
  intros Hs Hi Hp. unfold rejectPayout. cbv zeta. quiet_steps.
  eapply writing_target; [exact Hs|]. clear s Hs. intros s Hs.
  eapply safe_block_both; [exact Hs|by apply paying_blocked|lia|intros; solve_quiet|].
  clear s Hs. intros s w' st' Hs Hi' Hst Hp'. quiet_step.
  eapply reading_state; [exact Hs|].
  eapply safe_quiet_or_fail; [exact Hs|solve_quiet|intros; solve_quiet|]. clear s Hs. intros s Hs.
  apply safe_on_error. apply (wpM_op PI w' s Clear); [by eapply paying_cleared|].
  intros [e|] w'' _; apply safe_quiet; solve_quiet.
Qed.

Lemma blockUncertainPayout_safe w s st j reason key :
  m_state s = st -> Inv w -> paying w st j 2 -> safe w s (blockUncertainPayout cfg reason key).
Proof.
  intros Hs Hi Hp. unfold blockUncertainPayout. quiet_steps.
  eapply writing_target; [exact Hs|]. clear s Hs. intros s Hs.
  eapply safe_block_both; [exact Hs|by apply paying_blocked|lia|intros; solve_quiet|].
  clear s Hs. intros s w' st' Hs Hi' Hst Hp'. apply safe_quiet. unfold sync_report, the_state. solve_quiet.
Qed.

(** ** Submitting *)

Lemma paying_after_submit w st s' j n (rejected : bool) :
  w_cur w = Valid st -> w_bak w = Valid s' -> paying w st j n ->
  paying (after_submit w (jrn_Prepared j) rejected) st j (if rejected then n else S n).
Proof.
  intros Hcur Hbak [? ? (s0 & Hs0 & Hi) ? Hb Hc]. split; [done|done| |done|..].
  - by exists s0.
  - rewrite (claims_after_submit w st) by done. apply Forall_app. split; [done|].
    destruct rejected; [done|]. by repeat constructor.
  - rewrite (claims_after_submit w st) by done. rewrite length_app. destruct rejected; simpl; lia.
Qed.

(** What must hold when the signed request is sent, and what the observer
    of an ambiguous answer may rely on. *)
Lemma submitPayoutAttempt_safe observe (exactReplay : bool) w s st s' j :
  m_state s = st -> Inv w ->
  w_cur w = Valid st -> w_bak w = Valid s' -> may_submit w (jrn_Prepared j) ->
  paying w st j (if exactReplay then 1 else 0) ->
  (forall w' s', m_state s' = st -> Inv w' -> paying w' st j (if exactReplay then 2 else 1) -> safe w' s' observe) ->
  safe w s (submitPayoutAttempt cfg (completeDatabase cfg) observe exactReplay).
Proof.
  intros Hs Hi Hcur Hbak Hmay Hp Hobs. unfold submitPayoutAttempt.
  eapply reading_target; [exact Hs|]. rewrite (pay_journal _ _ _ _ Hp).
  apply dereferencing. intros a [= <-].
  apply wpM_bind. apply (wpM_op PI w s (Submit _)); [exact Hmay|].
  intros answer w1 [Hst Hi1].
  pose proof (paying_after_submit _ _ _ _ _ (explicitly_rejected answer) Hcur Hbak Hp) as Hp1.
  assert (E : w1 = after_submit w (jrn_Prepared j) (explicitly_rejected answer)) by exact Hst.
  rewrite <- E in Hp1. clear E Hst. quiet_step.
  assert (Hobs' : safe w1 s0 observe).
  { apply Hobs; [done|done|]. eapply paying_weaken; [|exact Hp1].
    destruct exactReplay, (explicitly_rejected answer); lia. }
  destruct answer as [outcome [e|]]; [exact Hobs'|].
  destruct (sr_Accepted outcome) eqn:Eacc.
  { eapply confirmPayout_safe; [exact Hs|done|]. eapply paying_weaken; [|exact Hp1].
    destruct exactReplay, (explicitly_rejected _); lia. }
  destruct (negb exactReplay && sr_Rejected outcome) eqn:Erej; [|exact Hobs'].
  apply andb_true_iff in Erej as [Er1 Er2]. destruct exactReplay; [done|].
  eapply rejectPayout_safe; [exact Hs|done|]. unfold explicitly_rejected in Hp1.
  by rewrite Eacc, Er2 in Hp1.
Qed.

Lemma intends_journal st j phase :
  tgt_Phase (first_target st) = phase -> tgt_Payout (first_target st) = Some j ->
  intends st (jrn_Prepared j) phase.
Proof. intros Hp Hj. split; [done|by exists j]. Qed.

Lemma snapshot_prepared_attempts w st j n :
  snapshot_ok false w st -> tgt_Phase (first_target st) = PhasePayoutPrepared -> paying w st j n ->
  jrn_SubmitAttempts j = 1.
Proof.
  unfold snapshot_ok. intros Hok E Hp. rewrite E in Hok. destruct Hok as (j' & Hj' & Hat & _).
  pose proof (pay_journal _ _ _ _ Hp). congruence.
Qed.

(** [submitPreparedPayout] starts from a current [payout_prepared] snapshot,
    which becomes the backup when the submitting boundary is saved. *)
Lemma submitPreparedPayout_safe observe w s st j :
  m_state s = st -> Inv w -> w_cur w = Valid st ->
  tgt_Phase (first_target st) = PhasePayoutPrepared -> paying w st j 0 ->
  (forall w' s' st', m_state s' = st' -> Inv w' -> paying w' st' j 1 -> safe w' s' observe) ->
  safe w s (submitPreparedPayout cfg (completeDatabase cfg) observe).
Proof.
  intros Hs Hi Hcur Hph Hp Hobs. unfold submitPreparedPayout.
  assert (Hat : jrn_SubmitAttempts j = 1).
  { destruct Hi as [_ [(? & _)|[I Ho]]]; [congruence|].
    eapply snapshot_prepared_attempts; [by apply (ow_cur _ _ Ho)|done..]. }
  eapply reading_state; [exact Hs|]. eapply reading_target; [exact Hs|].
  case_match; [apply safe_quiet; solve_quiet|].
  case_match; [apply safe_quiet; solve_quiet|].
  eapply safe_saveActivePhase; [exact Hs|apply Hp|apply Hp| |intros; solve_quiet|].
  { intros now. eapply paying_may_save; [done..|]. unfold snapshot_ok. rewrite saved_phase by apply Hp.
    eapply paying_reserves; [eapply paying_weaken, paying_saved; [|done..]; lia|done]. }
  clear s Hs. intros s w' now Hs Hi' Hsw. quiet_step.
  assert (Hp' : paying w' (saved st PhasePayoutSubmitting now) j 0)
    by (eapply paying_world; [by apply paying_saved|done]).
  eapply submitPayoutAttempt_safe; [exact Hs|done|apply Hsw|by apply Hsw| |exact Hp'|].
  - eexists _, _. split; [apply Hsw|]. split; [by apply Hsw|]. left. split_and!.
    + apply intends_journal; [apply saved_phase, Hp|apply Hp'].
    + apply intends_journal; [done|apply Hp].
    + pose proof (pay_count _ _ _ _ Hp') as Hl. destruct (claims _ _); [done|simpl in Hl; lia].
  - intros w'' s'' Hs'' Hi'' Hp''. by eapply Hobs.
Qed.

(** ** Replaying *)

Lemma paying_replay_journal w st j j' n :
  paying w st j n -> jrn_Prepared j' = jrn_Prepared j ->
  paying w (update_target (fun t => t <| tgt_Payout := Some j' |> <| tgt_BlockedReason := "" |>) st) j' n.
Proof.
  intros [Hs Ha Hst Hj Hb Hc] E.
  assert (Ei : run_ids (update_target (fun t => t <| tgt_Payout := Some j' |> <| tgt_BlockedReason := "" |>) st)
               = run_ids st) by (unfold run_ids; by rewrite first_target_update).
  split; rewrite ?Ei; try done.
  - apply update_target_shape; [done|]. by destruct Hs.
  - by rewrite first_target_update.
  - by rewrite first_target_update.
  - by rewrite E.
Qed.

Lemma replayPreparedPayout_safe observe w s st j :
  m_state s = st -> Inv w ->
  paying w st j 2 -> (jrn_SubmitAttempts j = 1 -> paying w st j 1) ->
  (forall w' s' st' j', m_state s' = st' -> Inv w' -> jrn_SubmitAttempts j' = 2 -> paying w' st' j' 2 ->
     safe w' s' observe) ->
  safe w s (replayPreparedPayout_body cfg (completeDatabase cfg) observe).
Proof.
  intros Hs Hi Hp Hp1 Hobs. unfold replayPreparedPayout_body.
  eapply reading_target; [exact Hs|]. rewrite (pay_journal _ _ _ _ Hp).
  destruct (Z.eqb_spec (jrn_SubmitAttempts j) 1) as [Hat|Hat]; cbn [negb];
    [|apply safe_quiet; solve_quiet].
  specialize (Hp1 Hat).
  destruct (validatePayoutJournal (first_target st)); [apply safe_quiet; solve_quiet|].
  eapply writing_target; [exact Hs|]. clear s Hs. intros s Hs.
  set (j' := j <| jrn_SubmitAttempts := 2 |>) in *.
  apply (paying_replay_journal _ _ _ j') in Hp1; [|done].
  set (st1 := update_target _ st) in *.
  assert (Hok : forall w st now, paying w st j' 1 -> may_save w (saved st PhasePayoutReplaying now)).
  { intros w0 st0 now Hp0. eapply paying_may_save; [done..|]. unfold snapshot_ok.
    rewrite saved_phase by apply Hp0.
    eapply paying_reserves; [eapply paying_weaken, paying_saved; [|done..]; lia|done]. }
  assert (Hsaved : forall w w1 st now, paying w st j' 1 -> saved_world w w1 (saved st PhasePayoutReplaying now) ->
            paying w1 (saved st PhasePayoutReplaying now) j' 1)
    by (intros; eapply paying_world; [by apply paying_saved|done]).
  eapply safe_save_both; [exact Hs|apply Hp1|apply Hp1|done|by intros; apply Hok| |intros; solve_quiet|].
  { intros w1 now Hi1 Hsw now'. by eapply Hok, Hsaved. }
  clear s Hs. intros s w1 w2 now now' Hi2 Hsw1 Hsw2 Hs. quiet_step.
  assert (Hp2 : paying w2 (saved (saved st1 PhasePayoutReplaying now) PhasePayoutReplaying now') j' 1)
    by (eapply Hsaved; [by eapply Hsaved|done]).
  eapply submitPayoutAttempt_safe; [exact Hs|done|apply Hsw2|eapply (sw_bak _ _ _ Hsw2), (sw_cur _ _ _ Hsw1)| |exact Hp2|].
  - eexists _, _. split; [apply Hsw2|]. split; [eapply (sw_bak _ _ _ Hsw2), (sw_cur _ _ _ Hsw1)|]. right. split_and!.
    + apply intends_journal; [apply saved_phase, saved_shape, Hp1|apply Hp2].
    + apply intends_journal; [apply saved_phase, Hp1|]. rewrite saved_target by apply Hp1. apply Hp1.
    + apply Hp2.
  - intros w' s' Hs' Hi' Hp'. exact (Hobs _ _ _ j' Hs' Hi' eq_refl Hp').
Qed.

(** ** Observing *)

(** What the observer of an ambiguous payout relies on: a journal with one
    reserved attempt has been submitted at most once. *)
Definition observable (w : world) (st : RunState) (j : PayoutJournal) : Prop :=
  paying w st j 2 /\ (jrn_SubmitAttempts j = 1 -> paying w st j 1).

Lemma observeUncertainPayout_body_safe replay w s st j :
  m_state s = st -> Inv w -> observable w st j ->
  (jrn_SubmitAttempts j = 1 -> forall s', m_state s' = st -> safe w s' replay) ->
  safe w s (observeUncertainPayout_body cfg (completeDatabase cfg) replay).
Proof.
  intros Hs Hi [Hp Hp1] Hreplay. unfold observeUncertainPayout_body.
  quiet_step. quiet_step. eapply reading_target; [exact Hs|].
  case_match; [apply safe_quiet; solve_quiet|]. rewrite (pay_journal _ _ _ _ Hp).
  apply dereferencing. intros ? [= <-].
  destruct (decimalFromString (jrn_TotalBefore j)); [|apply safe_quiet; solve_quiet].
  destruct (decimalFromString (man_PayoutTotal _)); [|apply safe_quiet; solve_quiet].
  case_match. case_match. case_match; [apply safe_quiet; solve_quiet|].
  eapply quietly; [solve_quiet|exact Hs|]. clear s Hs. intros seen s Hs. destruct seen.
  - apply safe_quiet. solve_quiet.
  - by eapply confirmPayout_safe.
  - eapply reading_target; [exact Hs|].
    destruct (exact_replay_allowed _ _ _) eqn:Er.
    + apply Hreplay; [|done]. unfold exact_replay_allowed in Er. rewrite (pay_journal _ _ _ _ Hp) in Er.
      rewrite !andb_true_iff in Er. destruct Er as [[[_ Er] _] _]. by apply Z.eqb_eq.
    + by eapply blockUncertainPayout_safe.
Qed.

(** Two nested observations are enough: the one after a replay finds both
    attempts reserved. *)
Lemma observeUncertainPayout_safe depth w s st j :
  m_state s = st -> Inv w -> observable w st j ->
  (depth = 0%nat -> jrn_SubmitAttempts j <> 1) ->
  safe w s (observeUncertainPayout cfg (completeDatabase cfg) depth).
Proof.
  revert w s st j. induction depth as [|depth IH]; intros w s st j Hs Hi [Hp Hp1] Hd; simpl.
  - eapply observeUncertainPayout_body_safe; [exact Hs|done|done|]. intros E. by destruct (Hd eq_refl).
  - eapply observeUncertainPayout_body_safe; [exact Hs|done|done|]. intros E s' Hs'.
    eapply replayPreparedPayout_safe; [exact Hs'|done|done|done|].
    intros w' s'' st' j' Hs'' Hi' Hat Hp'. eapply IH; [exact Hs''|done| |].
    + split; [done|]. congruence.
    + congruence.
Qed.

Lemma observe_payout_safe w s st j :
  m_state s = st -> Inv w -> observable w st j -> safe w s (observe_payout cfg).
Proof. intros. by eapply observeUncertainPayout_safe. Qed.
End Contract.
