(* ===== verification/PayoutRuns.v ===== *)
(** * Whole runs keep the contract

    From the execution of a payout up to the entry points [Run],
    [RunScheduled] and [Recover]. *)

From Stdlib Require Import Sorting.Permutation.
From S2P Require Import Prelude DecimalSpec Prog Model Amount Clock Report ActionValidation Effects Payout Recovery ReportObservation Daily Run PayoutWorld PayoutInv PayoutContract.

Section Runs.
Context `{DecimalOps}.
Variable cfg : Config.

(** ** Starting a payout *)

(** An unpaid run: prepared, durable, and no request for its records has
    left the process. *)
Record unpaid (w : world) (st : RunState) : Prop := {
  up_shape : well_shaped st;
  up_phase : tgt_Phase (first_target st) = PhasePrepared;
  up_stored : stored w st;
  up_none : claims w (run_ids st) = []
}.

Lemma unpaid_intended w st j :
  unpaid w st -> paying w (update_target (fun t => t <| tgt_Payout := Some j |>) st) j 0.
Proof.
  intros [Hs Hp Hst Hn].
  assert (Ei : run_ids (update_target (fun t => t <| tgt_Payout := Some j |>) st) = run_ids st)
    by (unfold run_ids; by rewrite first_target_update).
  split; rewrite ?Ei, ?Hn; try done.
  - apply update_target_shape; [done|]. by destruct Hs.
  - rewrite first_target_update by done. simpl. by rewrite Hp.
  - by exists st.
  - by rewrite first_target_update.
Qed.

Lemma executePayout_safe observe before amount w s st :
  m_state s = st -> Inv w -> unpaid w st ->
  (forall w' s' st' j', m_state s' = st' -> Inv w' -> paying w' st' j' 1 -> safe w' s' observe) ->
  safe w s (executePayout cfg (completeDatabase cfg) observe before amount).
Proof.
  intros Hs Hi Hu Hobs. unfold executePayout. cbv zeta.
  eapply reading_state; [exact Hs|]. eapply reading_target; [exact Hs|]. quiet_step.
  apply dereferencing. intros token _. quiet_step.
  eapply quietly; [solve_quiet|exact Hs|]. clear s Hs. intros answer s Hs.
  destruct answer as [prepared|e]; [|apply safe_quiet; solve_quiet].
  case_match; [apply safe_quiet; solve_quiet|]. quiet_step.
  eapply writing_target; [exact Hs|]. intros mem Hm.
  set (j := mkJournal prepared _ 1) in *. pose proof (unpaid_intended _ _ j Hu) as Hp.
  eapply safe_saveActivePhase; [exact Hm|apply Hp|apply Hp| |intros; solve_quiet|].
  { intros now. eapply paying_may_save; [done..|]. unfold snapshot_ok. rewrite saved_phase by apply Hp.
    eapply paying_reserves; [by apply paying_saved|done]. }
  clear mem Hm. intros mem w' now Hm Hi' Hsw. quiet_step.
  eapply submitPreparedPayout_safe; [exact Hm|done|apply Hsw|apply saved_phase, Hp| |].
  - eapply paying_world; [by apply paying_saved|done].
  - intros w'' s'' st'' Hs'' Hi'' Hp''. by eapply Hobs.
Qed.

Lemma observable_once w st j : paying w st j 1 -> observable w st j.
Proof. intros Hp. split; [|done]. eapply paying_weaken; [|exact Hp]. lia. Qed.

Lemma runPositive_safe w s st :
  m_state s = st -> Inv w -> unpaid w st -> safe w s (runPositive cfg (completeDatabase cfg)).
Proof.
  intros Hs Hi Hu. unfold runPositive. cbv zeta.
  eapply reading_state; [exact Hs|]. eapply reading_target; [exact Hs|].
  apply dereferencing. intros token _.
  case_match; [|apply safe_quiet; solve_quiet].
  eapply quietly; [solve_quiet|exact Hs|]. clear s Hs. intros waited s Hs.
  destruct waited; [apply safe_quiet; solve_quiet| |apply safe_quiet; solve_quiet].
  eapply executePayout_safe; [exact Hs|done..|].
  intros w' s' st' j' Hs' Hi' Hp'.
  exact (observe_payout_safe cfg w' s' st' j' Hs' Hi' (observable_once _ _ _ Hp')).
Qed.

Lemma unpaid_may_complete w st :
  unpaid w st ->
  man_Records (tgt_Manifest (first_target st)) = [] \/ man_PayoutTotal (tgt_Manifest (first_target st)) = "0" ->
  may_complete w (run_ids st).
Proof.
  intros [Hs Hp Hst Hn] Hz. exists st. split; [done|]. split; [done|]. right. split; [done|].
  destruct Hz as [E|E]; [|by right]. left. unfold run_ids. by rewrite E.
Qed.

Lemma run_prepared_safe w s st :
  m_state s = st -> Inv w -> unpaid w st ->
  safe w s (run_prepared cfg (completeDatabase cfg) (first_target st)).
Proof.
  intros Hs Hi Hu. unfold run_prepared.
  destruct (man_Records (tgt_Manifest (first_target st))) eqn:Er.
  - quiet_step. eapply completeDatabase_safe; [exact Hs|apply Hu|done|].
    apply unpaid_may_complete; auto.
  - destruct (String.eqb_spec (man_PayoutTotal (tgt_Manifest (first_target st))) "0") as [Ez|_].
    + quiet_step. quiet_step. eapply completeDatabase_safe; [exact Hs|apply Hu|done|].
      apply unpaid_may_complete; auto.
    + eapply runPositive_safe; [exact Hs|done..].
Qed.

Lemma runActiveTarget_safe w s st :
  m_state s = st -> Inv w -> unpaid w st -> safe w s (runActiveTarget cfg 1).
Proof.
  intros Hs Hi Hu. simpl. unfold runActiveTarget_body. eapply reading_state; [exact Hs|].
  rewrite active_target by (try apply Hu; rewrite (up_phase _ _ Hu); done).
  by eapply run_prepared_safe.
Qed.

(** ** A new run *)

Lemma buildManifest_records input requireToken m e :
  buildManifest input requireToken = (m, e) -> Permutation (man_Records m) (min_Records input).
Proof.
  intros E. assert (man_Records m = sort_records (min_Records input)) as ->.
  { unfold buildManifest in E. repeat case_match; by injection E as <- _. }
  symmetry. apply sort_records_perm.
Qed.

(** No request that may have been executed pays a record that is still
    pending. *)
Lemma pending_unclaimed w I :
  may_clear w -> I <> [] -> (forall r, r ∈ I -> r ∉ w_done w) -> claims w I = [].
Proof.
  intros Hc Hne Hf. destruct (claims w I) as [|x l] eqn:E; [done|]. exfalso.
  assert (Hx : x ∈ claims w I) by (rewrite E; left). apply elem_of_claims in Hx as [Hx Hi].
  destruct I as [|r I]; [done|]. apply (Hf r); [left|]. apply (Hc x Hx). rewrite Hi. left.
Qed.

(** A prepared state built from pending records may be saved on an empty
    disk. *)
Lemma fresh_may_save w st now :
  idle w -> well_shaped st -> run_ids st <> [] ->
  (forall r, r ∈ run_ids st -> r ∉ w_done w) ->
  may_save w (saved st PhasePrepared now).
Proof.
  intros (Ha & Hb & Hc) Hw Hne Hf. split; [by apply saved_shape|]. split.
  - unfold snapshot_ok. rewrite saved_phase, saved_ids by done. by apply pending_unclaimed.
  - left. unfold fresh_run. rewrite saved_phase, saved_ids by done. done.
Qed.

Lemma pending_records_fresh (records : list FundingRecord) m w :
  Permutation (man_Records m) records -> records <> [] ->
  (forall x, x ∈ records -> rec_ID x ∉ w_done w) ->
  map rec_ID (man_Records m) <> [] /\ forall r, r ∈ map rec_ID (man_Records m) -> r ∉ w_done w.
Proof.
  intros Hp Hne Hf. split.
  - intros E. apply map_eq_nil in E. rewrite E in Hp. by apply Permutation_nil in Hp.
  - intros r Hr. apply list_elem_of_fmap in Hr as (x & -> & Hx). apply Hf.
    by rewrite <- Hp.
Qed.

Lemma start_run_safe count payout w s st :
  m_state s = st -> idle w -> well_shaped st -> tgt_Phase (first_target st) <> PhaseCompleted ->
  run_ids st <> [] -> (forall r, r ∈ run_ids st -> r ∉ w_done w) ->
  safe w s (start_run cfg count payout).
Proof.
  intros Hs Hidle Hw Hp Hne Hf. unfold start_run. quiet_steps.
  eapply safe_saveActivePhase; [exact Hs|done|done|by intros; apply fresh_may_save|intros; solve_quiet|].
  intros mem w' now Hm Hi' Hsw. quiet_step.
  eapply runActiveTarget_safe; [exact Hm|done|]. split.
  - by apply saved_shape.
  - by apply saved_phase.
  - left. apply Hsw.
  - rewrite (same_history_claims _ _ _ (sw_history _ _ _ Hsw)), saved_ids by done.
    apply pending_unclaimed; [apply Hidle|done|done].
Qed.

Lemma runNew_safe trigger w s : Inv w -> idle w -> safe w s (runNew cfg trigger).
Proof.
  intros Hi Hidle. unfold runNew.
  apply wpM_bind. apply (wpM_op PI w s ListPending); [done|].
  intros answer w' [[-> Hf] _]. destruct answer as [records|e]; [|apply safe_quiet; solve_quiet].
  destruct records as [|r0 records]; [apply safe_quiet; solve_quiet|].
  set (rs := r0 :: records) in *. assert (Hne : rs <> []) by done. clearbody rs.
  eapply quietly; [solve_quiet|reflexivity|]. intros run mem Hm.
  destruct run as [run|e]; [|apply safe_quiet; solve_quiet].
  eapply writing_state; [exact Hm|]. clear mem Hm. intros mem Hm. quiet_step.
  destruct (buildManifest _ _) as [manifest validationErr] eqn:Em.
  apply buildManifest_records in Em. simpl in Em.
  destruct (pending_records_fresh rs manifest w Em Hne Hf) as [Hn Hfr].
  eapply writing_state; [exact Hm|]. intros mem' Hm'. quiet_step.
  destruct validationErr; [apply safe_quiet; solve_quiet|].
  destruct (decimalFromString (man_PayoutTotal manifest)) as [payout|]; [|apply safe_quiet; solve_quiet].
  apply wpM_bind. destruct (dec_pos payout).
  - apply wpM_bind, wpM_quiet; [solve_quiet|]. intros token mem2 Hm2. rewrite Hm' in Hm2.
    destruct token as [token|]; [|apply wpM_bind, wpM_modify, wpM_ret, safe_quiet; solve_quiet].
    eapply writing_target; [exact Hm2|]. intros mem3 Hm3. apply wpM_ret.
    by eapply start_run_safe; [exact Hm3|..].
  - apply wpM_ret. by eapply start_run_safe; [exact Hm'|..].
Qed.

(** ** Resuming *)

Lemma loaded_snapshot w st meta :
  Inv w -> load_result w (Ok (Some st, meta)) ->
  stored w st /\ owned_by w (run_ids st) /\ snapshot_ok (meta_RecoveredFromBackup meta) w st /\
  (meta_RecoveredFromBackup meta = false -> w_cur w = Valid st).
Proof.
  intros [_ Hw] Hl. simpl in Hl.
  destruct Hw as [(Ha & Hb & _)|[I Ho]]; [destruct (meta_RecoveredFromBackup meta); [destruct Hl|]; congruence|].
  assert (Hst : stored w st) by (destruct (meta_RecoveredFromBackup meta); [right; tauto|by left]).
  rewrite (owned_of_stored _ _ _ Ho Hst). split; [done|]. split; [done|].
  destruct (meta_RecoveredFromBackup meta).
  - split; [apply (ow_bak _ _ Ho), Hl|done].
  - split; [by apply (ow_cur _ _ Ho)|done].
Qed.

Lemma reserves_paying w st attempts n :
  well_shaped st -> tgt_Phase (first_target st) <> PhaseCompleted -> stored w st ->
  reserves w st attempts n -> exists j, paying w st j n /\ attempts (jrn_SubmitAttempts j).
Proof.
  intros Hw Hp Hst (j & Hj & Ha & Hb & Hc). exists j. split; [|done]. split; try done. by exists st.
Qed.

Lemma recoverState_safe meta w s st :
  m_state s = st -> Inv w -> load_result w (Ok (Some st, meta)) -> safe w s (recoverState cfg meta).
Proof.
  intros Hs Hi Hl. destruct (loaded_snapshot _ _ _ Hi Hl) as (Hst & Ho & Hok & Hcur).
  destruct (ow_same _ _ Ho st Hst) as [Hw _].
  unfold recoverState. eapply reading_state; [exact Hs|].
  destruct (activePayoutTarget st) as [[target|]|e] eqn:Et.
  2: { eapply finishRun_safe; [exact Hs|]. eapply completed_may_clear; [done..|]. by apply active_none_inv. }
  2: apply safe_quiet; solve_quiet.
  apply active_target_inv in Et as (_ & -> & Hp).
  case_match; [apply safe_quiet; solve_quiet|]. quiet_step.
  unfold snapshot_ok in Hok.
  destruct (tgt_Phase (first_target st)) eqn:Eph; try done.
  - eapply run_prepared_safe; [exact Hs|done|]. by split.
  - apply reserves_paying in Hok as (j & Hj & Hat); [|by rewrite ?Eph..].
    destruct (meta_RecoveredFromBackup meta).
    + eapply observe_payout_safe; [exact Hs|done|by apply observable_once].
    + eapply submitPreparedPayout_safe; [exact Hs|done|by apply Hcur|done|done|].
      intros w' s' st' Hs' Hi' Hp'. eapply observe_payout_safe; [exact Hs'|done|by apply observable_once].
  - apply reserves_paying in Hok as (j & Hj & Hat); [|by rewrite ?Eph..].
    eapply observe_payout_safe; [exact Hs|done|by apply observable_once].
  - apply reserves_paying in Hok as (j & Hj & Hat); [|by rewrite ?Eph..].
    eapply observe_payout_safe; [exact Hs|done|]. split; [done|]. congruence.
  - case_match; [apply safe_quiet; solve_quiet|]. quiet_steps.
    eapply completeDatabase_safe; [exact Hs|done|done|]. exists st. auto.
Qed.

(** ** The entry points *)

Lemma loadCurrent_safe {B : Type} (f : _ -> F B) w s Q :
  (forall r s', load_result w r -> wpM PI w s' (f r) Q) ->
  wpM PI w s (loadCurrent cfg ≫= f) Q.
Proof.
  intros Hf. apply wpM_bind. unfold loadCurrent. apply wpM_bind.
  apply (wpM_op PI w s LoadWithMetadata); [done|]. intros r w' [[-> Hl] _].
  destruct r as [[current meta]|e]; [|by apply wpM_ret, Hf].
  apply wpM_bind, wpM_quiet; [solve_quiet|]. intros a s' _. by apply wpM_ret, Hf.
Qed.

Lemma safe_then_deferred (m : F (option error)) w s :
  safe w s m -> safe w s (err ← m; deferred cfg err).
Proof.
  intros Hm. apply wpM_bind. eapply wpM_mono; [exact Hm|]. intros err s' w' _.
  apply (safe_quiet (deferred cfg err)). solve_quiet.
Qed.

Lemma run_body_safe trigger w s : Inv w -> safe w s (run_body cfg trigger).
Proof.
  intros Hi. unfold run_body. apply loadCurrent_safe. intros r s1 Hl. cbv zeta.
  eapply quietly; [solve_quiet|reflexivity|]. intros report s2 Hs2.
  eapply quietly; [solve_quiet|exact Hs2|]. intros _ s3 Hs3.
  destruct r as [[[current|] meta]|e]; [| |apply safe_quiet; solve_quiet].
  - eapply writing_state; [exact Hs3|]. intros s4 Hs4. quiet_steps.
    eapply recoverState_safe; [exact Hs4|done|done].
  - apply runNew_safe; [done|]. destruct Hi as [_ [?|[I Ho]]]; [done|].
    destruct Hl as (? & ? & _). exfalso. by eapply owned_not_idle.
Qed.

Lemma run_safe trigger execution w s : Inv w -> safe w s (run cfg trigger execution).
Proof.
  intros Hi. unfold run. eapply quietly; [solve_quiet|reflexivity|]. intros now s1 Hs1.
  eapply quietly; [solve_quiet|exact Hs1|]. intros _ s2 Hs2.
  by apply safe_then_deferred, run_body_safe.
Qed.

Lemma Recover_safe w s : Inv w -> safe w s (Recover cfg).
Proof.
  intros Hi. unfold Recover. apply loadCurrent_safe. intros r s1 Hl.
  destruct r as [[[current|] meta]|e]; [|apply safe_quiet; solve_quiet..].
  eapply quietly; [solve_quiet|reflexivity|]. intros now s2 Hs2.
  eapply writing_state; [exact Hs2|]. intros s3 Hs3.
  do 5 (eapply quietly; [solve_quiet|exact Hs3|]; clear dependent s3; intros ? s3 Hs3).
  apply safe_then_deferred. eapply recoverState_safe; [exact Hs3|done|done].
Qed.
End Runs.
