(* ===== verification/Sim.v ===== *)
(** * A simulated environment

    Concrete answers to the operations of the funding service: a store that
    keeps the two snapshots, a database that lists what is not completed, an
    exchange and a chain that follow a script.  It is used to run the code on
    concrete inputs, and its answers are shown to follow
    [PayoutWorld.funding_step].  It models no file of the repository. *)

From S2P Require Import Prelude DecimalSpec Prog Model Clock Report Json Effects PayoutWorld.

Section Sim.
Context `{DecimalOps}.

(** The script: the answers of the exchange to the successive submissions
    and the successive balances (the last one repeats); the log holds the
    operations, most recent first. *)
Record sim : Type := mkSim {
  sim_world : world;
  sim_records : list FundingRecord;
  sim_token : Token;
  sim_balances : list (result SpotBalanceAmounts);
  sim_submits : list (SubmitResult * option error);
  sim_claimable : result decimal;
  sim_limits : list (result UserRateLimit);
  sim_daily : option DailyConsolidation;
  sim_nonce : Z;
  sim_clock : Z;
  sim_log : list FundingOp
}.

#[global] Instance sim_settable : Settable sim := fun h =>
  mkSim (sim_world h) (sim_records h) (sim_token h) (sim_balances h) (sim_submits h)
    (sim_claimable h) (sim_limits h) (sim_daily h) (sim_nonce h) (sim_clock h) (sim_log h).

(** The head of a script whose last entry repeats. *)
Definition next {A : Type} (d : A) (l : list A) : A * list A :=
  match l with [] => (d, []) | [x] => (x, [x]) | x :: r => (x, r) end.

Definition sim_save (w : world) (s : RunState) : option error * world :=
  match w_cur w, w_bak w with
  | Valid s0, _ => (None, w <| w_cur := Valid s |> <| w_bak := Valid s0 |>)
  | Absent, _ => (None, w <| w_cur := Valid s |>)
  | Invalid, Valid _ => (None, w <| w_cur := Valid s |>)
  | Invalid, _ => (Some (Errorf "refuse to replace invalid current snapshot without a valid backup" []), w)
  end.

Definition sim_load (w : world) : result (option RunState * StateLoadMetadata) :=
  match w_cur w, w_bak w with
  | Valid s, _ => Ok (Some s, empty_metadata)
  | Absent, Absent => Ok (None, empty_metadata)
  | Absent, Valid s => Ok (Some s, mkMetadata true false None)
  | Invalid, Valid s => Ok (Some s, mkMetadata true true None)
  | _, _ => Err (Errorf "load snapshots" [])
  end.

Definition send_body (to_ token amount : string) (nonce : Z) : string :=
  encode (JObj [("action", JObj [("type", JStr "spotSend"); ("destination", JStr to_); ("token", JStr token);
                                 ("amount", JStr amount); ("time", JNum (itoa nonce))]);
                ("nonce", JNum (itoa nonce))]).

Definition sim_prepare (from to_ : string) (token : Token) (amount : decimal) (nonce : Z) : PreparedAction :=
  mkPrepared "spotSend" from to_ (tok_WireToken token) (dec_string amount) nonce
    (send_body to_ (tok_WireToken token) (dec_string amount) nonce).

Definition answer (h : sim) (o : FundingOp) : option (FundingResp o * sim) :=
  match o return option (FundingResp o * sim) with
  | CanonicalUSDC => Some (Ok (sim_token h), h)
  | ClaimableUSDC _ _ => Some (sim_claimable h, h)
  | SpotBalance _ _ =>
      let (b, r) := next (Err (Errorf "no balance" [])) (sim_balances h) in Some (b, h <| sim_balances := r |>)
  | QueryUserRateLimit _ =>
      let (b, r) := next (Err (Errorf "no limit" [])) (sim_limits h) in Some (b, h <| sim_limits := r |>)
  | PrepareClaim b n => Some (Ok (mkPrepared "claimRewards" b "" "" "" n "{}"), h)
  | PrepareSpotSend from to_ token amount n => Some (Ok (sim_prepare from to_ token amount n), h)
  | Submit a =>
      let (x, r) := next (mkSubmitResult false false "", Some DeadlineExceeded) (sim_submits h) in
      Some (x, h <| sim_submits := r |> <| sim_world ::= (fun w =>
              w <| w_subs ::= (fun l => l ++ [mkSubmission (slot_ids (w_cur w)) a (explicitly_rejected x)]) |>) |>)
  | ListPending =>
      Some (Ok (filter (fun x => rec_ID x ∉ w_done (sim_world h)) (sim_records h)), h)
  | Complete ids =>
      Some (None, h <| sim_world ::= (fun w => w <| w_done ::= (fun d => list_to_set ids ∪ d) |>) |>)
  | LoadWithMetadata => Some (sim_load (sim_world h), h)
  | Save s => let (r, w) := sim_save (sim_world h) s in Some (r, h <| sim_world := w |>)
  | Clear => Some (None, h <| sim_world ::= (fun w => w <| w_cur := Absent |> <| w_bak := Absent |>) |>)
  | Archive _ _ => Some (None, h)
  | LoadDailyConsolidation _ => Some (Ok (sim_daily h), h)
  | SaveDailyConsolidation c => Some (None, h <| sim_daily := Some c |>)
  | Now => Some (sim_clock h, h <| sim_clock ::= Z.add Second |>)
  | NextNonce => Some (sim_nonce h, h <| sim_nonce ::= Z.add 1 |>)
  | Sleep _ => Some (None, h)
  | RandRead n => Some (Ok (repeat 171 (Z.to_nat n)), h)
  | CtxErr => Some (None, h)
  | Alert _ _ _ => Some (tt, h)
  | Effects.Report _ => Some (tt, h)
  | Schedule => Some (true, h)
  | Panic | StackOverflow => None
  end.

Definition env (h : sim) (o : FundingOp) : option (FundingResp o * sim) :=
  match answer h o with
  | Some (r, h') => Some (r, h' <| sim_log ::= cons o |>)
  | None => None
  end.

Lemma sim_save_effect w s : save_effect w s (fst (sim_save w s)) (snd (sim_save w s)).
Proof.
  unfold sim_save. destruct (w_cur w) eqn:Ec; cbn [fst snd].
  - by apply save_first.
  - destruct (w_bak w) eqn:Eb; cbn [fst snd]; [apply save_failed|apply save_failed|].
    by eapply save_replaced.
  - by apply save_rotated.
Qed.

Lemma sim_load_result w : load_result w (sim_load w).
Proof. unfold sim_load. destruct (w_cur w) eqn:Ec, (w_bak w) eqn:Eb; simpl; repeat split; intros; congruence. Qed.

(** The simulation follows the protocol. *)
Lemma env_step h o r h' : env h o = Some (r, h') -> funding_step (sim_world h) o r (sim_world h').
Proof.
  unfold env. intros E. destruct (answer h o) as [[r0 h0]|] eqn:Ea; [|done]. injection E as -> <-.
  destruct o; simpl in Ea; try discriminate; try (by injection Ea as <- <-).
  - destruct (next _ _). by injection Ea as <- <-.
  - destruct (next _ _). by injection Ea as <- <-.
  - destruct (next _ _). by injection Ea as <- <-.
  - injection Ea as <- <-. split; [done|]. intros x Hx. by apply list_elem_of_filter in Hx as [? _].
  - injection Ea as <- <-. split; [done|]. apply sim_load_result.
  - pose proof (sim_save_effect (sim_world h) state) as He. destruct (sim_save _ _).
    by injection Ea as <- <-.
  - injection Ea as <- <-. apply clear_done.
Qed.

(** Running a computation until it ends or is about to perform an operation
    that [stop] selects, as an execution against an arbitrary environment. *)
Definition run_sim {A : Type} (stop : FundingOp -> bool) (m : F A) (mem : Mem) (h : sim) : prog (A * Mem) * sim :=
  exec (fun h o => if stop o then None else env h o) h (m mem).

Definition any_environment : protocol unit := ops_protocol (fun _ => True).

Definition sim_trace {A : Type} (stop : FundingOp -> bool) (m : F A) (mem : Mem) (h : sim) : list (event FundingSig) :=
  exec_trace (fun h o => if stop o then None else env h o) h (m mem).

Lemma run_sim_partial {A : Type} stop (m : F A) mem h :
  partial any_environment tt (m mem) (sim_trace stop m mem h) tt (fst (run_sim stop m mem h)).
Proof. by apply (exec_partial any_environment (fun _ : sim => tt)). Qed.

Lemma run_sim_stopped {A : Type} stop (test : FundingOp -> bool) (m : F A) mem h :
  (match head_op (fst (run_sim stop m mem h)) with Some o => test o | None => false end) = true ->
  exists o k, test o = true /\ partial any_environment tt (m mem) (sim_trace stop m mem h) tt (Call o k).
Proof.
  pose proof (run_sim_partial stop m mem h) as Hp.
  destruct (head_op (fst (run_sim stop m mem h))) as [o|] eqn:E; [|done].
  apply head_op_call in E as [k E]. rewrite E in Hp. eauto.
Qed.
End Sim.
