(* ===== verification/PayoutTheorems.v ===== *)
(** * What the payout code guarantees

    The system: processes that run [Run], [RunScheduled] or [Recover] on what
    the previous process left, each stopping anywhere, with snapshots that a
    crash may corrupt.  The theorems hold in every world such a history
    reaches. *)

From Stdlib Require Import QArith.
From S2P Require Import Prelude DecimalSpec DecimalImpl Prog Model Amount Clock Report ActionValidation Effects Payout Recovery Run PayoutWorld PayoutInv PayoutContract PayoutRuns Sim.

(** ** Histories *)

(* go: internal/funding/recovery.go 17-99 Run *)
Inductive entry_point : Type :=
| EntryRun (trigger : Trigger)
| EntryScheduled (trigger : Trigger) (attempt maxAttempts : Z)
| EntryRecover.

Section System.
Context `{DecimalOps}.
Variable cfg : Config.

Definition entry (e : entry_point) : F (option error) :=
  match e with
  | EntryRun trigger => Run cfg trigger
  | EntryScheduled trigger attempt maxAttempts => RunScheduled cfg trigger attempt maxAttempts
  | EntryRecover => Recover cfg
  end.

(** A history: any number of entries, each stopped after any prefix of its
    operations, with a crash in between. *)
Inductive reachable : world -> Prop :=
| reachable_initial : reachable initial_world
| reachable_entry w e mem tr w' m w'' :
    reachable w -> partial funding_protocol w (entry e mem) tr w' m -> crash w' w'' -> reachable w''.

Lemma entry_contract e w mem : Inv w -> wp funding_protocol w (entry e mem) (fun _ _ => True).
Proof.
  intros Hi. apply (wp_with_invariant funding_protocol Inv); [exact Inv_step|done|].
  assert (Hs : safe w mem (entry e)) by (destruct e; [by apply run_safe..|by apply Recover_safe]).
  eapply wp_mono; [|exact Hs]. done.
Qed.

Lemma partial_Inv e w mem tr w' m :
  Inv w -> partial funding_protocol w (entry e mem) tr w' m -> Inv w'.
Proof.
  intros Hi Hp. eapply (partial_invariant funding_protocol Inv); [exact Inv_step|exact Hp| |exact Hi].
  by apply entry_contract.
Qed.

Lemma reachable_Inv w : reachable w -> Inv w.
Proof.
  induction 1 as [|w e mem tr w' m w'' _ IH Hp Hc]; [apply Inv_initial|].
  eapply Inv_crash; [|exact Hc]. by eapply partial_Inv.
Qed.

(** The world in which an operation is about to happen, and the contract it
    respects. *)
Lemma reachable_allowed w e mem tr w' o k :
  reachable w -> partial funding_protocol w (entry e mem) tr w' (Call o k) ->
  Inv w' /\ funding_allowed w' o.
Proof.
  intros Hr%reachable_Inv Hp. split; [by eapply partial_Inv|].
  exact (partial_allowed funding_protocol _ _ _ _ _ _ _ Hp (entry_contract e w mem Hr)).
Qed.

(** *** Histories of the simulation *)

(** Running an entry until it ends or is about to perform an operation that
    [stop] selects. *)
Definition simulate (stop : FundingOp -> bool) (e : entry_point) (mem : Mem) (h : sim)
    : prog (option error * Mem) * sim :=
  exec (fun h o => if stop o then None else env h o) h (entry e mem).

Lemma simulate_partial stop e mem h :
  exists tr, partial funding_protocol (sim_world h) (entry e mem) tr
    (sim_world (snd (simulate stop e mem h))) (fst (simulate stop e mem h)).
Proof.
  eexists. apply (exec_partial funding_protocol sim_world). intros h0 o r h' E.
  destruct (stop o); [done|]. by apply env_step.
Qed.

Lemma crash_refl w : crash w w.
Proof. destruct w as [cur bak subs done]. apply (crash_intro (mkWorld cur bak subs done) cur bak); by left. Qed.

Lemma reachable_simulation stop e mem h :
  reachable (sim_world h) -> reachable (sim_world (snd (simulate stop e mem h))).
Proof.
  intros Hr. destruct (simulate_partial stop e mem h) as (tr & Hp).
  eapply reachable_entry; [done|done|apply crash_refl].
Qed.

(** A simulation stopped in front of an operation. *)
Lemma simulate_stopped stop e mem h o :
  head_op (fst (simulate stop e mem h)) = Some o ->
  exists tr k, partial funding_protocol (sim_world h) (entry e mem) tr
    (sim_world (snd (simulate stop e mem h))) (Call o k).
Proof.
  intros E. destruct (simulate_partial stop e mem h) as (tr & Hp).
  apply head_op_call in E as [k E]. rewrite E in Hp. eauto.
Qed.
End System.

(** ** A concrete history

    One pending record of 1.5 USDC; the exchange never answers the first
    submission and the settlement balance never moves, so the exact request is
    replayed, again without an answer, and the run is blocked. *)
Module Scenario.
Import DecimalImpl.

Definition cfg : Config :=
  mkConfig ["0xb1"] ∅ "0xse" "0xre" "mainnet" true.
Definition record : FundingRecord := mkFundingRecord 7 1 "1.5".
Definition token : Token := mkToken "USDC" "0x6d" 0 8 "USDC:0x6d".
Definition balance : SpotBalanceAmounts := mkBalance _ (Dec 100 0) (Dec 100 0).
Definition mem : Mem := mkMem empty_run empty_report ∅ ∅.
Definition script (submits : list (SubmitResult * option error)) : sim :=
  mkSim initial_world [record] token [Ok balance] submits
    (Ok (Dec 5 0)) [Ok (mkUserRateLimit "0" 10 1000 0)] None 1000 (20000 * Day) [].

Definition silent : list (SubmitResult * option error) :=
  [(mkSubmitResult false false "", Some DeadlineExceeded)].
Definition accepting : list (SubmitResult * option error) := [(mkSubmitResult true false "", None)].

Definition never (o : FundingOp) : bool := false.
Definition signed : PreparedAction := sim_prepare "0xse" "0xre" token (Dec 15 (-1)) 1000.

Definition at_submit (o : FundingOp) : bool := match o with Submit a => bool_decide (a = signed) | _ => false end.
Definition at_complete (o : FundingOp) : bool := match o with Complete ids => bool_decide (ids = [7]) | _ => false end.
Definition at_clear (o : FundingOp) : bool := match o with Clear => true | _ => false end.

Definition go (stop : FundingOp -> bool) (h : sim) : prog (option error * Mem) * sim :=
  simulate cfg stop (EntryScheduled TriggerUTC 1 6) mem h.

Definition scheduled : entry_point := EntryScheduled TriggerUTC 1 6.

(** The start of each script is the empty world. *)
Lemma start_reachable submits : reachable cfg (sim_world (script submits)).
Proof. apply reachable_initial. Qed.

Lemma end_reachable stop submits : reachable cfg (sim_world (snd (go stop (script submits)))).
Proof. apply reachable_simulation, start_reachable. Qed.

(** The simulation stops in front of an operation that passes [test]. *)
Lemma stopped (test stop : FundingOp -> bool) submits :
  (match head_op (fst (go stop (script submits))) with Some o => test o | None => false end) = true ->
  exists o tr k, test o = true /\
    partial funding_protocol (sim_world (script submits)) (entry cfg scheduled mem) tr
      (sim_world (snd (go stop (script submits)))) (Call o k).
Proof.
  intros E. destruct (head_op (fst (go stop (script submits)))) as [o|] eqn:Eh; [|done].
  destruct (simulate_stopped cfg stop scheduled mem (script submits) o Eh) as (tr & k & Hp). eauto.
Qed.
End Scenario.

(** ** The theorems *)

Section Theorems.
Context `{DecimalOps}.

(** No record is paid twice.  In every world that a history of runs,
    crashes and snapshot corruptions reaches, the signed requests that may
    have been executed and that pay a given record all have the same bytes
    (so the exchange executes at most one of them), and at most two were
    sent. *)
Theorem no_record_paid_twice cfg w : reachable cfg w -> no_double_payment w.
Proof. intros Hr. apply (reachable_Inv cfg w Hr). Qed.

(** C3: a payout request leaves the process only while both snapshots hold
    exactly that request, for the same records, and reserve the attempt: the
    first submission under a submitting snapshot whose backup is the
    prepared one and before any other request for these records, the replay
    under two replaying snapshots and after at most one. *)
Theorem submission_needs_durable_intent cfg w e mem tr w' a k :
  reachable cfg w -> partial funding_protocol w (entry cfg e mem) tr w' (Call (Submit a) k) ->
  exists s s', w_cur w' = Valid s /\ w_bak w' = Valid s' /\ run_ids s' = run_ids s /\
    ((intends s a PhasePayoutSubmitting /\ intends s' a PhasePayoutPrepared /\ claims w' (run_ids s) = []) \/
     (intends s a PhasePayoutReplaying /\ intends s' a PhasePayoutReplaying /\
      (length (claims w' (run_ids s)) <= 1)%nat)).
Proof.
  intros Hr Hp. destruct (reachable_allowed cfg w e mem tr w' (Submit a) k Hr Hp) as [[_ Hi] (s & s' & Hc & Hb & Hcase)].
  exists s, s'. split_and!; [done|done| |done].
  destruct Hi as [(? & _)|[I Ho]]; [congruence|].
  transitivity I; [|symmetry]; eapply owned_of_stored; [done|by right|done|by left].
Qed.

(** C4: records are marked completed only when a snapshot for exactly these
    records says the payout is confirmed, or when there is nothing to pay. *)
Theorem completion_needs_confirmation cfg w e mem tr w' ids k :
  reachable cfg w -> partial funding_protocol w (entry cfg e mem) tr w' (Call (Complete ids) k) ->
  exists s, stored w' s /\ run_ids s = ids /\
    (tgt_Phase (first_target s) = PhasePayoutConfirmed \/
     (tgt_Phase (first_target s) = PhasePrepared /\
      (ids = [] \/ man_PayoutTotal (tgt_Manifest (first_target s)) = "0"))).
Proof. intros Hr Hp. exact (proj2 (reachable_allowed cfg w e mem tr w' (Complete ids) k Hr Hp)). Qed.

(** C5: the snapshots are removed only when every record of every request
    that may have been executed is completed in the database, so the next
    run cannot pay it again. *)
Theorem clearing_needs_settlement cfg w e mem tr w' k :
  reachable cfg w -> partial funding_protocol w (entry cfg e mem) tr w' (Call Clear k) ->
  forall x r, x ∈ live w' -> r ∈ sub_ids x -> r ∈ w_done w'.
Proof.
  intros Hr Hp x r Hx Hin.
  exact (proj2 (reachable_allowed cfg w e mem tr w' Clear k Hr Hp) x Hx r Hin).
Qed.

(** C21: the recursive calls end.  An ambiguous result is observed at most
    twice and a completed run is closed without another round, so the depth
    the model allows to the recursion is never used up. *)
Theorem recursion_is_bounded cfg w e mem tr w' k :
  reachable cfg w -> partial funding_protocol w (entry cfg e mem) tr w' (Call StackOverflow k) -> False.
Proof. intros Hr Hp. exact (proj2 (reachable_allowed cfg w e mem tr w' StackOverflow k Hr Hp)). Qed.
End Theorems.

(** ** Witnesses *)

#[local] Existing Instance DecimalImpl.dec_ops.

Lemma no_record_paid_twice_witness :
  let w := sim_world (snd (Scenario.go Scenario.never (Scenario.script Scenario.silent))) in
  map sub_action (covering w 7) = [Scenario.signed; Scenario.signed] /\ no_double_payment w.
Proof.
  split; [vm_compute; reflexivity|].
  exact (no_record_paid_twice _ _ (Scenario.end_reachable Scenario.never Scenario.silent)).
Defined.

Lemma submission_needs_durable_intent_witness :
  let w := sim_world (snd (Scenario.go Scenario.at_submit (Scenario.script Scenario.silent))) in
  exists s s', w_cur w = Valid s /\ w_bak w = Valid s' /\ run_ids s' = run_ids s /\
    ((intends s Scenario.signed PhasePayoutSubmitting /\ intends s' Scenario.signed PhasePayoutPrepared /\
      claims w (run_ids s) = []) \/
     (intends s Scenario.signed PhasePayoutReplaying /\ intends s' Scenario.signed PhasePayoutReplaying /\
      (length (claims w (run_ids s)) <= 1)%nat)).
Proof.
  destruct (Scenario.stopped Scenario.at_submit Scenario.at_submit Scenario.silent ltac:(vm_compute; reflexivity)) as ([] & tr & k & Ht & Hp); try discriminate Ht.
  apply bool_decide_eq_true in Ht as ->.
  exact (submission_needs_durable_intent _ _ _ _ _ _ _ _ (Scenario.start_reachable Scenario.silent) Hp).
Defined.

Lemma completion_needs_confirmation_witness :
  let w := sim_world (snd (Scenario.go Scenario.at_complete (Scenario.script Scenario.accepting))) in
  exists s, stored w s /\ run_ids s = [7] /\
    (tgt_Phase (first_target s) = PhasePayoutConfirmed \/
     (tgt_Phase (first_target s) = PhasePrepared /\
      ([7] = [] \/ man_PayoutTotal (tgt_Manifest (first_target s)) = "0"))).
Proof.
  destruct (Scenario.stopped Scenario.at_complete Scenario.at_complete Scenario.accepting ltac:(vm_compute; reflexivity)) as ([] & tr & k & Ht & Hp); try discriminate Ht.
  apply bool_decide_eq_true in Ht as ->.
  exact (completion_needs_confirmation _ _ _ _ _ _ _ _ (Scenario.start_reachable Scenario.accepting) Hp).
Defined.

Lemma clearing_needs_settlement_witness :
  let w := sim_world (snd (Scenario.go Scenario.at_clear (Scenario.script Scenario.accepting))) in
  map sub_ids (live w) = [[7]] /\ forall x r, x ∈ live w -> r ∈ sub_ids x -> r ∈ w_done w.
Proof.
  split; [vm_compute; reflexivity|].
  destruct (Scenario.stopped Scenario.at_clear Scenario.at_clear Scenario.accepting ltac:(vm_compute; reflexivity)) as ([] & tr & k & Ht & Hp); try discriminate Ht.
  exact (clearing_needs_settlement _ _ _ _ _ _ _ (Scenario.start_reachable Scenario.accepting) Hp).
Defined.

(** The unanswered run performs its whole call chain and returns; the theorem
    says that none of its prefixes is the overflow. *)
Lemma recursion_is_bounded_witness :
  (match fst (Scenario.go Scenario.never (Scenario.script Scenario.silent)) with Ret _ => true | _ => false end) = true /\
  forall tr w k, partial funding_protocol (sim_world (Scenario.script Scenario.silent))
    (entry Scenario.cfg Scenario.scheduled Scenario.mem) tr w (Call StackOverflow k) -> False.
Proof.
  split; [vm_compute; reflexivity|]. intros tr w k Hp.
  exact (recursion_is_bounded _ _ _ _ _ _ _ (Scenario.start_reachable Scenario.silent) Hp).
Defined.
