(* ===== verification/Consolidation.v ===== *)
(** * Claim and sweep

    [internal/funding/consolidation.go] and the consolidation half of
    [internal/funding/orchestrator.go]: reading the claimable rewards of the
    builders, claiming those worth it, waiting for the balances to show the
    claim, and sweeping the available balances to the settlement account.

    Fan-outs over the builders are [spawn]s of one goroutine per builder.
    The Go maps and slices indexed by builder are maps keyed by the builder's
    address and lists in the order of the configured builders. *)

From S2P Require Import Prelude DecimalSpec Prog Model Clock Report Json ActionValidation Effects Run ReportObservation Daily.

(* go: internal/funding/orchestrator.go 56-56 claimableQueryAttempts *)
Definition claimableQueryAttempts : nat := 5.
(* go: internal/funding/orchestrator.go 57-57 claimableQueryRetryInterval *)
Definition claimableQueryRetryInterval : Z := 200 * Millisecond.
(* go: internal/funding/orchestrator.go 58-58 claimBaselineQueryAttempts *)
Definition claimBaselineQueryAttempts : nat := 5.
(* go: internal/funding/orchestrator.go 59-59 claimBaselineQueryInterval *)
Definition claimBaselineQueryInterval : Z := Second.
(* go: internal/funding/orchestrator.go 60-60 claimBaselineRequiredConfirmations *)
Definition claimBaselineRequiredConfirmations : Z := 2.
(* go: internal/funding/orchestrator.go 61-61 sweepSubmitAttempts *)
Definition sweepSubmitAttempts : nat := 3.
(* go: internal/funding/orchestrator.go 62-62 sweepSubmitRetryInterval *)
Definition sweepSubmitRetryInterval : Z := Second.
(* go: internal/funding/orchestrator.go 63-63 sweepBalanceQueryAttempts *)
Definition sweepBalanceQueryAttempts : nat := 5.
(* go: internal/funding/orchestrator.go 64-64 sweepBalanceQueryInterval *)
Definition sweepBalanceQueryInterval : Z := Second.
(* go: internal/funding/orchestrator.go 65-65 sweepBalanceRequiredConfirmations *)
Definition sweepBalanceRequiredConfirmations : Z := 2.
(* go: internal/funding/orchestrator.go 69-69 claimBalanceObservationAttempts *)
Definition claimBalanceObservationAttempts : nat := 10.
(* go: internal/funding/orchestrator.go 70-70 claimBalanceObservationInterval *)
Definition claimBalanceObservationInterval : Z := Second.
(* go: internal/funding/orchestrator.go 71-71 claimBalanceRequiredConfirmations *)
Definition claimBalanceRequiredConfirmations : Z := 2.
(* go: internal/funding/orchestrator.go 72-72 claimRewardThresholdUSDC *)
Definition claimRewardThresholdUSDC : Z := 1.
(* go: internal/funding/orchestrator.go 73-73 claimBelowThresholdRejection *)
Definition claimBelowThresholdRejection : string := "Must have at least 1 of a reward token to claim".

(** ** Rejections *)

(* go: internal/hyperliquid/exchange/types.go 28-31 RejectionMessage *)
Record rejection_envelope : Type := mkRejection {
  rej_Status : string;
  rej_Response : option json
}.
#[export] Instance rejection_settable : Settable rejection_envelope := fun r =>
  mkRejection (rej_Status r) (rej_Response r).

(** A [json.RawMessage] field keeps the value whatever its type. *)
Definition assign_rejection (k : string) (v : json) (e : rejection_envelope) : option rejection_envelope :=
  if EqualFold k "status" then decode_string_field (fun s e => e <| rej_Status := s |>) v e
  else if EqualFold k "response" then Some (e <| rej_Response := Some v |>)
  else Some e.

(* go: internal/hyperliquid/exchange/types.go 24-40 RejectionMessage *)
Definition RejectionMessage (r : SubmitResult) : option string :=
  if negb (sr_Rejected r) || string_is_empty (sr_Response r) then None
  else match parse_json (sr_Response r) with
       | None => None
       | Some v =>
           match decode_struct assign_rejection v (mkRejection "" None) with
           | None => None
           | Some e =>
               if negb (String.eqb (rej_Status e) "err") then None
               else match rej_Response e with
                    | Some (JStr message) => Some message
                    | Some JNull => Some ""
                    | _ => None
                    end
           end
       end.

(* go: internal/funding/orchestrator.go 737-740 claimBelowThreshold *)
Definition claimBelowThreshold (r : SubmitResult) : bool :=
  match RejectionMessage r with
  | Some message => String.eqb message claimBelowThresholdRejection
  | None => false
  end.

(** ** Claims and their expected effect *)

(* go: internal/funding/orchestrator.go 476-484 claimBalanceTarget *)
Record claimBalanceTarget `{DecimalOps} : Type := mkClaimTarget {
  cbt_totalBefore : decimal;
  cbt_availableBefore : decimal;
  cbt_claimableBefore : decimal;
  cbt_claimableKnown : bool;
  cbt_minimumIncrease : decimal;
  cbt_submitUnknown : bool;
  cbt_preStateSeenAfterSubmit : bool
}.

#[export] Instance claimBalanceTarget_settable `{DecimalOps} : Settable claimBalanceTarget := fun t =>
  mkClaimTarget _ (cbt_totalBefore t) (cbt_availableBefore t) (cbt_claimableBefore t) (cbt_claimableKnown t)
    (cbt_minimumIncrease t) (cbt_submitUnknown t) (cbt_preStateSeenAfterSubmit t).

(* go: internal/funding/orchestrator.go 486-488 minimumTotal *)
Definition minimumTotal `{DecimalOps} (t : claimBalanceTarget) : decimal :=
  dec_add (cbt_totalBefore t) (cbt_minimumIncrease t).

(* go: internal/funding/orchestrator.go 490-492 visible *)
Definition visible `{DecimalOps} (t : claimBalanceTarget) (total : decimal) : bool :=
  negb (dec_less total (minimumTotal t)).

(* go: internal/funding/orchestrator.go 504-509 claimEligible *)
Definition claimEligible `{DecimalOps} (claimable : option decimal) : bool :=
  match claimable with
  | None => true
  | Some c => negb (dec_less c (dec_of_int claimRewardThresholdUSDC))
  end.

(** A streak of equal balance reads: the balance and the number of times it
    was seen in a row. *)
Record streak `{DecimalOps} : Type := mkStreak {
  st_candidate : option SpotBalanceAmounts;
  st_consecutive : Z
}.
Definition no_streak `{DecimalOps} : streak := mkStreak _ None 0.

Definition extend_streak `{DecimalOps} (s : streak) (balance : SpotBalanceAmounts) : streak :=
  match st_candidate s with
  | Some c => if (0 <? st_consecutive s) && sameSpotBalance balance c
              then mkStreak _ (Some c) (st_consecutive s + 1) else mkStreak _ (Some balance) 1
  | None => mkStreak _ (Some balance) 1
  end.

(** [consecutive = 0], the candidate is kept but no longer counts. *)
Definition break_streak `{DecimalOps} (s : streak) : streak := mkStreak _ (st_candidate s) 0.

Section Consolidation.
Context `{DecimalOps}.
Variable cfg : Config.

(** ** Reporting on a builder *)

(** [if b := report.builder(address); b != nil { ...; report.addWarning(b.Name + ": " + text) }] *)
Definition warn_builder (address text : string) (r : RunReport) : RunReport :=
  match builder address r with
  | Some b => addWarning (br_Name b +:+ ": " +:+ text) r
  | None => r
  end.

(* go: internal/funding/orchestrator.go 1265-1298 builderFailure *)
Definition builderFailure (runID address action outcome : string) : F unit :=
  let summary := builderActionSummary action outcome in
  set_report (fun r => warn_builder address summary
    (update_builder address (fun b =>
       if String.eqb action "claimable" || String.eqb action "claimRewards"
       then b <| br_ClaimStatus := ReportStepWarning |> <| br_ClaimSummary := summary |>
       else b <| br_SweepStatus := ReportStepWarning |> <| br_SweepSummary := summary |>) r)) ;;
  alertOnce cfg runID ("builder_" +:+ action +:+ "_failed:" +:+ address_key address)
    AlertSeverityWarning (action +:+ " action did not complete").

(* go: internal/funding/orchestrator.go 742-752 markClaimUncertain *)
Definition markClaimUncertain (runID address : string) : F unit :=
  set_report (update_builder address (fun b => b <| br_ClaimUncertain := true |>)) ;;
  builderFailure runID address "claimRewards" "unknown".

(* go: internal/funding/orchestrator.go 1225-1236 resolveUncertainClaim *)
Definition resolveUncertainClaim (address : string) (r : RunReport) : RunReport :=
  update_builder address (fun b =>
    let summary := "Reward 已领取（由余额增长确认；未重发）" in
    b <| br_ClaimUncertain := false |> <| br_ClaimStatus := ReportStepSuccess |>
      <| br_ClaimSummary := if br_ClaimableObserved b then summary
                            else summary +:+ "；零点 Claimable 数据缺失" |>) r.

(* go: internal/funding/orchestrator.go 1144-1174 recordBuilderBalance *)
Definition recordBuilderBalance (address : string) (balance : SpotBalanceAmounts) (r : RunReport) : RunReport :=
  update_builder address (fun b =>
    b <| br_FinalTotal := dec_string (bal_Total balance) |>
      <| br_FinalAvailable := dec_string (bal_Available balance) |>) r.

(** ** The token *)

(** [attempts] is the number of attempts left. *)
(* go: internal/funding/orchestrator.go 341-369 queryConsolidationToken *)
Fixpoint token_loop (attempts : nat) (lastErr : error) : F (result Token) :=
  match attempts with
  | O => mret (Err (Wrapf "query canonical USDC after %d attempts: %w" [itoa 5] lastErr))
  | S attempts =>
      answer ← op CanonicalUSDC;
      match answer with
      | Ok token => mret (Ok token)
      | Err err =>
          ctxErr ← op CtxErr;
          match ctxErr with
          | Some ctxErr => mret (Err ctxErr)
          | None =>
              slept ← (match attempts with
                       | O => mret None
                       | S _ => op (Sleep claimableQueryRetryInterval)
                       end : F (option error));
              match slept with
              | Some e => mret (Err e)
              | None => token_loop attempts err
              end
          end
      end
  end.

(* go: internal/funding/orchestrator.go 337-369 queryConsolidationToken *)
Definition queryConsolidationToken : F (result Token) :=
  token_loop claimableQueryAttempts (Errorf "%!w(<nil>)" []).

(** ** Claimable rewards *)

(** The goroutine of one builder. *)
(* go: internal/funding/orchestrator.go 394-400 captureBuilderClaimables *)
Definition claimable_query (token : Token) (address : string) : prog (result decimal) :=
  Call (ClaimableUSDC address token : Op) (fun answer : result decimal =>
    Ret (match answer with
         | Ok amount => if dec_neg amount then Err (Errorf "claimable amount is negative" []) else Ok amount
         | Err e => Err e
         end)).

(* go: internal/funding/orchestrator.go 411-425 captureBuilderClaimables *)
Definition record_claimable (attempt : Z) (r : RunReport) (answer : string * result decimal) : RunReport :=
  let '(address, res) := answer in
  update_builder address (fun b =>
    let b := b <| br_ClaimableQueryAttempts := attempt |> in
    match res with
    | Ok amount => b <| br_ClaimableUSDC := dec_string amount |> <| br_ClaimableObserved := true |>
    | Err _ => b
    end) r.

Definition store_answer (m : gmap string decimal) (answer : string * result decimal) : gmap string decimal :=
  match answer with (address, Ok amount) => <[address := amount]> m | (_, Err _) => m end.

Definition unanswered (answers : list (string * result decimal)) : list string :=
  map fst (List.filter (fun a => negb (is_ok (snd a))) answers).

(** One round queries every pending builder; the builders still pending at
    the end are returned with the observations. *)
(* go: internal/funding/orchestrator.go 384-449 captureBuilderClaimables *)
Fixpoint claimables_loop (attempts : nat) (attempt : Z) (token : Token) (pending : list string)
    (claimables : gmap string decimal) : F (result (gmap string decimal * list string)) :=
  match attempts with
  | O => mret (Ok (claimables, pending))
  | S attempts =>
      results ← spawn (map (claimable_query token) pending);
      ctxErr ← op CtxErr;
      match ctxErr with
      | Some err => mret (Err err)
      | None =>
          let answers := zip pending results in
          set_report (fun r => fold_left (record_claimable attempt) answers r) ;;
          let claimables := fold_left store_answer answers claimables in
          match unanswered answers, attempts with
          | [], _ => mret (Ok (claimables, []))
          | pending, O => mret (Ok (claimables, pending))
          | pending, S _ =>
              slept ← op (Sleep claimableQueryRetryInterval);
              match slept with
              | Some err => mret (Err err)
              | None => claimables_loop attempts (attempt + 1) token pending claimables
              end
          end
      end
  end.

(* go: internal/funding/orchestrator.go 372-457 captureBuilderClaimables *)
Definition captureBuilderClaimables (runID : string) (token : Token) : F (result (gmap string decimal)) :=
  captured ← claimables_loop claimableQueryAttempts 1 token (cfg_builders cfg) ∅;
  match captured with
  | Err err => mret (Err err)
  | Ok (claimables, pending) =>
      each pending (fun address => builderFailure runID address "claimable" "query") ;;
      mret (Ok claimables)
  end.

(** ** Balances before the claim *)

Definition balance_query (token : Token) (address : string) : prog (result SpotBalanceAmounts) :=
  Call (SpotBalance address token : Op) (fun answer : result SpotBalanceAmounts => Ret answer).

(** The streak of a pending builder after an answer. *)
(* go: internal/funding/orchestrator.go 551-582 captureClaimBalanceBaselines *)
Definition baseline_step (waiting : (string * streak) * result SpotBalanceAmounts) : string * streak :=
  let '((address, s), answer) := waiting in
  match answer with
  | Ok balance => (address, extend_streak s balance)
  | Err _ => (address, break_streak s)
  end.

Definition baseline_stable (waiting : string * streak) : bool :=
  claimBaselineRequiredConfirmations <=? st_consecutive (snd waiting).

(** The balance of the round, which equals the candidate of the streak. *)
Definition store_baseline (m : gmap string SpotBalanceAmounts)
    (waiting : (string * streak) * result SpotBalanceAmounts) : gmap string SpotBalanceAmounts :=
  match waiting with
  | ((address, s), Ok balance) =>
      if baseline_stable (address, extend_streak s balance) then <[address := balance]> m else m
  | _ => m
  end.

(* go: internal/funding/orchestrator.go 527-588 captureClaimBalanceBaselines *)
Fixpoint baselines_loop (attempts : nat) (token : Token) (pending : list (string * streak))
    (baselines : gmap string SpotBalanceAmounts)
    : F (result (gmap string SpotBalanceAmounts * list (string * streak))) :=
  match attempts, pending with
  | O, _ | _, [] => mret (Ok (baselines, pending))
  | S attempts, _ =>
      results ← spawn (map (fun w => balance_query token (fst w)) pending);
      ctxErr ← op CtxErr;
      match ctxErr with
      | Some err => mret (Err err)
      | None =>
          let answers := zip pending results in
          let baselines := fold_left store_baseline answers baselines in
          match List.filter (fun w => negb (baseline_stable w)) (map baseline_step answers), attempts with
          | [], _ => mret (Ok (baselines, []))
          | pending, O => mret (Ok (baselines, pending))
          | pending, S _ =>
              slept ← op (Sleep claimBaselineQueryInterval);
              match slept with
              | Some err => mret (Err err)
              | None => baselines_loop attempts token pending baselines
              end
          end
      end
  end.

(* go: internal/funding/orchestrator.go 594-605 captureClaimBalanceBaselines *)
Definition baseline_failed (runID address : string) : F unit :=
  let summary := "Claim 前余额基线查询失败，未提交 Reward 领取" in
  set_report (fun r => warn_builder address summary
    (update_builder address (fun b =>
       b <| br_ClaimStatus := ReportStepWarning |> <| br_ClaimSummary := summary |>) r)) ;;
  alertOnce cfg runID ("builder_claim_baseline_failed:" +:+ toLower address) AlertSeverityWarning
    ("builder pre-claim balance baseline query failed" +:+ bytes_of [10] +:+ "builder: " +:+ address).

(* go: internal/funding/orchestrator.go 511-608 captureClaimBalanceBaselines *)
Definition captureClaimBalanceBaselines (runID : string) (token : Token) (claimables : gmap string decimal)
    : F (result (gmap string SpotBalanceAmounts)) :=
  let eligible := List.filter (fun b => claimEligible (claimables !! b)) (cfg_builders cfg) in
  captured ← baselines_loop claimBaselineQueryAttempts token (map (fun b => (b, no_streak)) eligible) ∅;
  match captured with
  | Err err => mret (Err err)
  | Ok (baselines, pending) =>
      each pending (fun w => baseline_failed runID (fst w)) ;;
      mret (Ok baselines)
  end.

(** ** Claiming *)

(** What the goroutine of one claim reports. *)
(* go: internal/funding/orchestrator.go 469-474 claimAttemptResult *)
Inductive claimAttemptResult : Type :=
| ClaimPrepareFailed (err : error)
| ClaimSubmitted (outcome : SubmitResult) (err : option error).

(* go: internal/funding/orchestrator.go 652-660 claimBuilderRewards *)
Definition claim_attempt (claim : string * Z) : prog claimAttemptResult :=
  let '(address, nonce) := claim in
  Call (PrepareClaim address nonce : Op) (fun prepared : result PreparedAction =>
    match prepared with
    | Err err => Ret (ClaimPrepareFailed err)
    | Ok prepared =>
        Call (Submit prepared : Op) (fun answer : SubmitResult * option error =>
          Ret (ClaimSubmitted (fst answer) (snd answer)))
    end).

(** One nonce per claim, drawn before the goroutines start. *)
(* go: internal/funding/orchestrator.go 645-648 claimBuilderRewards *)
Fixpoint draw_nonces (addresses : list string) : F (list (string * Z)) :=
  match addresses with
  | [] => mret []
  | a :: rest =>
      nonce ← op NextNonce;
      l ← draw_nonces rest;
      mret ((a, nonce) :: l)
  end.

(* go: internal/funding/orchestrator.go 673-684 claimBuilderRewards *)
Definition claim_target (token : Token) (claimable : option decimal) (baseline : SpotBalanceAmounts) : claimBalanceTarget :=
  let minimumIncrease := match claimable with
                         | Some c => dec_trunc c (tok_WeiDecimals token)
                         | None => dec_of_int claimRewardThresholdUSDC
                         end in
  mkClaimTarget _ (bal_Total baseline) (bal_Available baseline) (default dec_zero claimable)
    (match claimable with Some _ => true | None => false end) minimumIncrease false false.

(** The outcome of one claim: the target to observe, when there is one. *)
(* go: internal/funding/orchestrator.go 671-732 claimBuilderRewards *)
Definition settle_claim (runID : string) (token : Token) (claimables : gmap string decimal)
    (baselines : gmap string SpotBalanceAmounts) (address : string) (res : claimAttemptResult)
    : F (option claimBalanceTarget) :=
  let claimable := claimables !! address in
  let known := match claimable with Some _ => true | None => false end in
  let target := claim_target token claimable (default (mkBalance _ dec_zero dec_zero) (baselines !! address)) in
  set_report (update_builder address (fun b => b <| br_ClaimAttempts := 1 |>)) ;;
  match res with
  | ClaimPrepareFailed _ => builderFailure runID address "claimRewards" "prepare" ;; mret None
  | ClaimSubmitted outcome err =>
      set_report (markSubmitted address) ;;
      let answered := match err with None => true | Some _ => false end in
      if answered && sr_Accepted outcome then
        set_report (update_builder address (fun b =>
          b <| br_ClaimStatus := ReportStepSuccess |>
            <| br_ClaimSummary := if known then "Reward 已领取" else "Reward 已领取" +:+ "；零点 Claimable 数据缺失" |>)) ;;
        mret (Some target)
      else if answered && sr_Rejected outcome && negb known && claimBelowThreshold outcome then
        set_report (update_builder address (fun b =>
          b <| br_ClaimStatus := ReportStepSkipped |>
            <| br_ClaimSummary := "未达到 1 USDC 领取门槛（由交易所确认）" |>)) ;;
        mret None
      else if answered && sr_Rejected outcome then
        builderFailure runID address "claimRewards" "rejected" ;; mret None
      else
        set_report (update_builder address (fun b =>
          b <| br_ClaimUncertain := true |> <| br_ClaimSummary := "Reward 提交结果不确定，等待余额变化确认" |>)) ;;
        mret (Some (target <| cbt_submitUnknown := true |>))
  end.

(* go: internal/funding/orchestrator.go 671-732 claimBuilderRewards *)
Fixpoint settle_claims (runID : string) (token : Token) (claimables : gmap string decimal)
    (baselines : gmap string SpotBalanceAmounts) (round : list (string * claimAttemptResult))
    : F (list (string * claimBalanceTarget)) :=
  match round with
  | [] => mret []
  | (address, res) :: rest =>
      target ← settle_claim runID token claimables baselines address res;
      targets ← settle_claims runID token claimables baselines rest;
      mret (match target with Some t => (address, t) :: targets | None => targets end)
  end.

(** The claims to observe, in the order of the builders. *)
(* go: internal/funding/orchestrator.go 610-735 claimBuilderRewards *)
Definition claimBuilderRewards (runID : string) (token : Token) (claimables : gmap string decimal)
    (baselines : gmap string SpotBalanceAmounts) : F (result (list (string * claimBalanceTarget))) :=
  each (List.filter (fun b => negb (claimEligible (claimables !! b))) (cfg_builders cfg)) (fun address =>
    set_report (update_builder address (fun b =>
      b <| br_ClaimStatus := ReportStepSkipped |> <| br_ClaimSummary := "低于 1 USDC 阈值" |>))) ;;
  let claiming := List.filter (fun b => claimEligible (claimables !! b) &&
                    match baselines !! b with Some _ => true | None => false end) (cfg_builders cfg) in
  claims ← draw_nonces claiming;
  results ← spawn (map claim_attempt claims);
  ctxErr ← op CtxErr;
  match ctxErr with
  | Some err => mret (Err err)
  | None =>
      targets ← settle_claims runID token claimables baselines (zip claiming results);
      set_report (fun r => setStage "rewards" (aggregateBuilderStep (rep_Builders r) true)
                             (builderStepSummary (rep_Builders r) true) r) ;;
      mret (Ok targets)
  end.
End Consolidation.
