(* ===== verification/Sweep.v ===== *)
(** * Observing claims, sweeping, and the consolidation task

    The second half of the consolidation: waiting until the claimed rewards
    show in the balances, transferring the available balances to the
    settlement account, and the two tasks built from these parts (the
    consolidate-only command and the daily UTC 00:00 task). *)

From S2P Require Import Prelude DecimalSpec Prog Model Clock Report ActionValidation Effects Run ReportObservation Daily Consolidation.

Section Sweep.
Context `{DecimalOps}.
Variable cfg : Config.

(** ** Waiting for the claims to show *)

(** A claim that has not converged: its target and its streak. *)
Record claim_wait : Type := mkClaimWait {
  cw_builder : string;
  cw_target : claimBalanceTarget;
  cw_streak : streak
}.

(** One observation of one claim: an error of the context, or the claim when
    it is still pending and the balance when one was read. *)
(* go: internal/funding/orchestrator.go 1042-1120 observeClaimBalances *)
Definition observe_claim (token : Token) (w : claim_wait)
    : F (result (option claim_wait * option SpotBalanceAmounts)) :=
  let address := cw_builder w in
  ctxErr ← op CtxErr;
  match ctxErr with
  | Some err => mret (Err err)
  | None =>
      answer ← op (SpotBalance address token);
      match answer with
      | Err _ => mret (Ok (Some (mkClaimWait address (cw_target w) (break_streak (cw_streak w))), None))
      | Ok balance =>
          let target := cw_target w in
          let target :=
            if cbt_submitUnknown target && dec_equal (bal_Total balance) (cbt_totalBefore target) &&
               dec_equal (bal_Available balance) (cbt_availableBefore target)
            then target <| cbt_preStateSeenAfterSubmit := true |> else target in
          set_report (recordBuilderBalance address balance) ;;
          let vis := visible target (bal_Total balance) in
          transitioned ←
            (if vis && cbt_submitUnknown target && cbt_claimableKnown target then
               claimableAfter ← op (ClaimableUSDC address token);
               mret (match claimableAfter with
                     | Ok after => Ok (dec_less after (cbt_claimableBefore target))
                     | Err e => Err e
                     end)
             else mret (Ok (negb (cbt_submitUnknown target) || negb (cbt_claimableKnown target)))
             : F (result bool));
          match transitioned with
          | Err _ => mret (Ok (Some (mkClaimWait address target (break_streak (cw_streak w))), Some balance))
          | Ok transitioned =>
              let vis := vis && transitioned in
              let vis := if cbt_submitUnknown target
                         then vis && cbt_preStateSeenAfterSubmit target && cbt_claimableKnown target
                         else vis in
              let s := if vis then extend_streak (cw_streak w) balance else break_streak (cw_streak w) in
              if claimBalanceRequiredConfirmations <=? st_consecutive s then
                (if cbt_submitUnknown target then set_report (resolveUncertainClaim address) else mret tt) ;;
                mret (Ok (None, Some balance))
              else mret (Ok (Some (mkClaimWait address target s), Some balance))
          end
      end
  end.

Definition store_balance (address : string) (balance : option SpotBalanceAmounts)
    (m : gmap string SpotBalanceAmounts) : gmap string SpotBalanceAmounts :=
  match balance with Some b => <[address := b]> m | None => m end.

(** One round over the pending claims. *)
(* go: internal/funding/orchestrator.go 1042-1121 observeClaimBalances *)
Fixpoint observe_round (token : Token) (pending : list claim_wait) (balances : gmap string SpotBalanceAmounts)
    : F (result (list claim_wait * gmap string SpotBalanceAmounts)) :=
  match pending with
  | [] => mret (Ok ([], balances))
  | w :: rest =>
      seen ← observe_claim token w;
      match seen with
      | Err err => mret (Err err)
      | Ok (still, balance) =>
          others ← observe_round token rest (store_balance (cw_builder w) balance balances);
          match others with
          | Err err => mret (Err err)
          | Ok (rest, balances) =>
              mret (Ok (match still with Some w => w :: rest | None => rest end, balances))
          end
      end
  end.

(* go: internal/funding/orchestrator.go 1041-1130 observeClaimBalances *)
Fixpoint observe_rounds (attempts : nat) (token : Token) (pending : list claim_wait)
    (balances : gmap string SpotBalanceAmounts)
    : F (result (list claim_wait * gmap string SpotBalanceAmounts)) :=
  match attempts with
  | O => mret (Ok (pending, balances))
  | S attempts =>
      round ← observe_round token pending balances;
      match round with
      | Err err => mret (Err err)
      | Ok ([], balances) => mret (Ok ([], balances))
      | Ok (pending, balances) =>
          slept ← (match attempts with
                   | O => mret None
                   | S _ => op (Sleep claimBalanceObservationInterval)
                   end : F (option error));
          match slept with
          | Some err => mret (Err err)
          | None => observe_rounds attempts token pending balances
          end
      end
  end.

(* go: internal/funding/orchestrator.go 1176-1223 claimBalanceObservationExhausted *)
Definition claimBalanceObservationExhausted (runID : string) (w : claim_wait) : F unit :=
  let address := cw_builder w in
  let summary := "Reward 余额未在 " +:+ itoa 10 +:+ " 次查询内确认刷新" in
  let accepted := "Reward 请求已接受，但余额未确认刷新" in
  set_report (fun r =>
    let r := warn_builder address summary
      (update_builder address (fun b =>
         b <| br_SweepStatus := ReportStepWarning |> <| br_SweepSummary := summary |>) r) in
    if cbt_submitUnknown (cw_target w) then r
    else warn_builder address accepted
      (update_builder address (fun b =>
         b <| br_ClaimStatus := ReportStepWarning |> <| br_ClaimSummary := accepted |>) r)) ;;
  (if cbt_submitUnknown (cw_target w) then markClaimUncertain cfg runID address else mret tt) ;;
  alertOnce cfg runID ("builder_claim_balance_not_visible:" +:+ toLower address) AlertSeverityWarning
    ("builder claim balance did not become visible" +:+ bytes_of [10] +:+ "builder: " +:+ address +:+
     bytes_of [10] +:+ "minimum increase: " +:+ dec_string (cbt_minimumIncrease (cw_target w)) +:+
     bytes_of [10] +:+ "attempts: " +:+ itoa 10).

(** The last balances read and the builders whose claim did not converge. *)
(* go: internal/funding/orchestrator.go 1016-1142 observeClaimBalances *)
Definition observeClaimBalances (runID : string) (token : Token) (targets : list (string * claimBalanceTarget))
    : F (result (gmap string SpotBalanceAmounts * list string)) :=
  match targets with
  | [] => mret (Ok (∅, []))
  | _ =>
      slept ← op (Sleep claimBalanceObservationInterval);
      match slept with
      | Some err => mret (Err err)
      | None =>
          observed ← observe_rounds claimBalanceObservationAttempts token
                       (map (fun '(b, t) => mkClaimWait b t no_streak) targets) ∅;
          match observed with
          | Err err => mret (Err err)
          | Ok (pending, balances) =>
              each pending (claimBalanceObservationExhausted runID) ;;
              mret (Ok (balances, map cw_builder pending))
          end
      end
  end.

(** ** The balance to sweep *)

(** [floor] is the total a confirmed claim guarantees, when it is known. *)
(* go: internal/funding/orchestrator.go 917-972 loadSweepBalance *)
Fixpoint sweep_balance_loop (attempts : nat) (address : string) (token : Token) (floor : option decimal)
    (s : streak) (lastErr : option error) : F (result SpotBalanceAmounts) :=
  match attempts with
  | O => mret (Err (default (Errorf "builder sweep balance did not stabilize" []) lastErr))
  | S attempts =>
      let continue s lastErr :=
        (match attempts with
         | O => mret None
         | S _ => op (Sleep sweepBalanceQueryInterval)
         end) ≫= fun slept =>
        match slept with
        | Some err => mret (Err err)
        | None => sweep_balance_loop attempts address token floor s lastErr
        end in
      answer ← op (SpotBalance address token);
      match answer with
      | Err err => continue (break_streak s) (Some err)
      | Ok balance =>
          if match floor with Some f => dec_less (bal_Total balance) f | None => false end
          then continue (break_streak s) None
          else
            set_report (recordBuilderBalance address balance) ;;
            let s := extend_streak s balance in
            if sweepBalanceRequiredConfirmations <=? st_consecutive s
            then mret (Ok balance)
            else continue s None
      end
  end.

(* go: internal/funding/orchestrator.go 908-973 loadSweepBalance *)
Definition loadSweepBalance (address : string) (token : Token) (floor : option decimal)
    : F (result SpotBalanceAmounts) :=
  sweep_balance_loop sweepBalanceQueryAttempts address token floor no_streak None.

(** ** Sweeping *)

(* go: internal/funding/orchestrator.go 975-993 markSweepSucceeded *)
Definition markSweepSucceeded (address amount : string) (unconverged : list string) (summary : string)
    (r : RunReport) : RunReport :=
  update_builder address (fun b =>
    let b := addSweepAmount amount b in
    if bool_decide (address ∈ unconverged)
    then b <| br_SweepStatus := ReportStepWarning |>
           <| br_SweepSummary := "已按最新可用余额归集，Reward 余额未确认刷新" |>
    else b <| br_SweepStatus := ReportStepSuccess |> <| br_SweepSummary := summary |>) r.

(* go: internal/funding/orchestrator.go 995-1014 markSweepRetryAccepted *)
Definition markSweepRetryAccepted (address amount : string) (attempt : Z) (unconverged : list string)
    (r : RunReport) : RunReport :=
  let summary := "第 " +:+ itoa attempt +:+ " 次归集已接受；此前响应未知，累计归集金额无法确认" in
  let summary := if bool_decide (address ∈ unconverged) then summary +:+ "；Reward 余额未确认刷新" else summary in
  warn_builder address summary
    (update_builder address (fun b =>
       addSweepAmount amount b <| br_SweepStatus := ReportStepWarning |> <| br_SweepSummary := summary |>) r).

Definition nothing_to_sweep (address : string) (unconverged : list string) (r : RunReport) : RunReport :=
  if bool_decide (address ∈ unconverged) then
    let summary := "Reward 余额未确认刷新，当前无可归集余额" in
    warn_builder address summary
      (update_builder address (fun b =>
         b <| br_SweepStatus := ReportStepWarning |> <| br_SweepSummary := summary |>) r)
  else update_builder address (fun b =>
         b <| br_SweepStatus := ReportStepSkipped |> <| br_SweepSummary := "无可归集余额" |>) r.

(** The amount of an attempt: the available balance, but after an ambiguous
    request never less than that request. *)
(* go: internal/funding/orchestrator.go 801-807 sweepBuilderBalances *)
Definition sweep_amount (available : decimal) (ambiguous : option decimal) : decimal :=
  match ambiguous with
  | Some retryAmount => if dec_less available retryAmount then retryAmount else available
  | None => available
  end.

(** The attempts to sweep one builder.  [attempts] is the number left;
    [ambiguous] is the amount of the last request without a definite answer
    ([hadUnknown] and [retryAmount] in Go).  The result is an error of the
    context or of a wait. *)
(* go: internal/funding/orchestrator.go 773-881 sweepBuilderBalances *)
Fixpoint sweep_attempts (attempts : nat) (attempt : Z) (runID settlement : string) (token : Token)
    (address : string) (floor : option decimal) (unconverged : list string) (ambiguous : option decimal)
    : F (option error) :=
  match attempts with
  | O => mret None
  | S attempts =>
      let hadUnknown := match ambiguous with Some _ => true | None => false end in
      slept ← (if 1 <? attempt then op (Sleep sweepSubmitRetryInterval) else mret None : F (option error));
      match slept with
      | Some err => mret (Some err)
      | None =>
          loaded ← loadSweepBalance address token (if hadUnknown then None else floor);
          match loaded with
          | Err _ =>
              ctxErr ← op CtxErr;
              match ctxErr with
              | Some err => mret (Some err)
              | None =>
                  (if hadUnknown then builderFailure cfg runID address "spotSend" "unknown"
                   else builderFailure cfg runID address "spotBalance" "query") ;;
                  mret None
              end
          | Ok balance =>
              let amount := sweep_amount (bal_Available balance) ambiguous in
              if negb (dec_pos amount) then
                set_report (nothing_to_sweep address unconverged) ;; mret None
              else
                nonce ← op NextNonce;
                prepared ← op (PrepareSpotSend address settlement token amount nonce);
                match prepared with
                | Err _ =>
                    match hadUnknown, attempts with
                    | true, S _ =>
                        sweep_attempts attempts (attempt + 1) runID settlement token address floor unconverged ambiguous
                    | _, _ =>
                        builderFailure cfg runID address "spotSend" (if hadUnknown then "unknown" else "prepare") ;;
                        mret None
                    end
                | Ok prepared =>
                    answer ← op (Submit prepared);
                    set_report (markSubmitted address) ;;
                    set_report (update_builder address (fun b =>
                      b <| br_FinalTotal := "" |> <| br_FinalAvailable := "" |>)) ;;
                    let outcome := fst answer in
                    let answered := match snd answer with None => true | Some _ => false end in
                    if answered && sr_Accepted outcome then
                      set_report (if hadUnknown
                        then markSweepRetryAccepted address (dec_string amount) attempt unconverged
                        else markSweepSucceeded address (dec_string amount) unconverged "资金已归集") ;;
                      mret None
                    else if answered && sr_Rejected outcome && negb hadUnknown then
                      builderFailure cfg runID address "spotSend" "rejected" ;; mret None
                    else
                      let ambiguous := if negb answered || negb (sr_Rejected outcome) then Some amount else ambiguous in
                      match attempts with
                      | O => builderFailure cfg runID address "spotSend" "unknown" ;; mret None
                      | S _ => sweep_attempts attempts (attempt + 1) runID settlement token address floor unconverged ambiguous
                      end
                end
          end
      end
  end.

(* go: internal/funding/orchestrator.go 765-882 sweepBuilderBalances *)
Definition sweep_builder (runID settlement : string) (token : Token)
    (claimEnding : gmap string SpotBalanceAmounts) (unconverged : list string) (address : string)
    : F (option error) :=
  ctxErr ← op CtxErr;
  match ctxErr with
  | Some err => mret (Some err)
  | None =>
      let floor := if bool_decide (address ∈ unconverged) then None else bal_Total <$> claimEnding !! address in
      sweep_attempts sweepSubmitAttempts 1 runID settlement token address floor unconverged None
  end.

(* go: internal/funding/orchestrator.go 754-884 sweepBuilderBalances *)
Definition sweepBuilderBalances (runID settlement : string) (token : Token)
    (claimEnding : gmap string SpotBalanceAmounts) (unconverged : list string) : F (option error) :=
  ctxErr ← op CtxErr;
  match ctxErr with
  | Some err => mret (Some err)
  | None => range (cfg_builders cfg) (sweep_builder runID settlement token claimEnding unconverged)
  end.

(** ** The consolidation task *)

(* go: internal/funding/consolidation.go 97-107 runConsolidation *)
Definition consolidation_report (now : Z) (trigger : Trigger) (state : RunState) : RunReport :=
  let r := newRunReport now trigger (mkExecution 0 0 false) (cfg_network cfg) (cfg_builders cfg)
             (cfg_builderNames cfg) (cfg_settlement cfg) "" in
  let r := syncState state (r <| rep_Outcome := "completed" |>) in
  let r := setStage "snapshot" ReportStepSkipped "仅执行内部资金归集" r in
  let r := setStage "finalize" ReportStepSkipped "仅归集，不持久化 Payout 状态" r in
  let r := setTargetStage PayoutKindReferral "payout" ReportStepSkipped "仅归集，不执行 Payout" r in
  let r := setTargetStage PayoutKindReferral "database" ReportStepSkipped "不读取或更新 funding records" r in
  update_target_report PayoutKindReferral (fun t =>
    t <| ptr_Payout ::= (fun p => p <| pr_Status := ReportStepSkipped |>) |>
      <| ptr_DatabaseStatus := ReportStepSkipped |>) r.

Definition set_builder_stage (key : string) (claim : bool) (r : RunReport) : RunReport :=
  setStage key (aggregateBuilderStep (rep_Builders r) claim) (builderStepSummary (rep_Builders r) claim) r.

(** The steps of the task after the token is known. *)
(* go: internal/funding/consolidation.go 127-158 runConsolidation *)
Definition consolidate (runID : string) (token : Token) (onClaimablesCaptured : F (option error)) : F (option error) :=
  set_report (fun r => r <| rep_token := Some token |>) ;;
  claimables ← captureBuilderClaimables cfg runID token;
  match claimables with
  | Err err => mret (Some err)
  | Ok claimables =>
      now ← op Now;
      set_report (fun r => r <| rep_ClaimablesCapturedAt := now |>) ;;
      on_error onClaimablesCaptured fail_with (
      baselines ← captureClaimBalanceBaselines cfg runID token claimables;
      match baselines with
      | Err err => mret (Some err)
      | Ok baselines =>
          targets ← claimBuilderRewards cfg runID token claimables baselines;
          match targets with
          | Err err => mret (Some err)
          | Ok targets =>
              observed ← observeClaimBalances runID token targets;
              match observed with
              | Err err => mret (Some err)
              | Ok (claimEnding, unconverged) =>
                  set_report (set_builder_stage "rewards" true) ;;
                  on_error (sweepBuilderBalances runID (cfg_settlement cfg) token claimEnding unconverged) fail_with (
                  set_report (set_builder_stage "sweep" false) ;;
                  mret None)
              end
          end
      end)
  end.

(** The report is left in memory; the deferred observation of the rate limits
    and the release of the alerts run on every path after the state exists. *)
(* go: internal/funding/consolidation.go 83-166 runConsolidation *)
Definition runConsolidation (trigger : Trigger) (onClaimablesCaptured : F (option error)) : F (option error) :=
  created ← newState trigger;
  match created with
  | Err err => mret (Some err)
  | Ok state =>
      let state := state <| run_Manifest ::= (fun m => m <| man_Settlement := cfg_settlement cfg |>) |> in
      now ← op Now;
      set_report (fun _ => consolidation_report now trigger state) ;;
      answer ← queryConsolidationToken;
      err ← (match answer with
             | Err err =>
                 set_report (fail_report "snapshot" "Canonical USDC metadata 查询失败。" "") ;; mret (Some err)
             | Ok token => consolidate (run_RunID state) token onClaimablesCaptured
             end);
      (if canceled err then mret tt else observeUserRateLimits cfg) ;;
      forgetAlerts (run_RunID state) ;;
      mret err
  end.

(* go: internal/funding/consolidation.go 72-81 Run *)
Definition Consolidator_Run : F (option error) := runConsolidation TriggerConsolidateOnly success.

(* go: internal/funding/daily_consolidation.go 173-185 RunDailyConsolidation *)
Definition save_captured (utcDate : string) : F (option error) :=
  report ← the_report;
  on_error (op (SaveDailyConsolidation
              (dailyConsolidationFromReport utcDate DailyConsolidationClaimablesCaptured zero_time report)))
    (fun err => fail_with (Wrapf "save captured daily claimables: %w" [] err)) success.

(** The task on a date without a record. *)
(* go: internal/funding/daily_consolidation.go 173-202 RunDailyConsolidation *)
Definition consolidate_day (utcDate : string) : F (option error) :=
  on_error (runConsolidation TriggerUTCConsolidation (save_captured utcDate)) fail_with (
  completedAt ← op Now;
  report ← the_report;
  on_error (op (SaveDailyConsolidation
              (dailyConsolidationFromReport utcDate DailyConsolidationCompleted completedAt report)))
    (fun err => fail_with (Wrapf "save completed daily consolidation: %w" [] err)) success).

(* go: internal/funding/daily_consolidation.go 147-203 RunDailyConsolidation *)
Definition RunDailyConsolidation : F (option error) :=
  on_error (op CtxErr) fail_with (
  now ← op Now;
  let utcDate := FormatDateOnly now in
  existing ← op (LoadDailyConsolidation utcDate);
  match existing with
  | Err err => fail_with (Wrapf "check existing daily consolidation: %w" [] err)
  | Ok (Some _) => success
  | Ok None => consolidate_day utcDate
  end).
End Sweep.
