(* ===== verification/Isolation.v ===== *)
(** * What the consolidation may do

    The consolidation tasks share the orchestrator with the payout tasks but
    not its state: they must not touch the payout snapshots or the database,
    must move money from a configured builder to the settlement account only,
    and must submit only requests they prepared themselves.  [consolidating]
    states which operation may follow which history; the computations of
    [Consolidation.v] and [Sweep.v] are shown to follow it, one lemma per
    function, and the theorems read it off the executions against an
    arbitrary environment. *)

From S2P Require Import Prelude DecimalSpec Prog Model Clock Report ActionValidation Effects ReportObservation Daily Consolidation Sweep.

Section Isolation.
Context `{DecimalOps}.
Variable cfg : Config.

(** A balance the exchange reported for an account in this run. *)
Definition reported (h : list (event FundingSig)) (address : string) (token : Token) (available : decimal) : Prop :=
  exists balance : SpotBalanceAmounts,
    Ev (SpotBalance address token : Op) (Ok balance : result SpotBalanceAmounts) ∈ h /\
    available = bal_Available balance.

(** A request that was prepared in this run. *)
Definition prepared_in (h : list (event FundingSig)) (a : PreparedAction) : Prop :=
  (exists b n, b ∈ cfg_builders cfg /\ Ev (PrepareClaim b n : Op) (Ok a : result PreparedAction) ∈ h) \/
  (exists b token amount n, b ∈ cfg_builders cfg /\ dec_pos amount = true /\
     Ev (PrepareSpotSend b (cfg_settlement cfg) token amount n : Op) (Ok a : result PreparedAction) ∈ h).

(** [started h]: actions may begin; [daily h o]: the operations on the daily
    record.  The consolidate-only command and the daily task differ in
    these. *)
Variable started : list (event FundingSig) -> Prop.
Variable daily : list (event FundingSig) -> FundingOp -> Prop.
Hypothesis started_mono : forall h h', h ⊆ h' -> started h -> started h'.
Hypothesis daily_mono : forall h h' o, h ⊆ h' -> daily h o -> daily h' o.

Definition consolidating (h : list (event FundingSig)) (o : FundingOp) : Prop :=
  match o with
  | ListPending | Complete _ | LoadWithMetadata | Save _ | Archive _ _ | Clear | Report _
  | Panic | StackOverflow => False
  | LoadDailyConsolidation _ | SaveDailyConsolidation _ => daily h o
  | PrepareClaim b _ => b ∈ cfg_builders cfg /\ started h
  | PrepareSpotSend b destination token amount _ =>
      b ∈ cfg_builders cfg /\ destination = cfg_settlement cfg /\ dec_pos amount = true /\
      reported h b token amount /\ started h
  | Submit a => prepared_in h a /\ started h
  | _ => True
  end.

Lemma reported_mono h h' b token amount : h ⊆ h' -> reported h b token amount -> reported h' b token amount.
Proof. intros Hh (balance & Hin & ->). exists balance. eauto. Qed.

Lemma prepared_in_mono h h' a : h ⊆ h' -> prepared_in h a -> prepared_in h' a.
Proof.
  intros Hh [(b & n & Hb & Hin)|(b & token & amount & n & Hb & Hp & Hin)].
  - left. exists b, n. eauto.
  - right. exists b, token, amount, n. eauto.
Qed.

Lemma consolidating_mono h h' o : h ⊆ h' -> consolidating h o -> consolidating h' o.
Proof.
  intros Hh. destruct o; simpl; eauto using daily_mono; intros; destruct_and?;
    split_and?; eauto using reported_mono, prepared_in_mono.
Qed.

(** The operations that every history permits. *)
Definition observing (o : FundingOp) : Prop :=
  match o with
  | CanonicalUSDC | ClaimableUSDC _ _ | SpotBalance _ _ | QueryUserRateLimit _ | Now | NextNonce | Sleep _
  | RandRead _ | CtxErr | Alert _ _ _ | Schedule => True
  | _ => False
  end.

Lemma observing_consolidating h o : observing o -> consolidating h o.
Proof. by destruct o. Qed.

Notation follows := (follows consolidating).

Lemma follows_observing {A : Type} h (m : F A) : opsM observing m -> follows h m.
Proof. apply follows_ops, observing_consolidating. Qed.

(** *** The parts that only observe *)

Lemma observing_alertOnce runID key sev msg : opsM observing (alertOnce cfg runID key sev msg).
Proof. unfold alertOnce, alert. solve_ops. Qed.
#[local] Hint Resolve observing_alertOnce : ops.

Lemma observing_builderFailure runID b action outcome : opsM observing (builderFailure cfg runID b action outcome).
Proof. unfold builderFailure. solve_ops. Qed.
#[local] Hint Resolve observing_builderFailure : ops.

Lemma observing_markClaimUncertain runID b : opsM observing (markClaimUncertain cfg runID b).
Proof. unfold markClaimUncertain. solve_ops. Qed.
#[local] Hint Resolve observing_markClaimUncertain : ops.

Lemma observing_newState trigger : opsM observing (newState trigger).
Proof. unfold newState, NewRunID. solve_ops. Qed.

Lemma observing_token_loop n e : opsM observing (token_loop n e).
Proof. revert e. induction n as [|n IH]; intros e; simpl; solve_ops; apply IH. Qed.

Lemma observing_claimables_loop n attempt token pending claimables :
  opsM observing (claimables_loop n attempt token pending claimables).
Proof.
  revert attempt pending claimables. induction n as [|n IH]; intros attempt pending claimables; simpl; [solve_ops|].
  apply opsM_bind; [by apply opsM_spawn_map|intros results]. solve_ops; apply IH.
Qed.
#[local] Hint Resolve observing_claimables_loop observing_token_loop observing_newState : ops.

Lemma observing_captureBuilderClaimables runID token : opsM observing (captureBuilderClaimables cfg runID token).
Proof. unfold captureBuilderClaimables. solve_ops. Qed.

Lemma observing_baselines_loop n token pending baselines :
  opsM observing (baselines_loop n token pending baselines).
Proof.
  revert pending baselines. induction n as [|n IH]; intros pending baselines; simpl; [solve_ops|].
  destruct pending as [|w pending]; [solve_ops|]. apply opsM_bind; [by apply opsM_spawn_map|intros results].
  solve_ops; apply IH.
Qed.
#[local] Hint Resolve observing_baselines_loop : ops.

Lemma observing_captureClaimBalanceBaselines runID token claimables :
  opsM observing (captureClaimBalanceBaselines cfg runID token claimables).
Proof. unfold captureClaimBalanceBaselines, baseline_failed. solve_ops. Qed.

Lemma observing_draw_nonces l : opsM_post observing (draw_nonces l) (fun claims => map fst claims = l).
Proof.
  induction l as [|a l IH]; simpl; [by intros s|].
  eapply opsM_post_bind; [by apply opsM_post_true, opsM_op|].
  intros nonce _. eapply opsM_post_bind; [exact IH|]. intros claims Hc. apply opsM_post_ret. simpl. by rewrite Hc.
Qed.

Lemma observing_settle_claims runID token claimables baselines round :
  opsM observing (settle_claims cfg runID token claimables baselines round).
Proof.
  induction round as [|[a res] round IH]; simpl; [solve_ops|].
  apply opsM_bind; [unfold settle_claim; solve_ops|]. intros target. solve_ops.
Qed.
#[local] Hint Resolve observing_settle_claims : ops.

Lemma observing_observe_claim token w : opsM observing (observe_claim token w).
Proof. unfold observe_claim. solve_ops. Qed.
#[local] Hint Resolve observing_observe_claim : ops.

Lemma observing_observe_round token pending balances : opsM observing (observe_round token pending balances).
Proof. revert balances. induction pending as [|w pending IH]; intros balances; simpl; solve_ops; apply IH. Qed.
#[local] Hint Resolve observing_observe_round : ops.

Lemma observing_observe_rounds n token pending balances : opsM observing (observe_rounds n token pending balances).
Proof. revert pending balances. induction n as [|n IH]; intros pending balances; simpl; solve_ops; apply IH. Qed.
#[local] Hint Resolve observing_observe_rounds : ops.

Lemma observing_observeClaimBalances runID token targets :
  opsM observing (observeClaimBalances cfg runID token targets).
Proof. unfold observeClaimBalances, claimBalanceObservationExhausted. solve_ops. Qed.

Lemma observing_sweep_balance_loop n address token floor st err :
  opsM observing (sweep_balance_loop n address token floor st err).
Proof. revert st err. induction n as [|n IH]; intros st err; simpl; solve_ops. Qed.

Lemma observing_visibility_loop n address o : opsM observing (visibility_loop n address o).
Proof. revert o. induction n as [|n IH]; intros o; simpl; solve_ops; apply IH. Qed.
#[local] Hint Resolve observing_visibility_loop : ops.

Lemma observing_observeUserRateLimits : opsM observing (observeUserRateLimits cfg).
Proof.
  unfold observeUserRateLimits, observe_account, observeUserRateLimit, updateRateLimitAlert, alert. solve_ops.
Qed.

(** *** Claims *)

Lemma follows_claim_attempt h claim :
  fst claim ∈ cfg_builders cfg -> started h ->
  wp (history consolidating) h (claim_attempt claim) (fun _ _ => True).
Proof.
  destruct claim as [b n]. simpl. intros Hb Hs. split; [done|]. intros [a|e] h' ->; [|done].
  simpl. split; [|done]. split; [|eapply started_mono; [|done]; set_solver].
  left. exists b, n. split; [done|left].
Qed.

Lemma follows_claimBuilderRewards h runID token claimables baselines :
  started h -> follows h (claimBuilderRewards cfg runID token claimables baselines).
Proof.
  intros Hs. unfold claimBuilderRewards.
  apply follows_bind; [exact consolidating_mono|apply follows_observing; solve_ops|intros _].
  set (claiming := List.filter _ _).
  assert (Hc : forall b, b ∈ claiming -> b ∈ cfg_builders cfg).
  { intros b. unfold claiming. rewrite !list_elem_of_In, filter_In. tauto. }
  clearbody claiming. intros s. apply wpM_bind.
  pose proof (observing_draw_nonces claiming s) as Hd. revert Hd. unfold wpM.
  generalize (draw_nonces claiming s). intros m. revert h Hs.
  induction m as [[claims s']|o k IH]; intros h Hs; simpl.
  - intros <-. revert s'. apply follows_bind; [exact consolidating_mono| |].
    + apply follows_spawn; [exact consolidating_mono|done|]. intros claim Hin. apply follows_claim_attempt; [|done].
      apply Hc. by apply list_elem_of_fmap_2.
    + intros results. apply follows_observing. pose proof observing_settle_claims. solve_ops.
  - intros [Ho Hk]. split; [by apply observing_consolidating|]. intros r h' ->.
    apply IH; [eapply started_mono; [|exact Hs]; set_solver|]. by apply (Hk r tt).
Qed.

(** *** Sweeps *)

(** The balance a sweep uses was reported in this run. *)
Lemma history_sweep_balance_loop n h address token floor st err :
  historyM consolidating h (sweep_balance_loop n address token floor st err)
    (fun res h' => match res with Ok b => reported h' address token (bal_Available b) | Err _ => True end).
Proof.
  revert h st err. induction n as [|n IH]; intros h st err; simpl; [by intros s|].
  assert (Hnext : forall h st err, historyM consolidating h
    ((match n with O => mret None | S _ => op (Sleep sweepBalanceQueryInterval) end : F (option error)) ≫= fun slept =>
       match slept with
       | Some err => mret (Err err)
       | None => sweep_balance_loop n address token floor st err
       end)
    (fun res h' => match res with Ok b => reported h' address token (bal_Available b) | Err _ => True end)).
  { intros h1 st1 err1. eapply historyM_bind.
    - apply (follows_observing h1). destruct n; solve_ops.
    - intros [e|] h2 _ _; [by intros s|apply IH]. }
  apply (history_bind_op _ h (SpotBalance address token)); [done|].
  intros [balance|e]; [|apply Hnext].
  destruct (match floor with Some f => _ | None => _ end); [apply Hnext|].
  apply history_bind_report. destruct (_ <=? _); [|apply Hnext].
  apply historyM_ret. exists balance. split; [left|done].
Qed.

Lemma follows_sweep_attempts n h attempt runID token address floor unconverged ambiguous :
  address ∈ cfg_builders cfg -> started h ->
  (forall a, ambiguous = Some a -> reported h address token a) ->
  follows h (sweep_attempts cfg n attempt runID (cfg_settlement cfg) token address floor unconverged ambiguous).
Proof.
  intros Hb. revert h attempt ambiguous. induction n as [|n IH]; intros h attempt ambiguous Hs Ha; simpl; [by intros s|].
  eapply historyM_bind; [apply (follows_observing h); destruct (_ <? _); solve_ops|].
  intros [e|] h1 Hh1 _; [by intros s|].
  eapply historyM_bind; [apply history_sweep_balance_loop|].
  intros [balance|e] h2 Hh2 Hr; cbv beta in Hr; [|apply follows_observing; destruct ambiguous; solve_ops].
  assert (Hamount : reported h2 address token (sweep_amount (bal_Available balance) ambiguous)).
  { destruct ambiguous as [a|]; simpl; [|done]. destruct (dec_less _ _); [|done].
    eapply (reported_mono h); [set_solver|by apply Ha]. }
  destruct (dec_pos _) eqn:Hpos; simpl; [|apply follows_observing; solve_ops].
  eapply historyM_bind; [apply (follows_observing h2); solve_ops|intros nonce h3 Hh3 _].
  assert (Hs3 : started h3) by (eapply (started_mono h); [set_solver|done]).
  apply (history_bind_op _ h3 (PrepareSpotSend address _ token _ nonce)).
  { simpl. split_and!; try done. by eapply reported_mono. }
  intros [a|e].
  - apply (history_bind_op _ _ (Submit a)); [simpl; split|].
    + right. exists address, token, (sweep_amount (bal_Available balance) ambiguous), nonce. split_and!; [done|done|left].
    + eapply started_mono; [|exact Hs3]. set_solver.
    + intros answer. match goal with |- historyM _ ?h' _ _ => remember h' as h6 eqn:E6 end.
      assert (h3 ⊆ h6) by set_solver. clear E6.
      assert (Hretry : forall attempt amb, match amb with Some x => x = sweep_amount (bal_Available balance) ambiguous \/ ambiguous = Some x | None => True end ->
        follows h6 (sweep_attempts cfg n attempt runID (cfg_settlement cfg) token address floor unconverged amb)).
      { intros attempt' amb Hamb. apply IH; [by eapply started_mono|]. intros x ->. destruct Hamb as [->|Hx].
        - eapply reported_mono; [|exact Hamount]. set_solver.
        - eapply reported_mono; [|by apply Ha]. set_solver. }
      apply history_bind_report, history_bind_report. cbv zeta.
      repeat case_match; first [apply Hretry; simpl; by auto | apply follows_observing; by solve_ops].
  - match goal with |- historyM _ ?h' _ _ => remember h' as h5 eqn:E5 end.
    assert (h3 ⊆ h5) by set_solver. clear E5.
    assert (Hretry : forall attempt, follows h5 (sweep_attempts cfg n attempt runID (cfg_settlement cfg) token address floor unconverged ambiguous)).
    { intros attempt'. apply IH; [by eapply started_mono|]. intros x Hx.
      eapply reported_mono; [|by apply Ha]. set_solver. }
    repeat case_match; first [apply Hretry | apply follows_observing; by solve_ops].
Qed.

Lemma follows_sweepBuilderBalances h runID token claimEnding unconverged :
  started h -> follows h (sweepBuilderBalances cfg runID (cfg_settlement cfg) token claimEnding unconverged).
Proof.
  intros Hs. unfold sweepBuilderBalances.
  apply follows_bind; [exact consolidating_mono|apply follows_observing; solve_ops|].
  intros [e|]; [done|]. apply follows_range; [exact consolidating_mono|]. intros b Hb. unfold sweep_builder.
  apply follows_bind; [exact consolidating_mono|apply follows_observing; solve_ops|].
  intros [e|]; [done|]. by apply follows_sweep_attempts.
Qed.

(** *** The task *)

(** The callback runs after observations only, and starts the actions when it
    succeeds. *)
Definition starts (h : list (event FundingSig)) (onCaptured : F (option error)) : Prop :=
  forall h', h ⊆ h' -> historyM consolidating h' onCaptured (fun e h'' => e = None -> started h'').

Lemma follows_consolidate h runID token onCaptured :
  starts h onCaptured ->
  historyM consolidating h (consolidate cfg runID token onCaptured) (fun e h' => e = None -> started h').
Proof.
  intros Hcap. unfold consolidate. apply history_bind_report.
  eapply historyM_bind; [apply follows_observing, observing_captureBuilderClaimables|].
  intros [claimables|e] h1 Hh1 _; [|by intros s].
  eapply historyM_bind; [apply (follows_observing h1); solve_ops|]. intros now h2 Hh2 _.
  apply history_bind_report. eapply historyM_bind; [apply Hcap; by transitivity h1|].
  intros [e|] h3 Hh3 Hs; [by intros s|]. specialize (Hs eq_refl).
  eapply historyM_mono; [apply follows_grows|intros e h' Hh' _; exact (started_mono _ _ Hh' Hs)].
  apply follows_bind; [exact consolidating_mono|apply follows_observing, observing_captureClaimBalanceBaselines|].
  intros [baselines|e]; [|by intros s].
  apply follows_bind; [exact consolidating_mono|by apply follows_claimBuilderRewards|].
  intros [targets|e]; [|by intros s].
  apply follows_bind; [exact consolidating_mono|apply follows_observing, observing_observeClaimBalances|].
  intros [[claimEnding unconverged]|e]; [|by intros s]. apply history_bind_report.
  apply follows_bind; [exact consolidating_mono|by apply follows_sweepBuilderBalances|].
  intros [e|]; apply follows_observing; solve_ops.
Qed.

Lemma follows_runConsolidation h trigger onCaptured :
  starts h onCaptured ->
  historyM consolidating h (runConsolidation cfg trigger onCaptured) (fun e h' => e = None -> started h').
Proof.
  intros Hcap. unfold runConsolidation.
  eapply historyM_bind; [apply follows_observing, observing_newState|].
  intros [state|e] h1 Hh1 _; [|by intros s].
  eapply historyM_bind; [apply (follows_observing h1); solve_ops|]. intros now h2 Hh2 _.
  apply history_bind_report.
  eapply historyM_bind; [apply (follows_observing h2); unfold queryConsolidationToken; solve_ops|].
  intros answer h3 Hh3 _.
  apply (historyM_bind _ _ _ _ (fun e h' => e = None -> started h')).
  - destruct answer as [token|e]; [|apply history_bind_report; by intros s]. apply follows_consolidate.
    intros h' Hh'. apply Hcap. set_solver.
  - intros e h4 Hh4 He.
    eapply historyM_bind; [apply (follows_observing h4); pose proof observing_observeUserRateLimits; solve_ops|].
    intros _ h5 Hh5 _. intros s. simpl. intros ->. eapply started_mono; [exact Hh5|by apply He].
Qed.
End Isolation.

#[export] Hint Resolve observing_alertOnce observing_builderFailure observing_markClaimUncertain
  observing_newState observing_token_loop observing_captureBuilderClaimables
  observing_captureClaimBalanceBaselines observing_settle_claims observing_sweep_balance_loop
  observing_observeClaimBalances observing_observeUserRateLimits : ops.
