(* ===== verification/ConsolidationTheorems.v ===== *)
(** * The guarantees of the consolidation

    Read off the executions of the consolidate-only command and of the daily
    task, against every environment: which operations they perform after which
    history, how many claims, transfers and submissions there can be, and what
    an existing daily record prevents. *)

From S2P Require Import Prelude DecimalSpec Prog Model Clock Report ActionValidation Effects ReportObservation Daily Consolidation Sweep Isolation DecimalImpl PayoutWorld Sim.

(** ** Counting actions *)

Section Counting.
Context `{DecimalOps}.
Variable cfg : Config.

(** A kind of action to count, and its cost per account. *)
Variable counted : FundingOp -> bool.
Variables claim_cost sweep_cost : string -> nat.
Hypothesis observing_free : forall o, observing o -> counted o = false.
Hypothesis load_free : forall d, counted (LoadDailyConsolidation d) = false.
Hypothesis save_free : forall c, counted (SaveDailyConsolidation c) = false.
Hypothesis claim_bound : forall b n a,
  (Nat.b2n (counted (PrepareClaim b n)) + Nat.b2n (counted (Submit a)) <= claim_cost b)%nat.
Hypothesis sweep_bound : forall b d token amount n a,
  (Nat.b2n (counted (PrepareSpotSend b d token amount n)) + Nat.b2n (counted (Submit a)) <= sweep_cost b)%nat.

Lemma free_observing {A : Type} (m : F A) : opsM observing m -> opsM (fun o => counted o = false) m.
Proof. apply opsM_mono, observing_free. Qed.

Lemma count_op_bind {A : Type} n n' (o : FundingOp) (f : FundingResp o -> F A) :
  (Nat.b2n (counted o) + n' <= n)%nat -> (forall r, countM counted n' (f r)) -> countM counted n (op o ≫= f).
Proof.
  intros Hn Hf s. simpl. destruct (counted o); simpl in Hn.
  - destruct n as [|n]; [lia|]. intros r. eapply count_le_mono; [|apply Hf]. lia.
  - intros r. eapply count_le_mono; [|apply Hf]. lia.
Qed.

Lemma count_claim_attempt claim : count_le counted (claim_cost (fst claim)) (claim_attempt claim).
Proof.
  destruct claim as [b n]. simpl. pose proof (claim_bound b n) as Hb.
  destruct (counted (PrepareClaim b n)) eqn:E; simpl in Hb.
  - destruct (claim_cost b) as [|c]; [specialize (Hb (mkPrepared "" "" "" "" "" 0 "")); lia|].
    intros [a|e]; simpl; [|done]. specialize (Hb a). destruct (counted (Submit a)); [|done].
    destruct c; [simpl in Hb; lia|done].
  - intros [a|e]; simpl; [|done]. specialize (Hb a). destruct (counted (Submit a)); [|done].
    destruct (claim_cost b); [simpl in Hb; lia|done].
Qed.

Lemma sum_filter (f : string -> bool) (l : list string) :
  (list_sum (map claim_cost (List.filter f l)) <= list_sum (map claim_cost l))%nat.
Proof. induction l as [|x l IH]; simpl; [done|]. destruct (f x); simpl; lia. Qed.

Lemma count_claimBuilderRewards runID token claimables baselines :
  countM counted (list_sum (map claim_cost (cfg_builders cfg))) (claimBuilderRewards cfg runID token claimables baselines).
Proof.
  unfold claimBuilderRewards. apply countM_then; [apply free_observing; solve_ops|intros _].
  set (claiming := List.filter _ _). assert (Hsum : (list_sum (map claim_cost claiming) <= list_sum (map claim_cost (cfg_builders cfg)))%nat).
  { apply sum_filter. }
  eapply countM_mono; [exact Hsum|]. clearbody claiming.
  eapply countM_then_post; [eapply opsM_post_mono, observing_draw_nonces; apply observing_free|].
  intros claims Hclaims. cbv beta in Hclaims. rewrite <- (Nat.add_0_r (list_sum _)).
  apply countM_bind.
  - rewrite <- Hclaims, map_map. apply countM_spawn; [by apply observing_free|apply count_claim_attempt].
  - intros results. apply countM_ops, free_observing. solve_ops.
Qed.

Lemma count_sweep_attempts n attempt runID settlement token address floor unconverged ambiguous :
  countM counted (n * sweep_cost address)
    (sweep_attempts cfg n attempt runID settlement token address floor unconverged ambiguous).
Proof.
  revert attempt ambiguous. induction n as [|n IH]; intros attempt ambiguous; [done|]. cbn [sweep_attempts Nat.mul].
  apply countM_then; [apply free_observing; destruct (_ <? _); solve_ops|]. intros [e|]; [done|].
  apply countM_then; [apply free_observing, observing_sweep_balance_loop|]. intros [balance|e].
  2: { apply (countM_mono _ 0); [lia|]. apply countM_ops, free_observing. destruct ambiguous; solve_ops. }
  destruct (negb _); [apply (countM_mono _ 0); [lia|]; apply countM_ops, free_observing; solve_ops|].
  apply countM_then; [apply free_observing; solve_ops|intros nonce].
  assert (Hretry : forall attempt ambiguous, countM counted (n * sweep_cost address)
    (sweep_attempts cfg n attempt runID settlement token address floor unconverged ambiguous)) by auto.
  assert (Hdone : forall m : F (option error), opsM observing m -> countM counted (n * sweep_cost address) m).
  { intros m Hm. apply (countM_mono _ 0); [lia|]. by apply countM_ops, free_observing. }
  pose proof (sweep_bound address settlement token (sweep_amount (bal_Available balance) ambiguous) nonce) as Hbound.
  set (send := PrepareSpotSend _ _ _ _ _) in *.
  apply (count_op_bind _ (sweep_cost address - Nat.b2n (counted send) + n * sweep_cost address)).
  { specialize (Hbound (mkPrepared "" "" "" "" "" 0 "")). lia. }
  intros [a|e].
  - specialize (Hbound a). apply (count_op_bind _ (n * sweep_cost address)); [lia|]. intros answer.
    apply countM_then; [apply free_observing; solve_ops|intros _].
    apply countM_then; [apply free_observing; solve_ops|intros _].
    repeat case_match; first [apply Hretry | apply Hdone; by solve_ops].
  - apply (countM_mono _ (n * sweep_cost address)); [lia|].
    repeat case_match; first [apply Hretry | apply Hdone; by solve_ops].
Qed.

Lemma count_sweepBuilderBalances runID settlement token claimEnding unconverged :
  countM counted (3 * list_sum (map sweep_cost (cfg_builders cfg)))
    (sweepBuilderBalances cfg runID settlement token claimEnding unconverged).
Proof.
  unfold sweepBuilderBalances. apply countM_then; [apply free_observing; solve_ops|].
  intros [e|]; [done|].
  assert (forall l, 3 * list_sum (map sweep_cost l) = list_sum (map (fun b => 3 * sweep_cost b) l))%nat as ->.
  { induction l as [|b l IH]; simpl in *; lia. }
  apply countM_range. intros b. unfold sweep_builder.
  apply countM_then; [apply free_observing; solve_ops|]. intros [e|]; [done|]. apply count_sweep_attempts.
Qed.

Lemma count_runConsolidation trigger onCaptured :
  countM counted 0 onCaptured ->
  countM counted (list_sum (map claim_cost (cfg_builders cfg)) + 3 * list_sum (map sweep_cost (cfg_builders cfg)))
    (runConsolidation cfg trigger onCaptured).
Proof.
  intros Hcap. set (bound := (_ + _)%nat).
  assert (Hfree : forall m : F (option error), opsM observing m -> countM counted bound m).
  { intros m Hm. apply (countM_mono _ 0); [lia|]. by apply countM_ops, free_observing. }
  unfold runConsolidation.
  apply countM_then; [apply free_observing; solve_ops|]. intros [state|e]; [|apply Hfree; solve_ops].
  apply countM_then; [apply free_observing; solve_ops|intros now].
  apply countM_then; [apply free_observing; solve_ops|intros _].
  apply countM_then; [apply free_observing; unfold queryConsolidationToken; solve_ops|intros answer].
  rewrite <- (Nat.add_0_r bound). apply countM_bind.
  2: { intros e. apply countM_ops, free_observing. unfold forgetAlerts. solve_ops. }
  destruct answer as [token|e]; [|apply Hfree; solve_ops]. unfold consolidate.
  apply countM_then; [apply free_observing; solve_ops|intros _].
  apply countM_then; [apply free_observing; solve_ops|]. intros [claimables|e]; [|apply Hfree; solve_ops].
  apply countM_then; [apply free_observing; solve_ops|intros now'].
  apply countM_then; [apply free_observing; solve_ops|intros _].
  apply (countM_bind _ 0 bound); [exact Hcap|]. intros [e|]; [apply Hfree; solve_ops|].
  apply countM_then; [apply free_observing; solve_ops|]. intros [baselines|e]; [|apply Hfree; solve_ops].
  apply countM_bind; [apply count_claimBuilderRewards|]. intros [targets|e]; [|done].
  apply countM_then; [apply free_observing; solve_ops|]. intros [[ending unconverged]|e]; [|done].
  apply countM_then; [apply free_observing; solve_ops|intros _].
  rewrite <- (Nat.add_0_r (3 * _)). apply countM_bind; [apply count_sweepBuilderBalances|].
  intros [e|]; apply countM_ops, free_observing; solve_ops.
Qed.

Lemma count_consolidate_day d :
  countM counted (list_sum (map claim_cost (cfg_builders cfg)) + 3 * list_sum (map sweep_cost (cfg_builders cfg)))
    (consolidate_day cfg d).
Proof.
  set (bound := (_ + _)%nat). unfold consolidate_day.
  assert (Hsave : forall c h k, (forall e, countM counted 0 (h e)) -> countM counted 0 k ->
    countM counted 0 (on_error (op (SaveDailyConsolidation c)) h k)).
  { intros c h k Hh Hk. apply (count_op_bind 0 0); [by rewrite save_free|]. intros [e|]; auto. }
  rewrite <- (Nat.add_0_r bound). apply countM_bind.
  - apply count_runConsolidation. unfold save_captured.
    apply countM_then; [apply free_observing; solve_ops|]. intros report. by apply Hsave.
  - intros [e|]; [done|]. apply countM_then; [apply free_observing; solve_ops|intros completedAt].
    apply countM_then; [apply free_observing; solve_ops|intros report]. by apply Hsave.
Qed.

Lemma count_RunDailyConsolidation :
  countM counted (list_sum (map claim_cost (cfg_builders cfg)) + 3 * list_sum (map sweep_cost (cfg_builders cfg)))
    (RunDailyConsolidation cfg).
Proof.
  set (bound := (_ + _)%nat). unfold RunDailyConsolidation.
  apply countM_then; [apply free_observing; solve_ops|]. intros [e|]; [done|].
  apply countM_then; [apply free_observing; solve_ops|]. intros now.
  apply (count_op_bind bound bound); [by rewrite load_free|]. intros [[c|]|e]; [done| |done].
  apply count_consolidate_day.
Qed.
End Counting.

(** ** The tasks *)

Section Tasks.
Context `{DecimalOps}.

(** The consolidate-only command and the daily task. *)
Inductive consolidation_task : Type := ConsolidateOnly | DailyTask.

Definition task (cfg : Config) (t : consolidation_task) : F (option error) :=
  match t with ConsolidateOnly => Consolidator_Run cfg | DailyTask => RunDailyConsolidation cfg end.

(** The daily store had no record of the date, and the captured claimables
    were saved. *)
Definition no_record (h : list (event FundingSig)) (d : string) : Prop :=
  Ev (LoadDailyConsolidation d : Op) (Ok None : result (option DailyConsolidation)) ∈ h.
Definition captured (h : list (event FundingSig)) (d : string) : Prop :=
  exists c, Ev (SaveDailyConsolidation c : Op) (None : option error) ∈ h /\
    dc_UTCDate c = d /\ dc_Status c = DailyConsolidationClaimablesCaptured.

Definition may_start (t : consolidation_task) (h : list (event FundingSig)) : Prop :=
  match t with
  | ConsolidateOnly => True
  | DailyTask => exists d, no_record h d /\ captured h d
  end.

(** The daily task reads the record of one date and writes this date: the
    captured claimables when there is no record, the completed consolidation
    after the captured one. *)
Definition may_daily (t : consolidation_task) (h : list (event FundingSig)) (o : FundingOp) : Prop :=
  match t, o with
  | DailyTask, LoadDailyConsolidation _ => True
  | DailyTask, SaveDailyConsolidation c =>
      no_record h (dc_UTCDate c) /\
      (dc_Status c = DailyConsolidationClaimablesCaptured \/
       (dc_Status c = DailyConsolidationCompleted /\ captured h (dc_UTCDate c)))
  | _, _ => False
  end.

Lemma captured_mono h h' d : h ⊆ h' -> captured h d -> captured h' d.
Proof. intros Hh (c & Hin & Hc). exists c. eauto. Qed.

Lemma may_start_mono t h h' : h ⊆ h' -> may_start t h -> may_start t h'.
Proof.
  destruct t; [done|]. intros Hh (d & Hn & Hc). exists d. split; [by apply Hh|by eapply captured_mono].
Qed.

Lemma may_daily_mono t h h' o : h ⊆ h' -> may_daily t h o -> may_daily t h' o.
Proof.
  destruct t, o; try done. intros Hh [Hn Hc]. split; [by apply Hh|].
  destruct Hc as [Hc|[Hc Hs]]; [by left|]. right. split; [done|by eapply captured_mono].
Qed.

Lemma follows_Consolidator_Run cfg h :
  follows (consolidating cfg (may_start ConsolidateOnly) (may_daily ConsolidateOnly)) h (Consolidator_Run cfg).
Proof.
  eapply historyM_mono; [apply follows_runConsolidation|done]; try apply may_start_mono; try apply may_daily_mono.
  by intros h' _ s.
Qed.

(** The callback of the daily task: it saves the captured claimables of the
    date. *)
Lemma starts_save_captured cfg h d :
  no_record h d ->
  starts cfg (fun h => no_record h d /\ captured h d) (may_daily DailyTask) h (save_captured d).
Proof.
  intros Hn h' Hh. unfold save_captured. intros s. simpl.
  split; [split; [by apply Hh|by left]|]. intros r h1 ->. destruct r as [e|]; simpl; [done|].
  intros _. split; [right; by apply Hh|]. eexists. split_and!; [left|done|done].
Qed.

Lemma follows_RunDailyConsolidation cfg h :
  follows (consolidating cfg (may_start DailyTask) (may_daily DailyTask)) h (RunDailyConsolidation cfg).
Proof.
  pose proof (may_daily_mono DailyTask) as Hdaily. pose proof (may_start_mono DailyTask) as Hstart.
  unfold RunDailyConsolidation. apply history_bind_op; [done|]. intros [e|]; [by intros s|].
  apply history_bind_op; [done|]. intros now. set (d := FormatDateOnly now).
  apply (history_bind_op _ _ (LoadDailyConsolidation d)); [done|].
  intros [[c|]|e]; [by intros s| |by intros s]. set (h1 := _ :: _). unfold consolidate_day.
  assert (no_record h1 d) as Hn by left. clearbody h1.
  assert (historyM (consolidating cfg (may_start DailyTask) (may_daily DailyTask)) h1
            (runConsolidation cfg TriggerUTCConsolidation (save_captured d))
            (fun e h' => e = None -> no_record h' d /\ captured h' d)) as Hrun.
  { eapply (historyM_weaken (consolidating cfg (fun h => no_record h d /\ captured h d) (may_daily DailyTask))).
    - intros h2 o. destruct o; simpl; try done; intros; destruct_and?; split_and?; eauto; by exists d.
    - apply follows_runConsolidation; [|exact Hdaily|by apply starts_save_captured].
      intros h2 h3 Hh [H1 H2]. split; [by apply Hh|by eapply captured_mono]. }
  eapply historyM_bind; [exact Hrun|]. intros [e|] h2 Hh2 Hs; [by intros s|]. destruct (Hs eq_refl) as [H1 H2].
  apply history_bind_op; [done|]. intros completedAt s. simpl.
  split; [|by intros [e|] h3 ->]. split; [by right|right]. split; [done|].
  eapply captured_mono; [|exact H2]. set_solver.
Qed.

Lemma follows_task cfg t h :
  follows (consolidating cfg (may_start t) (may_daily t)) h (task cfg t).
Proof. destruct t; [apply follows_Consolidator_Run|apply follows_RunDailyConsolidation]. Qed.
End Tasks.

(** ** The theorems *)

Section Theorems.
Context `{DecimalOps}.

(** The operations of a trace that satisfy a predicate. *)
Definition occurrences (p : FundingOp -> bool) (tr : list (event FundingSig)) : nat :=
  length (List.filter (fun e => match e with Ev o _ => p o end) tr).

Definition is_claim_for (b : string) (o : FundingOp) : bool :=
  match o with PrepareClaim b' _ => bool_decide (b' = b) | _ => false end.
Definition is_send_from (b : string) (o : FundingOp) : bool :=
  match o with PrepareSpotSend b' _ _ _ _ => bool_decide (b' = b) | _ => false end.
Definition is_submit (o : FundingOp) : bool := match o with Submit _ => true | _ => false end.

Lemma indicator_sum (l : list string) b :
  NoDup l -> (list_sum (map (fun b' => Nat.b2n (bool_decide (b' = b))) l) <= 1)%nat.
Proof.
  induction 1 as [|x l Hx _ IH]; simpl; [lia|]. destruct (bool_decide_reflect (x = b)) as [->|_]; simpl; [|lia].
  enough (list_sum (map (fun b' => Nat.b2n (bool_decide (b' = b))) l) = 0%nat) by lia. clear IH.
  induction l as [|y l IH]; simpl; [done|]. rewrite bool_decide_eq_false_2; [|set_solver].
  simpl. apply IH. set_solver.
Qed.

Lemma occurrences_bound cfg t mem (p : FundingOp -> bool) (cc sc : string -> nat) {W : Type} (pr : protocol W) w tr w' m' :
  (forall o, observing o -> p o = false) ->
  (forall d, p (LoadDailyConsolidation d) = false) -> (forall c, p (SaveDailyConsolidation c) = false) ->
  (forall b n a, (Nat.b2n (p (PrepareClaim b n)) + Nat.b2n (p (Submit a)) <= cc b)%nat) ->
  (forall b d token amount n a, (Nat.b2n (p (PrepareSpotSend b d token amount n)) + Nat.b2n (p (Submit a)) <= sc b)%nat) ->
  partial pr w (task cfg t mem) tr w' m' ->
  (occurrences p tr <= list_sum (map cc (cfg_builders cfg)) + 3 * list_sum (map sc (cfg_builders cfg)))%nat.
Proof.
  intros Ho Hl Hs Hc Hsw Hp. eapply count_le_partial; [exact Hp|]. destruct t.
  - by apply (count_runConsolidation cfg p cc sc).
  - by apply (count_RunDailyConsolidation cfg p cc sc).
Qed.

(** The record an event of the daily store returned. *)
Definition loaded_record (e : event FundingSig) : option (string * result (option DailyConsolidation)) :=
  match e with
  | Ev o r => match o return FundingResp o -> option (string * result (option DailyConsolidation)) with LoadDailyConsolidation d => fun r => Some (d, r) | _ => fun _ => None end r
  end.
Definition is_load (o : FundingOp) : bool := match o with LoadDailyConsolidation _ => true | _ => false end.

(** The task looks up the record once. *)
Lemma consolidate_day_loads_nothing cfg d mem {W : Type} (pr : protocol W) w tr w' m' :
  partial pr w (consolidate_day cfg d mem) tr w' m' -> forall e, e ∈ tr -> loaded_record e = None.
Proof.
  intros Hp.
  assert (occurrences is_load tr <= 0)%nat as Hz.
  { eapply count_le_partial; [exact Hp|].
    pose proof (count_consolidate_day cfg is_load (fun _ => 0%nat) (fun _ => 0%nat)) as Hc.
    assert (forall l : list string, list_sum (map (fun _ => 0%nat) l) = 0%nat) as Hzero by (induction l; simpl; lia).
    rewrite Hzero in Hc. apply Hc; try done. by intros []. }
  clear Hp. unfold occurrences in Hz. induction tr as [|[o r] tr IH]; [set_solver|]. simpl in Hz.
  intros e He. apply elem_of_cons in He as [->|He].
  { destruct o; try done. simpl in Hz. lia. }
  apply IH; [|done]. by destruct (is_load o); [simpl in Hz; lia|].
Qed.

(** C10: the consolidation keeps to its own business.  Whatever the environment
    answers, the consolidate-only command and the daily task never touch the
    payout snapshots, the database or the report outbox; they prepare claims
    of configured builders only, and transfers only from a configured builder
    to the settlement account, of a positive amount that the exchange reported
    as available for this builder in this run; they submit only what they
    prepared; and the daily task does none of this before it found no record
    of the date and saved the captured claimables. *)
Theorem consolidation_isolated cfg t mem {W : Type} (pr : protocol W) w tr w' o k :
  partial pr w (task cfg t mem) tr w' (Call o k) ->
  consolidating cfg (may_start t) (may_daily t) (rev tr) o.
Proof.
  intros Hp. rewrite <- (app_nil_r (rev tr)).
  eapply history_partial; [exact Hp|]. apply (follows_task cfg t []).
Qed.

(** C25: a consolidation claims the rewards of a builder at most once, sends
    from it at most three times, and submits at most four requests per
    builder. *)
Theorem consolidation_actions_bounded cfg t mem {W : Type} (pr : protocol W) w tr w' m' b :
  NoDup (cfg_builders cfg) -> partial pr w (task cfg t mem) tr w' m' ->
  (occurrences (is_claim_for b) tr <= 1)%nat /\ (occurrences (is_send_from b) tr <= 3)%nat /\
  (occurrences is_submit tr <= 4 * length (cfg_builders cfg))%nat.
Proof.
  intros Hnd Hp. pose proof (indicator_sum _ b Hnd) as Hsum.
  assert (Hzero : forall l : list string, list_sum (map (fun _ => 0%nat) l) = 0%nat) by (induction l; simpl; lia).
  assert (Hones : forall l : list string, list_sum (map (fun _ => 1%nat) l) = length l) by (induction l; simpl; lia).
  split_and!.
  - etransitivity; [apply (occurrences_bound cfg t mem (is_claim_for b)
      (fun b' => Nat.b2n (bool_decide (b' = b))) (fun _ => 0%nat) pr w tr w' m')|]; try done; try (by intros []).
    + intros b' n a. simpl. lia.
    + rewrite Hzero. lia.
  - etransitivity; [apply (occurrences_bound cfg t mem (is_send_from b)
      (fun _ => 0%nat) (fun b' => Nat.b2n (bool_decide (b' = b))) pr w tr w' m')|]; try done; try (by intros []).
    + intros b' d token amount n a. simpl. lia.
    + rewrite Hzero. lia.
  - etransitivity; [apply (occurrences_bound cfg t mem is_submit
      (fun _ => 1%nat) (fun _ => 1%nat) pr w tr w' m')|]; try done; try (by intros []).
    rewrite Hones. lia.
Qed.

(** A daily record is final.  Once the daily store returns a record of the
    date, captured or completed, the task ends without another operation and
    without an error: the claims of a day are never repeated. *)
Theorem daily_record_is_final cfg mem {W : Type} (pr : protocol W) w tr w' m' d c :
  partial pr w (RunDailyConsolidation cfg mem) tr w' m' ->
  Ev (LoadDailyConsolidation d : Op) (Ok (Some c) : result (option DailyConsolidation)) ∈ tr ->
  m' = Ret (None, mem) /\ exists now, tr = [Ev (CtxErr : Op) None; Ev (Now : Op) now;
    Ev (LoadDailyConsolidation (FormatDateOnly now) : Op) (Ok (Some c) : result (option DailyConsolidation))].
Proof.
  intros Hp Hin. apply partial_inv in Hp. destruct tr as [|e0 tr]; [set_solver|].
  destruct Hp as (ctxErr & w1 & tr1 & [= -> ->] & _ & Hp). apply partial_inv in Hp. simpl in Hp.
  destruct tr1 as [|e1 tr1]; [set_solver|]. destruct ctxErr as [e|]; [done|].
  destruct Hp as (now & w2 & tr2 & [= -> ->] & _ & Hp). apply partial_inv in Hp. simpl in Hp.
  destruct tr2 as [|e2 tr2]; [set_solver|].
  destruct Hp as (existing & w3 & tr3 & [= -> ->] & _ & Hp). destruct existing as [[c'|]|e].
  - apply partial_inv in Hp. destruct tr3; [|done]. destruct Hp as [-> ->]. split; [done|].
    exists now. rewrite !elem_of_cons in Hin.
    destruct Hin as [Hin|[Hin|[Hin|Hin]]]; [..|set_solver]; apply (f_equal loaded_record) in Hin; try done.
    by injection Hin as _ ->.
  - rewrite !elem_of_cons in Hin.
    destruct Hin as [Hin|[Hin|[Hin|Hin]]]; [apply (f_equal loaded_record) in Hin; done..|].
    by apply (consolidate_day_loads_nothing _ _ _ _ _ _ _ _ Hp) in Hin.
  - apply partial_inv in Hp. destruct tr3; [|done]. rewrite !elem_of_cons in Hin.
    destruct Hin as [Hin|[Hin|[Hin|Hin]]]; [apply (f_equal loaded_record) in Hin; done..|set_solver].
Qed.
End Theorems.

(** ** Witnesses

    One builder with 5 USDC to claim and 100 USDC available; the claim shows in
    the balance, and the sweep is accepted. *)

Module ClaimScenario.
Import DecimalImpl.
#[local] Existing Instance DecimalImpl.dec_ops.

Definition cfg : Config := mkConfig ["0xb1"] ∅ "0xse" "0xre" "mainnet" true.
Definition token : Token := mkToken "USDC" "0x6d" 0 8 "USDC:0x6d".
Definition before : SpotBalanceAmounts := mkBalance _ (Dec 100 0) (Dec 100 0).
Definition after : SpotBalanceAmounts := mkBalance _ (Dec 105 0) (Dec 105 0).
Definition mem : Mem := mkMem empty_run empty_report ∅ ∅.
Definition script : sim :=
  mkSim initial_world [] token [Ok before; Ok before; Ok after] [(mkSubmitResult true false "", None)]
    (Ok (Dec 5 0)) [Ok (mkUserRateLimit "0" 10 1000 0)] None 1000 (20000 * Day) [].

(** The transfer of the 105 USDC to the settlement account. *)
Definition at_send (o : FundingOp) : bool :=
  match o with
  | PrepareSpotSend from to_ _ amount _ => (from =? "0xb1")%string && (to_ =? "0xse")%string && dec_equal amount (Dec 105 0)
  | _ => false
  end.
Definition never (o : FundingOp) : bool := false.
Definition record : DailyConsolidation := mkDailyConsolidation "1970-01-01" DailyConsolidationClaimablesCaptured 0 0 0 [].
End ClaimScenario.

#[local] Existing Instance DecimalImpl.dec_ops.

(** The operations of the daily task before the transfer, and of the whole
    task. *)
Definition before_send : list (event FundingSig) :=
  sim_trace ClaimScenario.at_send (task ClaimScenario.cfg DailyTask) ClaimScenario.mem ClaimScenario.script.
Definition whole_task : list (event FundingSig) :=
  sim_trace ClaimScenario.never (task ClaimScenario.cfg DailyTask) ClaimScenario.mem ClaimScenario.script.

Lemma consolidation_isolated_witness :
  exists o, ClaimScenario.at_send o = true /\
    consolidating ClaimScenario.cfg (may_start DailyTask) (may_daily DailyTask) (rev before_send) o.
Proof.
  destruct (run_sim_stopped ClaimScenario.at_send ClaimScenario.at_send (task ClaimScenario.cfg DailyTask)
    ClaimScenario.mem ClaimScenario.script ltac:(vm_compute; reflexivity)) as (o & k & Ho & Hp).
  exists o. split; [exact Ho|]. exact (consolidation_isolated _ _ _ _ _ _ _ _ _ Hp).
Defined.

Lemma consolidation_actions_bounded_witness :
  (occurrences (is_claim_for "0xb1") whole_task, occurrences (is_send_from "0xb1") whole_task,
   occurrences is_submit whole_task) = (1, 1, 2)%nat /\
  (occurrences (is_claim_for "0xb1") whole_task <= 1)%nat /\
  (occurrences (is_send_from "0xb1") whole_task <= 3)%nat /\ (occurrences is_submit whole_task <= 4)%nat.
Proof.
  split; [vm_compute; reflexivity|].
  exact (consolidation_actions_bounded ClaimScenario.cfg DailyTask _ any_environment _ whole_task _ _ "0xb1"
    (NoDup_singleton _) (run_sim_partial ClaimScenario.never _ _ _)).
Defined.

Lemma daily_record_is_final_witness :
  exists tr m', m' = Ret (None, ClaimScenario.mem) /\ length tr = 3%nat /\
    partial any_environment tt (RunDailyConsolidation ClaimScenario.cfg ClaimScenario.mem) tr tt m'.
Proof.
  eexists [Ev (Sig := FundingSig) CtxErr None; Ev (Sig := FundingSig) Now 0;
    Ev (Sig := FundingSig) (LoadDailyConsolidation (FormatDateOnly 0)) (Ok (Some ClaimScenario.record))], _.
  match goal with |- _ /\ _ /\ ?P => assert P as Hp end.
  { do 3 (match goal with |- partial _ _ ?m _ _ _ => let c := eval hnf in m in change m with c end;
            eapply partial_cons with (w1 := tt); [exact I|]).
    apply partial_nil. }
  split; [|split; [reflexivity|exact Hp]].
  apply (daily_record_is_final _ _ _ _ _ _ _ (FormatDateOnly 0) ClaimScenario.record Hp).
  right. right. left.
Defined.
