(* ===== verification/Confinement.v ===== *)
(** * What a payout run may do

    Two facts about the payout entries that hold against every environment:
    they leave the consolidation to the consolidation tasks, and a run whose
    snapshot is blocked is frozen, whatever the rest of the environment
    answers. *)

From S2P Require Import Prelude DecimalSpec DecimalImpl Prog Model Amount Clock Report ActionValidation Effects Payout Recovery ReportObservation Daily Run PayoutWorld Consolidation Sweep Isolation PayoutTheorems Sim.

Section Confinement.
Context `{DecimalOps}.
Variable cfg : Config.

(** The operations of a run after the snapshots were loaded. *)
Definition running (o : FundingOp) : Prop :=
  match o with
  | PrepareClaim _ _ | ClaimableUSDC _ _ | SaveDailyConsolidation _ | LoadWithMetadata => False
  | _ => True
  end.

Lemma running_stack_overflow {A : Type} : opsM running (stack_overflow (A := A)).
Proof. apply opsM_bind; [by apply opsM_op|intros []]. Qed.

Lemma running_deref {A : Type} (p : option A) : opsM running (deref p).
Proof. destruct p; [done|]. apply opsM_bind; [by apply opsM_op|intros []]. Qed.

Lemma running_alertOnce runID key sev msg : opsM running (alertOnce cfg runID key sev msg).
Proof. unfold alertOnce, alert. solve_ops. Qed.

Lemma running_saveState : opsM running saveState.
Proof. unfold saveState, set_state, the_state. solve_ops. Qed.

Lemma running_saveActivePhase phase : opsM running (saveActivePhase phase).
Proof. pose proof running_saveState. unfold saveActivePhase, set_target, set_state, the_state. solve_ops. Qed.
#[local] Hint Resolve running_stack_overflow running_deref running_alertOnce running_saveActivePhase : ops.
#[local] Hint Unfold the_state the_target the_kind target_failed set_payout_status sync_report set_target set_state : ops.

Ltac solve_running := repeat first [solve_ops_step | apply opsM_on_error; [|intros ?|]].

Lemma running_the_state : opsM running the_state.
Proof. unfold the_state. solve_ops. Qed.
Lemma running_the_target : opsM running the_target.
Proof. unfold the_target. solve_ops. Qed.
Lemma running_set_state f : opsM running (set_state f).
Proof. unfold set_state. solve_ops. Qed.
Lemma running_set_target f : opsM running (set_target f).
Proof. unfold set_target, set_state. solve_ops. Qed.
Lemma running_the_kind : opsM running the_kind.
Proof. unfold the_kind, the_target. solve_ops. Qed.
Lemma running_target_failed a b c : opsM running (target_failed a b c).
Proof. unfold target_failed, the_kind, the_target. solve_ops. Qed.
Lemma running_set_payout_status s : opsM running (set_payout_status s).
Proof. unfold set_payout_status, the_kind, the_target. solve_ops. Qed.
Lemma running_sync_report : opsM running sync_report.
Proof. unfold sync_report, the_state. solve_ops. Qed.
#[local] Hint Resolve running_the_state running_the_target running_set_state running_set_target running_the_kind
  running_target_failed running_set_payout_status running_sync_report : ops.

Lemma running_finishRun : opsM running finishRun.
Proof. unfold finishRun, forgetAlerts. solve_running. Qed.
#[local] Hint Resolve running_finishRun : ops.

Lemma running_completeDatabase_body k : opsM running k -> opsM running (completeDatabase_body cfg k).
Proof. intros Hk. unfold completeDatabase_body. solve_running. Qed.

Section Callee.
Variable cd : F (option error).
Hypothesis running_cd : opsM running cd.
#[local] Hint Resolve running_cd : ops.

Lemma running_confirmPayout e : opsM running (confirmPayout cd e).
Proof. unfold confirmPayout. solve_running. Qed.

Lemma running_save_both phase : opsM running (save_both phase).
Proof. unfold save_both. solve_running. Qed.
#[local] Hint Resolve running_confirmPayout running_save_both : ops.

Lemma running_rejectPayout : opsM running (rejectPayout cfg).
Proof. unfold rejectPayout. solve_running. Qed.

Lemma running_blockUncertainPayout reason key : opsM running (blockUncertainPayout cfg reason key).
Proof. unfold blockUncertainPayout. solve_running. Qed.

Lemma running_observe_loop n a b c d e f g : opsM running (observe_loop n a b c d e f g).
Proof. revert c d e f g. induction n as [|n IH]; intros; cbn [observe_loop]; solve_running; apply IH. Qed.
#[local] Hint Resolve running_rejectPayout running_blockUncertainPayout running_observe_loop : ops.

Lemma running_observe_body k : opsM running k -> opsM running (observeUncertainPayout_body cfg cd k).
Proof. intros Hk. unfold observeUncertainPayout_body. solve_running. Qed.

Lemma running_attempt k exact : opsM running k -> opsM running (submitPayoutAttempt cfg cd k exact).
Proof. intros Hk. unfold submitPayoutAttempt. solve_running. Qed.
#[local] Hint Resolve running_attempt : ops.

Lemma running_replay k : opsM running k -> opsM running (replayPreparedPayout_body cfg cd k).
Proof. intros Hk. unfold replayPreparedPayout_body. solve_running. Qed.

Lemma running_submit k : opsM running k -> opsM running (submitPreparedPayout cfg cd k).
Proof. intros Hk. unfold submitPreparedPayout. solve_running. Qed.
#[local] Hint Resolve running_submit : ops.

Lemma running_execute k a b : opsM running k -> opsM running (executePayout cfg cd k a b).
Proof. intros Hk. unfold executePayout. solve_running. Qed.
#[local] Hint Resolve running_execute : ops.

Lemma running_observe depth : opsM running (observeUncertainPayout cfg cd depth).
Proof.
  induction depth as [|depth IH]; simpl; apply running_observe_body, running_replay; [apply running_stack_overflow|exact IH].
Qed.
#[local] Hint Resolve running_observe : ops.

Lemma running_settlement_loop n a b c d e f g h : opsM running (settlement_loop n a b c d e f g h).
Proof. revert d e f g h. induction n as [|n IH]; intros; cbn [settlement_loop]; solve_running; apply IH. Qed.
#[local] Hint Resolve running_settlement_loop : ops.

Lemma running_run_prepared t : opsM running (run_prepared cfg cd t).
Proof. unfold run_prepared, runPositive. solve_running. Qed.
End Callee.
#[local] Hint Resolve running_run_prepared running_completeDatabase_body running_submit running_observe : ops.

Lemma running_active_body cd : opsM running cd -> opsM running (runActiveTarget_body cfg cd).
Proof. intros Hcd. unfold runActiveTarget_body. solve_running. Qed.

Lemma running_runActiveTarget depth : opsM running (runActiveTarget cfg depth).
Proof.
  induction depth as [|depth IH]; simpl; apply running_active_body, running_completeDatabase_body;
    [apply running_stack_overflow|exact IH].
Qed.
#[local] Hint Resolve running_runActiveTarget : ops.

Lemma running_completeDatabase : opsM running (completeDatabase cfg).
Proof. apply running_completeDatabase_body, running_runActiveTarget. Qed.
#[local] Hint Resolve running_completeDatabase : ops.

Lemma running_newState trigger : opsM running (newState trigger).
Proof. unfold newState, NewRunID. solve_ops. Qed.
#[local] Hint Resolve running_newState : ops.

Lemma running_runNew trigger : opsM running (runNew cfg trigger).
Proof. unfold runNew, start_run. solve_running. Qed.

Lemma running_recoverState metadata : opsM running (recoverState cfg metadata).
Proof. unfold recoverState, observe_payout. solve_running. Qed.
#[local] Hint Resolve running_runNew running_recoverState : ops.

(** *** Operations without effect on snapshots, database and exchange *)

Definition passive (o : FundingOp) : Prop :=
  match o with
  | CanonicalUSDC | SpotBalance _ _ | QueryUserRateLimit _ | LoadDailyConsolidation _ | Now | Sleep _ | CtxErr
  | Alert _ _ _ | Report _ => True
  | _ => False
  end.

Lemma passive_running {A : Type} (m : F A) : opsM passive m -> opsM running m.
Proof. apply opsM_mono. by intros []. Qed.

Lemma passive_observeUserRateLimits : opsM passive (observeUserRateLimits cfg).
Proof.
  assert (forall n address o, opsM passive (visibility_loop n address o)).
  { induction n as [|n IH]; intros; cbn [visibility_loop]; solve_ops; apply IH. }
  unfold observeUserRateLimits, observe_account, observeUserRateLimit, updateRateLimitAlert, alert. solve_ops.
Qed.

Lemma passive_observeSettlementFinalBalance : opsM passive (observeSettlementFinalBalance cfg).
Proof.
  assert (forall n a b c d e f g h, opsM passive (final_loop n a b c d e f g h)).
  { induction n as [|n IH]; intros; cbn [final_loop]; solve_ops; apply IH. }
  unfold observeSettlementFinalBalance. solve_ops.
Qed.
#[local] Hint Resolve passive_observeUserRateLimits passive_observeSettlementFinalBalance : ops.

Lemma passive_deferred err : opsM passive (deferred cfg err).
Proof. unfold deferred, deliverRunReport. solve_ops. Qed.

Lemma passive_attach date : opsM passive (attachDailyConsolidation date).
Proof. unfold attachDailyConsolidation. solve_ops. Qed.

Lemma passive_the_target : opsM passive the_target.
Proof. unfold the_target. solve_ops. Qed.

(** A snapshot whose target is blocked. *)
Definition blocked (s : RunState) : Prop :=
  exists t, activePayoutTarget s = Ok (Some t) /\ tgt_Phase t = PhaseBlocked.

Lemma ops_in_the_state {B : Type} (P : FundingOp -> Prop) (f : RunState -> F B) mem :
  ops_in P (f (m_state mem) mem) -> ops_in P ((the_state ≫= f) mem).
Proof. done. Qed.

Lemma passive_recoverState metadata mem :
  blocked (m_state mem) -> ops_in passive (recoverState cfg metadata mem).
Proof.
  intros (t & Ht & Hp). apply ops_in_the_state. rewrite Ht.
  destruct (validateTargetProgress _) as [e|]; [done|]. rewrite Hp.
  match goal with |- ops_in _ (?m mem) => enough (opsM passive m) by auto end.
  unfold set_target, set_state, target_failed, set_payout_status, the_kind, the_target. solve_ops.
Qed.

(** *** The entries under a history *)

(** What may follow a history: the operations of a run, and only passive ones
    after a blocked snapshot was loaded. *)
Definition freezing (h : list (event FundingSig)) (o : FundingOp) : Prop :=
  match o with PrepareClaim _ _ | ClaimableUSDC _ _ | SaveDailyConsolidation _ => False | _ => True end /\
  forall s metadata, Ev (LoadWithMetadata : Op) (Ok (Some s, metadata) : result (option RunState * StateLoadMetadata)) ∈ h ->
    blocked s -> passive o.

(** The snapshot an event loaded. *)
Definition loaded_state (e : event FundingSig) : option RunState :=
  match e with
  | Ev o r => match o return FundingResp o -> option RunState with
              | LoadWithMetadata => fun r => match r with Ok (Some s, _) => Some s | _ => None end
              | _ => fun _ => None
              end r
  end.

Lemma freezing_passive h (o : FundingOp) : passive o -> freezing h o.
Proof. intros Ho. split; [by destruct o|done]. Qed.

Lemma follows_passive {A : Type} h (m : F A) : opsM passive m -> follows freezing h m.
Proof. apply follows_ops, freezing_passive. Qed.

Definition no_blocked (h : list (event FundingSig)) : Prop :=
  forall e s, e ∈ h -> loaded_state e = Some s -> ~ blocked s.

(** While no blocked snapshot was loaded, a run is free. *)
Lemma history_running {A : Type} h (p : prog A) :
  no_blocked h -> ops_in running p -> wp (history freezing) h p (fun _ _ => True).
Proof.
  revert h. induction p as [a|o k IH]; intros h Hh; simpl; [done|]. intros [Ho Hk]. split.
  - split; [by destruct o|]. intros s metadata Hin Hb. by destruct (Hh _ s Hin eq_refl).
  - intros r h' ->. apply IH; [|done]. intros e s [->|He]%elem_of_cons Hs; [|by eapply Hh].
    by destruct o.
Qed.

Lemma follows_running {A : Type} h (m : F A) : no_blocked h -> opsM running m -> follows freezing h m.
Proof. intros Hh Hm s. eapply wp_mono; [|by apply history_running]. by intros []. Qed.

Lemma blocked_dec s : blocked s \/ ~ blocked s.
Proof.
  unfold blocked. destruct (activePayoutTarget s) as [[t|]|e]; [|right; by intros (? & ? & _)..].
  destruct (decide (tgt_Phase t = PhaseBlocked)) as [Hp|Hp]; [left; by exists t|].
  right. intros (t' & [= ->] & ?). done.
Qed.

Lemma passive_alertOnce runID key sev msg : opsM passive (alertOnce cfg runID key sev msg).
Proof. unfold alertOnce, alert. solve_ops. Qed.
#[local] Hint Resolve passive_alertOnce passive_deferred passive_attach : ops.

(** A quiet computation passes its run state on. *)
Lemma ops_in_bind_quiet {A B : Type} (P : FundingOp -> Prop) (m : F A) (f : A -> F B) mem :
  opsM P m -> quiet m -> (forall a mem', m_state mem' = m_state mem -> ops_in P (f a mem')) ->
  ops_in P ((m ≫= f) mem).
Proof.
  intros Hm Hq Hf. specialize (Hm mem). specialize (Hq mem). unfold wpM in Hq. simpl.
  unfold mbind, M_bind. induction (m mem) as [[a mem']|o k IH]; simpl in *; [by apply Hf|].
  destruct Hm as [Ho Hk], Hq as [_ Hq]. split; [done|]. intros r. apply IH; [done|]. by apply (Hq r tt).
Qed.

Lemma ops_in_modify {B : Type} (P : FundingOp -> Prop) g (f : unit -> F B) mem :
  ops_in P (f tt (g mem)) -> ops_in P ((modify g ≫= f) mem).
Proof. done. Qed.

(** [run] after the load of [s]. *)
Lemma follows_resume h s metadata :
  (forall e s', e ∈ h -> loaded_state e = Some s' -> s' = s) ->
  follows freezing h (
    set_state (fun _ => s) ;;
    set_report (fun r => r <| rep_Recovery := true |> <| rep_Outcome := "completed" |>) ;;
    sync_report ;;
    set_report (setStage "snapshot" ReportStepSuccess "从持久化状态恢复") ;;
    recoverState cfg metadata).
Proof.
  intros Hh. destruct (blocked_dec s) as [Hb|Hb].
  - apply follows_passive. intros mem. unfold sync_report, the_state. apply ops_in_modify.
    apply ops_in_bind_quiet; [solve_ops|solve_quiet|]. intros _ mem1 Hm1.
    apply ops_in_bind_quiet; [solve_ops|solve_quiet|]. intros _ mem2 Hm2.
    apply ops_in_modify. apply passive_recoverState. simpl. rewrite Hm2, Hm1. exact Hb.
  - apply follows_running; [by intros e s' He <-%(Hh e)|]. solve_ops.
Qed.

(** [loads h s]: [s] is the only snapshot that may have been loaded. *)
Definition only_loads (h : list (event FundingSig)) (s : option RunState) : Prop :=
  forall e s', e ∈ h -> loaded_state e = Some s' -> s = Some s'.

(** Passive operations load nothing. *)
Lemma history_passive {A : Type} h s (m : F A) :
  only_loads h s -> opsM passive m -> historyM freezing h m (fun _ h' => only_loads h' s).
Proof.
  intros Hh Hm mem. specialize (Hm mem). unfold wpM. revert h Hh.
  induction (m mem) as [[a mem']|o k IH]; intros h Hh; simpl; [done|]. destruct Hm as [Ho Hk].
  split; [by apply freezing_passive|]. intros r h' ->. apply IH; [done|].
  intros e s' [->|He]%elem_of_cons Hs; [by destruct o|by eapply Hh].
Qed.

Lemma only_loads_none h : only_loads h None -> no_blocked h.
Proof. intros Hh e s He Hs. by specialize (Hh e s He Hs). Qed.

Lemma history_loadCurrent h :
  only_loads h None ->
  historyM freezing h (loadCurrent cfg) (fun r h' =>
    only_loads h' (match r with Ok (Some s, _) => Some s | _ => None end)).
Proof.
  intros Hh. unfold loadCurrent. apply history_bind_op.
  { split; [done|]. intros s metadata Hin Hb. by specialize (Hh _ s Hin eq_refl). }
  intros [[current metadata]|e].
  2: { apply historyM_ret. intros e' s' [->|He]%elem_of_cons Hs; [done|by eapply Hh]. }
  eapply historyM_bind.
  { apply (history_passive _ current).
    - intros e' s' [->|He]%elem_of_cons Hs; [simpl in Hs; by destruct current|by specialize (Hh e' s' He Hs)].
    - destruct (meta_RecoveredFromBackup metadata); solve_ops. }
  intros ? h' _ Hh'. apply historyM_ret. by destruct current.
Qed.

Lemma follows_run_body trigger h :
  only_loads h None -> follows freezing h (run_body cfg trigger).
Proof.
  intros Hh. unfold run_body, follows.
  eapply historyM_bind; [by apply history_loadCurrent|]. intros r h1 _ Hh1. cbv beta in Hh1.
  apply history_bind_the_report. intros report.
  eapply historyM_bind; [apply history_passive, passive_attach; exact Hh1|]. intros ? h2 _ Hh2.
  destruct r as [[[s|] metadata]|e]; [| |by intros mem].
  - apply follows_resume. intros e s' He Hs. by specialize (Hh2 e s' He Hs) as [= ->].
  - apply follows_running, running_runNew. by apply only_loads_none.
Qed.

(** [Recover] after the load. *)
Lemma follows_recover h s metadata now :
  only_loads h (Some s) ->
  follows freezing h (
    set_state (fun _ => s) ;;
    set_report (fun _ => newRunReport now (run_Trigger s) (mkExecution 0 0 true) (cfg_network cfg)
      (cfg_builders cfg) (cfg_builderNames cfg) (cfg_settlement cfg) (cfg_recipient cfg)) ;;
    set_report (fun r => r <| rep_Outcome := "completed" |>) ;;
    sync_report ;;
    set_report (setStage "snapshot" ReportStepSuccess "从持久化状态恢复") ;;
    attachDailyConsolidation (run_UTCDate s) ;;
    err ← recoverState cfg metadata;
    deferred cfg err).
Proof.
  intros Hh. destruct (blocked_dec s) as [Hb|Hb].
  - apply follows_passive. intros mem. unfold set_report, sync_report, the_state.
    do 3 apply ops_in_modify. apply ops_in_bind_quiet; [solve_ops|solve_quiet|].
    intros _ mem1 Hm1. apply ops_in_modify. apply ops_in_bind_quiet; [solve_ops|solve_quiet|].
    intros _ mem2 Hm2. apply ops_in_bind; [|by intros [err mem3]; apply passive_deferred].
    apply passive_recoverState. rewrite Hm2. simpl. rewrite Hm1. exact Hb.
  - apply follows_running; [intros e s' He Hs; by specialize (Hh e s' He Hs) as [= ->]|].
    pose proof (fun date => passive_running _ (passive_attach date)).
    pose proof (fun err => passive_running _ (passive_deferred err)). solve_running.
Qed.

Lemma follows_entry e : follows freezing [] (entry cfg e).
Proof.
  assert (Hrun : forall trigger execution, follows freezing [] (run cfg trigger execution)).
  { intros trigger execution. apply history_bind_op; [by apply freezing_passive|]. intros now.
    apply history_bind_report. eapply historyM_bind; [apply follows_run_body|].
    - intros e' s' [->|He]%elem_of_cons Hs; [done|set_solver].
    - intros err h _ _. apply follows_passive, passive_deferred. }
  destruct e as [trigger|trigger attempt maxAttempts|]; [apply Hrun..|].
  simpl. unfold Recover. eapply historyM_bind; [apply history_loadCurrent; intros e s He; set_solver|].
  intros r h1 _ Hh1. cbv beta in Hh1. destruct r as [[[s|] metadata]|e]; [|by intros mem..].
  apply history_bind_op; [by apply freezing_passive|]. intros now. apply follows_recover.
  intros e s' [->|He]%elem_of_cons Hs; [done|by specialize (Hh1 e s' He Hs)].
Qed.
End Confinement.

(** ** The theorems *)

Section Theorems.
Context `{DecimalOps}.

(** C11: a blocked run is frozen.  After a run has loaded a snapshot that is
    blocked, it reads balances and limits, reports and alerts, and nothing
    else: it neither pays, nor changes a snapshot, the archive or the
    database, whatever the environment answers. *)
Theorem blocked_run_is_frozen cfg e mem {W : Type} (pr : protocol W) w tr w' o k ev s :
  partial pr w (entry cfg e mem) tr w' (Call o k) ->
  ev ∈ tr -> loaded_state ev = Some s -> blocked s -> passive o.
Proof.
  intros Hp Hin Hl Hb. destruct (history_partial freezing pr [] w _ tr w' o k _ Hp (follows_entry cfg e mem)) as [_ Hf].
  destruct ev as [o1 r1]. destruct o1; try done. destruct r1 as [[[s1|] metadata]|]; try done. injection Hl as ->.
  apply (Hf s metadata); [|done]. rewrite app_nil_r, list_elem_of_In, <- in_rev. by apply list_elem_of_In.
Qed.

(** A payout run leaves the consolidation alone: it never prepares a
    claim, never reads claimable rewards and never writes the daily record. *)
Theorem payout_never_consolidates cfg e mem {W : Type} (pr : protocol W) w tr w' o k :
  partial pr w (entry cfg e mem) tr w' (Call o k) ->
  match o with PrepareClaim _ _ | ClaimableUSDC _ _ | SaveDailyConsolidation _ => False | _ => True end.
Proof.
  intros Hp. apply (history_partial freezing pr [] w _ tr w' o k _ Hp (follows_entry cfg e mem)).
Qed.
End Theorems.

(** ** Witnesses

    The blocked run of [PayoutTheorems.Scenario], started again. *)

#[local] Existing Instance DecimalImpl.dec_ops.

Module Frozen.
Definition start : sim := snd (Scenario.go Scenario.never (Scenario.script Scenario.silent)).
Definition at_report (o : FundingOp) : bool := match o with Report _ => true | _ => false end.
Definition trace : list (event FundingSig) := sim_trace at_report (entry Scenario.cfg Scenario.scheduled) Scenario.mem start.
Definition blockedb (s : RunState) : bool :=
  match activePayoutTarget s with Ok (Some t) => bool_decide (tgt_Phase t = PhaseBlocked) | _ => false end.
Definition loads_blocked (e : event FundingSig) : bool :=
  match loaded_state e with Some s => blockedb s | None => false end.

Lemma blockedb_blocked s : blockedb s = true -> blocked s.
Proof.
  unfold blockedb, blocked. destruct (activePayoutTarget s) as [[t|]|e]; try done.
  intros Hb%bool_decide_eq_true. by exists t.
Qed.
End Frozen.

Lemma blocked_run_is_frozen_witness :
  existsb Frozen.loads_blocked Frozen.trace = true /\ exists o, Frozen.at_report o = true /\ passive o.
Proof.
  assert (existsb Frozen.loads_blocked Frozen.trace = true) as He by (vm_compute; reflexivity).
  split; [exact He|].
  destruct (run_sim_stopped Frozen.at_report Frozen.at_report (entry Scenario.cfg Scenario.scheduled) Scenario.mem
    Frozen.start ltac:(vm_compute; reflexivity)) as (o & k & Ho & Hp).
  exists o. split; [exact Ho|]. apply existsb_exists in He as (ev & Hin & Hb).
  unfold Frozen.loads_blocked in Hb. destruct (loaded_state ev) as [s|] eqn:Hl; [|discriminate Hb].
  refine (blocked_run_is_frozen _ _ _ _ _ _ _ _ _ ev s Hp _ Hl (Frozen.blockedb_blocked s Hb)).
  apply list_elem_of_In. exact Hin.
Defined.

Lemma payout_never_consolidates_witness :
  exists o, Frozen.at_report o = true /\
    match o with PrepareClaim _ _ | ClaimableUSDC _ _ | SaveDailyConsolidation _ => False | _ => True end.
Proof.
  destruct (run_sim_stopped Frozen.at_report Frozen.at_report (entry Scenario.cfg Scenario.scheduled) Scenario.mem
    Frozen.start ltac:(vm_compute; reflexivity)) as (o & k & Ho & Hp).
  exists o. split; [exact Ho|]. exact (payout_never_consolidates _ _ _ _ _ _ _ _ _ Hp).
Defined.
