(* ===== verification/Scheduler.v ===== *)
(** * The scheduler

    [internal/scheduler/scheduler.go]: the loop that waits for the next of the
    two daily instants, 00:00 and 01:00 UTC, and runs the consolidation or the
    funding task; a failed funding task is retried after one minute, at most
    five times.

    The loop does not terminate by itself, so [Run_loop] is the loop cut after
    a number of iterations: [inl retries] says that it is still running, with
    its retry counter, and [inr err] that it returned. *)

From S2P Require Import Prelude Clock Prog Crash.

(* go: internal/scheduler/scheduler.go 10-15 dailyConsolidationHourUTC *)
Definition dailyConsolidationHourUTC : Z := 0.
(* go: internal/scheduler/scheduler.go 10-15 dailyRunHourUTC *)
Definition dailyRunHourUTC : Z := 1.
(* go: internal/scheduler/scheduler.go 10-15 NonfatalRetryDelay *)
Definition NonfatalRetryDelay : Z := Minute.
(* go: internal/scheduler/scheduler.go 10-15 MaxNonfatalRetries *)
Definition MaxNonfatalRetries : Z := 5.

(* go: internal/scheduler/scheduler.go 17-22 Task *)
Inductive Task : Type := TaskConsolidation | TaskFunding.

#[export] Instance Task_eq_dec : EqDecision Task.
Proof. solve_decision. Defined.

(** The hour [h] of the day of [now], as [time.Date] computes it. *)
Definition today_at (now h : Z) : Z :=
  let '(y, m, d) := civil_of_days (days_of_time now) in Date y m d h.

(* go: internal/scheduler/scheduler.go 58-71 NextScheduledTaskUTC *)
Definition NextScheduledTaskUTC (now : Z) : Task * Z :=
  let consolidationAt := today_at now dailyConsolidationHourUTC in
  if negb (consolidationAt <? now) then (TaskConsolidation, consolidationAt)
  else
    let runAt := today_at now dailyRunHourUTC in
    if negb (runAt <? now) then (TaskFunding, runAt)
    else (TaskConsolidation, AddDays consolidationAt 1).

(* go: internal/scheduler/scheduler.go 73-80 NextDailyRunUTC *)
Definition NextDailyRunUTC (now : Z) : Z :=
  let nextRunAt := today_at now dailyRunHourUTC in
  if negb (now <? nextRunAt) then AddDays nextRunAt 1 else nextRunAt.

(** [errors.As] to an error with a method [Fatal]. *)
(* go: internal/scheduler/scheduler.go 156-161 isFatal *)
Fixpoint isFatal (e : error) : bool :=
  match e with
  | FatalError _ => true
  | Wrapf _ _ i | RetryExhaustedError _ i => isFatal i
  | Join l r => isFatal l || isFatal r
  | _ => false
  end.

(** ** The world of the loop *)

(** The select: the context is done, with its error, or the timer fired. *)
Inductive waited : Type := CtxDone (err : error) | Fired.

Inductive SchedOp : Type :=
| CtxErr
| Now
| NewTimer (delay : Z)
| Wait
| OnWait (task : Task) (at_ : Z)
| OnError (task : Task) (err : error)
| Consolidate
| RunFunding.

Definition SchedResp (o : SchedOp) : Type :=
  match o with
  | CtxErr | Consolidate | RunFunding => option error
  | Now => Z
  | NewTimer _ => bool
  | Wait => waited
  | OnWait _ _ | OnError _ _ => unit
  end.

#[export] Instance SchedSig : EffSig := {| Op := SchedOp; Resp := SchedResp |}.

(** The fields that may be nil, and whether the arguments of [Run] are. *)
(* go: internal/scheduler/scheduler.go 42-47 Scheduler *)
Record Scheduler : Type := mkScheduler {
  sch_now : bool;
  sch_newTimer : bool;
  sch_onError : bool;
  sch_onWait : bool
}.

Definition when (b : bool) (o : SchedOp) : prog unit :=
  if b then Call o (fun _ => mret tt) else mret tt.

Section Run.
Variable s : Scheduler.

(** After a task failed: the context's error wins. *)
Definition after_failure (task : Task) (err : error) (k : prog (Z + error)) : prog (Z + error) :=
  ctxErr ← perform CtxErr;
  match ctxErr with
  | Some ctxErr => mret (inr ctxErr)
  | None => when (sch_onError s) (OnError task err) ≫= fun _ => k
  end.

(** Running the task once its time has come; the new retry counter. *)
(* go: internal/scheduler/scheduler.go 125-152 Run *)
Definition run_task (task : Task) (retries : Z) : prog (Z + error) :=
  match task with
  | TaskConsolidation =>
      e ← perform Consolidate;
      match e with
      | None => mret (inl retries)
      | Some err => after_failure task err (mret (inl retries))
      end
  | TaskFunding =>
      e ← perform RunFunding;
      match e with
      | None => mret (inl 0)
      | Some err =>
          after_failure task err (mret (
            if isFatal err then inr err
            else if MaxNonfatalRetries <=? retries then inr (RetryExhaustedError retries err)
            else inl (retries + 1)))
      end
  end.

(** One iteration of the loop. *)
(* go: internal/scheduler/scheduler.go 98-153 Run *)
Definition Run_iteration (retries : Z) : prog (Z + error) :=
  canceled ← perform CtxErr;
  match canceled with
  | Some err => mret (inr err)
  | None =>
      now ← perform Now;
      let '(task, nextRunAt) :=
        if 0 <? retries then (TaskFunding, now + NonfatalRetryDelay) else NextScheduledTaskUTC now in
      let delay := nextRunAt - now in
      if delay <? 0 then mret (inr (Errorf "next scheduled run precedes current time" []))
      else
        timer ← perform (NewTimer delay);
        if negb timer then mret (inr (Errorf "scheduler timer is not initialized" []))
        else
          when (sch_onWait s) (OnWait task nextRunAt) ≫= fun _ =>
          wait ← perform Wait;
          match wait with
          | CtxDone err => mret (inr err)
          | Fired => run_task task retries
          end
  end.

(* go: internal/scheduler/scheduler.go 97-153 Run *)
Fixpoint Run_loop (fuel : nat) (retries : Z) : prog (Z + error) :=
  match fuel with
  | O => mret (inl retries)
  | S fuel =>
      r ← Run_iteration retries;
      match r with inl retries => Run_loop fuel retries | inr err => mret (inr err) end
  end.

(* go: internal/scheduler/scheduler.go 82-154 Run *)
Definition Run (ctx initialized callbacks : bool) (fuel : nat) : prog (Z + error) :=
  if negb ctx then mret (inr (Errorf "scheduler context is nil" []))
  else if negb (initialized && sch_now s && sch_newTimer s)
  then mret (inr (Errorf "scheduler is not initialized" []))
  else if negb callbacks then mret (inr (Errorf "scheduler callbacks are required" []))
  else Run_loop fuel 0.
End Run.
