(* ===== verification/SchedulerTheorems.v ===== *)
(** * What the scheduler guarantees

    The next task is the earliest of the daily instants ([next_task_spec]);
    tasks run only at their instants, and retries only after one minute, at
    most five in a row ([scheduler_discipline]); with a punctual environment
    every day brings one consolidation and one funding run ([daily_cycle]),
    and a funding task that keeps failing stops the service after six attempts
    ([persistent_failure_stops]). *)

From S2P Require Import Prelude Clock Prog Crash Scheduler.

(** ** The daily instants *)

Lemma today_at_eq now h : today_at now h = now / Day * Day + h * Hour.
Proof.
  unfold today_at. pose proof (Date_of_time now h) as Hd.
  by destruct (civil_of_days (days_of_time now)) as [[y m] d].
Qed.

Lemma day_bounds t : t / Day * Day <= t < t / Day * Day + Day.
Proof. pose proof (Z.div_mod t Day ltac:(done)). pose proof (Z.mod_pos_bound t Day ltac:(done)). lia. Qed.

(** The specification: consolidation at every midnight, funding at every
    01:00. *)
Definition scheduled (task : Task) (t : Z) : Prop :=
  match task with TaskConsolidation => t mod Day = 0 | TaskFunding => t mod Day = Hour end.

Lemma scheduled_midnight k : scheduled TaskConsolidation (k * Day).
Proof. apply Z.mod_mul. done. Qed.

Lemma scheduled_one k : scheduled TaskFunding (k * Day + Hour).
Proof. unfold scheduled. rewrite Z.add_comm, Z.mod_add by done. done. Qed.

Lemma scheduled_cases task t : scheduled task t -> exists k, t = k * Day \/ t = k * Day + Hour.
Proof.
  exists (t / Day). pose proof (Z.div_mod t Day ltac:(done)). destruct task; unfold scheduled in *; lia.
Qed.

(** The next task is the earliest daily instant that has not passed, with
    the task of that instant; it is less than a day away. *)
Theorem next_task_spec now :
  let '(task, at_) := NextScheduledTaskUTC now in
  scheduled task at_ /\ now <= at_ <= now + 23 * Hour /\
  forall task' t, scheduled task' t -> now <= t -> at_ <= t.
Proof.
  unfold NextScheduledTaskUTC, AddDays. rewrite !today_at_eq.
  unfold dailyConsolidationHourUTC, dailyRunHourUTC. rewrite Z.mul_0_l, Z.add_0_r, Z.mul_1_l.
  pose proof (day_bounds now) as Hb. set (k := now / Day) in *.
  assert (Hnext : forall task' t, scheduled task' t -> exists j, (t = j * Day \/ t = j * Day + Hour)) by eauto using scheduled_cases.
  unfold Day, Hour, Minute, Second in *.
  destruct (Z.ltb_spec (k * (24 * (60 * (60 * 1000000000)))) now) as [H0|H0]; cbn [negb].
  - destruct (Z.ltb_spec (k * (24 * (60 * (60 * 1000000000))) + 60 * (60 * 1000000000)) now) as [H1|H1]; cbn [negb].
    + split; [replace (_ + _) with ((k + 1) * Day) by (unfold Day, Hour, Minute, Second; lia); apply scheduled_midnight|].
      split; [lia|]. intros task' t (j & Hj)%Hnext Ht. lia.
    + split; [apply (scheduled_one k)|]. split; [lia|]. intros task' t (j & Hj)%Hnext Ht. lia.
  - split; [apply (scheduled_midnight k)|]. split; [lia|]. intros task' t (j & Hj)%Hnext Ht. lia.
Qed.

(** [NextDailyRunUTC] is the first 01:00 strictly after the given time. *)
Theorem next_daily_run_spec now :
  scheduled TaskFunding (NextDailyRunUTC now) /\ now < NextDailyRunUTC now <= now + Day /\
  forall t, scheduled TaskFunding t -> now < t -> NextDailyRunUTC now <= t.
Proof.
  unfold NextDailyRunUTC, AddDays. rewrite !today_at_eq. unfold dailyRunHourUTC. rewrite Z.mul_1_l.
  pose proof (day_bounds now) as Hb. set (k := now / Day) in *.
  assert (Hnext : forall t, scheduled TaskFunding t -> exists j, t = j * Day + Hour).
  { intros t Ht. exists (t / Day). pose proof (Z.div_mod t Day ltac:(done)). unfold scheduled in Ht. lia. }
  unfold Day, Hour, Minute, Second in *.
  destruct (Z.ltb_spec now (k * (24 * (60 * (60 * 1000000000))) + 60 * (60 * 1000000000))) as [H0|H0]; cbn [negb].
  - split; [apply (scheduled_one k)|]. split; [lia|]. intros t (j & ->)%Hnext Ht. lia.
  - split; [|split; [lia|intros t (j & ->)%Hnext Ht; lia]].
    replace (_ + _ + _) with ((k + 1) * Day + Hour) by (unfold Day, Hour, Minute, Second; lia). apply scheduled_one.
Qed.

(** ** The discipline of the loop *)

(** What an observer of the operations knows: the last time read, the instant
    the timer was set for and whether it fired, the funding failures in a row
    with the last one, and the error of the context. *)
Record observer : Type := mkObserver {
  ob_now : Z;
  ob_set : Z;
  ob_fired : bool;
  ob_failures : Z;
  ob_last : option error;
  ob_ctx : option error
}.
#[export] Instance observer_settable : Settable observer := fun w =>
  mkObserver (ob_now w) (ob_set w) (ob_fired w) (ob_failures w) (ob_last w) (ob_ctx w).

Definition observe (w : observer) (o : SchedOp) : SchedResp o -> observer :=
  match o with
  | CtxErr => fun r => match r with Some e => w <| ob_ctx := Some e |> | None => w end
  | Now => fun r => w <| ob_now := r |>
  | NewTimer delay => fun _ => w <| ob_set := ob_now w + delay |>
  | Wait => fun r => match r with CtxDone e => w <| ob_ctx := Some e |> | Fired => w <| ob_fired := true |> end
  | Consolidate => fun _ => w <| ob_fired := false |>
  | RunFunding => fun r =>
      match r with
      | None => w <| ob_fired := false |> <| ob_failures := 0 |> <| ob_last := None |>
      | Some e => w <| ob_fired := false |> <| ob_failures ::= Z.succ |> <| ob_last := Some e |>
      end
  | _ => fun _ => w
  end.

(** Consolidation runs at a midnight and never between the retries of a
    funding task; funding runs at 01:00, or one minute after a failure that is
    not fatal and is not the sixth in a row. *)
Definition may_perform (w : observer) (o : SchedOp) : Prop :=
  match o with
  | NewTimer delay => 0 <= delay <= 23 * Hour
  | Consolidate => ob_fired w = true /\ ob_failures w = 0 /\ scheduled TaskConsolidation (ob_set w)
  | RunFunding => ob_fired w = true /\
      (ob_failures w = 0 /\ scheduled TaskFunding (ob_set w) \/
       1 <= ob_failures w <= 5 /\ ob_set w = ob_now w + Minute /\ exists e, ob_last w = Some e /\ isFatal e = false)
  | _ => True
  end.

Definition discipline : protocol observer := {| allowed := may_perform; step w o r w' := w' = observe w o r |}.

(** Why the loop returns. *)
Definition stops (w : observer) (err : error) : Prop :=
  ob_ctx w = Some err \/
  (ob_last w = Some err /\ isFatal err = true) \/
  (exists last, err = RetryExhaustedError 5 last /\ ob_last w = Some last /\ isFatal last = false /\ ob_failures w = 6) \/
  err = Errorf "scheduler timer is not initialized" [].

(** Between two iterations the counter is the number of failures in a row. *)
Definition counts (w : observer) (retries : Z) : Prop :=
  ob_failures w = retries /\ 0 <= retries <= 5 /\
  (retries = 0 \/ exists e, ob_last w = Some e /\ isFatal e = false).

Definition after_iteration (r : Z + error) (w : observer) : Prop :=
  match r with inl retries => counts w retries | inr err => stops w err end.

Section Discipline.
Variable s : Scheduler.

Ltac perform_op := split; [first [exact I|assumption|idtac]|intros ? ? ->].

Lemma wp_when {W : Type} (P : protocol W) w b o {B : Type} (k : prog B) Q :
  allowed P w o -> (forall r w', step P w o r w' -> wp P w' k Q) -> wp P w k Q ->
  wp P w (when b o ≫= fun _ => k) Q.
Proof. intros Ho Hs Hk. destruct b; simpl; [|done]. by split. Qed.

Lemma after_failure_spec w task err k (Q : Z + error -> observer -> Prop) :
  (forall e, Q (inr e) (w <| ob_ctx := Some e |>)) -> wp discipline w k Q ->
  wp discipline w (after_failure s task err k) Q.
Proof.
  intros HQ Hk. split; [done|]. intros [e|] w' ->; [apply HQ|]. apply wp_when; [exact I|intros r w' ->; exact Hk|exact Hk].
Qed.

Lemma run_task_spec w task retries :
  counts w retries -> may_perform w (match task with TaskConsolidation => Consolidate | TaskFunding => RunFunding end) ->
  wp discipline w (run_task s task retries) after_iteration.
Proof.
  intros (Hf & Hr & Hl) Hmay. destruct task; (split; [exact Hmay|]); intros [err|] w' ->.
  - apply after_failure_spec; [intros e; by left|done].
  - done.
  - apply after_failure_spec; [intros e; by left|]. cbn [wp mret prog_ret].
    destruct (isFatal err) eqn:Efatal; [right; left; done|].
    unfold MaxNonfatalRetries. destruct (Z.leb_spec 5 retries).
    + right. right. left. exists err. split; [f_equal; lia|]. split; [done|]. split; [done|]. simpl. lia.
    + split; [simpl; lia|]. split; [lia|]. right. by exists err.
  - split; [done|]. split; [lia|]. by left.
Qed.

Lemma Run_iteration_spec w retries : counts w retries -> wp discipline w (Run_iteration s retries) after_iteration.
Proof.
  intros Hc. split; [done|]. intros [err|] w' ->; [by left|]. split; [done|]. intros now w' ->.
  pose proof (next_task_spec now) as Hnext.
  unfold prog_mbind at 1. cbn [prog_bind].
  set (next := if 0 <? retries then (TaskFunding, now + NonfatalRetryDelay) else NextScheduledTaskUTC now).
  assert (match next with (task, at_) =>
    now <= at_ <= now + 23 * Hour /\
    (retries = 0 /\ scheduled task at_ \/ 1 <= retries /\ task = TaskFunding /\ at_ = now + Minute) end) as Hspec.
  { unfold next. destruct (Z.ltb_spec 0 retries).
    - unfold NonfatalRetryDelay, Hour, Minute, Second. split; [lia|]. right. split; [lia|done].
    - destruct (NextScheduledTaskUTC now) as [task at_]. destruct Hnext as (H1 & H2 & _). split; [done|]. left.
      destruct Hc as (_ & ? & _). split; [lia|done]. }
  destruct next as [task at_]. destruct Hspec as [Hat Hwhy].
  destruct (Z.ltb_spec (at_ - now) 0) as [Hneg|_]; [lia|].
  split; [simpl; lia|]. intros [] w' ->; cbn [negb]; [|right; right; right; done].
  apply (wp_when discipline); [exact I|intros r w' ->|];
    (split; [done|]); (intros [err|] w' ->; [by left|]); apply run_task_spec; try exact Hc;
    cbn [observe]; destruct Hc as (Hf & Hr & Hl);
    destruct Hwhy as [[H0 Hs]|(H1 & -> & ->)]; try (destruct task); split_and!; try done; simpl.
  all: try lia.
  all: try (replace (now + (at_ - now)) with at_ by lia; exact Hs).
  all: try (left; split; [lia|replace (now + (at_ - now)) with at_ by lia; exact Hs]).
  all: right; split; [lia|]; split; [lia|]; destruct Hl as [->|Hl]; [lia|done].
Qed.

Lemma Run_loop_spec fuel w retries : counts w retries -> wp discipline w (Run_loop s fuel retries) after_iteration.
Proof.
  revert w retries. induction fuel as [|fuel IH]; intros w retries Hc; [done|].
  cbn [Run_loop]. unfold mbind, prog_mbind. apply wp_bind. eapply wp_mono; [|by apply Run_iteration_spec].
  intros [retries'|err] w' H; [by apply IH|done].
Qed.
End Discipline.

Definition observer_start : observer := mkObserver 0 0 false 0 None None.

(** C19: whatever the clock, the tasks and the context do, the loop runs the
    consolidation only at a midnight and never between retries, and funding
    only at 01:00 or one minute after one of at most five consecutive
    failures none of which is fatal; and it returns only the context's error,
    a fatal error, or the exhaustion after six failures in a row. *)
Theorem scheduler_discipline s fuel tr w m :
  partial discipline observer_start (Run_loop s fuel 0) tr w m ->
  (forall o k, m = Call o k -> may_perform w o) /\ (forall err, m = Ret (inr err) -> stops w err).
Proof.
  intros Hp. assert (counts observer_start 0) as Hc by (split; [done|]; split; [lia|]; by left).
  pose proof (wp_partial _ _ _ _ _ _ _ Hp (Run_loop_spec s fuel _ _ Hc)) as Hw. split.
  - intros o k ->. by destruct Hw.
  - intros err ->. exact Hw.
Qed.

(** ** A punctual environment *)

(** The time, the instant the timer is set for, and the tasks run so far with
    the instants they were run for. *)
Record clock : Type := mkClock { ck_time : Z; ck_timer : Z; ck_log : list (Task * Z) }.
#[export] Instance clock_settable : Settable clock := fun w => mkClock (ck_time w) (ck_timer w) (ck_log w).

Definition ran (task : Task) (t : Z) (w : clock) : clock :=
  w <| ck_time := t |> <| ck_log ::= (fun l => l ++ [(task, ck_timer w)]) |>.

(** The context stays alive, timers do not fire early, a task takes some time;
    a consolidation, failed or not, is over within the hour, and funding
    answers [funding] before the next midnight. *)
Definition punctual_step (funding : option error) (w : clock) (o : SchedOp) : SchedResp o -> clock -> Prop :=
  match o with
  | CtxErr => fun r w' => r = None /\ w' = w
  | Now => fun r w' => r = ck_time w /\ w' = w
  | NewTimer delay => fun r w' => r = true /\ w' = w <| ck_timer := ck_time w + delay |>
  | Wait => fun r w' => r = Fired /\ exists t, ck_timer w <= t /\ w' = w <| ck_time := t |>
  | Consolidate => fun _ w' => exists t, ck_time w < t <= ck_timer w + Hour /\ w' = ran TaskConsolidation t w
  | RunFunding => fun r w' => r = funding /\ exists t, ck_time w < t <= ck_timer w + 23 * Hour /\ w' = ran TaskFunding t w
  | _ => fun _ w' => w' = w
  end.

Definition punctual (funding : option error) : protocol clock :=
  {| allowed _ _ := True; step := punctual_step funding |}.

(** The tasks of the [n] days after day [d]. *)
Fixpoint days (d : Z) (n : nat) : list (Task * Z) :=
  match n with
  | O => []
  | S n => (TaskConsolidation, (d + 1) * Day) :: (TaskFunding, (d + 1) * Day + Hour) :: days (d + 1) n
  end.

Lemma next_task_is now task t : scheduled task t -> now <= t ->
  (forall task' t', scheduled task' t' -> now <= t' -> t <= t') -> NextScheduledTaskUTC now = (task, t).
Proof.
  intros Ht Hn Hmin. pose proof (next_task_spec now) as Hs. destruct (NextScheduledTaskUTC now) as [task' t'].
  destruct Hs as (Ht' & Hn' & Hmin'). assert (t' = t) as -> by (apply Z.le_antisymm; eauto using Z.le_trans; apply (Hmin task'); [done|lia]).
  f_equal. destruct task, task'; try done; unfold scheduled in *; rewrite Ht in Ht'; by cbv in Ht'.
Qed.

Lemma next_in_hour now d : d * Day < now <= d * Day + Hour -> NextScheduledTaskUTC now = (TaskFunding, d * Day + Hour).
Proof.
  intros H. apply next_task_is; [apply scheduled_one|lia|]. intros task t (k & Hk)%scheduled_cases Ht.
  unfold Day, Hour, Minute, Second in *. lia.
Qed.

Lemma next_in_day now d : d * Day + Hour < now <= (d + 1) * Day -> NextScheduledTaskUTC now = (TaskConsolidation, (d + 1) * Day).
Proof.
  intros H. apply next_task_is; [apply scheduled_midnight|lia|]. intros task t (k & Hk)%scheduled_cases Ht.
  unfold Day, Hour, Minute, Second in *. lia.
Qed.

Section Punctual.
Variable s : Scheduler.
Variable funding : option error.
Notation P := (punctual funding).

Lemma punctual_when w o {B : Type} (b : bool) (k : prog B) Q :
  (forall r w', punctual_step funding w o r w' -> w' = w) -> wp P w k Q -> wp P w (when b o ≫= fun _ => k) Q.
Proof. intros Hw Hk. apply wp_when; [done| |done]. intros r w' ->%Hw. exact Hk. Qed.

(** One iteration under a punctual environment. *)
Lemma punctual_iteration w retries task at_ Q :
  (if 0 <? retries then (TaskFunding, ck_time w + NonfatalRetryDelay) else NextScheduledTaskUTC (ck_time w)) = (task, at_) ->
  ck_time w <= at_ ->
  (forall t, at_ <= t -> wp P (mkClock t at_ (ck_log w)) (run_task s task retries) Q) ->
  wp P w (Run_iteration s retries) Q.
Proof.
  intros Hnext Hat Hk. split; [done|]. intros r w' [-> ->]. split; [done|]. intros now w' [-> ->].
  unfold prog_mbind at 1. cbn [prog_bind]. rewrite Hnext.
  destruct (Z.ltb_spec (at_ - ck_time w) 0) as [Hneg|_]; [lia|].
  split; [done|]. intros r w' [-> ->]. cbn [negb]. apply (punctual_when _ _ (sch_onWait s)); [by intros r w' ->|].
  split; [done|]. intros r w' [-> (t & Ht & ->)]. cbn in Ht.
  assert (at_ <= t) as Hle by lia. specialize (Hk t Hle). revert Hk.
  replace (w <| ck_timer := ck_time w + (at_ - ck_time w) |> <| ck_time := t |>) with (mkClock t at_ (ck_log w)); [done|].
  cbn. f_equal. lia.
Qed.

Lemma punctual_consolidation w retries (Q : Z + error -> clock -> Prop) :
  (forall t, ck_time w < t <= ck_timer w + Hour -> Q (inl retries) (ran TaskConsolidation t w)) ->
  wp P w (run_task s TaskConsolidation retries) Q.
Proof.
  intros HQ. split; [done|]. intros [err|] w' (t & Ht & ->); [|by apply HQ].
  split; [done|]. intros r w' [-> ->]. apply (punctual_when _ _ (sch_onError s)); [by intros r w' ->|]. by apply HQ.
Qed.

Lemma punctual_funding w retries (Q : Z + error -> clock -> Prop) :
  (forall t, ck_time w < t <= ck_timer w + 23 * Hour -> Q (match funding with
     | None => inl 0
     | Some err => if isFatal err then inr err
                   else if 5 <=? retries then inr (RetryExhaustedError retries err) else inl (retries + 1)
     end) (ran TaskFunding t w)) ->
  wp P w (run_task s TaskFunding retries) Q.
Proof.
  intros HQ. split; [done|]. intros r w' [-> (t & Ht & ->)]. specialize (HQ t Ht). destruct funding as [err|]; [|exact HQ].
  split; [done|]. intros r w' [-> ->]. apply wp_when; [exact I|intros r w' ->; exact HQ|exact HQ].
Qed.
End Punctual.

Definition in_day (d t : Z) : Prop := d * Day + Hour < t <= (d + 1) * Day.

Lemma day_cycle s w d : in_day d (ck_time w) ->
  wp (punctual None) w (Run_loop s 2 0) (fun r w' =>
    r = inl 0 /\ in_day (d + 1) (ck_time w') /\
    ck_log w' = ck_log w ++ [(TaskConsolidation, (d + 1) * Day); (TaskFunding, (d + 1) * Day + Hour)]).
Proof.
  intros Hd. cbn [Run_loop]. apply wp_bind.
  eapply punctual_iteration; [by apply next_in_day|unfold in_day in Hd; lia|].
  intros t Ht. apply punctual_consolidation. cbn [ck_time ck_timer]. intros t1 Ht1. cbv beta iota. apply wp_bind.
  eapply punctual_iteration; [apply (next_in_hour _ (d + 1)); cbn; lia|cbn; lia|].
  intros t2 Ht2. apply punctual_funding. cbn [ck_time ck_timer]. intros t3 Ht3. cbv beta iota.
  split; [done|]. split.
  - change (in_day (d + 1) t3). unfold in_day, Day, Hour, Minute, Second in *. lia.
  - simpl. by rewrite <- app_assoc.
Qed.

(** C20: when nothing is late - timers fire, a consolidation ends within its
    hour whether it fails or not, funding succeeds before the next midnight -
    the loop never stops, and every day it runs the consolidation for 00:00
    and then the funding for 01:00, once each. *)
Theorem daily_cycle s n d tr start w r :
  in_day d (ck_time start) ->
  partial (punctual None) start (Run_loop s (n + n) 0) tr w (Ret r) ->
  r = inl 0 /\ in_day (d + Z.of_nat n) (ck_time w) /\ ck_log w = ck_log start ++ days d n.
Proof.
  intros Hd Hp. assert (wp (punctual None) start (Run_loop s (n + n) 0) (fun r w =>
    r = inl 0 /\ in_day (d + Z.of_nat n) (ck_time w) /\ ck_log w = ck_log start ++ days d n)) as Hw.
  2: exact (wp_partial _ _ _ _ _ _ _ Hp Hw).
  clear Hp. revert d start Hd. induction n as [|n IH]; intros d start Hd.
  - cbn. rewrite app_nil_r, Z.add_0_r. done.
  - replace (S n + S n)%nat with (2 + (n + n))%nat by lia. pose proof (day_cycle s start d Hd) as H2.
    cbn [Run_loop plus] in H2 |- *. unfold mbind, prog_mbind in *. apply wp_bind. apply wp_bind in H2.
    eapply wp_mono; [|exact H2]. intros [r1|err] w1 H1; [|by destruct H1].
    apply wp_bind. apply wp_bind in H1. eapply wp_mono; [|exact H1]. intros [r2|err] w2 (E & Hd2 & Hlog); [|done].
    injection E as ->. eapply wp_mono; [|by apply (IH (d + 1))]. intros r3 w3 (-> & Hd3 & Hlog3).
    split; [done|]. split; [by replace (d + Z.of_nat (S n)) with (d + 1 + Z.of_nat n) by lia|].
    rewrite Hlog3, Hlog, <- app_assoc. done.
Qed.

(** ** Persistent failure *)

Definition funding_runs (l : list (Task * Z)) : nat := length (filter (fun e => fst e = TaskFunding) l).

Lemma funding_runs_app l l' : funding_runs (l ++ l') = (funding_runs l + funding_runs l')%nat.
Proof. unfold funding_runs. by rewrite filter_app, length_app. Qed.

Lemma ran_runs task t w :
  funding_runs (ck_log (ran task t w)) = (funding_runs (ck_log w) + if decide (task = TaskFunding) then 1 else 0)%nat.
Proof. change (ck_log (ran task t w)) with (ck_log w ++ [(task, ck_timer w)]). rewrite funding_runs_app. by destruct task. Qed.

Lemma retries_exhaust s err j fuel w :
  isFatal err = false -> (j < fuel)%nat -> (j <= 4)%nat ->
  wp (punctual (Some err)) w (Run_loop s fuel (5 - Z.of_nat j)) (fun r w' =>
    r = inr (RetryExhaustedError 5 err) /\ funding_runs (ck_log w') = (funding_runs (ck_log w) + S j)%nat).
Proof.
  intros Herr. revert fuel w. induction j as [|j IH]; intros fuel w Hfuel Hj; (destruct fuel as [|fuel]; [lia|]);
    cbn [Run_loop]; apply wp_bind; (eapply punctual_iteration; [rewrite (proj2 (Z.ltb_lt 0 _)) by lia; reflexivity| |]);
    try (unfold NonfatalRetryDelay, Minute, Second; lia); intros t Ht; apply punctual_funding; cbn [ck_time ck_timer];
    intros t1 Ht1; rewrite Herr.
  - split; [done|]. by rewrite ran_runs.
  - rewrite (proj2 (Z.leb_gt 5 _)) by lia. cbv beta iota. replace (5 - Z.of_nat (S j) + 1) with (5 - Z.of_nat j) by lia.
    eapply wp_mono; [|apply IH; lia]. intros r w' [-> Hw']. split; [done|]. rewrite Hw'.
    rewrite ran_runs. simpl. lia.
Qed.

(** The first attempt and the five retries. *)
Lemma attempts_exhaust s err w d : isFatal err = false -> d * Day < ck_time w <= d * Day + Hour ->
  wp (punctual (Some err)) w (Run_loop s 6 0) (fun r w' =>
    r = inr (RetryExhaustedError 5 err) /\ funding_runs (ck_log w') = (funding_runs (ck_log w) + 6)%nat).
Proof.
  intros Herr Hd. cbn [Run_loop]. apply wp_bind. eapply punctual_iteration; [by apply next_in_hour|lia|].
  intros t Ht. apply punctual_funding. cbn [ck_time ck_timer]. intros t1 Ht1. rewrite Herr. cbv beta iota.
  eapply wp_mono; [|apply (retries_exhaust s err 4 5); [done|lia|lia]]. intros r w' [-> Hw']. split; [done|].
  rewrite Hw'. rewrite ran_runs. simpl. lia.
Qed.

(** A funding task that keeps failing without a fatal error stops the
    service: at the latest in the second of two scheduled tasks the loop
    starts six attempts and then returns the exhaustion with the last error. *)
Theorem persistent_failure_stops s err tr start w r :
  isFatal err = false ->
  partial (punctual (Some err)) start (Run_loop s 7 0) tr w (Ret r) ->
  r = inr (RetryExhaustedError 5 err) /\ funding_runs (ck_log w) = (funding_runs (ck_log start) + 6)%nat.
Proof.
  intros Herr Hp. apply (fun H => wp_partial _ _ _ _ _ _ (fun r w => r = inr (RetryExhaustedError 5 err) /\
    funding_runs (ck_log w) = (funding_runs (ck_log start) + 6)%nat) Hp H).
  pose proof (next_task_spec (ck_time start)) as Hs.
  assert (exists d, d * Day < ck_time start <= d * Day + Hour \/ in_day d (ck_time start)) as [d Hd].
  { exists ((ck_time start - 1) / Day). pose proof (day_bounds (ck_time start - 1)). unfold in_day.
    unfold Day, Hour, Minute, Second in *. lia. }
  destruct Hd as [Hd|Hd].
  - change (Run_loop s 7 0) with (r ← Run_iteration s 0; match r with inl retries => Run_loop s 6 retries | inr e => mret (inr e) end).
    apply wp_bind. eapply punctual_iteration; [by apply next_in_hour|lia|].
    intros t Ht. apply punctual_funding. cbn [ck_time ck_timer]. intros t1 Ht1. rewrite Herr. cbv beta iota.
    eapply wp_mono; [|apply (retries_exhaust s err 4 6); [done|lia|lia]]. intros r1 w' [-> Hw']. split; [done|].
    rewrite Hw'. rewrite ran_runs. simpl. lia.
  - change (Run_loop s 7 0) with (r ← Run_iteration s 0; match r with inl retries => Run_loop s 6 retries | inr e => mret (inr e) end).
    apply wp_bind. eapply punctual_iteration; [by apply next_in_day|unfold in_day in Hd; lia|].
    intros t Ht. apply punctual_consolidation. cbn [ck_time ck_timer]. intros t1 Ht1. cbv beta iota.
    eapply wp_mono; [|apply (attempts_exhaust s err _ (d + 1)); [done|simpl; lia]]. intros r1 w' [-> Hw']. split; [done|].
    rewrite Hw'. rewrite ran_runs. simpl. lia.
Qed.

(** A consolidation that ends after 01:00 is followed by the next day's
    consolidation: the funding task of its day is not run. *)
Lemma late_consolidation_skips_funding d now :
  d * Day + Hour < now <= (d + 1) * Day -> NextScheduledTaskUTC now = (TaskConsolidation, (d + 1) * Day).
Proof. apply next_in_day. Qed.

(** ** Witnesses *)

(** Timers fire on time and tasks take a second. *)
Definition punctual_env (funding : option error) (w : clock) (o : SchedOp) : option (SchedResp o * clock) :=
  match o return option (SchedResp o * clock) with
  | CtxErr => Some (None, w)
  | Now => Some (ck_time w, w)
  | NewTimer delay => Some (true, w <| ck_timer := ck_time w + delay |>)
  | Wait => Some (Fired, w <| ck_time := ck_timer w |>)
  | OnWait _ _ | OnError _ _ => Some (tt, w)
  | Consolidate =>
      if decide (ck_time w + Second <= ck_timer w + Hour)
      then Some (Some Canceled, ran TaskConsolidation (ck_time w + Second) w) else None
  | RunFunding =>
      if decide (ck_time w + Second <= ck_timer w + 23 * Hour)
      then Some (funding, ran TaskFunding (ck_time w + Second) w) else None
  end.

Lemma punctual_env_step funding w o r w' : punctual_env funding w o = Some (r, w') -> punctual_step funding w o r w'.
Proof.
  destruct o; simpl; try (by intros [= <- <-]).
  - intros [= <- <-]. split; [done|]. exists (ck_timer w). split; [lia|done].
  - case_decide; [|done]. intros [= <- <-]. exists (ck_time w + Second). unfold Second in *. split; [lia|done].
  - case_decide; [|done]. intros [= <- <-]. split; [done|]. exists (ck_time w + Second). unfold Second in *. split; [lia|done].
Qed.

Lemma punctual_run funding s fuel start r :
  fst (exec (punctual_env funding) start (Run_loop s fuel 0)) = Ret r ->
  partial (punctual funding) start (Run_loop s fuel 0) (exec_trace (punctual_env funding) start (Run_loop s fuel 0))
    (snd (exec (punctual_env funding) start (Run_loop s fuel 0))) (Ret r).
Proof. intros <-. apply (exec_partial (punctual funding) id). apply punctual_env_step. Qed.

Definition noon : clock := mkClock (12 * Hour) 0 [].
Definition production : Scheduler := mkScheduler true true true true.

Lemma daily_cycle_witness : exists tr w,
  partial (punctual None) noon (Run_loop production 4 0) tr w (Ret (inl 0)) /\
  ck_log w = [(TaskConsolidation, Day); (TaskFunding, Day + Hour); (TaskConsolidation, 2 * Day); (TaskFunding, 2 * Day + Hour)].
Proof.
  pose proof (punctual_run None production 4 noon (inl 0) ltac:(vm_compute; reflexivity)) as Hp.
  assert (in_day 0 (ck_time noon)) as Hd by (unfold in_day; vm_compute; split; [reflexivity|discriminate]).
  destruct (daily_cycle production 2 0 _ noon _ _ Hd Hp) as (_ & _ & Hlog).
  exact (ex_intro _ _ (ex_intro _ _ (conj Hp Hlog))).
Defined.

Lemma persistent_failure_stops_witness : exists tr w,
  partial (punctual (Some DeadlineExceeded)) noon (Run_loop production 7 0) tr w (Ret (inr (RetryExhaustedError 5 DeadlineExceeded))) /\
  funding_runs (ck_log w) = 6%nat.
Proof.
  pose proof (punctual_run (Some DeadlineExceeded) production 7 noon (inr (RetryExhaustedError 5 DeadlineExceeded))
    ltac:(vm_compute; reflexivity)) as Hp.
  destruct (persistent_failure_stops production DeadlineExceeded _ noon _ _ eq_refl Hp) as (_ & Hlog).
  exact (ex_intro _ _ (ex_intro _ _ (conj Hp Hlog))).
Defined.

Lemma scheduler_discipline_witness : exists tr w k,
  partial discipline observer_start (Run_loop production 1 0) tr w (Call RunFunding k) /\ may_perform w RunFunding.
Proof.
  assert (exists tr w k, partial discipline observer_start (Run_loop production 1 0) tr w (Call RunFunding k)) as (tr & w & k & Hp).
  { do 3 eexists. eapply (partial_cons discipline observer_start CtxErr None); [reflexivity|].
    eapply (partial_cons discipline _ Now Hour); [reflexivity|].
    eapply (partial_cons discipline _ (NewTimer 0) true); [reflexivity|].
    eapply (partial_cons discipline _ (OnWait TaskFunding Hour) tt); [reflexivity|].
    eapply (partial_cons discipline _ Wait Fired); [reflexivity|]. apply partial_nil. }
  exists tr, w, k. exact (conj Hp (proj1 (scheduler_discipline production 1 tr w _ Hp) RunFunding k eq_refl)).
Defined.
