(* ===== verification/Msgpack.v ===== *)
(** * MessagePack

    [internal/hyperliquid/signing/msgpack.go]: the encoding of the actions
    whose hash is signed.  Values are those of [wire.Object]; an [any] of
    another dynamic type is [WOther].

    [unpack] is not in the source: it is the reading of the format, in terms
    of which the encoding is shown to be injective and prefix free. *)

From S2P Require Import Prelude Clock Sha256.

(** * Byte strings

    Big-endian integers and the conversion between strings and lists of
    byte values, with the lemmas the wire formats share. *)

Definition is_byte (b : Z) : Prop := 0 <= b < 256.

(** The value of a big-endian byte string. *)
Definition be_value (l : list Z) : Z := fold_left (fun v b => v * 256 + b) l 0.

(** The first [n] bytes and the rest. *)
Definition take_bytes (n : nat) (l : list Z) : option (list Z * list Z) :=
  if (length l <? n)%nat then None else Some (firstn n l, skipn n l).

Lemma take_bytes_app a r n : length a = n -> take_bytes n (a ++ r) = Some (a, r).
Proof.
  intros <-. unfold take_bytes. rewrite length_app. destruct (Nat.ltb_spec (length a + length r) (length a)); [lia|].
  by rewrite firstn_app, skipn_app, Nat.sub_diag, firstn_all, skipn_all, app_nil_r.
Qed.

Lemma length_be_bytes n z : length (be_bytes n z) = n.
Proof. induction n; simpl; auto. Qed.

Lemma be_value_from l v : fold_left (fun v b => v * 256 + b) l v = v * 256 ^ Z.of_nat (length l) + be_value l.
Proof.
  unfold be_value. revert v. induction l as [|b l IH]; intros v; [simpl; lia|].
  cbn [fold_left length]. rewrite (IH (v * 256 + b)), (IH (0 * 256 + b)), Nat2Z.inj_succ, Z.pow_succ_r by lia. lia.
Qed.

Lemma be_value_cons b l : be_value (b :: l) = b * 256 ^ Z.of_nat (length l) + be_value l.
Proof. unfold be_value at 1. cbn [fold_left]. rewrite be_value_from. lia. Qed.

Lemma be_value_bytes n z : be_value (be_bytes n z) = z mod 256 ^ Z.of_nat n.
Proof.
  induction n as [|n IH]; [by rewrite Z.mod_1_r|].
  cbn [be_bytes]. rewrite be_value_cons, length_be_bytes, IH, Nat2Z.inj_succ, Z.pow_succ_r by lia.
  rewrite Z.shiftr_div_pow2 by lia. replace (2 ^ (8 * Z.of_nat n)) with (256 ^ Z.of_nat n) by (rewrite Z.pow_mul_r by lia; done).
  set (p := 256 ^ Z.of_nat n). assert (0 < p) by (apply Z.pow_pos_nonneg; lia).
  rewrite (Z.mul_comm 256 p), Z.rem_mul_r by lia. lia.
Qed.

Lemma be_value_small n z : 0 <= z < 256 ^ Z.of_nat n -> be_value (be_bytes n z) = z.
Proof. intros H. rewrite be_value_bytes. by apply Z.mod_small. Qed.

Lemma be_bytes_inj n a b : 0 <= a < 256 ^ Z.of_nat n -> 0 <= b < 256 ^ Z.of_nat n -> be_bytes n a = be_bytes n b -> a = b.
Proof. intros Ha Hb H. rewrite <- (be_value_small n a Ha), <- (be_value_small n b Hb). by rewrite H. Qed.

Lemma be_bytes_are_bytes n z : Forall is_byte (be_bytes n z).
Proof. induction n; simpl; constructor; [|done]. apply Z.mod_pos_bound. lia. Qed.

(** ** Strings *)

Lemma bytes_of_bytes_of_string s : bytes_of (bytes_of_string s) = s.
Proof.
  unfold bytes_of, bytes_of_string. induction s as [|c s IH]; [done|]. simpl. rewrite IH. unfold byte_of.
  by rewrite Nat2Z.id, ascii_nat_embedding.
Qed.

Lemma bytes_of_string_inj a b : bytes_of_string a = bytes_of_string b -> a = b.
Proof. intros H. by rewrite <- (bytes_of_bytes_of_string a), H, bytes_of_bytes_of_string. Qed.

Lemma length_bytes_of_string s : length (bytes_of_string s) = String.length s.
Proof. unfold bytes_of_string. rewrite length_map. induction s; simpl; auto. Qed.

Lemma bytes_of_string_are_bytes s : Forall is_byte (bytes_of_string s).
Proof.
  unfold bytes_of_string. induction s as [|c s IH]; [constructor|]. simpl. constructor; [|done].
  unfold byte_of, is_byte. pose proof (nat_ascii_bounded c). lia.
Qed.

(** Setting the high bits of a small length. *)
Lemma lor_small base n k : check_upto k 0 (fun l => Z.lor base l =? base + l) = true ->
  0 <= n < Z.of_nat k -> Z.lor base n = base + n.
Proof. intros Hc Hn. apply Z.eqb_eq. by apply (check_upto_correct k 0 _ n Hc). Qed.

(* go: internal/hyperliquid/wire/object.go 3-14 Object *)
Inductive wire_value : Type :=
| WNil
| WObject (fields : list (string * wire_value))
| WArray (values : list wire_value)
| WString (s : string)
| WBool (b : bool)
| WInt (z : Z)
| WUint (z : Z)
| WOther.

Definition cast8 (z : Z) : Z := z mod 256.

(* go: internal/hyperliquid/signing/msgpack.go 191-205 writeUint16 *)
Definition writeUint (n : nat) (z : Z) : list Z := be_bytes n z.

(* go: internal/hyperliquid/signing/msgpack.go 95-112 encodeMsgpackString *)
Definition encodeMsgpackString (value : string) : list Z :=
  let length := Z.of_nat (String.length value) in
  (if length <=? 31 then [Z.lor 160 (cast8 length)]
   else if length <=? 255 then [217; cast8 length]
   else if length <=? 65535 then 218 :: writeUint 2 length
   else 219 :: writeUint 4 length) ++ bytes_of_string value.

(* go: internal/hyperliquid/signing/msgpack.go 137-155 encodeMsgpackUint *)
Definition encodeMsgpackUint (value : Z) : list Z :=
  if value <=? 127 then [cast8 value]
  else if value <=? 255 then [204; cast8 value]
  else if value <=? 65535 then 205 :: writeUint 2 value
  else if value <=? 4294967295 then 206 :: writeUint 4 value
  else 207 :: writeUint 8 value.

(* go: internal/hyperliquid/signing/msgpack.go 114-135 encodeMsgpackInt *)
Definition encodeMsgpackInt (value : Z) : list Z :=
  if 0 <=? value then encodeMsgpackUint value
  else if -32 <=? value then [cast8 value]
  else if -128 <=? value then [208; cast8 value]
  else if -32768 <=? value then 209 :: writeUint 2 value
  else if -2147483648 <=? value then 210 :: writeUint 4 value
  else 211 :: writeUint 8 value.

(** A length is never negative. *)
(* go: internal/hyperliquid/signing/msgpack.go 157-172 encodeMsgpackMapLen *)
Definition encodeMsgpackMapLen (length : Z) : list Z :=
  if length <=? 15 then [Z.lor 128 (cast8 length)]
  else if length <=? 65535 then 222 :: writeUint 2 length
  else 223 :: writeUint 4 length.

(* go: internal/hyperliquid/signing/msgpack.go 174-189 encodeMsgpackArrayLen *)
Definition encodeMsgpackArrayLen (length : Z) : list Z :=
  if length <=? 15 then [Z.lor 144 (cast8 length)]
  else if length <=? 65535 then 220 :: writeUint 2 length
  else 221 :: writeUint 4 length.

Section Lists.
Variable enc : wire_value -> result (list Z).

(** The fields of an object after its length. *)
(* go: internal/hyperliquid/signing/msgpack.go 65-81 encodeMsgpackObject *)
Fixpoint encode_fields (fields : list (string * wire_value)) : result (list Z) :=
  match fields with
  | [] => Ok []
  | (key, value) :: fields =>
      if string_is_empty key then Err (Errorf "msgpack object field key is empty" [])
      else match enc value with
           | Err err => Err (Wrapf "encode field %q: %w" [key] err)
           | Ok bytes => let? rest := encode_fields fields in Ok (encodeMsgpackString key ++ bytes ++ rest)
           end
  end.

(* go: internal/hyperliquid/signing/msgpack.go 83-93 encodeMsgpackArray *)
Fixpoint encode_elements (index : Z) (values : list wire_value) : result (list Z) :=
  match values with
  | [] => Ok []
  | value :: values =>
      match enc value with
      | Err err => Err (Wrapf "encode array index %d: %w" [itoa index] err)
      | Ok bytes => let? rest := encode_elements (index + 1) values in Ok (bytes ++ rest)
      end
  end.
End Lists.

(* go: internal/hyperliquid/signing/msgpack.go 20-63 encodeMsgpackValue *)
Fixpoint encodeMsgpackValue (value : wire_value) : result (list Z) :=
  match value with
  | WNil => Ok [192]
  | WObject fields =>
      let? rest := encode_fields encodeMsgpackValue fields in Ok (encodeMsgpackMapLen (Z.of_nat (length fields)) ++ rest)
  | WArray values =>
      let? rest := encode_elements encodeMsgpackValue 0 values in
      Ok (encodeMsgpackArrayLen (Z.of_nat (length values)) ++ rest)
  | WString s => Ok (encodeMsgpackString s)
  | WBool b => Ok [if b then 195 else 194]
  | WInt z => Ok (encodeMsgpackInt z)
  | WUint z => Ok (encodeMsgpackUint z)
  | WOther => Err (Errorf "unsupported msgpack value type %T; Hyperliquid actions must use signing.Object and supported scalar or array values" [])
  end.

(* go: internal/hyperliquid/signing/msgpack.go 12-18 packMsgpack *)
Definition packMsgpack (value : wire_value) : result (list Z) := encodeMsgpackValue value.

(** ** Reading the format *)

Fixpoint unpack_n {A : Type} (one : list Z -> option (A * list Z)) (n : nat) (bs : list Z) : option (list A * list Z) :=
  match n with
  | O => Some ([], bs)
  | S n => '(a, bs) ← one bs; '(l, bs) ← unpack_n one n bs; Some (a :: l, bs)
  end.

Definition unpack_uint (n : nat) (bs : list Z) : option (Z * list Z) :=
  '(b, bs) ← take_bytes n bs; Some (be_value b, bs).

Definition unpack_string_n (n : Z) (bs : list Z) : option (string * list Z) :=
  '(s, bs) ← take_bytes (Z.to_nat n) bs; Some (bytes_of s, bs).

Definition unpack_string (bs : list Z) : option (string * list Z) :=
  match bs with
  | [] => None
  | h :: bs =>
      if (160 <=? h) && (h <? 192) then unpack_string_n (h - 160) bs
      else if h =? 217 then '(n, bs) ← unpack_uint 1 bs; unpack_string_n n bs
      else if h =? 218 then '(n, bs) ← unpack_uint 2 bs; unpack_string_n n bs
      else if h =? 219 then '(n, bs) ← unpack_uint 4 bs; unpack_string_n n bs
      else None
  end.

Section Unpack.
Variable self : list Z -> option (wire_value * list Z).

Definition unpack_field (bs : list Z) : option (string * wire_value * list Z) :=
  '(k, bs) ← unpack_string bs; '(v, bs) ← self bs; Some (k, v, bs).
Definition unpack_object (n : Z) (bs : list Z) : option (wire_value * list Z) :=
  '(l, bs) ← unpack_n unpack_field (Z.to_nat n) bs; Some (WObject l, bs).
Definition unpack_array (n : Z) (bs : list Z) : option (wire_value * list Z) :=
  '(l, bs) ← unpack_n self (Z.to_nat n) bs; Some (WArray l, bs).

(** A value by its first byte. *)
Definition unpack_body (h : Z) (bs : list Z) : option (wire_value * list Z) :=
  if h <? 128 then Some (WUint h, bs)
  else if h <? 144 then unpack_object (h - 128) bs
  else if h <? 160 then unpack_array (h - 144) bs
  else if 224 <=? h then Some (WInt (h - 256), bs)
  else if h =? 192 then Some (WNil, bs)
  else if h =? 194 then Some (WBool false, bs)
  else if h =? 195 then Some (WBool true, bs)
  else if (204 <=? h) && (h <? 208) then '(n, bs) ← unpack_uint (2 ^ Z.to_nat (h - 204))%nat bs; Some (WUint n, bs)
  else if (208 <=? h) && (h <? 212) then
    let n := (2 ^ Z.to_nat (h - 208))%nat in '(v, bs) ← unpack_uint n bs; Some (WInt (v - 256 ^ Z.of_nat n), bs)
  else if h =? 220 then '(n, bs) ← unpack_uint 2 bs; unpack_array n bs
  else if h =? 221 then '(n, bs) ← unpack_uint 4 bs; unpack_array n bs
  else if h =? 222 then '(n, bs) ← unpack_uint 2 bs; unpack_object n bs
  else if h =? 223 then '(n, bs) ← unpack_uint 4 bs; unpack_object n bs
  else '(s, bs) ← unpack_string (h :: bs); Some (WString s, bs).
End Unpack.

Fixpoint unpack (fuel : nat) (bs : list Z) : option (wire_value * list Z) :=
  match fuel, bs with
  | S fuel, h :: bs => unpack_body (unpack fuel) h bs
  | _, _ => None
  end.

(** * The encoding can be read back

    [unpack_pack]: a reader of the format recovers the encoded value and the
    bytes after it.  Hence the encoding is injective and prefix free, up to
    the Go type of a non-negative integer, which the wire does not show. *)

Section WireInd.
Variable P : wire_value -> Prop.
Hypothesis Hnil : P WNil.
Hypothesis Hobject : forall fields, Forall (fun f => P (snd f)) fields -> P (WObject fields).
Hypothesis Harray : forall values, Forall P values -> P (WArray values).
Hypothesis Hstring : forall s, P (WString s).
Hypothesis Hbool : forall b, P (WBool b).
Hypothesis Hint : forall z, P (WInt z).
Hypothesis Huint : forall z, P (WUint z).
Hypothesis Hother : P WOther.

Fixpoint wire_value_ind' (v : wire_value) : P v :=
  match v with
  | WNil => Hnil
  | WObject fields => Hobject fields
      ((fix go (l : list (string * wire_value)) : Forall (fun f => P (snd f)) l :=
         match l with
         | [] => Forall_nil_2 _
         | f :: l => Forall_cons_2 _ f l (wire_value_ind' (snd f)) (go l)
         end) fields)
  | WArray values => Harray values
      ((fix go (l : list wire_value) : Forall P l :=
         match l with [] => Forall_nil_2 _ | v :: l => Forall_cons_2 _ v l (wire_value_ind' v) (go l) end) values)
  | WString s => Hstring s
  | WBool b => Hbool b
  | WInt z => Hint z
  | WUint z => Huint z
  | WOther => Hother
  end.
End WireInd.

(** The value as the wire shows it. *)
Fixpoint wire_form (v : wire_value) : wire_value :=
  match v with
  | WObject fields => WObject (map (fun f => (fst f, wire_form (snd f))) fields)
  | WArray values => WArray (map wire_form values)
  | WInt z => if 0 <=? z then WUint z else WInt z
  | v => v
  end.

Definition length32 (n : nat) : bool := Z.of_nat n <? 4294967296.

(** Integers of their Go type and lengths below 2^32. *)
Fixpoint packable (v : wire_value) : bool :=
  match v with
  | WObject fields =>
      length32 (length fields) && List.forallb (fun f => length32 (String.length (fst f)) && packable (snd f)) fields
  | WArray values => length32 (length values) && List.forallb packable values
  | WString s => length32 (String.length s)
  | WInt z => (-9223372036854775808 <=? z) && (z <? 9223372036854775808)
  | WUint z => (0 <=? z) && (z <? 18446744073709551616)
  | _ => true
  end.

(** ** Scalars *)


Lemma unpack_uint_bytes n z rest : 0 <= z < 256 ^ Z.of_nat n -> unpack_uint n (be_bytes n z ++ rest) = Some (z, rest).
Proof. intros Hz. unfold unpack_uint. rewrite take_bytes_app by apply length_be_bytes. simpl. by rewrite be_value_small. Qed.

Lemma unpack_uint_byte z rest : 0 <= z < 256 -> unpack_uint 1 (z :: rest) = Some (z, rest).
Proof. intros Hz. unfold unpack_uint. change (z :: rest) with ([z] ++ rest). rewrite take_bytes_app by done. done. Qed.

Lemma unpack_string_n_bytes s rest :
  unpack_string_n (Z.of_nat (String.length s)) (bytes_of_string s ++ rest) = Some (s, rest).
Proof.
  unfold unpack_string_n. rewrite Nat2Z.id, take_bytes_app by apply length_bytes_of_string.
  simpl. by rewrite bytes_of_bytes_of_string.
Qed.

Lemma cast8_small z : 0 <= z < 256 -> cast8 z = z.
Proof. apply Z.mod_small. Qed.

(** Two's complement of a negative integer. *)
Lemma unpack_uint_negative n z rest : - 256 ^ Z.of_nat n <= z < 0 ->
  unpack_uint n (be_bytes n z ++ rest) = Some (z + 256 ^ Z.of_nat n, rest).
Proof.
  intros Hz. unfold unpack_uint. rewrite take_bytes_app by apply length_be_bytes. simpl. rewrite be_value_bytes.
  do 2 f_equal. symmetry. apply (Z.mod_unique_pos _ _ (-1)); lia.
Qed.

Lemma cast8_negative z : -256 <= z < 0 -> cast8 z = z + 256.
Proof. intros Hz. symmetry. apply (Z.mod_unique_pos _ _ (-1)); lia. Qed.

#[local] Opaque unpack_uint unpack_string_n be_bytes cast8 Z.pow.

Lemma unpack_string_pack s rest : length32 (String.length s) = true ->
  unpack_string (encodeMsgpackString s ++ rest) = Some (s, rest).
Proof.
  unfold length32, encodeMsgpackString. set (n := Z.of_nat (String.length s)). intros Hn%Z.ltb_lt.
  assert (0 <= n) by lia. destruct (Z.leb_spec n 31).
  - rewrite cast8_small, (lor_small 160 n 32) by (done || lia). cbn [app unpack_string].
    rewrite (proj2 (Z.leb_le 160 _)), (proj2 (Z.ltb_lt _ 192)) by lia. simpl.
    replace (160 + n - 160) with n by lia. apply unpack_string_n_bytes.
  - destruct (Z.leb_spec n 255); [|destruct (Z.leb_spec n 65535)]; unfold writeUint; simpl; rewrite <- ?app_assoc.
    + rewrite cast8_small, unpack_uint_byte by lia. simpl. apply unpack_string_n_bytes.
    + rewrite unpack_uint_bytes by lia. simpl. apply unpack_string_n_bytes.
    + rewrite unpack_uint_bytes by lia. simpl. apply unpack_string_n_bytes.
Qed.

#[local] Opaque unpack_string.

Section Body.
Variable self : list Z -> option (wire_value * list Z).

Lemma unpack_body_small h bs : 0 <= h < 128 -> unpack_body self h bs = Some (WUint h, bs).
Proof. intros Hh. unfold unpack_body. by rewrite (proj2 (Z.ltb_lt h 128)) by lia. Qed.

Lemma unpack_body_negative h bs : 224 <= h < 256 -> unpack_body self h bs = Some (WInt (h - 256), bs).
Proof.
  intros Hh. unfold unpack_body. rewrite !(proj2 (Z.ltb_ge h _)), (proj2 (Z.leb_le 224 h)) by lia. done.
Qed.

(** The reading of a non-empty encoding. *)
Definition unpack_step (bs : list Z) : option (wire_value * list Z) :=
  match bs with h :: bs => unpack_body self h bs | [] => None end.

Lemma unpack_encoded_uint z rest : 0 <= z < 18446744073709551616 ->
  unpack_step (encodeMsgpackUint z ++ rest) = Some (WUint z, rest).
Proof.
  intros Hz. unfold encodeMsgpackUint, writeUint.
  destruct (Z.leb_spec z 127); [cbn [app unpack_step]; rewrite cast8_small by lia; apply unpack_body_small; lia|].
  destruct (Z.leb_spec z 255); [|destruct (Z.leb_spec z 65535); [|destruct (Z.leb_spec z 4294967295)]];
    cbn [app unpack_step]; unfold unpack_body; simpl.
  - by rewrite cast8_small, unpack_uint_byte by lia.
  - by rewrite unpack_uint_bytes by lia.
  - by rewrite unpack_uint_bytes by lia.
  - by rewrite unpack_uint_bytes by lia.
Qed.

Lemma unpack_encoded_int z rest : -9223372036854775808 <= z < 9223372036854775808 ->
  unpack_step (encodeMsgpackInt z ++ rest) = Some (wire_form (WInt z), rest).
Proof.
  intros Hz. unfold encodeMsgpackInt, wire_form. destruct (Z.leb_spec 0 z); [apply unpack_encoded_uint; lia|].
  destruct (Z.leb_spec (-32) z).
  { cbn [app unpack_step]. rewrite cast8_negative, unpack_body_negative by lia. by replace (z + 256 - 256) with z by lia. }
  destruct (Z.leb_spec (-128) z); [|destruct (Z.leb_spec (-32768) z); [|destruct (Z.leb_spec (-2147483648) z)]];
    cbn [app unpack_step]; unfold unpack_body, writeUint; simpl.
  - rewrite cast8_negative, unpack_uint_byte by lia. simpl. do 3 f_equal. change (256 ^ 1) with 256. lia.
  - rewrite unpack_uint_negative by lia. simpl. do 3 f_equal. lia.
  - rewrite unpack_uint_negative by lia. simpl. do 3 f_equal. lia.
  - rewrite unpack_uint_negative by lia. simpl. do 3 f_equal. lia.
Qed.

Lemma unpack_encoded_string s rest : length32 (String.length s) = true ->
  unpack_step (encodeMsgpackString s ++ rest) = Some (WString s, rest).
Proof.
  intros Hs. pose proof (unpack_string_pack s rest Hs) as Hp. revert Hp.
  unfold encodeMsgpackString. set (n := Z.of_nat (String.length s)). assert (0 <= n) by lia.
  destruct (Z.leb_spec n 31).
  - rewrite cast8_small, (lor_small 160 n 32) by (done || lia). cbn [app unpack_step]. intros Hp. unfold unpack_body.
    rewrite !(proj2 (Z.ltb_ge (160 + n) _)), (proj2 (Z.leb_gt 224 _)), !(proj2 (Z.eqb_neq (160 + n) _)) by lia.
    rewrite (proj2 (Z.leb_gt 204 _)), (proj2 (Z.leb_gt 208 _)) by lia. cbn [andb]. by rewrite Hp.
  - destruct (Z.leb_spec n 255); [|destruct (Z.leb_spec n 65535)]; cbn [app unpack_step]; intros Hp;
      unfold unpack_body; simpl; by rewrite Hp.
Qed.

Lemma unpack_map_len n rest : 0 <= n < 4294967296 ->
  unpack_step (encodeMsgpackMapLen n ++ rest) = unpack_object self n rest.
Proof.
  intros Hn. unfold encodeMsgpackMapLen, writeUint. destruct (Z.leb_spec n 15); [|destruct (Z.leb_spec n 65535)];
    cbn [app unpack_step]; unfold unpack_body.
  - rewrite cast8_small, (lor_small 128 n 16) by (done || lia).
    rewrite (proj2 (Z.ltb_ge _ 128)), (proj2 (Z.ltb_lt _ 144)) by lia. by replace (128 + n - 128) with n by lia.
  - simpl. by rewrite unpack_uint_bytes by lia.
  - simpl. by rewrite unpack_uint_bytes by lia.
Qed.

Lemma unpack_array_len n rest : 0 <= n < 4294967296 ->
  unpack_step (encodeMsgpackArrayLen n ++ rest) = unpack_array self n rest.
Proof.
  intros Hn. unfold encodeMsgpackArrayLen, writeUint. destruct (Z.leb_spec n 15); [|destruct (Z.leb_spec n 65535)];
    cbn [app unpack_step]; unfold unpack_body.
  - rewrite cast8_small, (lor_small 144 n 16) by (done || lia).
    rewrite (proj2 (Z.ltb_ge _ 128)), (proj2 (Z.ltb_ge _ 144)), (proj2 (Z.ltb_lt _ 160)) by lia.
    by replace (144 + n - 144) with n by lia.
  - simpl. by rewrite unpack_uint_bytes by lia.
  - simpl. by rewrite unpack_uint_bytes by lia.
Qed.
End Body.

(** ** Values *)

(** [self] reads back the encoding of [v] if it is not longer than [fuel]. *)
Definition reads_back (fuel : nat) (v : wire_value) : Prop :=
  forall bs rest, encodeMsgpackValue v = Ok bs -> packable v = true -> (length bs <= fuel)%nat ->
  unpack fuel (bs ++ rest) = Some (wire_form v, rest).

Lemma unpack_field_pack self k bs : length32 (String.length k) = true ->
  unpack_field self (encodeMsgpackString k ++ bs) = '(v, bs) ← self bs; Some (k, v, bs).
Proof. intros Hk. unfold unpack_field. by rewrite unpack_string_pack. Qed.

Lemma unpack_fields fuel fields bs rest :
  Forall (fun f => reads_back fuel (snd f)) fields ->
  encode_fields encodeMsgpackValue fields = Ok bs ->
  List.forallb (fun f => length32 (String.length (fst f)) && packable (snd f)) fields = true -> (length bs <= fuel)%nat ->
  unpack_n (unpack_field (unpack fuel)) (length fields) (bs ++ rest) =
  Some (map (fun f => (fst f, wire_form (snd f))) fields, rest).
Proof.
  intros Hf. revert bs. induction Hf as [|[k v] fields Hv _ IH]; intros bs; simpl; [by intros [= <-]|].
  destruct (string_is_empty k); [done|]. destruct (encodeMsgpackValue v) as [b|] eqn:Ev; [|done].
  destruct (encode_fields encodeMsgpackValue fields) as [r|]; simpl; [|done]. intros [= <-].
  intros [[Hk Hp]%andb_true_iff Hps]%andb_true_iff Hlen. rewrite !length_app in Hlen.
  rewrite <- !app_assoc, unpack_field_pack by done.
  rewrite (Hv b _ Ev Hp) by lia. simpl. by rewrite (IH r) by (done || lia).
Qed.

Lemma unpack_elements fuel values index bs rest :
  Forall (reads_back fuel) values ->
  encode_elements encodeMsgpackValue index values = Ok bs -> List.forallb packable values = true -> (length bs <= fuel)%nat ->
  unpack_n (unpack fuel) (length values) (bs ++ rest) = Some (map wire_form values, rest).
Proof.
  intros Hf. revert index bs. induction Hf as [|v values Hv _ IH]; intros index bs; simpl; [by intros [= <-]|].
  destruct (encodeMsgpackValue v) as [b|] eqn:Ev; [|done].
  destruct (encode_elements encodeMsgpackValue (index + 1) values) as [r|] eqn:Er; simpl; [|done]. intros [= <-].
  intros [Hp Hps]%andb_true_iff Hlen. rewrite length_app in Hlen. rewrite <- app_assoc.
  rewrite (Hv b _ Ev Hp) by lia. simpl. by rewrite (IH (index + 1) r) by (done || lia).
Qed.

(** Every encoding has a first byte. *)
Lemma unpack_nonempty fuel bs : bs <> [] -> (length bs <= S fuel)%nat -> unpack (S fuel) bs = unpack_step (unpack fuel) bs.
Proof. by destruct bs. Qed.

Lemma header_length n : (1 <= length (encodeMsgpackMapLen n))%nat /\ (1 <= length (encodeMsgpackArrayLen n))%nat.
Proof. unfold encodeMsgpackMapLen, encodeMsgpackArrayLen. repeat case_match; simpl; lia. Qed.

Lemma encoded_length v bs : encodeMsgpackValue v = Ok bs -> (1 <= length bs)%nat.
Proof.
  destruct v; simpl; try (intros [= <-]; simpl; try lia).
  - destruct (encode_fields _ _); simpl; [|done]. intros [= <-]. rewrite length_app. pose proof (header_length (Z.of_nat (length fields))). lia.
  - destruct (encode_elements _ _ _); simpl; [|done]. intros [= <-]. rewrite length_app. pose proof (header_length (Z.of_nat (length values))). lia.
  - unfold encodeMsgpackString. repeat case_match; simpl; lia.
  - unfold encodeMsgpackInt, encodeMsgpackUint. repeat case_match; simpl; lia.
  - unfold encodeMsgpackUint. repeat case_match; simpl; lia.
Qed.

Lemma unpack_pack v : forall fuel, reads_back fuel v.
Proof.
  induction v as [|fields IH|values IH|s|b|z|z|] using wire_value_ind'; intros fuel bs rest He Hp Hlen;
    pose proof (encoded_length _ _ He) as H1; (destruct fuel as [|fuel]; [lia|]);
    change (unpack (S fuel) ?l) with (unpack_step (unpack fuel) l); simpl in He.
  - by injection He as <-.
  - destruct (encode_fields encodeMsgpackValue fields) as [r|] eqn:Er; [|done]. simpl in He. injection He as <-.
    apply andb_true_iff in Hp as [Hn Hp]. apply Z.ltb_lt in Hn. rewrite length_app in Hlen.
    pose proof (header_length (Z.of_nat (length fields))) as [Hh _].
    rewrite <- app_assoc, unpack_map_len by lia. unfold unpack_object. rewrite Nat2Z.id.
    assert (Forall (fun f => reads_back fuel (snd f)) fields) as Hf by (eapply Forall_impl; [exact IH|]; auto).
    by rewrite (unpack_fields fuel fields r) by (done || lia).
  - destruct (encode_elements encodeMsgpackValue 0 values) as [r|] eqn:Er; [|done]. simpl in He. injection He as <-.
    apply andb_true_iff in Hp as [Hn Hp]. apply Z.ltb_lt in Hn. rewrite length_app in Hlen.
    pose proof (header_length (Z.of_nat (length values))) as [_ Hh].
    rewrite <- app_assoc, unpack_array_len by lia. unfold unpack_array. rewrite Nat2Z.id.
    assert (Forall (reads_back fuel) values) as Hf by (eapply Forall_impl; [exact IH|]; auto).
    by rewrite (unpack_elements fuel values 0 r) by (done || lia).
  - injection He as <-. by apply unpack_encoded_string.
  - injection He as <-. by destruct b.
  - injection He as <-. simpl in Hp. apply andb_true_iff in Hp as [?%Z.leb_le ?%Z.ltb_lt]. by apply unpack_encoded_int.
  - injection He as <-. simpl in Hp. apply andb_true_iff in Hp as [?%Z.leb_le ?%Z.ltb_lt]. by apply unpack_encoded_uint.
  - done.
Qed.

(** The encoding of one value is never a proper prefix of another's, and
    determines the value. *)
Lemma pack_prefix_free v v' bs bs' rest rest' :
  packMsgpack v = Ok bs -> packMsgpack v' = Ok bs' -> packable v = true -> packable v' = true ->
  bs ++ rest = bs' ++ rest' -> wire_form v = wire_form v' /\ rest = rest'.
Proof.
  intros He He' Hp Hp' Heq.
  pose proof (unpack_pack v (length bs + length bs') bs rest He Hp ltac:(lia)) as H1.
  pose proof (unpack_pack v' (length bs + length bs') bs' rest' He' Hp' ltac:(lia)) as H2.
  rewrite Heq, H2 in H1. by injection H1 as -> ->.
Qed.
