(* ===== verification/Signing.v ===== *)
(** * Networks, nonces and signatures

    [internal/hyperliquid/network.go] and [internal/hyperliquid/signing]: the
    hashes that are signed, the signatures in their wire form, their
    verification, and the source of nonces.  Keccak-256 and secp256k1 are
    third-party code: the class [Crypto] is what the source calls of them, the
    class [CryptoLaws] what is documented of it. *)

From S2P Require Import Prelude Clock Sha256 Msgpack.

(** ** Networks *)

Definition Network : Type := string.
(* go: internal/hyperliquid/network.go 10-14 NetworkMainnet *)
Definition NetworkMainnet : Network := "mainnet".
(* go: internal/hyperliquid/network.go 10-14 NetworkTestnet *)
Definition NetworkTestnet : Network := "testnet".
(* go: internal/hyperliquid/network.go 10-14 DefaultNetwork *)
Definition DefaultNetwork : Network := NetworkTestnet.

(* go: internal/hyperliquid/network.go 16-18 CanonicalNetwork *)
Definition CanonicalNetwork (network : Network) : Network := toLower (TrimSpace network).

(* go: internal/hyperliquid/network.go 20-26 NormalizeNetwork *)
Definition NormalizeNetwork (network : Network) : Network :=
  let network := CanonicalNetwork network in if string_is_empty network then DefaultNetwork else network.

(* go: internal/hyperliquid/network.go 28-35 ValidateNetwork *)
Definition ValidateNetwork (network : Network) : option error :=
  let network := CanonicalNetwork network in
  if String.eqb network NetworkMainnet || String.eqb network NetworkTestnet then None
  else Some (Errorf "hyperliquid network must be %q or %q" [NetworkMainnet; NetworkTestnet]).

(** ** Nonces *)

(** The last nonce is the state of the generator; [now] is the clock reading
    of the call.  Calls are serialised by the generator's mutex. *)
(* go: internal/hyperliquid/signing/nonce.go 22-32 Next *)
Definition NextNonce (last now : Z) : Z * Z :=
  let current := wrap64 (now / Millisecond) in
  let current := if current <=? last then wrap64 (last + 1) else current in
  (current, current).

(** The nonces of a sequence of calls. *)
Fixpoint nonces (last : Z) (clock : list Z) : list Z :=
  match clock with
  | [] => []
  | now :: clock => let '(nonce, last) := NextNonce last now in nonce :: nonces last clock
  end.

(** ** Hexadecimal *)

Definition TrimPrefix (s p : string) : string := match strip p s with Some r => r | None => s end.

Definition hex_value (c : ascii) : option Z :=
  let n := Z.of_nat (nat_of_ascii c) in
  if (48 <=? n) && (n <=? 57) then Some (n - 48)
  else if (97 <=? n) && (n <=? 102) then Some (n - 87)
  else if (65 <=? n) && (n <=? 70) then Some (n - 55)
  else None.

(** [hex.DecodeString]. *)
Fixpoint hex_decode (s : string) : option (list Z) :=
  match s with
  | EmptyString => Some []
  | String a (String b r) =>
      match hex_value a, hex_value b with
      | Some x, Some y => l ← hex_decode r; Some (16 * x + y :: l)
      | _, _ => None
      end
  | String _ EmptyString => None
  end.

Definition DecodeString (s : string) : result (list Z) :=
  match hex_decode s with Some l => Ok l | None => Err (Errorf "encoding/hex: invalid input" []) end.

(** ** The cryptographic libraries *)

Class Crypto : Type := {
  keccak256 : list Z -> list Z;
  secret_key : Type;
  key_of_scalar : list Z -> option secret_key;
  public_key : secret_key -> list Z;
  sign_compact : secret_key -> list Z -> list Z;
  recover_compact : list Z -> list Z -> result (list Z)
}.

(** Digests have 32 bytes; a compact signature is a recovery code and two
    32-byte numbers, and recovering it gives the signer's public key. *)
Class CryptoLaws `{Crypto} : Prop := {
  keccak_length m : length (keccak256 m) = 32%nat;
  keccak_bytes m : Forall is_byte (keccak256 m);
  sign_shape k d : exists v r s, sign_compact k d = v :: r ++ s /\ 27 <= v <= 34 /\
    length r = 32%nat /\ length s = 32%nat /\ Forall is_byte r /\ Forall is_byte s;
  recover_sign k d : length d = 32%nat -> recover_compact (sign_compact k d) d = Ok (public_key k)
}.

Section Signing.
Context `{Crypto}.

Definition hash_text (s : string) : list Z := keccak256 (bytes_of_string s).

(** ** Keys and addresses *)

(** The nil key is the zero value. *)
(* go: internal/hyperliquid/signing/private_key.go 17-19 PrivateKey *)
Definition PrivateKey : Type := option secret_key.

(* go: internal/hyperliquid/signing/private_key.go 22-51 ParsePrivateKey *)
Definition ParsePrivateKey (value : string) : result PrivateKey :=
  let hexKey := TrimPrefix value "0x" in
  if negb (String.length hexKey =? 64)%nat then Err (Errorf "private key must be 32 bytes" [])
  else match DecodeString hexKey with
       | Err err => Err (Wrapf "parse private key: %w" [] err)
       | Ok raw =>
           match key_of_scalar raw with
           | None => Err (Errorf "private key is outside secp256k1 range" [])
           | Some key => Ok (Some key)
           end
       end.

(* go: internal/hyperliquid/signing/private_key.go 63-68 require *)
Definition require (k : PrivateKey) : result secret_key :=
  match k with None => Err (Errorf "private key is empty" []) | Some key => Ok key end.

(** The characters of the address from index [i] on, in the case the bits of
    the hash give them. *)
Fixpoint checksum_chars (hash : list Z) (i : nat) (lower : string) : string :=
  match lower with
  | EmptyString => ""
  | String c r =>
      let n := Z.of_nat (nat_of_ascii c) in
      let byte := nth (i / 2) hash 0 in
      let nibble := if (i mod 2 =? 1)%nat then Z.land byte 15 else Z.shiftr byte 4 in
      let c := if (48 <=? n) && (n <=? 57) then c else if 8 <=? nibble then ascii_of_nat (Z.to_nat (n - 32)) else c in
      String c (checksum_chars hash (S i) r)
  end.

(* go: internal/hyperliquid/signing/private_key.go 70-88 checksumAddress *)
Definition checksumAddress (address : list Z) : string :=
  let lower := hex_encode address in
  let hash := hash_text lower in
  "0x" +:+ checksum_chars hash 0 lower.

Definition public_key_address (publicKey : list Z) : string :=
  checksumAddress (skipn 12 (keccak256 (tail publicKey))).

(* go: internal/hyperliquid/signing/private_key.go 54-61 Address *)
Definition Address (k : PrivateKey) : result string :=
  match k with
  | None => Err (Errorf "private key is empty" [])
  | Some key => Ok (public_key_address (public_key key))
  end.

(** ** Action hashes *)

(* go: internal/hyperliquid/signing/action_hash.go 10-15 ActionHashInput *)
Record ActionHashInput : Type := mkActionHashInput {
  ah_Action : option wire_value;
  ah_Nonce : Z;
  ah_VaultAddress : option string;
  ah_ExpiresAfter : option Z
}.

(* go: internal/hyperliquid/signing/action_hash.go 54-66 parseAddressBytes *)
Definition parseAddressBytes (value : string) : result (list Z) :=
  let hexValue := TrimPrefix value "0x" in
  if negb (String.length hexValue =? 40)%nat then Err (Errorf "expected 20-byte hex address" [])
  else DecodeString hexValue.

(** The bytes that are hashed. *)
(* go: internal/hyperliquid/signing/action_hash.go 17-43 ActionHash *)
Definition action_preimage (input : ActionHashInput) : result (list Z) :=
  match ah_Action input with
  | None => Err (Errorf "action is nil" [])
  | Some action =>
      match packMsgpack action with
      | Err err => Err (Wrapf "pack action: %w" [] err)
      | Ok actionBytes =>
          let? vault := match ah_VaultAddress input with
                        | None => Ok [0]
                        | Some address =>
                            match parseAddressBytes address with
                            | Err err => Err (Wrapf "vault address: %w" [] err)
                            | Ok bytes => Ok (1 :: bytes)
                            end
                        end in
          let expires := match ah_ExpiresAfter input with None => [] | Some t => 0 :: writeUint 8 t end in
          Ok (actionBytes ++ writeUint 8 (ah_Nonce input) ++ vault ++ expires)
      end
  end.

(* go: internal/hyperliquid/signing/action_hash.go 17-44 ActionHash *)
Definition ActionHash (input : ActionHashInput) : result (list Z) :=
  let? bytes := action_preimage input in Ok (keccak256 bytes).

(* go: internal/hyperliquid/signing/action_hash.go 46-52 ActionHashHex *)
Definition ActionHashHex (input : ActionHashInput) : result string :=
  let? hash := ActionHash input in Ok ("0x" +:+ hex_encode hash).

(** ** EIP-712 digests *)

(* go: internal/hyperliquid/signing/eip712.go 55-60 uint256Word *)
Definition uint256Word (value : Z) : list Z := be_bytes 32 value.
Definition zero_word : list Z := repeat 0 32.

(* go: internal/hyperliquid/signing/eip712.go 11-11 eip712DomainTypeHash *)
Definition eip712DomainTypeHash : list Z :=
  hash_text "EIP712Domain(string name,string version,uint256 chainId,address verifyingContract)".
(* go: internal/hyperliquid/signing/eip712.go 12-12 agentTypeHash *)
Definition agentTypeHash : list Z := hash_text "Agent(string source,bytes32 connectionId)".

(* go: internal/hyperliquid/signing/eip712.go 20-29 networkSourceHash *)
Definition networkSourceHash (network : Network) : result (list Z) :=
  let n := NormalizeNetwork network in
  if String.eqb n NetworkMainnet then Ok (hash_text "a")
  else if String.eqb n NetworkTestnet then Ok (hash_text "b")
  else Err (Errorf "unsupported network %q" [network]).

(* go: internal/hyperliquid/signing/eip712.go 31-40 buildL1DomainSeparator *)
Definition buildL1DomainSeparator : list Z :=
  keccak256 (eip712DomainTypeHash ++ hash_text "Exchange" ++ hash_text "1" ++ uint256Word 1337 ++ zero_word).

(* go: internal/hyperliquid/signing/eip712.go 42-53 l1AgentDigest *)
Definition l1AgentDigest (connectionID : list Z) (network : Network) : result (list Z) :=
  let? sourceHash := networkSourceHash network in
  let agentHash := keccak256 (agentTypeHash ++ sourceHash ++ connectionID) in
  Ok (keccak256 ([25; 1] ++ buildL1DomainSeparator ++ agentHash)).

(** *** Spot sends *)

(* go: internal/hyperliquid/signing/spot_send.go 13-13 DefaultSignatureChainID *)
Definition DefaultSignatureChainID : string := "0x66eee".
(* go: internal/hyperliquid/signing/spot_send.go 15-15 spotSendType *)
Definition spotSendType : string :=
  "HyperliquidTransaction:SpotSend(string hyperliquidChain,string destination,string token,string amount,uint64 time)".

(* go: internal/hyperliquid/signing/spot_send.go 24-32 SpotSendAction *)
Record SpotSendAction : Type := mkSpotSend {
  ss_Type : string;
  ss_HyperliquidChain : string;
  ss_SignatureChainID : string;
  ss_Destination : string;
  ss_Token : string;
  ss_Amount : string;
  ss_Time : Z
}.

(** The only accepted chain ID is the constant above. *)
(* go: internal/hyperliquid/signing/spot_send.go 92-102 parseSignatureChainID *)
Definition parseSignatureChainID (value : string) : result Z :=
  if negb (String.eqb value DefaultSignatureChainID)
  then Err (Errorf "signature chain ID must be %q" [DefaultSignatureChainID])
  else Ok 421614.

Definition spot_send_message (a : SpotSendAction) : list Z :=
  hash_text spotSendType ++ hash_text (ss_HyperliquidChain a) ++ hash_text (ss_Destination a) ++
  hash_text (ss_Token a) ++ hash_text (ss_Amount a) ++ uint256Word (ss_Time a).

(* go: internal/hyperliquid/signing/spot_send.go 54-90 spotSendDigest *)
Definition spotSendDigest (a : SpotSendAction) : result (list Z) :=
  if negb (String.eqb (ss_Type a) "spotSend") then Err (Errorf "spot send action type must be %q" ["spotSend"])
  else if negb (String.eqb (ss_HyperliquidChain a) "Mainnet") && negb (String.eqb (ss_HyperliquidChain a) "Testnet")
  then Err (Errorf "hyperliquid chain must be %q or %q" ["Mainnet"; "Testnet"])
  else
    let? chainID := parseSignatureChainID (ss_SignatureChainID a) in
    let domainSeparator := keccak256 (eip712DomainTypeHash ++ hash_text "HyperliquidSignTransaction" ++ hash_text "1" ++
                                      uint256Word chainID ++ zero_word) in
    Ok (keccak256 ([25; 1] ++ domainSeparator ++ keccak256 (spot_send_message a))).

(** ** Signatures *)

(* go: internal/hyperliquid/signing/signing.go 14-18 Signature *)
Record Signature : Type := mkSignature { sig_R : string; sig_S : string; sig_V : Z }.

(* go: internal/hyperliquid/signing/signing.go 65-75 signDigest *)
Definition signDigest (key : secret_key) (digest : list Z) : result Signature :=
  let signed := sign_compact key digest in
  if negb (length signed =? 65)%nat then Err (Errorf "unexpected signature length %d" [itoa (Z.of_nat (length signed))])
  else Ok (mkSignature ("0x" +:+ hex_encode (firstn 32 (skipn 1 signed))) ("0x" +:+ hex_encode (skipn 33 signed)) (nth 0 signed 0)).

(* go: internal/hyperliquid/signing/signing.go 106-116 fixedHexBytes *)
Definition fixedHexBytes (field value : string) (length : nat) : result (list Z) :=
  let value := TrimPrefix (TrimPrefix (TrimSpace value) "0x") "0X" in
  if negb (String.length value =? length * 2)%nat then Err (Errorf "%s must be %d bytes" [field; itoa (Z.of_nat length)])
  else match DecodeString value with
       | Err err => Err (Wrapf "decode %s: %w" [field] err)
       | Ok out => Ok out
       end.

(* go: internal/hyperliquid/signing/signing.go 91-104 compactSignature *)
Definition compactSignature (signature : Signature) : result (list Z) :=
  if (sig_V signature <? 27) || (34 <? sig_V signature)
  then Err (Errorf "signature.v must be in compact recovery range 27..34" [])
  else
    let? r := fixedHexBytes "signature.r" (sig_R signature) 32 in
    let? s := fixedHexBytes "signature.s" (sig_S signature) 32 in
    Ok (cast8 (sig_V signature) :: r ++ s).

(* go: internal/hyperliquid/signing/signing.go 77-89 recoverDigestSigner *)
Definition recoverDigestSigner (digest : list Z) (signature : Signature) : result string :=
  let? compact := compactSignature signature in
  match recover_compact compact digest with
  | Err err => Err (Wrapf "recover compact signature: %w" [] err)
  | Ok publicKey => Ok (toLower (public_key_address publicKey))
  end.

(* go: internal/hyperliquid/signing/signing.go 37-51 SignL1Action *)
Definition SignL1Action (key : PrivateKey) (input : ActionHashInput) (network : Network) : result Signature :=
  let? privateKey := require key in
  let? connectionID := ActionHash input in
  let? digest := l1AgentDigest connectionID network in
  signDigest privateKey digest.

(* go: internal/hyperliquid/signing/signing.go 53-63 RecoverL1ActionSigner *)
Definition RecoverL1ActionSigner (input : ActionHashInput) (network : Network) (signature : Signature) : result string :=
  let? connectionID := ActionHash input in
  let? digest := l1AgentDigest connectionID network in
  recoverDigestSigner digest signature.

(* go: internal/hyperliquid/signing/spot_send.go 34-44 SignSpotSend *)
Definition SignSpotSend (key : PrivateKey) (action : SpotSendAction) : result Signature :=
  let? privateKey := require key in
  let? digest := spotSendDigest action in
  signDigest privateKey digest.

(* go: internal/hyperliquid/signing/spot_send.go 46-52 RecoverSpotSendSigner *)
Definition RecoverSpotSendSigner (action : SpotSendAction) (signature : Signature) : result string :=
  let? digest := spotSendDigest action in
  recoverDigestSigner digest signature.
End Signing.
