(* ===== verification/SigningFacts.v ===== *)
(** * What is signed and what is recovered

    The nonces of a generator increase strictly whatever the clock does
    ([nonces_strictly_increase]); two different actions have different hash
    inputs ([action_preimage_injective]); a signature in its wire form
    recovers the signer's address ([signature_recovers_signer]). *)

From S2P Require Import Prelude Clock Sha256 Msgpack Signing.

(** ** Nonces *)

Definition uint64 (z : Z) : Prop := 0 <= z < uint64_mod.

(** [strictly_above last l]: [last], then the elements of [l], increase
    strictly. *)
Fixpoint strictly_above (last : Z) (l : list Z) : Prop :=
  match l with [] => True | n :: l => last < n /\ strictly_above n l end.

Lemma NextNonce_spec last now bound : uint64 last -> last < bound -> 0 <= now / Millisecond < bound -> bound < uint64_mod ->
  exists n, NextNonce last now = (n, n) /\ last < n <= bound /\ now / Millisecond <= n /\ uint64 n.
Proof.
  intros Hl Hb Hn Hm. unfold NextNonce, wrap64. rewrite (Z.mod_small (now / Millisecond)) by (unfold uint64_mod in *; lia).
  destruct (Z.leb_spec (now / Millisecond) last).
  - rewrite Z.mod_small by (unfold uint64 in *; lia). eexists. split; [done|]. unfold uint64 in *. lia.
  - eexists. split; [done|]. unfold uint64. lia.
Qed.

(** Whatever the clock does between the calls - standing still and going
    back included - the nonces handed out increase strictly, none is repeated
    and none lies behind the clock of its call, as long as 2^64 is not
    reached. *)
Theorem nonces_strictly_increase last clock bound :
  uint64 last -> last < bound -> bound + Z.of_nat (length clock) < uint64_mod ->
  Forall (fun now => 0 <= now / Millisecond < bound) clock ->
  strictly_above last (nonces last clock) /\ NoDup (nonces last clock) /\
  Forall2 (fun now n => now / Millisecond <= n) clock (nonces last clock).
Proof.
  intros Hl Hb Hm Hc.
  assert (strictly_above last (nonces last clock) /\ Forall2 (fun now n => now / Millisecond <= n) clock (nonces last clock)) as [Hs Hf].
  { revert last bound Hl Hb Hm Hc. induction clock as [|now clock IH]; intros last bound Hl Hb Hm Hc; [done|].
    apply Forall_cons in Hc as [Hn Hc]. cbn [nonces length] in *.
    destruct (NextNonce_spec last now bound Hl Hb Hn ltac:(lia)) as (n & -> & Hr & Hge & Hu).
    destruct (IH n (bound + 1) Hu) as [H1 H2]; [lia|lia|eapply Forall_impl; [exact Hc|simpl; lia]|].
    split; [split; [lia|done]|by constructor]. }
  split; [done|]. split; [|done]. revert Hs. generalize (nonces last clock). clear. intros l. revert last.
  assert (forall m l, strictly_above m l -> Forall (fun n => m < n) l) as Hall.
  { intros m l'. revert m. induction l' as [|n l' IH]; intros m; [constructor|]. intros [Hn Hl].
    constructor; [done|]. eapply Forall_impl; [exact (IH n Hl)|]. simpl. lia. }
  induction l as [|n l IH]; intros last; [constructor|]. intros [_ Hl]. constructor; [|by eapply IH].
  intros Hin. pose proof (proj1 (Forall_forall _ _) (Hall n l Hl) n Hin) as Hlt. simpl in Hlt. lia.
Qed.

Lemma nonces_strictly_increase_witness :
  strictly_above 0 (nonces 0 [1700000000000000000; 1700000000000000000; 1600000000000000000; 1700000000001000000]) /\
  nonces 0 [1700000000000000000; 1700000000000000000; 1600000000000000000; 1700000000001000000] =
    [1700000000000; 1700000000001; 1700000000002; 1700000000003].
Proof.
  split; [|vm_compute; reflexivity].
  apply (nonces_strictly_increase 0 _ 2000000000000); [split; [lia|reflexivity]|lia|reflexivity|].
  repeat (constructor; [vm_compute; split; [discriminate|reflexivity]|]). constructor.
Defined.

(** ** Action hashes *)

Definition vault_bytes (address : option string) : option (result (list Z)) := parseAddressBytes <$> address.

Definition input_ok (input : ActionHashInput) : Prop :=
  (forall action, ah_Action input = Some action -> packable action = true) /\ uint64 (ah_Nonce input) /\
  (forall t, ah_ExpiresAfter input = Some t -> uint64 t).

(** What the hash input determines: the action as the wire shows it, the
    nonce, the bytes of the vault address and the expiry. *)
Definition signed_content (input : ActionHashInput) : option wire_value * Z * option (result (list Z)) * option Z :=
  (wire_form <$> ah_Action input, ah_Nonce input, vault_bytes (ah_VaultAddress input), ah_ExpiresAfter input).

Lemma hex_decode_length s l : hex_decode s = Some l -> String.length s = (2 * length l)%nat.
Proof.
  revert l. induction s as [s IH] using (induction_ltof1 _ String.length). intros l.
  destruct s as [|a [|b r]]; simpl; [by intros [= <-]|done|].
  destruct (hex_value a), (hex_value b); try done. destruct (hex_decode r) as [l'|] eqn:E; simpl; [|done].
  intros [= <-]. simpl. rewrite (IH r) with l'; [lia|unfold ltof; simpl; lia|done].
Qed.

Lemma parseAddressBytes_length value l : parseAddressBytes value = Ok l -> length l = 20%nat.
Proof.
  unfold parseAddressBytes, DecodeString. destruct (Nat.eqb_spec (String.length (TrimPrefix value "0x")) 40) as [Hl|]; [|done].
  simpl. destruct (hex_decode _) as [d|] eqn:E; [|done]. intros [= <-]. apply hex_decode_length in E. lia.
Qed.

Lemma app_same_length {A : Type} (a b x y : list A) : length a = length b -> a ++ x = b ++ y -> a = b /\ x = y.
Proof. apply app_inj_1. Qed.

#[local] Opaque be_bytes.

(** C27: two hash inputs with different content - another action, nonce, vault
    address or expiry - are different byte strings: a signature over one can
    only be taken for a signature over the other if Keccak-256 collides. *)
Theorem action_preimage_injective input input' bytes :
  input_ok input -> input_ok input' ->
  action_preimage input = Ok bytes -> action_preimage input' = Ok bytes -> signed_content input = signed_content input'.
Proof.
  intros (Ha & Hn & He) (Ha' & Hn' & He'). unfold action_preimage, signed_content, vault_bytes, writeUint.
  destruct input as [[action|] nonce vault expires], input' as [[action'|] nonce' vault' expires']; simpl in *; try done.
  destruct (packMsgpack action) as [p|] eqn:Ep; [|done]. destruct (packMsgpack action') as [p'|] eqn:Ep'; [|done].
  set (v := match vault with None => Ok [0] | Some _ => _ end). set (v' := match vault' with None => Ok [0] | Some _ => _ end).
  destruct v as [vb|] eqn:Ev; [|done]. destruct v' as [vb'|] eqn:Ev'; [|done]. simpl.
  intros [= <-] [= Heq]. symmetry in Heq.
  destruct (pack_prefix_free action action' p p' _ _ Ep Ep' (Ha _ eq_refl) (Ha' _ eq_refl) Heq) as [-> Hrest].
  apply app_same_length in Hrest as [Hnonce Hrest]; [|by rewrite !length_be_bytes].
  apply be_bytes_inj in Hnonce as ->; [|done..].
  assert (parseAddressBytes <$> vault = parseAddressBytes <$> vault' /\
    (match expires with None => [] | Some t => 0 :: be_bytes 8 t end) =
    (match expires' with None => [] | Some t => 0 :: be_bytes 8 t end)) as [-> Hexp].
  { subst v v'. destruct vault as [a|], vault' as [a'|]; simpl.
    - destruct (parseAddressBytes a) as [b|] eqn:Eb; [|done]. destruct (parseAddressBytes a') as [b'|] eqn:Eb'; [|done].
      injection Ev as <-. injection Ev' as <-. simpl in Hrest. injection Hrest as Hrest.
      apply app_same_length in Hrest as [-> ->]; [done|].
      by rewrite (parseAddressBytes_length _ _ Eb), (parseAddressBytes_length _ _ Eb').
    - destruct (parseAddressBytes a); [|done]. injection Ev as <-. injection Ev' as <-. by destruct expires'.
    - destruct (parseAddressBytes a'); [|done]. injection Ev as <-. injection Ev' as <-. by destruct expires.
    - injection Ev as <-. injection Ev' as <-. simpl in Hrest. by injection Hrest. }
  do 2 f_equal. destruct expires as [t|], expires' as [t'|]; try done. apply (f_equal tail) in Hexp. simpl in Hexp.
  apply be_bytes_inj in Hexp as ->; [done|by apply He|by apply He'].
Qed.

Lemma action_preimage_injective_witness :
  let input := mkActionHashInput (Some (WObject [("type", WString "claimRewards")])) 1700000000000 None None in
  exists bytes, action_preimage input = Ok bytes /\ signed_content input = signed_content input.
Proof.
  intros input. assert (input_ok input) as Hok.
  { split; [|split]; [intros action [= <-]; reflexivity|split; [discriminate|reflexivity]|discriminate]. }
  assert (exists bytes, action_preimage input = Ok bytes) as [bytes Hb] by (eexists; vm_compute; reflexivity).
  exists bytes. exact (conj Hb (action_preimage_injective input input bytes Hok Hok Hb Hb)).
Defined.

(** ** Hexadecimal *)

(** A statement about the sixteen digits. *)
Lemma hex_digits_all (P : ascii -> bool) :
  check_upto 16 0 (fun n => P (hex_digit n)) = true -> forall n, 0 <= n < 16 -> P (hex_digit n) = true.
Proof. intros Hc n Hn. by apply (check_upto_correct 16 0 _ n Hc). Qed.

Lemma hex_value_digit n : 0 <= n < 16 -> hex_value (hex_digit n) = Some n.
Proof.
  intros Hn. pose proof (check_upto_correct 16 0 (fun n => bool_decide (hex_value (hex_digit n) = Some n)) n eq_refl Hn) as E.
  by apply bool_decide_eq_true in E.
Qed.

Lemma byte_nibbles b : is_byte b -> 0 <= Z.shiftr b 4 < 16 /\ 0 <= Z.land b 15 < 16 /\ 16 * Z.shiftr b 4 + Z.land b 15 = b.
Proof.
  intros Hb. unfold is_byte in Hb. rewrite Z.shiftr_div_pow2 by lia. change (Z.land b 15) with (Z.land b (Z.ones 4)).
  rewrite Z.land_ones by lia. change (2 ^ 4) with 16. pose proof (Z.div_mod b 16). pose proof (Z.mod_pos_bound b 16).
  split; [split; [apply Z.div_pos; lia|apply Z.div_lt_upper_bound; lia]|lia].
Qed.

Lemma hex_decode_encode l : Forall is_byte l -> hex_decode (hex_encode l) = Some l.
Proof.
  induction 1 as [|b l Hb _ IH]; [done|]. destruct (byte_nibbles b Hb) as (H1 & H2 & H3).
  cbn [hex_encode hex_decode]. by rewrite !hex_value_digit, IH by done; simpl; rewrite H3.
Qed.

Lemma length_hex_encode l : String.length (hex_encode l) = (2 * length l)%nat.
Proof. induction l as [|b l IH]; [done|]. cbn [hex_encode String.length length]. rewrite IH. lia. Qed.

(** Hexadecimal text has no white space at its end. *)
Lemma hex_encode_end l : Forall is_byte l -> l <> [] ->
  exists s n, hex_encode l = s +:+ String (hex_digit n) "" /\ 0 <= n < 16.
Proof.
  induction 1 as [|b l Hb _ IH]; [done|]. intros _. destruct l as [|b' l].
  - exists (String (hex_digit (Z.shiftr b 4)) ""), (Z.land b 15). split; [done|]. by apply byte_nibbles.
  - destruct IH as (s & n & E & Hn); [done|]. exists (String (hex_digit (Z.shiftr b 4)) (String (hex_digit (Z.land b 15)) s)), n.
    split; [|done]. cbn [hex_encode] in *. by rewrite E.
Qed.

Lemma TrimSpace_hex l : Forall is_byte l -> l <> [] -> TrimSpace ("0x" +:+ hex_encode l) = "0x" +:+ hex_encode l.
Proof.
  intros Hl Hne. destruct (hex_encode_end l Hl Hne) as (s & n & E & Hn). apply TrimSpace_fix; [reflexivity|].
  rewrite E, <- string_app_assoc, string_rev_app. cbn [String.rev String.rev_app].
  pose proof (hex_digits_all (fun c => negb (List.existsb (fun p => match p with String d _ => Ascii.eqb d c | "" => true end)
    (map String.rev space_runes))) eq_refl n Hn) as Hd. cbv beta in Hd.
  revert Hd. generalize (hex_digit n). intros c Hd. apply negb_true_iff in Hd.
  change (String.rev (String c "")) with (String c ""). cbn [String.append].
  apply first_strip_none. intros p r Hp Heq. apply Bool.not_true_iff_false in Hd. apply Hd. apply List.existsb_exists.
  exists p. split; [by apply list_elem_of_In|]. destruct p as [|d p]; [done|]. injection Heq as -> _. apply Ascii.eqb_refl.
Qed.

Lemma fixedHexBytes_encode field l : Forall is_byte l -> length l = 32%nat ->
  fixedHexBytes field ("0x" +:+ hex_encode l) 32 = Ok l.
Proof.
  intros Hl Hlen. unfold fixedHexBytes. rewrite TrimSpace_hex by (done || by destruct l).
  assert (TrimPrefix (TrimPrefix ("0x" +:+ hex_encode l) "0x") "0X" = hex_encode l) as ->.
  { change (TrimPrefix ("0x" +:+ hex_encode l) "0x") with (hex_encode l). destruct Hl as [|b l Hb Hl]; [done|].
    unfold TrimPrefix. cbn [hex_encode strip].
    destruct (Ascii.eqb "0" (hex_digit (Z.shiftr b 4))); [|done].
    pose proof (hex_digits_all (fun c => negb (Ascii.eqb "X" c)) eq_refl (Z.land b 15) ltac:(by apply byte_nibbles)) as Hx.
    cbv beta in Hx. by destruct (Ascii.eqb "X" (hex_digit (Z.land b 15))). }
  rewrite length_hex_encode, Hlen. simpl. unfold DecodeString. by rewrite hex_decode_encode.
Qed.

(** ** Addresses *)

Lemma checksum_chars_lower hash l i : Forall is_byte l -> toLower (checksum_chars hash i (hex_encode l)) = hex_encode l.
Proof.
  intros Hl. revert i. induction Hl as [|b l Hb _ IH]; intros i; [done|]. destruct (byte_nibbles b Hb) as (H1 & H2 & _).
  assert (forall n x, 0 <= n < 16 -> lower_ascii (if (48 <=? Z.of_nat (nat_of_ascii (hex_digit n))) && (Z.of_nat (nat_of_ascii (hex_digit n)) <=? 57)
    then hex_digit n else if (x : bool) then ascii_of_nat (Z.to_nat (Z.of_nat (nat_of_ascii (hex_digit n)) - 32)) else hex_digit n) = hex_digit n) as Hd.
  { intros n x Hn. pose proof (hex_digits_all (fun c => Ascii.eqb (lower_ascii (if (48 <=? Z.of_nat (nat_of_ascii c)) && (Z.of_nat (nat_of_ascii c) <=? 57)
      then c else if x then ascii_of_nat (Z.to_nat (Z.of_nat (nat_of_ascii c) - 32)) else c)) c) ltac:(by destruct x) n Hn) as E.
    by apply Ascii.eqb_eq in E. }
  cbn [hex_encode checksum_chars toLower]. rewrite IH. do 2 f_equal; [by apply Hd|]. f_equal. by apply Hd.
Qed.

Section Recover.
Context `{Crypto}.

Lemma toLower_checksumAddress address : Forall is_byte address -> toLower (checksumAddress address) = "0x" +:+ hex_encode address.
Proof. intros Ha. unfold checksumAddress. rewrite toLower_app, checksum_chars_lower by done. done. Qed.

Context {Laws : CryptoLaws}.

Lemma compact_of_signDigest key digest sig :
  signDigest key digest = Ok sig -> compactSignature sig = Ok (sign_compact key digest).
Proof.
  unfold signDigest. destruct (sign_shape key digest) as (v & r & s & -> & Hv & Hr & Hs & Br & Bs).
  assert (length (v :: r ++ s) = 65%nat) as Hlen by (simpl; rewrite length_app; lia). rewrite Hlen. cbn [negb Nat.eqb].
  change (skipn 33 (v :: r ++ s)) with (skipn 32 (r ++ s)). change (firstn 32 (skipn 1 (v :: r ++ s))) with (firstn 32 (r ++ s)).
  change (nth 0 (v :: r ++ s) 0) with v. rewrite (take_app_length' r s 32), (drop_app_length' r s 32) by done.
  intros Hsig. assert (sig = mkSignature ("0x" +:+ hex_encode r) ("0x" +:+ hex_encode s) v) as -> by congruence. unfold compactSignature. cbn [sig_R sig_S sig_V].
  destruct (Z.ltb_spec v 27); [lia|]. destruct (Z.ltb_spec 34 v); [lia|]. cbn [orb].
  rewrite (fixedHexBytes_encode "signature.r" r), (fixedHexBytes_encode "signature.s" s) by done. simpl. unfold cast8. by rewrite Z.mod_small by lia.
Qed.

Lemma recover_signDigest key digest sig : length digest = 32%nat ->
  signDigest key digest = Ok sig -> recoverDigestSigner digest sig = Ok (toLower (public_key_address (public_key key))).
Proof.
  intros Hd Hs. unfold recoverDigestSigner. rewrite (compact_of_signDigest key digest sig Hs). simpl.
  by rewrite recover_sign.
Qed.

Lemma signDigest_recovery_code key digest sig : signDigest key digest = Ok sig -> 27 <= sig_V sig <= 34.
Proof.
  unfold signDigest. destruct (sign_shape key digest) as (v & r & s & -> & Hv & _). destruct (negb _); [done|].
  intros E. assert (sig_V sig = v) as ->; [|done]. destruct sig as [sr ss sv]. by injection E.
Qed.

Lemma l1_signature_recovers key input network sig : SignL1Action (Some key) input network = Ok sig ->
  RecoverL1ActionSigner input network sig = Ok (toLower (public_key_address (public_key key))).
Proof.
  unfold SignL1Action, RecoverL1ActionSigner. simpl.
  destruct (ActionHash input) as [hash|]; [|done]. simpl. unfold l1AgentDigest.
  destruct (networkSourceHash network) as [source|]; [|done]. simpl. apply recover_signDigest, keccak_length.
Qed.

Lemma spot_send_signature_recovers key action sig : SignSpotSend (Some key) action = Ok sig ->
  RecoverSpotSendSigner action sig = Ok (toLower (public_key_address (public_key key))).
Proof.
  unfold SignSpotSend, RecoverSpotSendSigner, spotSendDigest. simpl.
  destruct (negb (String.eqb (ss_Type action) "spotSend")); [done|]. destruct (negb _ && negb _); [done|].
  destruct (parseSignatureChainID _) as [chain|]; [|done]. simpl. apply recover_signDigest, keccak_length.
Qed.

(** C26: the signature of an L1 action or of a spot send, written in its wire
    form, recovers exactly the lower-case address of the key that made it. *)
Theorem signature_recovers_signer key network input action sig :
  (SignL1Action (Some key) input network = Ok sig ->
   exists address, Address (Some key) = Ok address /\ RecoverL1ActionSigner input network sig = Ok (toLower address)) /\
  (SignSpotSend (Some key) action = Ok sig ->
   exists address, Address (Some key) = Ok address /\ RecoverSpotSendSigner action sig = Ok (toLower address)).
Proof.
  split; intros Hs; eexists; (split; [reflexivity|]).
  - by apply l1_signature_recovers.
  - by apply spot_send_signature_recovers.
Qed.
End Recover.

(** An instance that satisfies the laws, to apply the theorems to: the digest
    keeps the last 32 bytes, and a signature contains the key. *)
Module SampleCrypto.
#[local] Transparent be_bytes.

Definition sample_crypto : Crypto := {|
  keccak256 := fun m => be_bytes 32 (be_value m);
  secret_key := Z;
  key_of_scalar := fun raw => if be_value raw =? 0 then None else Some (be_value raw);
  public_key := fun k => 4 :: be_bytes 64 (k mod 256 ^ 32);
  sign_compact := fun k _ => 27 :: be_bytes 32 k ++ be_bytes 32 k;
  recover_compact := fun compact _ => Ok (4 :: be_bytes 64 (be_value (firstn 32 (tail compact))))
|}.

Lemma sample_laws : @CryptoLaws sample_crypto.
Proof.
  split.
  - intros m. apply length_be_bytes.
  - intros m. apply be_bytes_are_bytes.
  - intros k d. exists 27, (be_bytes 32 k), (be_bytes 32 k). split; [done|]. split; [lia|].
    split_and!; auto using length_be_bytes, be_bytes_are_bytes.
  - intros k d _. cbn [recover_compact sign_compact public_key sample_crypto tail].
    rewrite (take_app_length' (be_bytes 32 k) _ 32) by (by rewrite length_be_bytes). by rewrite be_value_bytes.
Qed.

Definition sample_action : SpotSendAction :=
  mkSpotSend "spotSend" "Mainnet" DefaultSignatureChainID "0xbb" "USDC:0x6d1e" "12.5" 1700000000000.
End SampleCrypto.

Lemma signature_recovers_signer_witness :
  exists sig address, @SignSpotSend SampleCrypto.sample_crypto (Some 5) SampleCrypto.sample_action = Ok sig /\
    @Address SampleCrypto.sample_crypto (Some 5) = Ok address /\
    @RecoverSpotSendSigner SampleCrypto.sample_crypto SampleCrypto.sample_action sig = Ok (toLower address).
Proof.
  assert (exists sig, @SignSpotSend SampleCrypto.sample_crypto (Some 5) SampleCrypto.sample_action = Ok sig) as [sig Hs]
    by (eexists; vm_compute; reflexivity).
  destruct (proj2 (@signature_recovers_signer SampleCrypto.sample_crypto SampleCrypto.sample_laws 5 NetworkMainnet
    (mkActionHashInput None 0 None None) SampleCrypto.sample_action sig) Hs) as (address & Ha & Hr).
  exact (ex_intro _ sig (ex_intro _ address (conj Hs (conj Ha Hr)))).
Defined.
