(* ===== verification/Exchange.v ===== *)
(** * The exchange client

    [internal/hyperliquid/exchange/client.go]: building signed requests for
    the two actions the program performs, and classifying the exchange's
    answer to a submitted one.  The HTTP transport is an operation: it answers
    with a body and possibly an error. *)

From S2P Require Import Prelude DecimalSpec Prog Crash Model Clock Sha256 Msgpack Signing Json JsonFacts JsonStruct Envelope.

(** [int32(z)]. *)
Definition to_int32 (z : Z) : Z := (z + 2147483648) mod 4294967296 - 2147483648.

(** One operation: [transport.ExchangeRaw]. *)
Definition ExchangeSig : EffSig := {| Op := string; Resp := fun _ => (string * option error)%type |}.

Section Exchange.
Context `{DecimalOps} `{Crypto}.

(* go: internal/hyperliquid/exchange/client.go 21-25 Client *)
Record Client : Type := mkClient {
  cl_network : Network;
  cl_signers : gmap string PrivateKey
}.

(** The registry, from the configured signers in the order of the range. *)
(* go: internal/hyperliquid/exchange/client.go 35-45 New *)
Fixpoint build_registry (signers : list (string * PrivateKey)) (registry : gmap string PrivateKey)
    : result (gmap string PrivateKey) :=
  match signers with
  | [] => Ok registry
  | (configuredAddress, key) :: signers =>
      match Address key with
      | Err err => Err (Wrapf "resolve signer %q: %w" [configuredAddress] err)
      | Ok address =>
          if negb (EqualFold configuredAddress address)
          then Err (Errorf "signer address %q does not match private key address %q" [configuredAddress; address])
          else build_registry signers (<[toLower address := key]> registry)
      end
  end.

(* go: internal/hyperliquid/exchange/client.go 27-47 New *)
Definition New (transport : bool) (network : Network) (signers : list (string * PrivateKey)) : result Client :=
  if negb transport then Err (Errorf "hyperliquid exchange transport is nil" [])
  else
    let network := NormalizeNetwork network in
    match ValidateNetwork network with
    | Some err => Err err
    | None => let? registry := build_registry signers ∅ in Ok (mkClient network registry)
    end.

(* go: internal/hyperliquid/exchange/client.go 147-160 signer *)
Definition signer (c : option Client) (address : string) : result (PrivateKey * string) :=
  match c with
  | None => Err (Errorf "hyperliquid exchange client is nil" [])
  | Some c =>
      match cl_signers c !! address_key address with
      | None => Err (Errorf "no private key for signer %q" [address])
      | Some key => let? canonicalAddress := Address key in Ok (key, canonicalAddress)
      end
  end.

(* go: internal/hyperliquid/exchange/client.go 173-178 chainLabel *)
Definition chainLabel (network : Network) : string :=
  if String.eqb network NetworkMainnet then "Mainnet" else "Testnet".

(** *** Request bodies *)

(* go: internal/hyperliquid/signing/signing.go 14-18 Signature *)
Definition signature_json (s : Signature) : json :=
  JObj [("r", JStr (sig_R s)); ("s", JStr (sig_S s)); ("v", JNum (itoa (sig_V s)))].

(* go: internal/hyperliquid/signing/spot_send.go 24-32 SpotSendAction *)
Definition spot_send_json (a : SpotSendAction) : json :=
  JObj [("type", JStr (ss_Type a)); ("hyperliquidChain", JStr (ss_HyperliquidChain a));
        ("signatureChainId", JStr (ss_SignatureChainID a)); ("destination", JStr (ss_Destination a));
        ("token", JStr (ss_Token a)); ("amount", JStr (ss_Amount a)); ("time", JNum (itoa (ss_Time a)))].

(* go: internal/hyperliquid/exchange/client.go 59-64 PrepareClaim *)
Definition request_json (action : json) (nonce : Z) (s : Signature) : json :=
  JObj [("action", action); ("nonce", JNum (itoa nonce)); ("signature", signature_json s); ("vaultAddress", JNull)].

(** Encoding these bodies cannot fail. *)
(* go: internal/hyperliquid/exchange/client.go 162-171 prepare *)
Definition prepare (kind signer destination token amount : string) (nonce : Z) (body : json) : PreparedAction :=
  mkPrepared kind signer destination token amount nonce (encode body).

(* go: internal/hyperliquid/exchange/client.go 49-66 PrepareClaim *)
Definition PrepareClaim (c : option Client) (address : string) (nonce : Z) : result PreparedAction :=
  let? (key, signer) := signer c address in
  let network := match c with Some c => cl_network c | None => "" end in
  let action := WObject [("type", WString "claimRewards")] in
  match SignL1Action key (mkActionHashInput (Some action) nonce None None) network with
  | Err err => Err (Wrapf "sign claim rewards: %w" [] err)
  | Ok signature =>
      Ok (prepare "claimRewards" signer "" "" "" nonce
            (request_json (JObj [("type", JStr "claimRewards")]) nonce signature))
  end.

(* go: internal/hyperliquid/exchange/client.go 68-107 PrepareSpotSend *)
Definition PrepareSpotSend (c : option Client) (address destination : string) (token : Token) (amount : decimal) (nonce : Z)
    : result PreparedAction :=
  let? (key, signer) := signer c address in
  let destination := TrimSpace destination in
  if string_is_empty destination then Err (Errorf "spot send destination is required" [])
  else if string_is_empty (tok_WireToken token) ||
          negb (String.eqb (tok_WireToken token) (tok_Name token +:+ ":" +:+ tok_TokenID token))
  then Err (Errorf "spot send token wire value is invalid" [])
  else if negb (dec_pos amount) then Err (Errorf "spot send amount must be positive" [])
  else
    let amountText := dec_string amount in
    match NewFromString amountText with
    | Err err => Err (Wrapf "normalize spot send amount: %w" [] err)
    | Ok normalizedAmount =>
        if (tok_WeiDecimals token <? 0) || (to_int32 (tok_WeiDecimals token) <? to_int32 (- dec_exponent normalizedAmount))
        then Err (Errorf "spot send amount exceeds token precision" [])
        else
          let network := match c with Some c => cl_network c | None => "" end in
          let action := mkSpotSend "spotSend" (chainLabel network) DefaultSignatureChainID destination
                          (tok_WireToken token) amountText nonce in
          match SignSpotSend key action with
          | Err err => Err (Wrapf "sign spot send: %w" [] err)
          | Ok signature =>
              Ok (prepare "spotSend" signer destination (tok_WireToken token) (ss_Amount action) nonce
                    (request_json (spot_send_json action) nonce signature))
          end
    end.

(** *** Submission *)

(** [json.Unmarshal] into a struct with a status. *)
(* go: internal/hyperliquid/exchange/client.go 121-124 Submit *)
Definition decode_status (body : string) : option string :=
  match parse_json body with
  | Some _ => dec_struct (field [("status", dec_str (fun v _ => v))]) body ""
  | None => None
  end.

(** The answer and the body it came with. *)
(* go: internal/hyperliquid/exchange/client.go 114-141 Submit *)
Definition classify (body : string) (err : option error) : SubmitResult * option error :=
  match err with
  | Some err => (mkSubmitResult false false body, Some err)
  | None =>
      match decode_status body with
      | None => (mkSubmitResult false false body, Some (Wrapf "decode exchange response status: %w" [] (Errorf "invalid JSON" [])))
      | Some status =>
          let r := mkSubmitResult (String.eqb status "ok") (String.eqb status "err") body in
          if negb (sr_Accepted r) && negb (sr_Rejected r)
          then (r, Some (Errorf "ambiguous exchange response status %q" [status]))
          else (r, None)
      end
  end.

(* go: internal/hyperliquid/exchange/client.go 109-141 Submit *)
Definition Submit (action : PreparedAction) : prog (Sig := ExchangeSig) (SubmitResult * option error) :=
  if string_is_empty (pa_RequestBody action)
  then mret (mkSubmitResult false false "", Some (Errorf "prepared request body is empty" []))
  else Call (Sig := ExchangeSig) (pa_RequestBody action) (fun r => mret (classify (fst r) (snd r))).
End Exchange.
