(* ===== verification/ExchangeFacts.v ===== *)
(** * What the exchange client guarantees

    A prepared spot send passes the validation the payout code applies before
    it sends or replays it, is signed by its signer, and is a JSON value the
    snapshot keeps byte for byte ([prepared_spot_send]); an answer counts as
    accepted or rejected only when the transport reported no error and the
    body says so ([submit_is_conservative]). *)

From Stdlib Require Import QArith.
From S2P Require Import Prelude DecimalSpec DecimalImpl Prog Crash Model Clock Sha256 Msgpack Signing SigningFacts Json JsonFacts JsonStruct Timestamp Envelope EnvelopeFacts ActionValidation Exchange.

Lemma signature_json_ok s : well_formed (signature_json s) = true.
Proof. simpl. by rewrite canonical_itoa. Qed.

Lemma spot_send_json_ok a : well_formed (spot_send_json a) = true.
Proof. simpl. by rewrite canonical_itoa. Qed.

Lemma request_json_ok action nonce s : well_formed action = true -> well_formed (request_json action nonce s) = true.
Proof. intros Ha. simpl. rewrite Ha, !canonical_itoa. done. Qed.

(** The validation reads back what was built. *)
Lemma unmarshal_spot_send a nonce s : uint64 (ss_Time a) -> uint64 nonce ->
  unmarshal_body (encode (request_json (spot_send_json a) nonce s)) =
  Some (mkBody (ss_Type a) (ss_Destination a) (ss_Token a) (ss_Amount a) (ss_Time a) nonce).
Proof.
  intros Ht Hn. unfold unmarshal_body. rewrite parse_encode by apply request_json_ok, spot_send_json_ok.
  cbv -[uint64_of_literal itoa ss_Time]. rewrite !uint64_of_literal_itoa by done. done.
Qed.

Section Registry.
Context `{Crypto}.

(** Every key of the registry is found under its own address. *)
Definition registered (registry : gmap string PrivateKey) : Prop :=
  forall k key, registry !! k = Some key -> exists address, Address key = Ok address /\ k = toLower address.

Lemma build_registry_ok signers registry registry' :
  registered registry -> build_registry signers registry = Ok registry' -> registered registry'.
Proof.
  revert registry. induction signers as [|[configured key] signers IH]; intros registry Hr; simpl; [by intros [= <-]|].
  destruct (Address key) as [address|] eqn:Ea; [|done]. destruct (negb _); [done|]. apply IH.
  intros k key' [[<- <-]|[_ Hk]]%lookup_insert_Some; [by exists address|by apply Hr].
Qed.

(** A client as [New] builds it. *)
Definition client_ok (c : Client) : Prop :=
  registered (cl_signers c) /\ ValidateNetwork (cl_network c) = None.

Lemma New_ok transport network signers c : New transport network signers = Ok c -> client_ok c.
Proof.
  unfold New. destruct transport; [|done]. simpl. destruct (ValidateNetwork (NormalizeNetwork network)) eqn:Ev; [done|].
  destruct (build_registry signers ∅) as [registry|] eqn:Er; [|done]. intros [= <-]. split; [|done].
  by apply (build_registry_ok signers ∅).
Qed.

Lemma signer_ok c address key canonical : client_ok c -> signer (Some c) address = Ok (key, canonical) ->
  Address key = Ok canonical /\ EqualFold canonical (TrimSpace address) = true.
Proof.
  intros [Hr _]. unfold signer. destruct (cl_signers c !! address_key address) as [k|] eqn:Ek; [|done].
  destruct (Address k) as [a|] eqn:Ea; [|done]. intros [= -> ->]. split; [done|].
  destruct (Hr _ _ Ek) as (a' & Ha' & Hk). rewrite Ea in Ha'. injection Ha' as <-. by apply EqualFold_spec.
Qed.
End Registry.

Section Exchange.
Context `{Laws : DecimalLaws} `{CLaws : CryptoLaws}.

(** The manifest a payout of [amount] of [token] is made for. *)
Definition manifest_for (m : Manifest) (token : Token) (amount : decimal) : Prop :=
  man_Token m = Some token /\ exists total, dec_parse (man_PayoutTotal m) = Some total /\ (dec_value total == dec_value amount)%Q.

(** The action a spot send signs. *)
Definition spot_send_action (c : Client) (destination : string) (token : Token) (amount : decimal) (nonce : Z) : SpotSendAction :=
  mkSpotSend "spotSend" (chainLabel (cl_network c)) DefaultSignatureChainID (TrimSpace destination) (tok_WireToken token)
    (dec_string amount) nonce.

(** What the preparation of a spot send has established. *)
Lemma PrepareSpotSend_inv c address destination token amount nonce a :
  client_ok c -> PrepareSpotSend (Some c) address destination token amount nonce = Ok a ->
  let action := spot_send_action c destination token amount nonce in
  exists canonical signature,
    EqualFold canonical (TrimSpace address) = true /\ dec_pos amount = true /\
    a = prepare "spotSend" canonical (TrimSpace destination) (tok_WireToken token) (dec_string amount) nonce
          (request_json (spot_send_json action) nonce signature) /\
    RecoverSpotSendSigner action signature = Ok (toLower canonical) /\ 27 <= sig_V signature <= 34.
Proof.
  intros Hc. unfold PrepareSpotSend. destruct (signer (Some c) address) as [[key canonical]|] eqn:Es; [|done]. cbn [rbind].
  destruct (signer_ok c _ _ _ Hc Es) as [Haddr Hfold].
  destruct (string_is_empty (TrimSpace destination)); [done|]. destruct (string_is_empty (tok_WireToken token) || _); [done|].
  destruct (dec_pos amount) eqn:Ep; [|done]. cbn [negb]. destruct (NewFromString (dec_string amount)) as [norm|]; [|done].
  destruct ((tok_WeiDecimals token <? 0) || _); [done|]. fold (spot_send_action c destination token amount nonce).
  destruct (SignSpotSend key _) as [signature|] eqn:Esig; [|done]. intros Ha.
  change (ss_Amount (spot_send_action c destination token amount nonce)) with (dec_string amount) in Ha.
  destruct key as [key|]; [|done]. exists canonical, signature. split; [done|]. split; [done|]. split; [congruence|].
  assert (canonical = public_key_address (public_key key)) as ->.
  { cbn [Address] in Haddr. congruence. }
  split; [by apply spot_send_signature_recovers|].
  unfold SignSpotSend in Esig. cbn [require rbind] in Esig. destruct (spotSendDigest _); [|done].
  by apply (signDigest_recovery_code key a0).
Qed.

(** ... and the preparation of a claim. *)
Lemma PrepareClaim_inv c address nonce a :
  client_ok c -> PrepareClaim (Some c) address nonce = Ok a ->
  exists canonical signature,
    EqualFold canonical (TrimSpace address) = true /\
    a = prepare "claimRewards" canonical "" "" "" nonce (request_json (JObj [("type", JStr "claimRewards")]) nonce signature) /\
    RecoverL1ActionSigner (mkActionHashInput (Some (WObject [("type", WString "claimRewards")])) nonce None None)
      (cl_network c) signature = Ok (toLower canonical) /\ 27 <= sig_V signature <= 34.
Proof.
  intros Hc. unfold PrepareClaim. destruct (signer (Some c) address) as [[key canonical]|] eqn:Es; [|done]. cbn [rbind].
  destruct (signer_ok c _ _ _ Hc Es) as [Haddr Hfold].
  destruct (SignL1Action key _ _) as [signature|] eqn:Esig; [|done]. intros Ha.
  destruct key as [key|]; [|done]. exists canonical, signature. split; [done|]. split; [congruence|].
  assert (canonical = public_key_address (public_key key)) as ->.
  { cbn [Address] in Haddr. congruence. }
  split; [by apply l1_signature_recovers|].
  unfold SignL1Action in Esig. cbn [require rbind] in Esig. destruct (ActionHash _); [|done]. cbn [rbind] in Esig.
  destruct (l1AgentDigest _ _) as [digest|]; [|done]. by apply (signDigest_recovery_code key digest).
Qed.

(** C18: a spot send prepared for a payout manifest - from its settlement
    address to its recipient, of its token and total - passes the validation
    applied before it is sent or replayed; its request body is a JSON value,
    so the snapshot keeps its bytes; and its signature recovers the signer. *)
Theorem prepared_spot_send c target token amount nonce a :
  client_ok c -> uint64 nonce ->
  let m := tgt_Manifest target in
  manifest_for m token amount -> TrimSpace (man_Settlement m) = man_Settlement m ->
  PrepareSpotSend (Some c) (man_Settlement m) (man_Recipient m) token amount nonce = Ok a ->
  TrimSpace (man_Recipient m) = man_Recipient m ->
  validatePreparedPayout target a = None /\ prepared_ok a /\
  exists action signature, pa_RequestBody a = encode (request_json (spot_send_json action) nonce signature) /\
    RecoverSpotSendSigner action signature = Ok (toLower (pa_Signer a)).
Proof.
  intros Hc Hn m (Htok & total & Htotal & Heq) Hset Ha Hrec.
  destruct (PrepareSpotSend_inv _ _ _ _ _ _ _ Hc Ha) as (canonical & signature & Hfold & _ & -> & Hsig & _).
  rewrite Hset in Hfold. destruct (dec_parse_string amount) as (norm & Hnorm & Hval).
  split; [|split].
  - apply validatePreparedPayout_iff. split; cbn [prepare pa_Kind pa_Signer pa_Destination pa_Token pa_Amount pa_RequestBody pa_Nonce].
    + done.
    + done.
    + fold m. rewrite Hrec. apply EqualFold_refl.
    + by exists token.
    + exists norm, total. split; [done|]. split; [done|]. by rewrite Hval, Heq.
    + eexists _, norm, total. split; [by apply unmarshal_spot_send|]. cbn. split; [done|].
      split; [fold m; rewrite Hrec; apply EqualFold_refl|]. split_and!; try done. by rewrite Hval, Heq.
  - split; [done|]. eexists. split; [|reflexivity]. apply request_json_ok, spot_send_json_ok.
  - by exists (spot_send_action c (man_Recipient m) token amount nonce), signature.
Qed.
End Exchange.

Section Submission.

(** The client reports that the exchange accepted or rejected a request
    only when the transport reported no error and the body is a JSON object
    with exactly that status; every other answer is an error without a
    verdict. *)
Theorem submit_is_conservative body err r err' :
  classify body err = (r, err') ->
  (sr_Accepted r = true -> err = None /\ err' = None /\ sr_Rejected r = false /\ decode_status body = Some "ok") /\
  (sr_Rejected r = true -> err = None /\ err' = None /\ sr_Accepted r = false /\ decode_status body = Some "err") /\
  (err' <> None <-> sr_Accepted r = false /\ sr_Rejected r = false) /\ sr_Response r = body.
Proof.
  unfold classify. destruct err as [e|]; [by intros [= <- <-]|].
  destruct (decode_status body) as [status|]; [|by intros [= <- <-]]. cbn [sr_Accepted sr_Rejected].
  destruct (String.eqb_spec status "ok") as [->|Hok].
  - intros [= <- <-]. cbn. split_and!; naive_solver.
  - destruct (String.eqb_spec status "err") as [->|Herr]; intros [= <- <-]; cbn; split_and!; naive_solver.
Qed.
End Submission.

(** ** Witnesses *)

Section Witnesses.
#[local] Existing Instance DecimalImpl.dec_ops.
#[local] Existing Instance DecimalImpl.dec_laws.
#[local] Existing Instance SampleCrypto.sample_crypto.
#[local] Existing Instance SampleCrypto.sample_laws.

Definition sample_address : string := match Address (Some 5) with Ok address => address | Err _ => "" end.
Definition sample_token : Token := mkToken "USDC" "0x6d1e" 0 8 "USDC:0x6d1e".
Definition sample_amount : decimal := default dec_zero (dec_parse "12.5").
Definition sample_target : PayoutTargetState :=
  mkTarget PayoutKindReferral PhasePrepared
    (mkManifest [mkFundingRecord 7 1704067200 "12.5"] "12.5" "12.5" (Some sample_token) sample_address "0xbb") None "" "".

Definition sample_new : result Client := New true "Mainnet" [(sample_address, Some 5)].

Lemma sample_client : is_ok sample_new = true /\
  match sample_new with
  | Ok c => is_ok (PrepareSpotSend (Some c) sample_address "0xbb" sample_token sample_amount 1700000000000)
  | Err _ => false
  end = true.
Proof. split; vm_compute; reflexivity. Qed.

Lemma prepared_spot_send_witness : exists c a,
  PrepareSpotSend (Some c) sample_address "0xbb" sample_token sample_amount 1700000000000 = Ok a /\
  validatePreparedPayout sample_target a = None /\ prepared_ok a.
Proof.
  destruct sample_client as [Hnew Ha]. destruct sample_new as [c|] eqn:Hc; [|discriminate Hnew].
  destruct (PrepareSpotSend (Some c) sample_address "0xbb" sample_token sample_amount 1700000000000) as [a|] eqn:E; [|discriminate Ha].
  assert (uint64 1700000000000) as Hn by (split; [discriminate|reflexivity]).
  assert (manifest_for (tgt_Manifest sample_target) sample_token sample_amount) as Hm.
  { split; [reflexivity|]. exists sample_amount. split; [vm_compute; reflexivity|reflexivity]. }
  assert (TrimSpace sample_address = sample_address) as Ht by (vm_compute; reflexivity).
  destruct (prepared_spot_send c sample_target sample_token sample_amount 1700000000000 a (New_ok _ _ _ _ Hc) Hn Hm Ht E eq_refl)
    as (Hv & Hok & _).
  exact (ex_intro _ c (ex_intro _ a (conj E (conj Hv Hok)))).
Defined.

Lemma submit_is_conservative_witness : exists r,
  classify (encode (JObj [("status", JStr "ok")])) None = (r, None) /\ sr_Accepted r = true /\ sr_Rejected r = false.
Proof.
  exists (mkSubmitResult true false (encode (JObj [("status", JStr "ok")]))).
  assert (classify (encode (JObj [("status", JStr "ok")])) None =
          (mkSubmitResult true false (encode (JObj [("status", JStr "ok")])), None)) as E by (vm_compute; reflexivity).
  destruct (submit_is_conservative _ _ _ _ E) as (Ha & _).
  exact (conj E (conj eq_refl (proj1 (proj2 (proj2 (Ha eq_refl)))))).
Defined.
End Witnesses.
