(* ===== verification/Mysql.v ===== *)
(** * The funding repository

    [internal/repository/mysql]: listing the pending funding records and
    completing the records of a manifest in one transaction, with the retry
    loop around both and the resolution of a commit whose response was lost.

    The database is reached through the operations of [database/sql].  A query
    answers with the rows the driver delivers: one scan result per row, and
    the error of [rows.Err] when the iteration ended early.  [Retryer.Do] has
    no limit of attempts, so it is the loop cut after a number of them:
    [None] says that it is still retrying. *)

From S2P Require Import Prelude Clock Prog Crash Model Store.

(** ** Errors *)

(** What an error of the driver or the operating system is. *)
Inductive cause : Type :=
| ErrBadConn
| ErrInvalidConn
| EOF
| UnexpectedEOF
| ECONNREFUSED | ECONNRESET | EPIPE | ENETUNREACH | EHOSTUNREACH
| MySQLError (number : Z)
| DNSError (temporary notFound timeout : bool)
| NetError (timeout : bool)
| OtherError.

(** The cause each dependency error carries, and the errors an error wraps, in
    the order [errors.Is] and [errors.As] visit them. *)
Class Causes : Type := cause_of : Z -> cause.

(** [errors.As]: the first cause of a kind. *)
Fixpoint find_cause {A : Type} (kind : cause -> option A) (l : list cause) : option A :=
  match l with
  | [] => None
  | c :: l => match kind c with Some a => Some a | None => find_cause kind l end
  end.

(* go: internal/repository/mysql/errors.go 13-22 retryableMySQLErrors *)
Definition retryableMySQLErrors : list Z := [1040; 1053; 1205; 1213; 2002; 2003; 2006; 2013].

Definition connection_lost (c : cause) : bool :=
  match c with ErrBadConn | ErrInvalidConn | EOF | UnexpectedEOF => true | _ => false end.
Definition network_failed (c : cause) : bool :=
  match c with ECONNREFUSED | ECONNRESET | EPIPE | ENETUNREACH | EHOSTUNREACH => true | _ => false end.
Definition mysql_number (c : cause) : option Z := match c with MySQLError n => Some n | _ => None end.
Definition dns_error (c : cause) : option (bool * bool) :=
  match c with DNSError temporary notFound _ => Some (temporary, notFound) | _ => None end.
Definition timeout_error (c : cause) : option bool :=
  match c with
  | DNSError _ _ timeout | NetError timeout => Some timeout
  | ECONNREFUSED | ECONNRESET | EPIPE | ENETUNREACH | EHOSTUNREACH => Some false
  | _ => None
  end.

Section Errors.
Context `{Causes}.

Fixpoint causes (e : error) : list cause :=
  match e with
  | Wrapf _ _ inner | FatalError inner | RetryExhaustedError _ inner => causes inner
  | Join l r => causes l ++ causes r
  | External code _ => [cause_of code]
  | Canceled | DeadlineExceeded | Errorf _ _ => []
  end.

(* go: internal/repository/mysql/errors.go 26-53 IsRetryable *)
Definition IsRetryable (err : option error) : bool :=
  match err with
  | None => false
  | Some err =>
      if is_canceled err || is_deadline err then false
      else if List.existsb connection_lost (causes err) then true
      else if List.existsb network_failed (causes err) then true
      else
        match find_cause mysql_number (causes err) with
        | Some number => bool_decide (number ∈ retryableMySQLErrors)
        | None =>
            match find_cause dns_error (causes err) with
            | Some (true, false) => true
            | _ => match find_cause timeout_error (causes err) with Some timeout => timeout | None => false end
            end
        end
  end.
End Errors.

(** [errors.Is] and [errors.As] see the primary error only. *)
(* go: internal/repository/mysql/repository.go 295-314 appendDiagnosticError *)
Definition appendDiagnosticError (primary diagnostic : option error) : option error :=
  match primary, diagnostic with
  | None, _ => diagnostic
  | _, None => primary
  | Some primary, Some diagnostic => Some (Wrapf ("%w" +:+ bytes_of [10] +:+ "%s") [error_text diagnostic] primary)
  end.

(** ** The database *)

(** A row of the funding table. *)
Record row : Type := mkRow {
  row_period : Z;
  row_amount : string;
  row_cycle : Z;
  row_status : Z
}.
#[export] Instance row_settable : Settable row := fun r =>
  mkRow (row_period r) (row_amount r) (row_cycle r) (row_status r).

(** What a query delivers: a scan result per row, and [rows.Err]. *)
Definition rows (A : Type) : Type := list (result A) * option error.

Inductive rollback_result : Type :=
| RolledBack
| TxDone
| RollbackErr (e : error).

(* go: internal/repository/mysql/retry.go 17-28 RetryObserver *)
Inductive retry_event : Type :=
| RetryStarted (operation : string) (err : error)
| RetryProgress (operation : string) (attempts unavailableFor : Z) (err : error)
| Recovered (operation : string) (attempts unavailableFor : Z)
| Diagnostic (operation stage : string) (err : error).

Inductive SqlOp : Type :=
| CtxErr
| QueryPending (sql : string)
| QueryStatuses (tx : bool) (sql : string) (args : list Z)
| CloseRows
| BeginTx
| TxExec (sql : string) (args : list Z)
| Commit
| Rollback
| Now
| Jitter
| Sleep (delay : Z)
| Observe (e : retry_event).

Definition SqlResp (o : SqlOp) : Type :=
  match o with
  | CtxErr | CloseRows | BeginTx | Commit | Sleep _ => option error
  | QueryPending _ => result (rows FundingRecord)
  | QueryStatuses _ _ _ => result (rows (Z * Z))
  | TxExec _ _ => result (result Z)
  | Rollback => rollback_result
  | Now | Jitter => Z
  | Observe _ => unit
  end.

#[export] Instance SqlSig : EffSig := {| Op := SqlOp; Resp := SqlResp |}.

(** ** Statements *)

(** [strings.Repeat] and [strings.TrimSuffix]. *)
Fixpoint Repeat (s : string) (n : nat) : string := match n with O => "" | S n => s +:+ Repeat s n end.
Definition TrimSuffix (s suffix : string) : string :=
  match strip (String.rev suffix) (String.rev s) with Some r => String.rev r | None => s end.

(* go: internal/repository/mysql/repository.go 325-327 placeholders *)
Definition placeholders (count : nat) : string := TrimSuffix (Repeat "?," count) ",".

Definition newline : string := bytes_of [10].

(* go: internal/repository/mysql/repository.go 16-19 referralListPendingSQL *)
Definition referralListPendingSQL : string :=
  "SELECT id, period_start_at, amount" +:+ newline +:+ "FROM trasia_referral_funding_record" +:+ newline +:+
  "WHERE cycle_type IN (1, 2) AND status = 0" +:+ newline +:+ "ORDER BY period_start_at, id".

(* go: internal/repository/mysql/repository.go 21-23 referralUpdatePrefix *)
Definition referralUpdatePrefix : string :=
  "UPDATE trasia_referral_funding_record" +:+ newline +:+ "SET status = 1" +:+ newline +:+
  "WHERE cycle_type IN (1, 2) AND status = 0 AND id IN".

(* go: internal/repository/mysql/repository.go 25-27 referralStatusPrefix *)
Definition referralStatusPrefix : string :=
  "SELECT id, status" +:+ newline +:+ "FROM trasia_referral_funding_record" +:+ newline +:+
  "WHERE cycle_type IN (1, 2) AND id IN".

(* go: internal/repository/mysql/repository.go 30-36 repositoryQueries *)
Record repositoryQueries : Type := mkQueries {
  q_listPendingSQL : string;
  q_updatePrefix : string;
  q_statusPrefix : string;
  q_listOperation : string;
  q_completeOperation : string
}.

(* go: internal/repository/mysql/repository.go 38-46 referralQueries *)
Definition referralQueries : repositoryQueries :=
  mkQueries referralListPendingSQL referralUpdatePrefix referralStatusPrefix
    "list_pending_referral" "complete_referral_funding_records".

(** The statement for a batch of [count] ids. *)
(* go: internal/repository/mysql/repository.go 171-175 completeTransaction *)
Definition update_sql (queries : repositoryQueries) (count : nat) : string :=
  q_updatePrefix queries +:+ " (" +:+ placeholders count +:+ ")".
(* go: internal/repository/mysql/repository.go 222-226 readStatuses *)
Definition status_sql (queries : repositoryQueries) (count : nat) : string :=
  q_statusPrefix queries +:+ " (" +:+ placeholders count +:+ ") ORDER BY id".

(* go: internal/repository/mysql/repository.go 14-14 completeBatchSize *)
Definition completeBatchSize : nat := 500.

(** The batches [forEachIDBatch] passes, in order. *)
(* go: internal/repository/mysql/repository.go 316-323 forEachIDBatch *)
Fixpoint id_batches (fuel : nat) (ids : list Z) : list (list Z) :=
  match fuel, ids with
  | S fuel, _ :: _ => firstn completeBatchSize ids :: id_batches fuel (skipn completeBatchSize ids)
  | _, _ => []
  end.
Definition batches (ids : list Z) : list (list Z) := id_batches (length ids) ids.

(* go: internal/repository/mysql/repository.go 340-346 uniqueIDs *)
Fixpoint unique_from (seen : gset Z) (ids : list Z) : list Z :=
  match ids with
  | [] => []
  | id :: ids => if decide (id ∈ seen) then unique_from seen ids else id :: unique_from ({[id]} ∪ seen) ids
  end.
(* go: internal/repository/mysql/repository.go 337-348 uniqueIDs *)
Definition uniqueIDs (ids : list Z) : list Z := unique_from ∅ ids.

(** ** Operations *)

(** [if closeErr := rows.Close(); closeErr != nil { appendDiagnosticError }]. *)
Definition close_rows (primary : option error) (what : string) : prog (option error) :=
  closeErr ← perform CloseRows;
  mret (match closeErr with
        | Some closeErr => appendDiagnosticError primary (Some (Wrapf ("close " +:+ what +:+ " rows: %w") [] closeErr))
        | None => primary
        end).

(** The loop over the rows of a status query. *)
(* go: internal/repository/mysql/repository.go 232-257 readStatuses *)
Fixpoint scan_statuses (scans : list (result (Z * Z))) (statuses : gmap Z Z) : result (gmap Z Z) :=
  match scans with
  | [] => Ok statuses
  | Err err :: _ => Err (Wrapf "scan funding record status: %w" [] err)
  | Ok (id, status) :: scans =>
      if decide (is_Some (statuses !! id)) then Err (Errorf "funding record %d returned more than once" [itoa id])
      else scan_statuses scans (<[id := status]> statuses)
  end.

(* go: internal/repository/mysql/repository.go 272-286 readStatuses *)
Fixpoint zero_statuses (statuses : gmap Z Z) (batch zeroIDs : list Z) : result (list Z) :=
  match batch with
  | [] => Ok zeroIDs
  | id :: batch =>
      match statuses !! id with
      | None => Err (Errorf "funding record %d is missing" [itoa id])
      | Some status =>
          if status =? 0 then zero_statuses statuses batch (zeroIDs ++ [id])
          else if status =? 1 then zero_statuses statuses batch zeroIDs
          else Err (Errorf "funding record %d has unexpected status %d" [itoa id; itoa status])
      end
  end.

(** The function passed to [forEachIDBatch]. *)
(* go: internal/repository/mysql/repository.go 221-288 readStatuses *)
Definition read_batch (tx : bool) (queries : repositoryQueries) (batch zeroIDs : list Z) : prog (result (list Z)) :=
  let! rows := perform (QueryStatuses tx (status_sql queries (length batch)) batch) else Err ;;
  match scan_statuses (fst rows) ∅ with
  | Err err =>
      readErr ← close_rows (Some err) "funding status";
      mret (match readErr with Some err => Err err | None => Ok zeroIDs end)
  | Ok statuses =>
      match snd rows with
      | Some err =>
          readErr ← close_rows (Some err) "funding status";
          mret (match readErr with Some err => Err err | None => Ok zeroIDs end)
      | None => try perform CloseRows else Err ;; mret (zero_statuses statuses batch zeroIDs)
      end
  end.

Fixpoint read_batches (tx : bool) (queries : repositoryQueries) (bs : list (list Z)) (zeroIDs : list Z) : prog (result (list Z)) :=
  match bs with
  | [] => mret (Ok zeroIDs)
  | batch :: bs => let! zeroIDs := read_batch tx queries batch zeroIDs else Err ;; read_batches tx queries bs zeroIDs
  end.

(** [tx] tells a query inside the transaction from one on the pool. *)
(* go: internal/repository/mysql/repository.go 213-293 readStatuses *)
Definition readStatuses (tx : bool) (queries : repositoryQueries) (ids : list Z) : prog (result (list Z)) :=
  read_batches tx queries (batches ids) [].

(** The function passed to [forEachIDBatch]. *)
(* go: internal/repository/mysql/repository.go 170-190 completeTransaction *)
Definition update_batch (queries : repositoryQueries) (batch : list Z) : prog (option error) :=
  let! affected := perform (TxExec (update_sql queries (length batch)) batch) else Some ;;
  mret (match affected with
        | Err affectedErr => Some (Wrapf "read affected funding rows: %w" [] affectedErr)
        | Ok affected =>
            if (affected <? 0) || (Z.of_nat (length batch) <? affected)
            then Some (Errorf "update funding records affected %d rows for %d manifest IDs" [itoa affected; itoa (Z.of_nat (length batch))])
            else None
        end).

Fixpoint update_batches (queries : repositoryQueries) (bs : list (list Z)) : prog (option error) :=
  match bs with
  | [] => mret None
  | batch :: bs => try update_batch queries batch else Some ;; update_batches queries bs
  end.

(** The body after [BeginTx], before the deferred rollback. *)
(* go: internal/repository/mysql/repository.go 170-204 completeTransaction *)
Definition transaction_body (queries : repositoryQueries) (ids : list Z) : prog (bool * option error) :=
  try update_batches queries (batches ids) else (fun err => (false, Some err)) ;;
  let! zeroIDs := readStatuses true queries ids else (fun err => (false, Some err)) ;;
  match zeroIDs with
  | _ :: _ => mret (false, Some (Errorf "%d funding records remain at status 0 after update" [itoa (Z.of_nat (length zeroIDs))]))
  | [] => try perform Commit else (fun err => (true, Some err)) ;; mret (true, None)
  end.

(* go: internal/repository/mysql/repository.go 154-205 completeTransaction *)
Definition completeTransaction (queries : repositoryQueries) (ids : list Z) : prog (bool * option error) :=
  try perform BeginTx else (fun err => (false, Some err)) ;;
  r ← transaction_body queries ids;
  rolledBack ← perform Rollback;
  mret (match rolledBack with
        | RollbackErr rollbackErr =>
            (fst r, appendDiagnosticError (snd r) (Some (Wrapf "rollback funding transaction: %w" [] rollbackErr)))
        | RolledBack | TxDone => r
        end).

(** ** Retrying *)

(* go: internal/repository/mysql/retry.go 9-15 retryDelays *)
Definition retryDelays : list Z := [Second; 2 * Second; 5 * Second; 10 * Second; 30 * Second].

(** [draw] is the answer of [rand.IntN(41)], the response of [Jitter]. *)
(* go: internal/repository/mysql/retry.go 128-132 jitterDelay *)
Definition jitterDelay (delay draw : Z) : Z := delay * (80 + draw) / 100.

(** [retryDelays[delayIndex]] after [failures] failures. *)
(* go: internal/repository/mysql/retry.go 104-107 Do *)
Definition retry_delay (failures : Z) : Z :=
  let delayIndex := failures - 1 in
  let delayIndex := if Z.of_nat (length retryDelays) <=? delayIndex then Z.of_nat (length retryDelays) - 1 else delayIndex in
  nth (Z.to_nat delayIndex) retryDelays 0.

Section Retry.
Context `{Causes}.
Variable observer : bool.

(** Calls of an optional observer. *)
Definition observe (e : retry_event) : prog unit := if observer then perform (Observe e) else mret tt.

(** The time of a failure: of the first one it is remembered, of a later one
    the observer is told how long the outage lasts. *)
(* go: internal/repository/mysql/retry.go 93-102 Do *)
Definition note_failure (operation : string) (failures startedAt : Z) (err : error) : prog Z :=
  if failures =? 1 then
    now ← perform Now;
    observe (RetryStarted operation err) ;;
    mret now
  else if observer then
    now ← perform Now;
    observe (RetryProgress operation failures (now - startedAt) err) ;;
    mret startedAt
  else mret startedAt.

(** [St] is what the closure [fn] captures. *)
(* go: internal/repository/mysql/retry.go 57-115 Do *)
Fixpoint Do {St : Type} (fuel : nat) (operation : string) (fn : St -> prog (option error * St))
    (failures startedAt : Z) (st : St) : prog (option (option error * St)) :=
  match fuel with
  | O => mret None
  | S fuel =>
      done ← perform CtxErr;
      match done with
      | Some err => mret (Some (Some err, st))
      | None =>
          r ← fn st;
          let st := snd r in
          match fst r with
          | None =>
              (if (0 <? failures) && observer
               then now ← perform Now; observe (Recovered operation failures (now - startedAt))
               else mret tt) ;;
              mret (Some (None, st))
          | Some err =>
              ctxErr ← perform CtxErr;
              match ctxErr with
              | Some ctxErr => mret (Some (Some ctxErr, st))
              | None =>
                  if negb (IsRetryable (Some err)) then mret (Some (Some err, st))
                  else
                    let failures := failures + 1 in
                    startedAt ← note_failure operation failures startedAt err;
                    draw ← perform Jitter;
                    slept ← perform (Sleep (jitterDelay (retry_delay failures) draw));
                    match slept with
                    | Some err =>
                        ctxErr ← perform CtxErr;
                        mret (Some (Some (default err ctxErr), st))
                    | None => Do fuel operation fn failures startedAt st
                    end
              end
          end
      end
  end.

(** ** The repository *)

(* go: internal/repository/mysql/repository.go 76-84 ListPending *)
Fixpoint scan_pending (scans : list (result FundingRecord)) : result (list FundingRecord) :=
  match scans with
  | [] => Ok []
  | Err err :: _ => Err (Wrapf "scan pending funding record: %w" [] err)
  | Ok record :: scans => let? records := scan_pending scans in Ok (record :: records)
  end.

(** One attempt; it assigns the captured [records] only when it succeeds, and
    the deferred [rows.Close] may still turn that into an error. *)
(* go: internal/repository/mysql/repository.go 64-90 ListPending *)
Definition list_attempt (queries : repositoryQueries) (records : list FundingRecord) : prog (option error * list FundingRecord) :=
  let! rows := perform (QueryPending (q_listPendingSQL queries)) else (fun err => (Some err, records)) ;;
  let '(attemptErr, records) :=
    match scan_pending (fst rows) with
    | Err err => (Some err, records)
    | Ok attemptRecords =>
        match snd rows with Some err => (Some err, records) | None => (None, attemptRecords) end
    end in
  attemptErr ← close_rows attemptErr "pending funding";
  mret (attemptErr, records).

(* go: internal/repository/mysql/repository.go 62-95 ListPending *)
Definition ListPending (queries : repositoryQueries) (fuel : nat) : prog (option (result (list FundingRecord))) :=
  r ← Do fuel (q_listOperation queries) (list_attempt queries) 0 0 [];
  mret (match r with
        | None => None
        | Some (Some err, _) => Some (Err err)
        | Some (None, records) => Some (Ok records)
        end).

(** What the attempts of [Complete] share. *)
(* go: internal/repository/mysql/repository.go 103-107 Complete *)
Record completion : Type := mkCompletion {
  remaining : list Z;
  resolveCommit : bool;
  commitErr : option error
}.

(** A fresh read after a commit without an answer: the records that are still
    pending, or the outcome. *)
(* go: internal/repository/mysql/repository.go 110-120 Complete *)
Definition resolve_commit (queries : repositoryQueries) (manifestIDs : list Z) (commitErr : option error)
    : prog (result (list Z) + option error) :=
  let! zeroIDs := readStatuses false queries manifestIDs else (fun err => inl (Err err)) ;;
  mret (if Nat.eqb (length zeroIDs) 0 then inr None
        else if negb (IsRetryable commitErr) then inr commitErr
        else inl (Ok zeroIDs)).

(* go: internal/repository/mysql/repository.go 125-150 Complete *)
Definition complete_attempt (queries : repositoryQueries) (manifestIDs : list Z) (st : completion) : prog (option error * completion) :=
  r ← completeTransaction queries (remaining st);
  match r with
  | (_, None) => mret (None, st)
  | (false, Some err) => mret (Some err, st)
  | (true, Some err) =>
      observe (Diagnostic (q_completeOperation queries) "commit_response_failed" err) ;;
      let st := mkCompletion (remaining st) true (Some err) in
      resolved ← resolve_commit queries manifestIDs (commitErr st);
      mret (match resolved with
            | inl (Err statusErr) => (Some statusErr, st)
            | inr outcome => (outcome, st)
            | inl (Ok zeroIDs) => (commitErr st, mkCompletion zeroIDs false (commitErr st))
            end)
  end.

(* go: internal/repository/mysql/repository.go 108-151 Complete *)
Definition complete_step (queries : repositoryQueries) (manifestIDs : list Z) (st : completion) : prog (option error * completion) :=
  if resolveCommit st then
    resolved ← resolve_commit queries manifestIDs (commitErr st);
    match resolved with
    | inl (Err err) => mret (Some err, st)
    | inr outcome => mret (outcome, st)
    | inl (Ok zeroIDs) => complete_attempt queries manifestIDs (mkCompletion zeroIDs false (commitErr st))
    end
  else complete_attempt queries manifestIDs st.

(* go: internal/repository/mysql/repository.go 97-152 Complete *)
Definition Complete (queries : repositoryQueries) (fuel : nat) (ids : list Z) : prog (option (option error)) :=
  let manifestIDs := uniqueIDs ids in
  match manifestIDs with
  | [] => Ret (Some None)
  | _ =>
      r ← Do fuel (q_completeOperation queries) (complete_step queries manifestIDs) 0 0 (mkCompletion manifestIDs false None);
      mret (match r with Some (err, _) => Some err | None => None end)
  end.
End Retry.
