(* ===== verification/Database.v ===== *)
(** * The database behind the funding repository

    The behaviour of MySQL the repository relies on, for the three statements
    it sends: a table, at most one open transaction with the view it reads
    from and the rows it has locked, answers that may be cut short, and a
    commit whose error says nothing about its effect.  Other clients may
    change the table between any two operations, except that they leave
    locked rows alone and do not reopen a completed record. *)

From Stdlib Require Import Sorting.Sorted.
From S2P Require Import Prelude Prog Crash Model Amount Json Mysql.

Notation table := (gmap Z row).

(** An open transaction: what it reads, and the rows it has updated. *)
Record tx : Type := mkTx { tx_view : table; tx_writes : gset Z }.
Record db : Type := mkDb { db_rows : table; db_tx : option tx }.

(** [cycle_type IN (1, 2)] and [status = 0]. *)
Definition scoped (r : row) : bool := (row_cycle r =? 1) || (row_cycle r =? 2).
Definition pending (r : row) : bool := scoped r && (row_status r =? 0).

Definition completed (t : table) (id : Z) : Prop :=
  exists r, t !! id = Some r /\ scoped r = true /\ row_status r = 1.

Definition pending_at (t : table) (id : Z) : bool := match t !! id with Some r => pending r | None => false end.

(** [SET status = 1] on some rows. *)
Definition set_status (ids : gset Z) (t : table) : table :=
  map_imap (fun id r => Some (if decide (id ∈ ids) then r <| row_status := 1 |> else r)) t.

(** ** Statements *)

Definition question_marks (n : nat) : string := join_with "," (repeat "?" n).

Definition list_statement : string :=
  "SELECT id, period_start_at, amount" +:+ newline +:+ "FROM trasia_referral_funding_record" +:+ newline +:+
  "WHERE cycle_type IN (1, 2) AND status = 0" +:+ newline +:+ "ORDER BY period_start_at, id".
Definition update_statement (n : nat) : string :=
  "UPDATE trasia_referral_funding_record" +:+ newline +:+ "SET status = 1" +:+ newline +:+
  "WHERE cycle_type IN (1, 2) AND status = 0 AND id IN (" +:+ question_marks n +:+ ")".
Definition status_statement (n : nat) : string :=
  "SELECT id, status" +:+ newline +:+ "FROM trasia_referral_funding_record" +:+ newline +:+
  "WHERE cycle_type IN (1, 2) AND id IN (" +:+ question_marks n +:+ ") ORDER BY id".

(** The answers of the two queries. *)
Record pending_rows (t : table) (l : list FundingRecord) : Prop := {
  pr_exact : forall x, x ∈ l <->
    exists r, t !! rec_ID x = Some r /\ pending r = true /\ rec_PeriodStartAt x = row_period r /\ rec_Amount x = row_amount r;
  pr_sorted : StronglySorted record_le l;
  pr_nodup : NoDup l
}.

Record status_rows (t : table) (args : list Z) (l : list (Z * Z)) : Prop := {
  sr_exact : forall id status, (id, status) ∈ l <->
    id ∈ args /\ exists r, t !! id = Some r /\ scoped r = true /\ row_status r = status;
  sr_sorted : StronglySorted (fun a b => fst a < fst b) l
}.

(** The driver delivers a prefix of the answer, all of it when [rows.Err] is
    nil; a row may fail to scan. *)
Definition delivers {A : Type} (answer : rows A) (l : list A) : Prop :=
  exists l', l' `prefix_of` l /\ Forall2 (fun s a => s = Ok a \/ exists e, s = Err e) (fst answer) l' /\
    (snd answer = None -> l' = l).

(** ** Effects *)

Definition matched (t : table) (args : list Z) : gset Z := filter (fun id => pending_at t id = true) (list_to_set args).

(** An [UPDATE] reads and locks the latest rows; the view of the transaction
    shows them updated. *)
Definition run_update (d : db) (t : tx) (args : list Z) : db :=
  let ids := matched (db_rows d) args in
  mkDb (db_rows d)
       (Some (mkTx (set_status ids (filter (fun e => fst e ∈ ids) (db_rows d)) ∪ tx_view t) (ids ∪ tx_writes t))).

Definition committed (d : db) (t : tx) : db := mkDb (set_status (tx_writes t) (db_rows d)) None.

Definition ended (d : db) : db := mkDb (db_rows d) None.

(** The operation itself. *)
Definition sql_effect (d : db) (o : SqlOp) : SqlResp o -> db -> Prop :=
  match o with
  | QueryPending sql => fun r d' => d' = d /\
      match r with
      | Ok answer => sql = list_statement -> exists l, pending_rows (db_rows d) l /\ delivers answer l
      | Err _ => True
      end
  | QueryStatuses in_tx sql args => fun r d' => d' = d /\
      match r with
      | Ok answer => exists view, (if in_tx : bool then tx_view <$> db_tx d else Some (db_rows d)) = Some view /\
          (sql = status_statement (length args) -> exists l, status_rows view args l /\ delivers answer l)
      | Err _ => True
      end
  | BeginTx => fun r d' =>
      match r with None => d' = mkDb (db_rows d) (Some (mkTx (db_rows d) ∅)) | Some _ => d' = d end
  | TxExec sql args => fun r d' =>
      match db_tx d with
      | None => d' = d /\ exists e, r = Err e
      | Some t =>
          sql = update_statement (length args) ->
          match r with
          | Ok affected => d' = run_update d t args /\
              (forall n, affected = Ok n -> n = Z.of_nat (size (matched (db_rows d) args)))
          | Err _ => d' = d \/ d' = run_update d t args
          end
      end
  | Commit => fun r d' =>
      match db_tx d with
      | None => d' = d /\ r <> None
      | Some t => match r with None => d' = committed d t | Some _ => d' = ended d \/ d' = committed d t end
      end
  | Rollback => fun r d' => d' = ended d
  | _ => fun _ d' => d' = d
  end.

(** What other clients may do to the table meanwhile. *)
Definition others (d d' : db) : Prop :=
  db_tx d' = db_tx d /\
  (forall id, completed (db_rows d) id -> completed (db_rows d') id) /\
  (forall t id, db_tx d = Some t -> id ∈ tx_writes t -> db_rows d' !! id = db_rows d !! id).

Definition sql_step (d : db) (o : SqlOp) (r : SqlResp o) (d' : db) : Prop :=
  exists d1, others d d1 /\ sql_effect d1 o r d'.

(** The only statement that writes is the one that completes records of
    [ids]. *)
Definition sql_allowed (ids : list Z) (_ : db) (o : SqlOp) : Prop :=
  match o with
  | TxExec sql args => sql = update_statement (length args) /\ args ⊆ ids
  | _ => True
  end.

Definition sql_protocol (ids : list Z) : protocol db := {| allowed := sql_allowed ids; step := sql_step |}.

(** ** Facts *)

Lemma lookup_set_status ids t id :
  set_status ids t !! id = (fun r => if decide (id ∈ ids) then r <| row_status := 1 |> else r) <$> t !! id.
Proof. unfold set_status. rewrite map_lookup_imap. by destruct (t !! id). Qed.

Lemma completed_set_status ids t id : completed t id -> completed (set_status ids t) id.
Proof.
  intros (r & Hr & Hs & H1). unfold completed. rewrite lookup_set_status, Hr. simpl. eexists. split; [done|].
  by destruct (decide (id ∈ ids)).
Qed.

Lemma completed_now ids t id r : t !! id = Some r -> scoped r = true -> id ∈ ids -> completed (set_status ids t) id.
Proof.
  intros Hr Hs Hid. unfold completed. rewrite lookup_set_status, Hr. simpl. eexists. split; [done|].
  by rewrite decide_True.
Qed.

(** What an open transaction sees completed is completed, or will be when it
    commits. *)
Definition tx_ok (d : db) : Prop :=
  forall t, db_tx d = Some t ->
    (forall id, completed (tx_view t) id -> id ∈ tx_writes t \/ completed (db_rows d) id) /\
    (forall id, id ∈ tx_writes t -> exists r, db_rows d !! id = Some r /\ scoped r = true).

Lemma others_tx_ok d d' : tx_ok d -> others d d' -> tx_ok d'.
Proof.
  intros Hok (Htx & Hc & Hl) t Ht. rewrite Htx in Ht. destruct (Hok t Ht) as [H1 H2]. split.
  - intros id Hid. destruct (H1 id Hid); [by left|right; auto].
  - intros id Hid. rewrite (Hl t id Ht Hid). auto.
Qed.

Lemma matched_spec t args id : id ∈ matched t args <-> id ∈ args /\ exists r, t !! id = Some r /\ pending r = true.
Proof.
  unfold matched. rewrite elem_of_filter, elem_of_list_to_set. unfold pending_at.
  destruct (t !! id) as [r|]; naive_solver.
Qed.

Lemma run_update_ok d t args : tx_ok d -> db_tx d = Some t -> tx_ok (run_update d t args).
Proof.
  intros Hok Ht t' [= <-]. destruct (Hok t Ht) as [H1 H2]. simpl. split.
  - intros id (r & Hr & Hs & H). apply lookup_union_Some_raw in Hr as [Hr|[_ Hr]].
    + rewrite lookup_set_status in Hr. apply fmap_Some in Hr as (r0 & Hr0 & _).
      apply map_lookup_filter_Some in Hr0 as [_ Hid]. simpl in Hid. left. by apply elem_of_union_l.
    + destruct (H1 id ltac:(by exists r)); [left; by apply elem_of_union_r|by right].
  - intros id [Hid|Hid]%elem_of_union; [|by apply H2]. apply matched_spec in Hid as (_ & r & Hr & Hp).
    exists r. split; [done|]. by apply andb_true_iff in Hp as [? _].
Qed.

(** Committing completes what the transaction saw completed. *)
Lemma commit_completes d t id : tx_ok d -> db_tx d = Some t -> completed (tx_view t) id -> completed (db_rows (committed d t)) id.
Proof.
  intros Hok Ht Hid. destruct (Hok t Ht) as [H1 H2]. simpl. destruct (H1 id Hid) as [Hw|Hc]; [|by apply completed_set_status].
  destruct (H2 id Hw) as (r & Hr & Hs). by eapply completed_now.
Qed.

(** Every step keeps the invariant and the completed records. *)
Lemma sql_step_ok ids d o r d' :
  sql_allowed ids d o -> tx_ok d -> sql_step d o r d' ->
  tx_ok d' /\ (forall id, completed (db_rows d) id -> completed (db_rows d') id).
Proof.
  intros Ha Hok (d1 & Ho & He). pose proof (others_tx_ok _ _ Hok Ho) as Hok1. destruct Ho as (_ & Hc & _).
  assert (tx_ok d' /\ (forall id, completed (db_rows d1) id -> completed (db_rows d') id)) as [H1 H2]; [|by auto].
  assert (tx_ok (ended d1)) as Hend by by intros t.
  destruct o; cbn [sql_effect] in He; try (subst d'; done); try (destruct He as [-> _]; done).
  - destruct r; subst; [done|]. split; [|done]. intros t [= <-]. simpl. split; [by right|set_solver].
  - destruct Ha as [Ha _]. destruct (db_tx d1) as [t|] eqn:Et; [|by destruct He as [-> _]].
    specialize (He Ha). assert (d' = d1 \/ d' = run_update d1 t args) as [->| ->].
    { destruct r; [right; by destruct He|done]. }
    + done.
    + split; [by apply run_update_ok|done].
  - destruct (db_tx d1) as [t|] eqn:Et; [|by destruct He as [-> _]].
    assert (d' = ended d1 \/ d' = committed d1 t) as [->| ->] by (destruct r; auto); [done|].
    split; [by intros t'|]. intros id. simpl. apply completed_set_status.
Qed.
