(* ===== verification/RepositoryTheorems.v ===== *)
(** * What the funding repository guarantees

    Against the database of [Database]: [Complete] reports success only when
    every record of the manifest is completed, and whatever fails it updates
    no other record ([completion_is_exact]); both operations refine what the
    payout safety assumes of the repository
    ([repository_refines_specification]); the retry loop repeats exactly the
    transient failures, with the documented delays ([retry_discipline], over
    a list of the transient errors and a schedule written down apart from the
    code). *)

From stdpp Require Import sorting.
From S2P Require Import Prelude DecimalSpec DecimalImpl Prog Crash Clock Model Amount Json Effects PayoutWorld Store Mysql Database.

(** ** Statements and batches *)

Lemma TrimSuffix_app s p : TrimSuffix (s +:+ p) p = s.
Proof.
  unfold TrimSuffix. rewrite string_rev_app. rewrite (proj2 (strip_spec (String.rev p) _ (String.rev s)) eq_refl).
  apply string_rev_involutive.
Qed.

Lemma placeholders_marks n : placeholders n = question_marks n.
Proof.
  unfold placeholders, question_marks. destruct n as [|n]; [done|].
  assert (Repeat "?," (S n) = join_with "," (repeat "?" (S n)) +:+ ",") as ->; [|apply TrimSuffix_app].
  induction n as [|n IH]; [done|]. change (Repeat "?," (S (S n))) with ("?," +:+ Repeat "?," (S n)). rewrite IH.
  change (repeat "?" (S (S n))) with ("?" :: repeat "?" (S n)). change (repeat "?" (S n)) with ("?" :: repeat "?" n).
  cbn [join_with]. by rewrite <- !string_app_assoc.
Qed.

Lemma update_sql_statement n : update_sql referralQueries n = update_statement n.
Proof.
  unfold update_sql, update_statement. rewrite placeholders_marks. cbn [q_updatePrefix referralQueries]. unfold referralUpdatePrefix.
  by rewrite !string_app_assoc.
Qed.

Lemma status_sql_statement n : status_sql referralQueries n = status_statement n.
Proof.
  unfold status_sql, status_statement. rewrite placeholders_marks. cbn [q_statusPrefix referralQueries]. unfold referralStatusPrefix.
  by rewrite !string_app_assoc.
Qed.

Lemma id_batches_concat fuel ids : (length ids <= fuel)%nat -> concat (id_batches fuel ids) = ids.
Proof.
  revert ids. induction fuel as [|fuel IH]; intros ids Hf; [by destruct ids; [|simpl in Hf; lia]|].
  destruct ids as [|id ids]; [done|]. cbn [id_batches]. rewrite concat_cons, IH; [apply take_drop|].
  rewrite length_drop. simpl. unfold completeBatchSize. simpl in Hf. lia.
Qed.

Lemma concat_batches ids : concat (batches ids) = ids.
Proof. by apply id_batches_concat. Qed.

Lemma elem_of_unique_from seen ids id : id ∈ unique_from seen ids <-> id ∈ ids /\ id ∉ seen.
Proof.
  revert seen. induction ids as [|x ids IH]; intros seen; cbn [unique_from].
  - rewrite elem_of_nil. naive_solver.
  - destruct (decide (x ∈ seen)); rewrite ?elem_of_cons, IH, ?elem_of_union, ?elem_of_singleton; [naive_solver|].
    destruct (decide (id = x)) as [->|]; naive_solver.
Qed.

Lemma elem_of_uniqueIDs ids id : id ∈ uniqueIDs ids <-> id ∈ ids.
Proof. unfold uniqueIDs. rewrite elem_of_unique_from. pose proof (not_elem_of_empty (C:=gset Z) id). naive_solver. Qed.

(** ** Reading statuses *)

Lemma scan_statuses_sound scans l m m' :
  Forall2 (fun s a => s = Ok a \/ exists e, s = Err e) scans l -> scan_statuses scans m = Ok m' ->
  forall id status, m' !! id = Some status -> m !! id = Some status \/ (id, status) ∈ l.
Proof.
  intros Hl. revert m. induction Hl as [|s a scans l Hs Hl IH]; intros m; simpl; [intros [= <-]; by left|].
  destruct Hs as [->|[e ->]]; [|done]. destruct a as [id status]. destruct (decide _) as [|Hn]; [done|].
  intros Hm id' status' H'. destruct (IH _ Hm id' status' H') as [Hi|Hi]; [|right; by right].
  apply lookup_insert_Some in Hi as [[<- <-]|[_ Hi]]; [right; left|by left].
Qed.

Lemma zero_statuses_sound statuses batch zs zs' :
  zero_statuses statuses batch zs = Ok zs' ->
  exists new, zs' = zs ++ new /\ new ⊆ batch /\ forall id, id ∈ batch -> id ∈ new \/ statuses !! id = Some 1.
Proof.
  revert zs. induction batch as [|id batch IH]; intros zs; simpl.
  - intros [= <-]. exists []. rewrite app_nil_r. set_solver.
  - destruct (statuses !! id) as [status|] eqn:E; [|done]. destruct (Z.eqb_spec status 0).
    + intros (new & -> & Hn & Hs)%IH. exists (id :: new). rewrite <- app_assoc. split; [done|]. split; [set_solver|].
      intros id' [->|H']%elem_of_cons; [left; left|]. destruct (Hs id' H'); [left; by right|by right].
    + destruct (Z.eqb_spec status 1) as [->|]; [|done]. intros (new & -> & Hn & Hs)%IH. exists new. split; [done|].
      split; [set_solver|]. intros id' [->|H']%elem_of_cons; [by right|auto].
Qed.

Section Repository.
Variable ids : list Z.
Variable settled : gset Z.

(** What holds throughout: the open transaction is consistent and the records
    of [settled] stay completed. *)
Definition db_inv (d : db) : Prop := tx_ok d /\ forall id, id ∈ settled -> completed (db_rows d) id.

Notation safely := (wpc (sql_protocol ids) db_inv).

(** What an operation outside the transaction, or a read, leaves alone. *)
Definition reads (d d' : db) : Prop :=
  db_tx d' = db_tx d /\ forall id, completed (db_rows d) id -> completed (db_rows d') id.

#[local] Instance reads_preorder : PreOrder reads.
Proof. split; [by intros d|]. intros d1 d2 d3 [T1 C1] [T2 C2]. split; [congruence|auto]. Qed.

Lemma db_inv_step d o r d' : db_inv d -> sql_allowed ids d o -> sql_step d o r d' -> db_inv d'.
Proof. intros [Hok Hs] Ha Hst. destruct (sql_step_ok ids d o r d' Ha Hok Hst) as [H1 H2]. split; auto. Qed.

Lemma sql_perform d (o : SqlOp) (Q : SqlResp o -> db -> Prop) :
  db_inv d -> sql_allowed ids d o ->
  (forall r d1 d', db_inv d1 -> db_inv d' -> others d d1 -> sql_effect d1 o r d' -> Q r d') -> safely d (perform o) Q.
Proof.
  intros Hd Ha HQ. apply wpc_perform; [done|done|]. intros r d' Hst. split; [by eapply db_inv_step|].
  destruct Hst as (d1 & Ho & He). eapply HQ; [| |exact Ho|exact He].
  - destruct Hd as [Hok Hs]. split; [by eapply others_tx_ok|]. destruct Ho as (_ & Hc & _). auto.
  - eapply (db_inv_step d); [done..|]. by exists d1.
Qed.

Lemma others_reads d d' : others d d' -> reads d d'.
Proof. by intros (H1 & H2 & _). Qed.

(** The operations that do not concern the table. *)
Definition quiet (o : SqlOp) : bool :=
  match o with CtxErr | CloseRows | Now | Jitter | Sleep _ | Observe _ => true | _ => false end.

Lemma sql_quiet d (o : SqlOp) : quiet o = true -> db_inv d -> safely d (perform o) (fun _ d' => reads d d').
Proof.
  intros Hq Hd. apply sql_perform; [done|by destruct o|]. intros r d1 d' _ _ Ho He. apply others_reads in Ho.
  destruct o; try discriminate Hq; by cbn in He; subst.
Qed.

Lemma close_rows_spec d primary what : db_inv d ->
  safely d (close_rows primary what) (fun r d' => reads d d' /\ (r = None -> primary = None)).
Proof.
  intros Hd. eapply wpc_seq; [by apply (sql_quiet d CloseRows)|]. intros closeErr d' Hd' Hr.
  apply wpc_ret; [done|]. split; [done|]. destruct closeErr, primary; done.
Qed.

(** What a query on the pool or in the transaction shows. *)
Definition shows (in_tx : bool) (d : db) (id : Z) : Prop :=
  if in_tx then exists t, db_tx d = Some t /\ completed (tx_view t) id else completed (db_rows d) id.

Lemma shows_reads in_tx d d' id : reads d d' -> shows in_tx d id -> shows in_tx d' id.
Proof. intros [Ht Hc]. destruct in_tx; simpl; [by rewrite Ht|auto]. Qed.

(** The outcome of reading the statuses of [l] on top of [zs]. *)
Definition statuses_read (in_tx : bool) (d : db) (l zs : list Z) (r : result (list Z)) (d' : db) : Prop :=
  reads d d' /\
  match r with
  | Ok zs' => exists new, zs' = zs ++ new /\ new ⊆ l /\ forall id, id ∈ l -> id ∈ new \/ shows in_tx d' id
  | Err _ => True
  end.

Lemma read_batch_spec in_tx d batch zs : db_inv d ->
  safely d (read_batch in_tx referralQueries batch zs) (statuses_read in_tx d batch zs).
Proof.
  intros Hd. unfold read_batch. eapply (wpc_let_ok _ _ _ _ _ _ (fun r d' => reads d d' /\
    match r with
    | Ok answer => forall statuses, scan_statuses (fst answer) ∅ = Ok statuses -> snd answer = None ->
        forall id, statuses !! id = Some 1 -> shows in_tx d' id
    | Err _ => True
    end)).
  - apply sql_perform; [done|done|]. intros r d1 d' _ _ Ho [-> Hr]. split; [by apply others_reads|].
    destruct r as [answer|]; [|done]. destruct Hr as (view & Hv & Ha). intros statuses Hs _ id Hid.
    destruct Ha as (l & Hl & (l' & Hpre & Hf & _)); [apply status_sql_statement|].
    destruct (scan_statuses_sound _ _ _ _ Hf Hs id 1 Hid) as [Hm|Hm]; [by rewrite lookup_empty in Hm|].
    assert ((id, 1) ∈ l) as Hin by (by eapply elem_of_prefix).
    apply (sr_exact _ _ _ Hl) in Hin as (_ & Hc). destruct in_tx; simpl in *.
    + destruct (db_tx d1) as [t|]; [|done]. injection Hv as <-. by exists t.
    + injection Hv as <-. exact Hc.
  - by intros e d' _ [H _].
  - intros [scans rowsErr] d1 Hd1 [H1 H2]. cbn [fst snd] in *.
    destruct (scan_statuses scans ∅) as [statuses|e].
    + destruct rowsErr as [e|].
      * eapply wpc_seq; [by apply close_rows_spec|]. intros r d2 Hd2 [Hr Hn]. apply wpc_ret; [done|].
        split; [by etrans|]. destruct r; [done|by specialize (Hn eq_refl)].
      * eapply (wpc_if_err _ _ _ _ _ _ (fun _ d2 => reads d1 d2)); [by apply (sql_quiet d1 CloseRows)| |].
        -- intros e d2 _ Hr. split; [by etrans|done].
        -- intros d2 Hd2 Hr. apply wpc_ret; [done|]. split; [by etrans|].
           destruct (zero_statuses statuses batch zs) as [zs'|e] eqn:E; [|done].
           destruct (zero_statuses_sound _ _ _ _ E) as (new & -> & Hn & Hs). exists new. split; [done|]. split; [done|].
           intros id Hid. destruct (Hs id Hid) as [|H1']; [by left|right]. eapply shows_reads; [exact Hr|]. by eapply H2.
    + eapply wpc_seq; [by apply close_rows_spec|]. intros r d2 Hd2 [Hr Hn]. apply wpc_ret; [done|].
      split; [by etrans|]. destruct r; [done|by specialize (Hn eq_refl)].
Qed.

Lemma read_batches_spec in_tx d bs zs : db_inv d ->
  safely d (read_batches in_tx referralQueries bs zs) (statuses_read in_tx d (concat bs) zs).
Proof.
  revert d zs. induction bs as [|batch bs IH]; intros d zs Hd; cbn [read_batches concat].
  - apply wpc_ret; [done|]. split; [done|]. exists []. rewrite app_nil_r. set_solver.
  - eapply wpc_let_ok; [by apply read_batch_spec|by intros e d' _ [H _]|].
    intros zs1 d1 Hd1 [H1 (new & -> & Hn & Hs)]. eapply wpc_mono; [|by apply IH].
    intros r d2 _ [H2 Hr]. split; [by etrans|]. destruct r as [zs2|]; [|done].
    destruct Hr as (new' & -> & Hn' & Hs'). exists (new ++ new'). rewrite app_assoc. split; [done|].
    split; [set_solver|]. intros id [Hid|Hid]%elem_of_app.
    + destruct (Hs id Hid); [left; set_solver|right; by eapply shows_reads].
    + destruct (Hs' id Hid); [left; set_solver|by right].
Qed.

Lemma readStatuses_spec in_tx d l : db_inv d ->
  safely d (readStatuses in_tx referralQueries l) (statuses_read in_tx d l []).
Proof. intros Hd. unfold readStatuses. rewrite <- (concat_batches l) at 2. by apply read_batches_spec. Qed.

(** ** The transaction *)

Definition in_transaction (d : db) : Prop := is_Some (db_tx d).

Lemma update_batches_spec d bs : db_inv d -> concat bs ⊆ ids ->
  safely d (update_batches referralQueries bs) (fun _ _ => True).
Proof.
  revert d. induction bs as [|batch bs IH]; intros d Hd Hb; cbn [update_batches concat] in *; [by apply wpc_ret|].
  eapply (wpc_if_err _ _ _ _ _ _ (fun _ _ => True)); [|done|intros d1 Hd1 _; apply IH; [done|set_solver]].
  eapply (wpc_let_ok _ _ _ _ _ _ (fun _ _ => True)); [|done|intros affected d1 Hd1 _; by apply wpc_ret].
  apply sql_perform; [done| |done]. split; [apply update_sql_statement|set_solver].
Qed.

(** Whatever a program does here, completed records stay completed. *)
Lemma safely_keeps {A : Type} d (m : prog A) Q : safely d m Q ->
  safely d m (fun r d' => Q r d' /\ forall id, completed (db_rows d) id -> completed (db_rows d') id).
Proof.
  revert d. induction m as [a|o k IH]; intros d [Hd H]; (split; [done|]); [by split|].
  destruct H as [Ho Hk]. split; [done|]. intros r d1 Hst. eapply wpc_mono; [|by apply IH, Hk].
  intros a d2 _ [HQ Hc]. split; [done|]. intros id Hid. apply Hc. eapply (sql_step_ok ids d o r d1); [done|by destruct Hd|done|done].
Qed.

Lemma transaction_body_spec d l : db_inv d -> l ⊆ ids ->
  safely d (transaction_body referralQueries l) (fun r d' => snd r = None -> forall id, id ∈ l -> completed (db_rows d') id).
Proof.
  intros Hd Hl. unfold transaction_body.
  eapply wpc_if_err; [apply update_batches_spec; [done|by rewrite concat_batches]|done|]. intros d1 Hd1 _.
  eapply wpc_let_ok; [by apply readStatuses_spec|done|]. intros zeroIDs d2 Hd2 [_ (new & -> & _ & Hs)].
  cbn [app]. destruct new as [|id new]; [|by apply wpc_ret].
  eapply (wpc_if_err _ _ _ _ _ _ (fun r d3 => r = None -> forall id, id ∈ l -> completed (db_rows d3) id)); [|done|].
  - apply sql_perform; [done|done|]. intros r d3 d4 Hd3 _ Ho He -> id Hid. cbn in He.
    destruct (Hs id Hid) as [Hn|(t & Ht & Hc)]; [by apply elem_of_nil in Hn|].
    destruct Ho as (Htx & _). rewrite Htx, Ht in He. subst d4. apply commit_completes; [by destruct Hd3|congruence|done].
  - intros d3 Hd3 Hc. apply wpc_ret; [done|]. intros _. by apply Hc.
Qed.

Lemma completeTransaction_spec d l : db_inv d -> l ⊆ ids ->
  safely d (completeTransaction referralQueries l) (fun r d' => snd r = None -> forall id, id ∈ l -> completed (db_rows d') id).
Proof.
  intros Hd Hl. unfold completeTransaction.
  eapply (wpc_if_err _ _ _ _ _ _ (fun _ _ => True)); [by apply sql_perform|done|]. intros d1 Hd1 _.
  eapply wpc_seq; [by apply transaction_body_spec|]. intros r d2 Hd2 Hr.
  eapply (wpc_seq _ _ _ _ _ (fun _ d3 => forall id, completed (db_rows d2) id -> completed (db_rows d3) id)).
  - apply sql_perform; [done|done|]. intros rb d3 d4 _ _ (_ & Hc & _) He. cbn in He. by subst d4.
  - intros rb d3 Hd3 Hc. apply wpc_ret; [done|]. destruct r as [b e], rb; cbn [fst snd] in *; [by eauto..|].
    by destruct e.
Qed.

(** ** The retry loop *)

Section Loop.
Context `{Causes}.
Variable observer : bool.
Context {St : Type} (fn : St -> prog (option error * St)).
Variable I : St -> db -> Prop.
Variable Q : St -> db -> Prop.
Hypothesis I_reads : forall st d d', reads d d' -> I st d -> I st d'.
Hypothesis Q_reads : forall st d d', reads d d' -> Q st d -> Q st d'.
Hypothesis fn_spec : forall st d, db_inv d -> I st d ->
  safely d (fn st) (fun r d' => match fst r with None => Q (snd r) d' | Some _ => I (snd r) d' end).

Lemma observe_spec d e : db_inv d -> safely d (observe observer e) (fun _ d' => reads d d').
Proof. intros Hd. unfold observe. destruct observer; [by apply (sql_quiet d (Observe e))|by apply wpc_ret]. Qed.

Lemma note_failure_spec d operation failures startedAt err : db_inv d ->
  safely d (note_failure observer operation failures startedAt err) (fun _ d' => reads d d').
Proof.
  intros Hd. unfold note_failure. destruct (failures =? 1).
  - eapply wpc_seq; [by apply (sql_quiet d Now)|]. intros now d1 Hd1 H1.
    eapply wpc_seq; [by apply observe_spec|]. intros [] d2 Hd2 H2. apply wpc_ret; [done|]. by transitivity d1.
  - destruct observer eqn:Eo; [|by apply wpc_ret]. rewrite <- Eo.
    eapply wpc_seq; [by apply (sql_quiet d Now)|]. intros now d1 Hd1 H1.
    eapply wpc_seq; [by apply observe_spec|]. intros [] d2 Hd2 H2. apply wpc_ret; [done|]. by transitivity d1.
Qed.

Lemma Do_spec fuel operation failures startedAt st d : db_inv d -> I st d ->
  safely d (Do observer fuel operation fn failures startedAt st)
    (fun r d' => match r with Some (None, st') => Q st' d' | _ => True end).
Proof.
  revert failures startedAt st d. induction fuel as [|fuel IH]; intros failures startedAt st d Hd Hi; cbn [Do]; [by apply wpc_ret|].
  eapply wpc_seq; [by apply (sql_quiet d CtxErr)|]. intros [err|] d1 Hd1 H1; [by apply wpc_ret|].
  eapply wpc_seq; [apply fn_spec; [done|by eapply I_reads]|]. intros [[err|] st'] d2 Hd2 H2; cbn [fst snd] in *.
  - eapply wpc_seq; [by apply (sql_quiet d2 CtxErr)|]. intros [ctxErr|] d3 Hd3 H3; [by apply wpc_ret|].
    destruct (negb _); [by apply wpc_ret|].
    eapply wpc_seq; [by apply note_failure_spec|]. intros startedAt' d4 Hd4 H4.
    eapply wpc_seq; [by apply (sql_quiet d4 Jitter)|]. intros percent d5 Hd5 H5.
    eapply wpc_seq; [by apply (sql_quiet d5 (Sleep _))|]. intros [e|] d6 Hd6 H6.
    + eapply wpc_seq; [by apply (sql_quiet d6 CtxErr)|]. intros ctxErr d7 Hd7 _. by apply wpc_ret.
    + apply IH; [done|]. eapply I_reads; [|exact H2]. etrans; [exact H3|]. etrans; [exact H4|]. by etrans; [exact H5|].
  - eapply (wpc_seq _ _ _ _ _ (fun _ d3 => reads d2 d3)).
    + destruct (_ && _); [|by apply wpc_ret]. eapply wpc_seq; [by apply (sql_quiet d2 Now)|]. intros now d3 Hd3 H3.
      eapply wpc_mono; [|by apply observe_spec]. intros [] d4 _ H4. by transitivity d3.
    + intros [] d3 Hd3 H3. apply wpc_ret; [done|]. by eapply Q_reads.
Qed.
End Loop.

(** ** The repository *)

Section Operations.
Context `{Causes}.
Variable observer : bool.

(** What the closure of [Complete] keeps: the records it no longer updates
    are completed, and a commit to resolve has an error. *)
Record completion_ok (manifestIDs : list Z) (st : completion) (d : db) : Prop := {
  co_remaining : remaining st ⊆ ids;
  co_rest : forall id, id ∈ manifestIDs -> id ∈ remaining st \/ completed (db_rows d) id;
  co_error : resolveCommit st = true -> commitErr st <> None
}.

Definition all_completed (l : list Z) (d : db) : Prop := forall id, id ∈ l -> completed (db_rows d) id.

Lemma completion_ok_reads l st d d' : reads d d' -> completion_ok l st d -> completion_ok l st d'.
Proof. intros [_ Hc] [Hr Hi He]. split; [done| |done]. intros id Hid. destruct (Hi id Hid); [by left|right; auto]. Qed.

Lemma resolve_commit_spec d manifestIDs err : db_inv d -> manifestIDs ⊆ ids ->
  safely d (resolve_commit referralQueries manifestIDs (Some err)) (fun r d' =>
    match r with
    | inl (Err _) => True
    | inl (Ok zeroIDs) => forall e, completion_ok manifestIDs (mkCompletion zeroIDs false e) d'
    | inr outcome => outcome = None -> all_completed manifestIDs d'
    end).
Proof.
  intros Hd Hm. unfold resolve_commit. eapply wpc_let_ok; [by apply readStatuses_spec|done|].
  intros zeroIDs d1 Hd1 [_ (new & -> & Hn & Hs)]. apply wpc_ret; [done|]. cbn [app].
  destruct new as [|id new]; cbn [length Nat.eqb].
  - intros _ id Hid. by destruct (Hs id Hid) as [Hx%elem_of_nil|].
  - destruct (negb _); [done|]. intros e. split; [cbn; set_solver|exact Hs|done].
Qed.

Lemma complete_attempt_spec d manifestIDs st : db_inv d -> manifestIDs ⊆ ids -> completion_ok manifestIDs st d ->
  safely d (complete_attempt observer referralQueries manifestIDs st) (fun r d' =>
    match fst r with None => all_completed manifestIDs d' | Some _ => completion_ok manifestIDs (snd r) d' end).
Proof.
  intros Hd Hm [Hr Hi He]. unfold complete_attempt.
  eapply wpc_seq; [apply safely_keeps, completeTransaction_spec; [done|exact Hr]|].
  intros [b err] d1 Hd1 [Hc Hk]. cbn [snd] in Hc.
  assert (completion_ok manifestIDs st d1) as Hok.
  { split; [done| |done]. intros id Hid. destruct (Hi id Hid); [by left|right; auto]. }
  destruct err as [err|].
  - destruct b; [|by apply wpc_ret].
    eapply wpc_seq; [by apply observe_spec|]. intros [] d2 Hd2 H2.
    eapply wpc_seq; [by apply safely_keeps, resolve_commit_spec|]. intros r d3 Hd3 [Hr3 Hk3]. apply wpc_ret; [done|].
    assert (completion_ok manifestIDs (mkCompletion (remaining st) true (Some err)) d3) as Hok3.
    { split; [done| |done]. intros id Hid. destruct (co_rest _ _ _ Hok id Hid); [by left|right]. apply Hk3. by apply H2. }
    destruct r as [[zeroIDs|e]|[e|]]; cbn [fst snd commitErr]; auto.
  - replace (match b with true | _ => _ end) with (Ret (None, st) : prog (option error * completion)) by by destruct b.
    apply (wpc_ret _ _ d1 (None, st)); [done|]. cbn. intros id Hid. destruct (Hi id Hid); auto.
Qed.

Lemma complete_step_spec d manifestIDs st : db_inv d -> manifestIDs ⊆ ids -> completion_ok manifestIDs st d ->
  safely d (complete_step observer referralQueries manifestIDs st) (fun r d' =>
    match fst r with None => all_completed manifestIDs d' | Some _ => completion_ok manifestIDs (snd r) d' end).
Proof.
  intros Hd Hm Hok. unfold complete_step. destruct (resolveCommit st) eqn:Er; [|by apply complete_attempt_spec].
  destruct (commitErr st) as [err|] eqn:Ee; [|by destruct (co_error _ _ _ Hok Er)].
  eapply wpc_seq; [by apply safely_keeps, resolve_commit_spec|]. intros r d1 Hd1 [Hr Hk].
  assert (completion_ok manifestIDs st d1) as Hok1.
  { split; [apply Hok| |apply Hok]. intros id Hid. destruct (co_rest _ _ _ Hok id Hid); [by left|right; auto]. }
  destruct r as [[zeroIDs|e]|[e|]]; [by apply complete_attempt_spec; [| |apply Hr]|by apply wpc_ret..|].
  apply wpc_ret; [done|]. by apply Hr.
Qed.

Lemma Complete_spec d fuel l : db_inv d -> l ⊆ ids ->
  safely d (Complete observer referralQueries fuel l) (fun r d' => r = Some None -> all_completed l d').
Proof.
  intros Hd Hl. unfold Complete. assert (uniqueIDs l ⊆ ids) as Hu by (intros id; rewrite elem_of_uniqueIDs; apply Hl).
  assert (forall d', all_completed (uniqueIDs l) d' -> all_completed l d') as Hall.
  { intros d' Hc id Hid. apply Hc. by rewrite elem_of_uniqueIDs. }
  destruct (uniqueIDs l) as [|id0 l0] eqn:E.
  - apply (wpc_ret _ _ d (Some None)); [done|]. intros _. apply Hall. by intros id Hid%elem_of_nil.
  - rewrite <- E in *. eapply wpc_seq.
    + apply (Do_spec observer (complete_step observer referralQueries (uniqueIDs l))
        (completion_ok (uniqueIDs l)) (fun _ => all_completed (uniqueIDs l))).
      * apply completion_ok_reads.
      * intros _ d1 d2 [_ Hc] H1 id Hid. auto.
      * intros st d1 Hd1 Hi. by apply complete_step_spec.
      * done.
      * split; [done|by left|done].
    + intros [[[e|] st]|] d1 Hd1 Hr; (apply wpc_ret; [done|]); [done| |done]. intros _. by apply Hall.
Qed.

Lemma scan_pending_sound scans l records :
  Forall2 (fun s a => s = Ok a \/ exists e, s = Err e) scans l -> scan_pending scans = Ok records -> records = l.
Proof.
  intros Hl. revert records. induction Hl as [|s a scans l Hs Hl IH]; intros records; simpl; [congruence|].
  destruct Hs as [->|[e ->]]; [|done]. destruct (scan_pending scans) as [r|]; [|done]. simpl. intros [= <-].
  by rewrite (IH r eq_refl).
Qed.

(** The records listed were pending when the table was read. *)
Definition listed (records : list FundingRecord) : Prop := forall x, x ∈ records -> rec_ID x ∉ settled.

Lemma list_attempt_spec d records : db_inv d -> listed records ->
  safely d (list_attempt referralQueries records) (fun r _ => listed (snd r)).
Proof.
  intros Hd Hl. unfold list_attempt.
  eapply (wpc_let_ok _ _ _ _ _ _ (fun r _ => match r with
    | Ok answer => forall l, scan_pending (fst answer) = Ok l -> snd answer = None -> listed l | Err _ => True end)).
  - apply sql_perform; [done|done|]. intros r d1 d' Hd1 _ _ [-> Hr]. destruct r as [answer|]; [|done].
    intros l Hs Hn x Hx Hset. destruct (Hr eq_refl) as (l0 & [Hex _ _] & (l' & _ & Hf & Hall)).
    specialize (Hall Hn). subst l'. rewrite (scan_pending_sound _ _ _ Hf Hs) in Hx.
    apply Hex in Hx as (r & Hrow & Hp & _). destruct Hd1 as [_ Hd1]. destruct (Hd1 _ Hset) as (r' & Hr' & _ & H1).
    rewrite Hrow in Hr'. injection Hr' as <-. unfold pending in Hp. rewrite H1 in Hp. by destruct (scoped r).
  - done.
  - intros [scans rowsErr] d1 Hd1 Hr. cbn [fst snd] in *.
    destruct (scan_pending scans) as [l|e]; [destruct rowsErr as [e|]|];
      cbv beta iota; (eapply wpc_seq; [by apply close_rows_spec|]; intros e' d2 Hd2 _; apply wpc_ret; [done|]; cbn [snd fst]; auto).
Qed.

Lemma ListPending_spec d fuel : db_inv d ->
  safely d (ListPending observer referralQueries fuel) (fun r _ => forall l, r = Some (Ok l) -> listed l).
Proof.
  intros Hd. unfold ListPending. eapply wpc_seq.
  - apply (Do_spec observer (list_attempt referralQueries) (fun l _ => listed l) (fun l _ => listed l)).
    + done.
    + done.
    + intros st d1 Hd1 Hi. eapply wpc_mono; [|by apply list_attempt_spec]. by intros [[e|] l] d2 _ Hl.
    + done.
    + by intros x Hx%elem_of_nil.
  - intros [[[e|] l]|] d1 Hd1 Hr; (apply wpc_ret; [done|]); [done| |done]. by intros l' [= <-].
Qed.
End Operations.
End Repository.

(** ** The theorems *)

Section Theorems.
Context `{Causes} (observer : bool).

Lemma tx_ok_inv d (settled : gset Z) : tx_ok d -> (forall id, id ∈ settled -> completed (db_rows d) id) -> db_inv settled d.
Proof. by split. Qed.

(** C9: whatever fails on the way - a statement, the scan of a row, the commit,
    or only its answer - the repository updates no record outside the
    manifest, and when [Complete] reports success every record of the manifest
    is completed. *)
Theorem completion_is_exact fuel ids d tr d' m' :
  tx_ok d -> partial (sql_protocol ids) d (Complete observer referralQueries fuel ids) tr d' m' ->
  Forall (fun e => match e with
                   | Ev (TxExec sql args) _ => sql = update_statement (length args) /\ args ⊆ ids
                   | _ => True
                   end) tr /\
  (m' = Ret (Some None) -> forall id, id ∈ ids -> completed (db_rows d') id).
Proof.
  intros Hok Hp. assert (db_inv ∅ d) as Hd by (split; [done|by intros id Hid%elem_of_empty]).
  pose proof (Complete_spec ids ∅ observer d fuel ids Hd ltac:(done)) as Hwp. split.
  - eapply Forall_impl; [eapply (trace_allowed (Sig := SqlSig) _ (sql_allowed ids d)); [|exact Hp|eapply wpc_wp, Hwp]|].
    + done.
    + intros [o r]. by destruct o.
  - intros ->. exact (wpc_returns _ _ _ _ _ _ _ _ Hp Hwp eq_refl).
Qed.

(** ** The repository as the funding service sees it *)

Definition repository `{DecimalOps} (fuel : nat) (o : FundingOp) : option (prog (option (FundingResp o))) :=
  match o with
  | Effects.ListPending => Some (ListPending observer referralQueries fuel)
  | Effects.Complete ids => Some (Complete observer referralQueries fuel ids)
  | _ => None
  end.

(** The records the service has seen completed are completed. *)
Definition records (d : db) (w : world) : Prop := forall id, id ∈ w_done w -> completed (db_rows d) id.

(** The database, whatever it is sent. *)
Definition database : protocol db := {| allowed := fun _ _ => True; step := sql_step |}.

(** C8: the repository refines what the payout safety assumes of it: it never
    lists a record whose completion was reported, and reports a completion
    only when it is durable. *)
Theorem repository_refines_specification `{DecimalOps} fuel d w (o : FundingOp) m tr d' r :
  repository fuel o = Some m -> tx_ok d -> records d w -> partial database d m tr d' (Ret (Some r)) ->
  tx_ok d' /\ exists w', funding_step w o r w' /\ records d' w'.
Proof.
  intros Hm Hok Hw Hp. assert (db_inv (w_done w) d) as Hd by by split.
  destruct o; try discriminate Hm; simpl in Hm; apply (inj Some) in Hm; subst m.
  - apply (partial_mono _ (sql_protocol [])) in Hp; [|done].
    pose proof (ListPending_spec [] (w_done w) observer d fuel Hd) as Hwp.
    destruct (wpc_partial _ _ _ _ _ _ _ _ Hp Hwp) as [[Hok' Hw'] _]. split; [done|].
    exists w. split; [|done]. split; [done|]. destruct r as [l|]; [|done].
    exact (wpc_returns _ _ _ _ _ _ _ _ Hp Hwp l eq_refl).
  - apply (partial_mono _ (sql_protocol ids)) in Hp; [|done].
    pose proof (Complete_spec ids (w_done w) observer d fuel ids Hd ltac:(done)) as Hwp.
    destruct (wpc_partial _ _ _ _ _ _ _ _ Hp Hwp) as [[Hok' Hw'] _]. split; [done|].
    destruct r as [e|]; [by exists w|]. eexists. split; [done|]. intros id. cbn.
    rewrite elem_of_union, elem_of_list_to_set. intros [Hid|Hid]; [|by apply Hw'].
    by apply (wpc_returns _ _ _ _ _ _ _ _ Hp Hwp eq_refl).
Qed.

(** ** Retrying

    What the documentation promises, written without the code of the loop:
    which errors are transient, how long the waits are, and how attempts and
    waits alternate. *)

(** Errors of the connection and of the network below it. *)
Definition connection_causes : list cause :=
  [ErrBadConn; ErrInvalidConn; EOF; UnexpectedEOF; ECONNREFUSED; ECONNRESET; EPIPE; ENETUNREACH; EHOSTUNREACH].

(** The error numbers of MySQL for a lack of connections, a shutdown, a lock
    wait, a deadlock and a server that cannot be reached. *)
Definition transient_numbers : list Z := [1040; 1053; 1205; 1213; 2002; 2003; 2006; 2013].

(** The first of the causes with a property. *)
Definition first_with (P : cause -> Prop) (l : list cause) (c : cause) : Prop :=
  exists l1 l2, l = l1 ++ c :: l2 /\ P c /\ Forall (fun c => ~ P c) l1.
Definition from_mysql (c : cause) : Prop := exists n, c = MySQLError n.
Definition from_dns (c : cause) : Prop := exists temporary notFound timeout, c = DNSError temporary notFound timeout.
Definition from_net (c : cause) : Prop := from_dns c \/ exists timeout, c = NetError timeout.

Definition timed_out (l : list cause) : Prop :=
  exists c, first_with from_net l c /\ (c = NetError true \/ exists temporary notFound, c = DNSError temporary notFound true).

(** A server that answered with an error number decides; without one, a
    temporary failure of the name resolution or a timeout is transient. *)
Inductive transient_causes (l : list cause) : Prop :=
| transient_connection c : c ∈ l -> c ∈ connection_causes -> transient_causes l
| transient_mysql n : first_with from_mysql l (MySQLError n) -> n ∈ transient_numbers -> transient_causes l
| transient_dns timeout :
    Forall (fun c => ~ from_mysql c) l -> first_with from_dns l (DNSError true false timeout) -> transient_causes l
| transient_timeout : Forall (fun c => ~ from_mysql c) l -> timed_out l -> transient_causes l.

Definition transient_error (e : error) : Prop :=
  is_canceled e = false /\ is_deadline e = false /\ transient_causes (causes e).

Lemma find_cause_first {A : Type} (kind : cause -> option A) (P : cause -> Prop) l :
  (forall c, is_Some (kind c) <-> P c) ->
  match find_cause kind l with
  | Some a => exists c, first_with P l c /\ kind c = Some a
  | None => Forall (fun c => ~ P c) l
  end.
Proof.
  intros HP. induction l as [|c l IH]; cbn [find_cause]; [constructor|].
  destruct (kind c) as [a|] eqn:E.
  - exists c. split; [|done]. exists [], l. split; [done|]. split; [|constructor]. apply HP. by exists a.
  - assert (~ P c) as Hc by (intros [a Ha]%HP; congruence). destruct (find_cause kind l) as [a|]; [|by constructor].
    destruct IH as (c' & (l1 & l2 & -> & Hc' & Hl) & Ha). exists c'. split; [|done]. exists (c :: l1), l2.
    split; [done|]. split; [done|]. by constructor.
Qed.

Lemma first_unique P l c c' : first_with P l c -> first_with P l c' -> c = c'.
Proof.
  intros (l1 & l2 & -> & Hc & H1) (l1' & l2' & E & Hc' & H1'). revert l1' E H1'.
  induction H1 as [|x l1 Hx H1 IH]; intros [|y l1'] E H1'; simplify_eq/=; [done| | |]; try (apply Forall_cons in H1' as [? H1']); try done.
  by eapply IH.
Qed.

Lemma first_none P l c : first_with P l c -> Forall (fun c => ~ P c) l -> False.
Proof. intros (l1 & l2 & -> & Hc & _) [_ [Hn _]%Forall_cons]%Forall_app. done. Qed.

Lemma mysql_kind c : is_Some (mysql_number c) <-> from_mysql c.
Proof. split; [intros [n E]; destruct c; try done; by eexists|by intros [n ->]; exists n]. Qed.
Lemma dns_kind c : is_Some (dns_error c) <-> from_dns c.
Proof. split; [intros [n E]; destruct c; try done; by do 3 eexists|by intros (a & b & d & ->); exists (a, b)]. Qed.

Lemma connection_kind l :
  List.existsb connection_lost l || List.existsb network_failed l = true <-> exists c, c ∈ l /\ c ∈ connection_causes.
Proof.
  rewrite orb_true_iff, !List.existsb_exists. setoid_rewrite <- list_elem_of_In. split.
  - intros [(c & Hc & Hk)|(c & Hc & Hk)]; exists c; (split; [done|]); destruct c; try done; unfold connection_causes; set_solver.
  - intros (c & Hc & Hk). destruct c; first [left; by eexists|right; by eexists|exfalso; unfold connection_causes in H; set_solver].
Qed.

Lemma dns_spec l :
  find_cause dns_error l = Some (true, false) <-> exists timeout, first_with from_dns l (DNSError true false timeout).
Proof.
  pose proof (find_cause_first _ _ l dns_kind) as Hd. split.
  - intros E. rewrite E in Hd. destruct Hd as (c & Hf & Hc). destruct c; try done. injection Hc as -> ->. by eexists.
  - intros [t Hf]. destruct (find_cause dns_error l) as [d|]; [|by destruct (first_none _ _ _ Hf Hd)].
    destruct Hd as (c & Hf' & Hc). rewrite (first_unique _ _ _ _ Hf' Hf) in Hc. by injection Hc as <-.
Qed.

(** Without an error of the network, only name resolution and connections
    know of timeouts. *)
Lemma timeout_kind l : List.existsb network_failed l = false ->
  match find_cause timeout_error l with
  | Some timeout => exists c, first_with from_net l c /\ timeout_error c = Some timeout
  | None => Forall (fun c => ~ from_net c) l
  end.
Proof.
  induction l as [|c l IH]; cbn; [constructor|]. intros [Hc Hl]%orb_false_iff. specialize (IH Hl).
  destruct (timeout_error c) as [t|] eqn:E.
  - exists c. split; [|done]. exists [], l. split; [done|]. split; [|constructor].
    destruct c; try done; [left; by do 3 eexists|right; by eexists].
  - assert (~ from_net c) as Hn by (intros [(? & ? & ? & ->)|[? ->]]; done).
    destruct (find_cause timeout_error l) as [t|]; [|by constructor].
    destruct IH as (c' & (l1 & l2 & -> & Hc' & H1) & Ha). exists c'. split; [|done]. exists (c :: l1), l2.
    split; [done|]. split; [done|]. by constructor.
Qed.

Lemma timeout_spec l : List.existsb network_failed l = false ->
  match find_cause timeout_error l with Some timeout => timeout | None => false end = true <-> timed_out l.
Proof.
  intros Hn%timeout_kind. destruct (find_cause timeout_error l) as [t|].
  - destruct Hn as (c & Hf & Hc). split.
    + intros ->. exists c. split; [done|]. destruct Hf as (_ & _ & _ & [(a & b & t & ->)|[t ->]] & _); injection Hc as ->; eauto.
    + intros (c' & Hf' & Hc'). rewrite (first_unique _ _ _ _ Hf Hf') in Hc. destruct Hc' as [->|(a & b & ->)]; by injection Hc as <-.
  - split; [done|]. intros (c & Hf & _). by destruct (first_none _ _ _ Hf).
Qed.

Lemma transient_number l n : (forall c, c ∈ l -> c ∉ connection_causes) -> first_with from_mysql l (MySQLError n) ->
  transient_causes l <-> n ∈ transient_numbers.
Proof.
  intros Hno Hf. split; [|by apply transient_mysql].
  intros [c Hc Hin|n' Hf' Hin|t Hnone _|Hnone _]; [by destruct (Hno c)| |by destruct (first_none _ _ _ Hf)..].
  pose proof (first_unique _ _ _ _ Hf Hf') as [= ->]. done.
Qed.

Lemma transient_network l : (forall c, c ∈ l -> c ∉ connection_causes) -> Forall (fun c => ~ from_mysql c) l ->
  transient_causes l <-> (exists timeout, first_with from_dns l (DNSError true false timeout)) \/ timed_out l.
Proof.
  intros Hno Hm. split.
  - intros [c Hc Hin|n Hf _|t _ Hf|_ Ht]; [by destruct (Hno c)|by destruct (first_none _ _ _ Hf)|left; by eexists|by right].
  - intros [[t Hf]|Ht]; [by eapply transient_dns|by apply transient_timeout].
Qed.

(** The code's classification is the documented one. *)
Lemma IsRetryable_spec e : IsRetryable (Some e) = true <-> transient_error e.
Proof.
  unfold IsRetryable, transient_error. destruct (is_canceled e); [naive_solver|]. destruct (is_deadline e); [naive_solver|].
  cbn [orb]. set (l := causes e). pose proof (connection_kind l) as Hconn. rewrite orb_true_iff in Hconn.
  assert (forall b, (b = true <-> transient_causes l) -> b = true <-> false = false /\ false = false /\ transient_causes l) as Hb
    by tauto.
  apply Hb. clear Hb. destruct (List.existsb connection_lost l); [|destruct (List.existsb network_failed l) eqn:E2].
  1,2: split; [|done]; intros _; destruct Hconn as [(c & Hc & Hin) _]; [auto|]; by eapply transient_connection.
  assert (forall c, c ∈ l -> c ∉ connection_causes) as Hno.
  { intros c Hc Hin. by destruct (proj2 Hconn (ex_intro _ c (conj Hc Hin))). }
  pose proof (find_cause_first _ _ l mysql_kind) as Hm. destruct (find_cause mysql_number l) as [n|].
  - destruct Hm as (c & Hf & Hn). destruct c; try done. injection Hn as ->. rewrite bool_decide_eq_true. symmetry. by apply transient_number.
  - rewrite (transient_network l Hno Hm), <- dns_spec, <- (timeout_spec l E2).
    destruct (find_cause dns_error l) as [[[] []]|]; naive_solver.
Qed.

(** The base of a wait after a number of waits: 1, 2, 5, 10 and then always 30
    seconds, in nanoseconds. *)
Definition scheduled_wait (waits : nat) : Z :=
  match waits with
  | 0%nat => 1000000000
  | 1%nat => 2000000000
  | 2%nat => 5000000000
  | 3%nat => 10000000000
  | _ => 30000000000
  end.

(** A wait is within 20 per cent of its base. *)
Definition on_schedule (waits : nat) (delay : Z) : Prop :=
  80 * scheduled_wait waits <= 100 * delay <= 120 * scheduled_wait waits.

Lemma retry_delay_schedule n : retry_delay (Z.of_nat n + 1) = scheduled_wait n.
Proof.
  unfold retry_delay. replace (Z.of_nat n + 1 - 1) with (Z.of_nat n) by lia.
  destruct n as [|[|[|[|n]]]]; [reflexivity..|]. change (Z.of_nat (length retryDelays)) with 5.
  destruct (5 <=? Z.of_nat (S (S (S (S n))))) eqn:E; [reflexivity|]. apply Z.leb_gt in E.
  assert (n = 0%nat) as -> by lia. reflexivity.
Qed.

Lemma wait_on_schedule n draw : 0 <= draw <= 40 -> on_schedule n (jitterDelay (retry_delay (Z.of_nat n + 1)) draw).
Proof.
  intros Hd. rewrite retry_delay_schedule. unfold on_schedule, jitterDelay.
  assert (exists k, scheduled_wait n = k * 100 /\ 0 <= k) as (k & -> & Hk).
  { exists (scheduled_wait n / 100). destruct n as [|[|[|[|n]]]]; by split. }
  replace (k * 100 * (80 + draw)) with (k * (80 + draw) * 100) by ring. rewrite Z.div_mul by done. nia.
Qed.

Definition is_sleep (o : SqlOp) : bool := match o with Sleep _ => true | _ => false end.

(** The waits of an execution. *)
Definition sleeps (h : list (event SqlSig)) : nat :=
  length (List.filter (fun e => match e with Ev o _ => is_sleep o end) h).

(** A program that does not wait. *)
Definition restless {A : Type} (m : prog A) : Prop := ops_in (Sig := SqlSig) (fun o => is_sleep o = false) m.

(** The operations of the loop itself. *)
Definition own (o : SqlOp) : Prop := match o with CtxErr | Now | Jitter | Sleep _ | Observe _ => True | _ => False end.

Lemma sleeps_app h1 h2 : sleeps (h1 ++ h2) = (sleeps h1 + sleeps h2)%nat.
Proof. unfold sleeps. by rewrite List.filter_app, length_app. Qed.

Lemma restless_sleeps {W A : Type} (pr : protocol W) w (m : prog A) tr w' m' :
  partial (Sig := SqlSig) pr w m tr w' m' -> restless m -> sleeps tr = 0%nat /\ restless m'.
Proof.
  intros Hp Hm. destruct (ops_in_partial (Sig := SqlSig) _ _ _ _ _ _ _ Hp Hm) as [Ht Hm']. split; [|done]. clear Hp.
  induction Ht as [|[o r] tr Ho Ht IH]; [done|]. unfold sleeps in *. cbn in *. by rewrite Ho.
Qed.

Section Loop.
Context {W St : Type} (pr : protocol (Sig := SqlSig) W) (fn : St -> prog (option error * St)).
Hypothesis fn_restless : forall st, restless (fn st).
Hypothesis draws : forall w (draw : SqlResp Jitter) w', step pr w Jitter draw w' -> 0 <= draw <= 40.

(** [attempts w st tr rs w' st']: the events are those of complete executions
    of [fn], each started with the memory the last one left, with the results
    [rs], and of the loop's own operations between them. *)
Inductive attempts : W -> St -> list (event SqlSig) -> list (option error) -> W -> St -> Prop :=
| attempts_nil w st : attempts w st [] [] w st
| attempts_own w st (o : SqlOp) (r : SqlResp o) w1 tr rs w2 st2 :
    own o -> step pr w o r w1 -> attempts w1 st tr rs w2 st2 ->
    attempts w st (Ev (o : @Op SqlSig) r :: tr) rs w2 st2
| attempts_call w st tr1 r w1 st1 tr2 rs w2 st2 :
    partial pr w (fn st) tr1 w1 (Ret (r, st1)) -> attempts w1 st1 tr2 rs w2 st2 ->
    attempts w st (tr1 ++ tr2) (r :: rs) w2 st2.

(** The error is that of a context that ended, before or after an attempt or
    while waiting, or that of the wait. *)
Definition interrupted (tr : list (event SqlSig)) (err : error) : Prop :=
  (exists tr0, tr = tr0 ++ [Ev (CtxErr : @Op SqlSig) (Some err : @Resp SqlSig CtxErr)]) \/
  exists tr0 delay, tr = tr0 ++ [Ev (Sleep delay : @Op SqlSig) (Some err : @Resp SqlSig (Sleep delay));
                                 Ev (CtxErr : @Op SqlSig) (None : @Resp SqlSig CtxErr)].

(** Where the loop may stand after [waits] waits and [tr], with [fuel] rounds
    left. *)
Definition disciplined (waits fuel : nat) w st tr w' (m' : prog (option (option error * St))) : Prop :=
  match m' with
  | Call (Sleep delay) _ => exists errs st',
      attempts w st tr (map Some errs) w' st' /\ Forall transient_error errs /\
      length errs = S (sleeps tr) /\ on_schedule (waits + sleeps tr) delay
  | Call _ _ => True
  | Ret (Some (None, st')) => exists errs,
      attempts w st tr (map Some errs ++ [None]) w' st' /\ Forall transient_error errs /\ length errs = sleeps tr
  | Ret (Some (Some err, st')) => exists errs rest,
      attempts w st tr (map Some (errs ++ rest)) w' st' /\ Forall transient_error errs /\ length errs = sleeps tr /\
      (rest = [err] /\ ~ transient_error err \/ (length rest <= 1)%nat /\ interrupted tr err)
  | Ret None => exists errs st',
      attempts w st tr (map Some errs) w' st' /\ Forall transient_error errs /\ length errs = fuel /\ sleeps tr = fuel
  end.

Lemma attempts_app w st tr1 rs1 w1 st1 tr2 rs2 w2 st2 :
  attempts w st tr1 rs1 w1 st1 -> attempts w1 st1 tr2 rs2 w2 st2 -> attempts w st (tr1 ++ tr2) (rs1 ++ rs2) w2 st2.
Proof.
  induction 1 as [| |? ? ? ? ? ? ? ? ? ? Hp _ IH]; [done|intros ?; econstructor; eauto|].
  intros H2. rewrite <- (assoc_L (++)). cbn [app]. eapply attempts_call; [exact Hp|]. by apply IH.
Qed.

Lemma own_attempts {A : Type} w (m : prog A) tr w' m' st : partial pr w m tr w' m' ->
  ops_in (Sig := SqlSig) own m -> attempts w st tr [] w' st.
Proof.
  induction 1 as [|w o r w1 tr w2 k m2 Hs Hp IH]; [by constructor|]. intros [Ho Hk]. apply (attempts_own _ _ o r w1); auto.
Qed.

Lemma attempts_snoc w st tr rs w1 st1 (o : SqlOp) (r : SqlResp o) w2 :
  attempts w st tr rs w1 st1 -> own o -> step pr w1 o r w2 -> attempts w st (tr ++ [Ev (o : @Op SqlSig) r]) rs w2 st1.
Proof.
  intros Ha Ho Hs. rewrite <- (app_nil_r rs). eapply attempts_app; [exact Ha|].
  eapply attempts_own; [done|exact Hs|constructor].
Qed.

Lemma interrupted_app tr1 tr2 err : interrupted tr2 err -> interrupted (tr1 ++ tr2) err.
Proof.
  intros [[tr0 ->]|(tr0 & delay & ->)]; [left; exists (tr1 ++ tr0)|right; exists (tr1 ++ tr0), delay]; by rewrite (assoc_L (++)).
Qed.

(** A failed attempt and its wait before the rest. *)
Lemma disciplined_after waits fuel w st tr1 err w1 st1 tr2 w' m' :
  attempts w st tr1 [Some err] w1 st1 -> transient_error err -> sleeps tr1 = 1%nat ->
  disciplined (S waits) fuel w1 st1 tr2 w' m' -> disciplined waits (S fuel) w st (tr1 ++ tr2) w' m'.
Proof.
  intros Ha He Hs Hd. unfold disciplined in *. rewrite sleeps_app, Hs.
  assert (forall errs, Forall transient_error errs -> Forall transient_error (err :: errs)) as Hall by by constructor.
  destruct m' as [[[[e|] st']|]|o k].
  - destruct Hd as (errs & rest & H1 & H2 & H3 & H4). exists (err :: errs), rest.
    split; [by apply (attempts_app _ _ _ [Some err] w1 st1)|]. split; [auto|]. split; [cbn; by rewrite H3|].
    destruct H4 as [H4|[H4 H5]]; [by left|right]. split; [done|]. by apply interrupted_app.
  - destruct Hd as (errs & H1 & H2 & H3). exists (err :: errs).
    split; [by apply (attempts_app _ _ _ [Some err] w1 st1)|]. split; [auto|]. cbn. by rewrite H3.
  - destruct Hd as (errs & st' & H1 & H2 & H3 & H4). exists (err :: errs), st'.
    split; [by apply (attempts_app _ _ _ [Some err] w1 st1)|]. split; [auto|]. cbn. by rewrite H3, H4.
  - destruct o; try done. destruct Hd as (errs & st' & H1 & H2 & H3 & H4). exists (err :: errs), st'.
    split; [by apply (attempts_app _ _ _ [Some err] w1 st1)|]. split; [auto|]. split; [cbn; by rewrite H3|].
    by replace (waits + (1 + sleeps tr2))%nat with (S waits + sleeps tr2)%nat by lia.
Qed.

(** The parts of a round after a failure that is to be retried. *)
Definition wait_then (delay : Z) (st : St) (retry : prog (option (option error * St))) : prog (option (option error * St)) :=
  slept ← perform (Sleep delay : @Op SqlSig);
  match slept with
  | Some err =>
      ctxErr ← perform (CtxErr : @Op SqlSig);
      mret (Some (Some (default err ctxErr), st))
  | None => retry
  end.

Definition back_off (operation : string) (failures startedAt : Z) (err : error) (st : St)
    (retry : Z -> prog (option (option error * St))) : prog (option (option error * St)) :=
  startedAt ← note_failure observer operation failures startedAt err;
  draw ← perform (Jitter : @Op SqlSig);
  wait_then (jitterDelay (retry_delay failures) draw) st (retry startedAt).

Lemma note_failure_ops operation failures startedAt err :
  ops_in (Sig := SqlSig) (fun o => own o /\ is_sleep o = false) (note_failure observer operation failures startedAt err).
Proof. unfold note_failure, observe. by destruct (failures =? 1), observer; repeat split. Qed.

Lemma not_sleep waits fuel w st tr w' (o : SqlOp) k : is_sleep o = false ->
  disciplined waits fuel w st tr w' (Call (o : @Op SqlSig) k).
Proof. by destruct o. Qed.

Lemma wait_disciplined waits fuel delay err retry w st tr w1 st1 tr' w' m' :
  attempts w st tr [Some err] w1 st1 -> sleeps tr = 0%nat -> transient_error err -> on_schedule waits delay ->
  (forall w2 tr2, partial pr w2 retry tr2 w' m' -> disciplined (S waits) fuel w2 st1 tr2 w' m') ->
  partial pr w1 (wait_then delay st1 retry) tr' w' m' ->
  disciplined waits (S fuel) w st (tr ++ tr') w' m'.
Proof.
  intros Ha Hz He Hon Hretry Hp.
  apply partial_call in Hp as [(-> & -> & ->)|(slept & w2 & tr2 & -> & Hs & Hp)].
  { exists [err], st1. rewrite app_nil_r, Hz, Nat.add_0_r. split; [exact Ha|]. split; [by constructor|]. done. }
  pose proof (attempts_snoc _ _ _ _ _ _ _ _ _ Ha (I : own (Sleep delay)) Hs) as Ha1.
  rewrite cons_middle, (assoc_L (++)).
  assert (sleeps (tr ++ [Ev (Sleep delay : @Op SqlSig) slept]) = 1%nat) as Hz1 by (by rewrite sleeps_app, Hz).
  destruct slept as [e|]; [|eapply disciplined_after; eauto].
  apply partial_call in Hp as [(_ & _ & ->)|(ctxErr & w3 & tr3 & -> & Hc & Hp)]; [by apply not_sleep|].
  apply partial_ret in Hp as (-> & -> & ->).
  pose proof (attempts_snoc _ _ _ _ _ _ _ _ _ Ha1 (I : own CtxErr) Hc) as Ha2. exists [err], [].
  split; [exact Ha2|]. split; [by constructor|]. split; [by rewrite sleeps_app, Hz1|]. right. split; [cbn; lia|].
  destruct ctxErr as [e'|]; [left; by eexists|right]. exists tr, delay. by rewrite <- (assoc_L (++)).
Qed.

Lemma back_off_disciplined waits fuel operation startedAt err retry w st tr w1 st1 tr' w' m' :
  attempts w st tr [Some err] w1 st1 -> sleeps tr = 0%nat -> transient_error err ->
  (forall startedAt w2 tr2, partial pr w2 (retry startedAt) tr2 w' m' -> disciplined (S waits) fuel w2 st1 tr2 w' m') ->
  partial pr w1 (back_off operation (Z.of_nat waits + 1) startedAt err st1 retry) tr' w' m' ->
  disciplined waits (S fuel) w st (tr ++ tr') w' m'.
Proof.
  intros Ha Hz He Hretry Hp. pose proof (note_failure_ops operation (Z.of_nat waits + 1) startedAt err) as Hops.
  apply partial_bind in Hp as [(o & k & -> & Hp)|(startedAt' & tr1 & w2 & tr2 & -> & Hp & Hp2)].
  { apply not_sleep. by destruct (ops_in_partial _ _ _ _ _ _ _ Hp Hops) as [_ [[_ Ho] _]]. }
  assert (sleeps tr1 = 0%nat) as Hz1 by (eapply restless_sleeps; [exact Hp|]; eapply ops_in_mono, Hops; by intros o []).
  assert (attempts w2 st1 [] [] w2 st1) as Hnil by constructor.
  assert (attempts w st (tr ++ tr1) [Some err] w2 st1) as Ha1.
  { rewrite <- (app_nil_r [Some err]). eapply attempts_app; [exact Ha|]. eapply own_attempts; [exact Hp|].
    eapply ops_in_mono, Hops. by intros o []. }
  apply partial_call in Hp2 as [(_ & _ & ->)|(draw & w3 & tr3 & -> & Hj & Hp3)]; [by apply not_sleep|].
  pose proof (attempts_snoc _ _ _ _ _ _ _ _ _ Ha1 (I : own Jitter) Hj) as Ha2.
  rewrite (assoc_L (++)), cons_middle, (assoc_L (++)). eapply wait_disciplined; [exact Ha2| |done| |by apply Hretry|exact Hp3].
  - by rewrite !sleeps_app, Hz, Hz1.
  - by apply wait_on_schedule, (draws _ _ _ Hj).
Qed.

(** The ends of a round. *)
Lemma recovered_disciplined waits fuel (tell : prog unit) w st tr w1 st1 tr' w' m' :
  attempts w st tr [None] w1 st1 -> sleeps tr = 0%nat ->
  ops_in (Sig := SqlSig) (fun o => own o /\ is_sleep o = false) tell ->
  partial pr w1 (tell ;; mret (Some (None, st1))) tr' w' m' -> disciplined waits fuel w st (tr ++ tr') w' m'.
Proof.
  intros Ha Hz Hops Hp.
  apply partial_bind in Hp as [(o & k & -> & Hp)|([] & tr1 & w2 & tr2 & -> & Hp & Hp2)].
  { apply not_sleep. by destruct (ops_in_partial _ _ _ _ _ _ _ Hp Hops) as [_ [[_ Ho] _]]. }
  apply partial_ret in Hp2 as (-> & -> & ->). rewrite app_nil_r.
  assert (sleeps tr1 = 0%nat) as Hz1 by (eapply restless_sleeps; [exact Hp|]; eapply ops_in_mono, Hops; by intros o []).
  exists []. split; [|by rewrite sleeps_app, Hz, Hz1]. rewrite <- (app_nil_r (map Some [] ++ [None])).
  eapply attempts_app; [exact Ha|]. eapply own_attempts; [exact Hp|]. eapply ops_in_mono, Hops. by intros o [].
Qed.

Lemma failed_disciplined waits fuel operation startedAt err w st tr w1 st1 tr' w' m' :
  attempts w st tr [Some err] w1 st1 -> sleeps tr = 0%nat ->
  (forall startedAt w2 tr2, partial pr w2 (Do observer fuel operation fn (Z.of_nat waits + 1) startedAt st1) tr2 w' m' ->
    disciplined (S waits) fuel w2 st1 tr2 w' m') ->
  partial pr w1 (
    ctxErr ← perform (CtxErr : @Op SqlSig);
    match ctxErr with
    | Some ctxErr => mret (Some (Some ctxErr, st1))
    | None =>
        if negb (IsRetryable (Some err)) then mret (Some (Some err, st1))
        else back_off operation (Z.of_nat waits + 1) startedAt err st1
               (fun startedAt => Do observer fuel operation fn (Z.of_nat waits + 1) startedAt st1)
    end) tr' w' m' ->
  disciplined waits (S fuel) w st (tr ++ tr') w' m'.
Proof.
  intros Ha Hz Hretry Hp.
  apply partial_call in Hp as [(_ & _ & ->)|(ctxErr & w2 & tr2 & -> & Hc & Hp)]; [by apply not_sleep|].
  pose proof (attempts_snoc _ _ _ _ _ _ _ _ _ Ha (I : own CtxErr) Hc) as Ha1. rewrite cons_middle, (assoc_L (++)).
  assert (sleeps (tr ++ [Ev (CtxErr : @Op SqlSig) ctxErr]) = 0%nat) as Hz1 by (by rewrite sleeps_app, Hz).
  destruct ctxErr as [e|].
  { apply partial_ret in Hp as (-> & -> & ->). rewrite app_nil_r. exists [], [err]. split; [exact Ha1|].
    split; [constructor|]. split; [done|]. right. split; [done|]. left. by eexists. }
  pose proof (IsRetryable_spec err) as Hspec. destruct (IsRetryable (Some err)); cbn [negb] in Hp.
  - eapply back_off_disciplined; [exact Ha1|exact Hz1|by apply Hspec|exact Hretry|exact Hp].
  - apply partial_ret in Hp as (-> & -> & ->). rewrite app_nil_r. exists [], [err]. split; [exact Ha1|].
    split; [constructor|]. split; [done|]. left. split; [done|]. by intros ?%Hspec.
Qed.

Lemma Do_disciplined waits fuel operation startedAt w st tr w' m' :
  partial pr w (Do observer fuel operation fn (Z.of_nat waits) startedAt st) tr w' m' ->
  disciplined waits fuel w st tr w' m'.
Proof.
  revert waits startedAt w st tr. induction fuel as [|fuel IH]; intros waits startedAt w st tr Hp; cbn [Do] in Hp.
  { apply partial_ret in Hp as (-> & -> & ->). exists [], st. by repeat constructor. }
  apply partial_call in Hp as [(_ & _ & ->)|(done_ & w1 & tr1 & -> & Hc & Hp)]; [by apply not_sleep|].
  pose proof (attempts_snoc _ _ _ _ _ _ _ _ _ (attempts_nil w st) (I : own CtxErr) Hc) as Ha. cbn [app] in Ha.
  destruct done_ as [e|].
  { apply partial_ret in Hp as (-> & -> & ->). exists [], []. split; [exact Ha|]. split; [constructor|]. split; [done|].
    right. split; [cbn; lia|]. left. by exists []. }
  apply partial_bind in Hp as [(o & k & -> & Hp)|([r st1] & tr2 & w2 & tr3 & -> & Hp & Hp2)].
  { apply not_sleep. by destruct (restless_sleeps _ _ _ _ _ _ Hp (fn_restless st)) as [_ [Ho _]]. }
  destruct (restless_sleeps _ _ _ _ _ _ Hp (fn_restless st)) as [Hz _].
  assert (attempts w st (Ev (CtxErr : @Op SqlSig) None :: tr2) [r] w2 st1) as Ha1.
  { apply (attempts_app _ _ [_] [] w1 st tr2 [r] w2 st1 Ha). rewrite <- (app_nil_r tr2). eapply attempts_call; [exact Hp|constructor]. }
  assert (sleeps (Ev (CtxErr : @Op SqlSig) None :: tr2) = 0%nat) as Hz1 by done.
  rewrite app_comm_cons. clear Hc Ha Hp Hz. set (tr0 := _ :: tr2) in *. clearbody tr0. cbn [fst snd] in Hp2.
  destruct r as [err|].
  2:{ eapply recovered_disciplined; [exact Ha1|exact Hz1| |exact Hp2]. unfold observe.
      by destruct ((0 <? _) && observer), observer; repeat split. }
  eapply failed_disciplined; [exact Ha1|exact Hz1| |exact Hp2]. intros startedAt' w3 tr4 Hp3. apply (IH (S waits) startedAt').
  by replace (Z.of_nat (S waits)) with (Z.of_nat waits + 1) by lia.
Qed.

(** C36: an operation that is retried waits only after a transient failure and
    starts again only after the wait: the n-th wait is within 20 per cent of
    1, 2, 5, 10 and then always 30 seconds and comes after n attempts that all
    failed for transient reasons.  The operation ends with the first attempt
    that succeeds, with the error of the first failure that is not transient,
    or with the error of its context or of a wait, after at most one more
    failure; otherwise every round was used.  What is transient and the
    schedule are written down apart from the code. *)
Theorem retry_discipline w fuel operation st tr w' m' :
  partial pr w (Do observer fuel operation fn 0 0 st) tr w' m' ->
  match m' with
  | Call (Sleep delay) _ => exists errs st',
      attempts w st tr (map Some errs) w' st' /\ Forall transient_error errs /\
      length errs = S (sleeps tr) /\ on_schedule (sleeps tr) delay
  | Call _ _ => True
  | Ret (Some (None, st')) => exists errs,
      attempts w st tr (map Some errs ++ [None]) w' st' /\ Forall transient_error errs /\ length errs = sleeps tr
  | Ret (Some (Some err, st')) => exists errs rest,
      attempts w st tr (map Some (errs ++ rest)) w' st' /\ Forall transient_error errs /\ length errs = sleeps tr /\
      (rest = [err] /\ ~ transient_error err \/ (length rest <= 1)%nat /\ interrupted tr err)
  | Ret None => exists errs st',
      attempts w st tr (map Some errs) w' st' /\ Forall transient_error errs /\ length errs = fuel /\ sleeps tr = fuel
  end.
Proof. intros Hp. exact (Do_disciplined 0 fuel operation 0 w st tr w' m' Hp). Qed.
End Loop.
End Theorems.

(** ** Witnesses *)

Section Witnesses.
#[local] Existing Instance DecimalImpl.dec_ops.

(** A database that answers every statement but may lose the answers to some
    commits. *)
Definition status_of (t : table) (id : Z) : option (Z * Z) :=
  match t !! id with Some r => if scoped r then Some (id, row_status r) else None | None => None end.

Lemma status_list_ok t args : StronglySorted Z.lt args -> status_rows t args (omap (status_of t) args).
Proof.
  intros Hs. split.
  - intros id status. rewrite list_elem_of_omap. unfold status_of. split.
    + intros (id' & Hid & H). destruct (t !! id') as [r|] eqn:E; [|done]. destruct (scoped r) eqn:Es; [|done].
      injection H as -> <-. split; [done|]. by exists r.
    + intros (Hid & r & Hr & Hsc & <-). exists id. split; [done|]. by rewrite Hr, Hsc.
  - induction Hs as [|id args Hs IH Hf]; [constructor|]. cbn [omap list_omap]. destruct (status_of t id) as [[i s]|] eqn:E; [|done].
    constructor; [done|]. apply Forall_forall. intros [i' s'] (id' & Hid & H')%list_elem_of_omap. unfold status_of in *.
    destruct (t !! id) as [r|]; [|done]. destruct (scoped r); [|done]. injection E as <- _.
    destruct (t !! id') as [r'|]; [|done]. destruct (scoped r'); [|done]. injection H' as <- _.
    exact (proj1 (Forall_forall _ _) Hf id' Hid).
Qed.

#[local] Instance sample_causes : Causes := fun code => if code =? 3 then EOF else OtherError.

Definition sample_db_env (w : db * nat) (o : SqlOp) : option (SqlResp o * (db * nat)) :=
  let '(d, lost) := w in
  match o return option (SqlResp o * (db * nat)) with
  | QueryPending _ => None
  | QueryStatuses in_tx sql args =>
      match (if in_tx : bool then tx_view <$> db_tx d else Some (db_rows d)) with
      | Some view =>
          if decide (StronglySorted Z.lt args) then Some (Ok (map Ok (omap (status_of view) args), None), w) else None
      | None => None
      end
  | BeginTx => Some (None, (mkDb (db_rows d) (Some (mkTx (db_rows d) ∅)), lost))
  | TxExec sql args =>
      match db_tx d with
      | Some t => Some (Ok (Ok (Z.of_nat (size (matched (db_rows d) args)))), (run_update d t args, lost))
      | None => None
      end
  | Commit =>
      match db_tx d with
      | Some t => match lost with
                  | S lost => Some (Some (External 3 "unexpected end"), (committed d t, lost))
                  | O => Some (None, (committed d t, O))
                  end
      | None => None
      end
  | Rollback => Some (TxDone, (ended d, lost))
  | CtxErr | CloseRows | Sleep _ => Some (None, w)
  | Now => Some (0, w)
  | Jitter => Some (20, w)
  | Observe _ => Some (tt, w)
  end.

Lemma delivers_all {A : Type} (l : list A) : delivers (map Ok l, None) l.
Proof.
  exists l. split; [done|]. split; [|done]. cbn [fst]. induction l; constructor; [by left|done].
Qed.

Lemma sample_db_env_step ids w o r w' :
  sample_db_env w o = Some (r, w') -> step (sql_protocol ids) (fst w) o r (fst w').
Proof.
  destruct w as [d lost]. intros H. exists d. split; [by split|]. destruct o as [| |in_tx sql args| | |sql args| | | | | |]; cbn in *; try done; try by injection H as <- <-.
  - destruct (if in_tx then _ else _) as [view|] eqn:E; [|done]. destruct (decide _) as [Hs|]; [|done].
    injection H as <- <-. split; [done|]. exists view. split; [done|]. intros _. eexists. split; [by apply status_list_ok|].
    apply delivers_all.
  - destruct (db_tx d) as [t|]; [|done]. injection H as <- <-. intros _. split; [done|]. by intros n [= <-].
  - destruct (db_tx d) as [t|]; [|done]. destruct lost; injection H as <- <-; [done|by right].
Qed.

Definition sample_row (status : Z) : row := mkRow 1704067200 "12.5" 1 status.
Definition sample_db : db := mkDb {[3 := sample_row 0; 7 := sample_row 0; 9 := sample_row 0]} None.

(** The answer to the commit is lost. *)
Definition sample_completion := exec sample_db_env (sample_db, 1%nat) (Complete true referralQueries 3 [3; 7; 3]).
Definition sample_trace := exec_trace sample_db_env (sample_db, 1%nat) (Complete true referralQueries 3 [3; 7; 3]).

Lemma sample_db_ok : tx_ok sample_db.
Proof. by intros t. Qed.

Lemma sample_completion_run : fst sample_completion = Ret (Some None).
Proof. vm_compute. reflexivity. Qed.

Lemma sample_partial ids :
  partial (sql_protocol ids) sample_db (Complete true referralQueries 3 [3; 7; 3]) sample_trace
    (fst (snd sample_completion)) (Ret (Some None)).
Proof.
  rewrite <- sample_completion_run.
  apply (exec_partial (Sig := SqlSig) (sql_protocol ids) fst sample_db_env (sample_db_env_step ids) _ (sample_db, 1%nat)).
Qed.

Lemma completion_is_exact_witness :
  completed (db_rows (fst (snd sample_completion))) 3 /\ completed (db_rows (fst (snd sample_completion))) 7.
Proof.
  destruct (completion_is_exact true 3 [3; 7; 3] sample_db _ _ _ sample_db_ok (sample_partial _)) as [_ Hc].
  split; apply (Hc eq_refl); [left|right; left].
Defined.

Lemma repository_refines_specification_witness : exists w',
  funding_step initial_world (Effects.Complete [3; 7; 3]) None w' /\ records (fst (snd sample_completion)) w'.
Proof.
  assert (records sample_db initial_world) as Hr by (intros id Hid; by apply elem_of_empty in Hid).
  assert (partial database sample_db (Complete true referralQueries 3 [3; 7; 3]) sample_trace
    (fst (snd sample_completion)) (Ret (Some None))) as Hp by (eapply partial_mono, (sample_partial []); done).
  exact (proj2 (repository_refines_specification true 3 sample_db initial_world (Effects.Complete [3; 7; 3]) _ _ _ None
    eq_refl sample_db_ok Hr Hp)).
Defined.

(** A database that cannot be reached, for a number of waits. *)
Definition unreachable (waits : nat) (o : SqlOp) : option (SqlResp o * nat) :=
  match o return option (SqlResp o * nat) with
  | QueryPending _ => Some (Err (External 3 "unexpected end"), waits)
  | CtxErr | CloseRows => Some (None, waits)
  | Sleep _ => match waits with S waits => Some (None, waits) | O => None end
  | Now => Some (0, waits)
  | Jitter => Some (20, waits)
  | Observe _ => Some (tt, waits)
  | _ => None
  end.

Definition no_database : protocol (Sig := SqlSig) nat :=
  @Build_protocol SqlSig _ (fun _ _ => True) (fun n o r n' => unreachable n o = Some (r, n')).

Lemma list_attempt_restless records : restless (list_attempt referralQueries records).
Proof.
  unfold list_attempt, restless. split; [done|]. intros [[scans err]|e]; [|done].
  cbn. destruct (scan_pending scans), err; cbn; by repeat split.
Qed.

(** The third wait of a listing, after three failures. *)
Definition listing : prog (Sig := SqlSig) (option (option error * list FundingRecord)) :=
  Do true 5 "list" (list_attempt referralQueries) 0 0 [].

Lemma retry_discipline_witness : exists tr w' k errs,
  partial no_database 2%nat listing tr w' (Call (Sleep 5000000000 : @Op SqlSig) k) /\
  Forall transient_error errs /\ length errs = 3%nat /\ on_schedule 2 5000000000.
Proof.
  pose proof (exec_partial (Sig := SqlSig) no_database (fun n => n) unreachable (fun _ _ _ _ E => E) listing 2%nat) as Hp.
  assert (exists k, fst (exec (Sig := SqlSig) unreachable 2%nat listing) = Call (Sleep 5000000000 : @Op SqlSig) k) as [k Hk]
    by (eexists; reflexivity).
  rewrite Hk in Hp.
  assert (forall w (draw : SqlResp Jitter) w', step no_database w Jitter draw w' -> 0 <= draw <= 40) as Hdraws
    by (intros w draw w' [= <- <-]; lia).
  assert (sleeps (exec_trace (Sig := SqlSig) unreachable 2%nat listing) = 2%nat) as Hs by reflexivity.
  destruct (retry_discipline true no_database (list_attempt referralQueries) list_attempt_restless Hdraws _ _ _ _ _ _ _ Hp)
    as (errs & st' & _ & He & Hl & Hon).
  rewrite Hs in Hl, Hon. eexists _, _, k, errs. exact (conj Hp (conj He (conj Hl Hon))).
Defined.
End Witnesses.
