(* ===== verification/ManifestTheorems.v ===== *)
(** * What a manifest promises

    The totals of a manifest are exact: the payout is the sum of the amounts
    rounded up to six decimal places ([manifest_is_exact]), and the manifest
    does not depend on the order in which the records were read
    ([manifest_order_independent]). *)

From Stdlib Require Import QArith Lqa Sorting.Permutation Sorting.Sorted.
From S2P Require Import Prelude DecimalSpec DecimalImpl Model Amount.

(** ** Sorting has one result *)

Lemma record_le_antisym a b : record_le a b -> record_le b a -> rec_ID a = rec_ID b.
Proof. unfold record_le. lia. Qed.

Lemma sorted_unique l l' :
  NoDup (map rec_ID l) -> Permutation l l' -> StronglySorted record_le l -> StronglySorted record_le l' -> l = l'.
Proof.
  intros Hn Hp Hs. revert l' Hp. induction Hs as [|x l Hs IH Hx]; intros l' Hp Hs'.
  - by apply Permutation_nil in Hp.
  - destruct Hs' as [|y l' Hs' Hy]; [by apply Permutation_sym, Permutation_nil in Hp|].
    assert (x = y) as <-.
    { assert (y ∈ x :: l) as Hin1 by (rewrite Hp; left). assert (x ∈ y :: l') as Hin2 by (rewrite <- Hp; left).
      apply elem_of_cons in Hin1 as [->|Hin1]; [done|]. apply elem_of_cons in Hin2 as [->|Hin2]; [done|].
      rewrite Forall_forall in Hx, Hy. pose proof (record_le_antisym _ _ (Hx y Hin1) (Hy x Hin2)) as Hid.
      simpl in Hn. apply NoDup_cons in Hn as [Hn _]. destruct Hn. rewrite Hid. by apply list_elem_of_fmap_2. }
    f_equal. apply IH; [by apply NoDup_cons in Hn as [_ Hn]|by eapply Permutation_cons_inv|done].
Qed.

Lemma sort_records_unique l l' : NoDup (map rec_ID l) -> Permutation l l' -> sort_records l = sort_records l'.
Proof.
  intros Hn Hp. apply sorted_unique; [|by rewrite <- !sort_records_perm|apply sort_records_sorted..].
  apply NoDup_ListNoDup. apply NoDup_ListNoDup in Hn. eapply Permutation_NoDup; [|exact Hn]. apply Permutation_map, sort_records_perm.
Qed.

Section Manifest.
Context `{Laws : DecimalLaws}.

(** The total [payout] that [records] are paid: their exact sum, rounded up to
    six decimal places. *)
Definition payout_of (records : list FundingRecord) (payout : string) : Prop :=
  exists q p, amounts_sum records q /\ dec_parse payout = Some p /\
    (q <= dec_value p)%Q /\ (dec_value p < q + pow10 (-6))%Q /\
    (exists z, dec_value p == inject_Z z * pow10 (-6))%Q /\ (payout = "0" <-> (q == 0)%Q).

Lemma amounts_sum_defined l l' : Permutation l l' -> (exists q, amounts_sum l q) <-> (exists q, amounts_sum l' q).
Proof.
  intros Hp. split; intros [q Hq].
  - destruct (amounts_sum_perm _ _ _ Hp Hq) as (q' & Hq' & _). by exists q'.
  - destruct (amounts_sum_perm _ _ _ (Permutation_sym Hp) Hq) as (q' & Hq' & _). by exists q'.
Qed.

Lemma payout_of_perm l l' payout : Permutation l l' -> payout_of l payout -> payout_of l' payout.
Proof.
  intros Hp (q & p & Hq & Hd & H1 & H2 & H3 & H4). destruct (amounts_sum_perm _ _ _ Hp Hq) as (q' & Hq' & Eq).
  exists q', p. split; [done|]. split; [done|]. split; [by rewrite Eq|]. split; [by rewrite Eq|]. split; [done|].
  by rewrite Eq.
Qed.

(** C12: a manifest holds the records given, ordered by period and id, and is
    built without an error only when every amount is a non-negative decimal;
    its payout total is then their exact sum rounded up to six decimal places,
    zero exactly when nothing is due, and a positive payout has a token. *)
Theorem manifest_is_exact input m err :
  BuildManifest input = (m, err) ->
  Permutation (min_Records input) (man_Records m) /\ StronglySorted record_le (man_Records m) /\
  man_Settlement m = min_Settlement input /\ man_Recipient m = min_Recipient input /\
  match err with
  | None =>
      payout_of (min_Records input) (man_PayoutTotal m) /\ man_Token m = min_Token input /\
      (man_PayoutTotal m <> "0" -> man_Token m <> None)
  | Some _ =>
      man_PayoutTotal m = "" /\ ((forall q, ~ amounts_sum (min_Records input) q) \/ min_Token input = None)
  end.
Proof.
  unfold BuildManifest, buildManifest. pose proof (sort_records_perm (min_Records input)) as Hp.
  pose proof (sort_records_sorted (min_Records input)) as Hs. set (l := sort_records (min_Records input)) in *.
  pose proof (CalculateTotals_spec l) as Ht. destruct (CalculateTotals l) as [[raw payout]|e]; cbv beta iota.
  - destruct Ht as (q & p & Hq & Hd & H1 & H2 & H3 & H4 & _).
    assert (payout_of (min_Records input) payout) as Hpay.
    { apply (payout_of_perm l); [by symmetry|]. by exists q, p. }
    unfold NewFromString. rewrite Hd. destruct (dec_pos p) eqn:Hpos; cbn [andb].
    + destruct (min_Token input) as [token|] eqn:Et; intros [= <- <-]; cbn; split_and!; auto.
    + intros [= <- <-]. cbn. split_and!; auto. intros Hne. destruct Hne. apply H4.
      apply dec_pos_false in Hpos. pose proof (amounts_sum_nonneg _ _ Hq). lra.
  - intros [= <- <-]. cbn. split_and!; auto. left. intros q Hq.
    destruct (proj1 (amounts_sum_defined _ _ Hp) (ex_intro _ q Hq)) as [q' Hq']. by apply (Ht q').
Qed.
End Manifest.

(** The manifest, its totals and its error do not depend on the order of
    the records. *)
Theorem manifest_order_independent `{DecimalOps} records records' token settlement recipient :
  NoDup (map rec_ID records) -> Permutation records records' ->
  BuildManifest (mkManifestInput records token settlement recipient) =
  BuildManifest (mkManifestInput records' token settlement recipient).
Proof.
  intros Hn Hp. unfold BuildManifest, buildManifest. cbn [min_Records min_Token min_Settlement min_Recipient].
  by rewrite (sort_records_unique records records').
Qed.

(** ** Witnesses *)

Section Witnesses.
#[local] Existing Instance DecimalImpl.dec_ops.
#[local] Existing Instance DecimalImpl.dec_laws.

Definition sample_records : list FundingRecord :=
  [mkFundingRecord 9 1704153600 "0.0000004"; mkFundingRecord 7 1704067200 "12.5"; mkFundingRecord 8 1704067200 "1"].
Definition sample_input : ManifestInput :=
  mkManifestInput sample_records (Some (mkToken "USDC" "0x6d1e" 0 8 "USDC:0x6d1e")) "0xaa" "0xbb".

Lemma sample_manifest :
  man_PayoutTotal (fst (BuildManifest sample_input)) = "13.500001" /\ snd (BuildManifest sample_input) = None /\
  map rec_ID (man_Records (fst (BuildManifest sample_input))) = [7; 8; 9].
Proof. vm_compute. done. Qed.

Lemma manifest_is_exact_witness : exists m, BuildManifest sample_input = (m, None) /\
  man_PayoutTotal m = "13.500001" /\ payout_of sample_records "13.500001".
Proof.
  destruct (BuildManifest sample_input) as [m err] eqn:E. destruct sample_manifest as (Hp & He & _).
  rewrite E in Hp, He. cbn [fst snd] in Hp, He. subst err.
  destruct (manifest_is_exact sample_input m None E) as (_ & _ & _ & _ & Hpay & _). rewrite Hp in Hpay.
  exact (ex_intro _ m (conj eq_refl (conj Hp Hpay))).
Defined.

Lemma manifest_order_independent_witness :
  BuildManifest sample_input =
  BuildManifest (mkManifestInput (rev sample_records) (min_Token sample_input) "0xaa" "0xbb").
Proof.
  apply manifest_order_independent.
  - cbn. repeat (apply NoDup_cons; split; [set_solver|]). constructor.
  - apply Permutation_rev.
Defined.
End Witnesses.
