(* ===== verification/Typed.v ===== *)
(** * Every state the payout code saves is well-typed

    The Go types keep every field of a run state in its range; in the model
    this is a theorem ([saved_states_are_storable]): when the dependencies
    answer with values of their Go types, every state handed to the state
    store is [state_ok], the condition under which the store reads back what
    it wrote. *)

From Stdlib Require Import Sorting.Permutation.
From S2P Require Import Prelude DecimalSpec DecimalImpl Prog Model Amount Clock Report ActionValidation Effects Payout Recovery ReportObservation Daily Run PayoutWorld PayoutRuns Envelope EnvelopeFacts Sim PayoutTheorems.

Section Typed.
Context `{DecimalOps}.

(** ** The protocol *)

(** A dependency answers with values of their types. *)
Definition typed_response (o : FundingOp) : FundingResp o -> Prop :=
  match o with
  | ListPending => fun r => forall l, r = Ok l -> Forall record_ok l
  | CanonicalUSDC => fun r => forall t, r = Ok t -> token_ok t
  | PrepareSpotSend _ _ _ _ _ => fun r => forall a, r = Ok a -> prepared_ok a
  | LoadWithMetadata => fun r => forall s meta, r = Ok (Some s, meta) -> state_ok s
  | _ => fun _ => True
  end.

Definition storable_op (o : FundingOp) : Prop := match o with Save s => state_ok s | _ => True end.

Definition typed_protocol : protocol unit :=
  {| allowed _ o := storable_op o; step _ o r _ := typed_response o r |}.

Definition typed (s : Mem) : Prop := state_ok (m_state s).

(** [m] saves only well-typed states and leaves one in memory. *)
Definition keeps {A : Type} (Q : A -> Prop) (m : F A) : Prop :=
  forall s, typed s -> wpM typed_protocol tt s m (fun a s' _ => typed s' /\ Q a).

Notation keeping := (keeps (fun _ => True)).

(** ** Rules *)

Lemma keeps_mono {A : Type} (Q Q' : A -> Prop) (m : F A) : (forall a, Q a -> Q' a) -> keeps Q m -> keeps Q' m.
Proof. intros HQ Hm s Hs. eapply wpM_mono; [apply Hm, Hs|]. intros a s' _ [? ?]. auto. Qed.

Lemma keeps_bind {A B : Type} (Q : A -> Prop) (R : B -> Prop) (m : F A) (f : A -> F B) :
  keeps Q m -> (forall a, Q a -> keeps R (f a)) -> keeps R (m ≫= f).
Proof.
  intros Hm Hf s Hs. apply wpM_bind. eapply wpM_mono; [apply Hm, Hs|]. intros a s' [] [Hs' Ha]. by apply Hf.
Qed.

Lemma keeps_then {A B : Type} (R : B -> Prop) (m : F A) (f : A -> F B) :
  keeping m -> (forall a, keeps R (f a)) -> keeps R (m ≫= f).
Proof. intros Hm Hf. eapply keeps_bind; [exact Hm|]. auto. Qed.

Lemma keeps_ret {A : Type} (Q : A -> Prop) (a : A) : Q a -> keeps Q (mret a).
Proof. by intros Ha s Hs. Qed.

Lemma keeps_quiet {A : Type} (m : F A) : quiet m -> keeping m.
Proof.
  intros Hm s Hs. apply (wpM_quiet_in typed_protocol); [by intros [] []|by intros [] ? ? []|exact Hm|].
  intros a s' E. split; [|done]. unfold typed. by rewrite E.
Qed.

Lemma keeps_op (o : FundingOp) : storable_op o -> keeps (typed_response o) (op o).
Proof. intros Ho s Hs. apply wpM_op; [done|]. by intros r [] Hr. Qed.

Lemma keeps_any_op (o : FundingOp) : storable_op o -> keeping (op o).
Proof. intros Ho. by eapply keeps_mono; [|apply keeps_op]. Qed.

Lemma keeps_state : keeps state_ok the_state.
Proof. by intros s Hs. Qed.

Lemma empty_target_ok : target_ok empty_target.
Proof. split; [reflexivity..| |done]. split; [constructor|done]. Qed.

Lemma keeps_target : keeps target_ok the_target.
Proof.
  intros s Hs. apply wpM_gets. split; [done|]. destruct Hs as [_ Ht _]. unfold first_target.
  destruct Ht; [apply empty_target_ok|done].
Qed.

Lemma keeps_deref {A : Type} (p : option A) : keeps (fun a => p = Some a) (deref p).
Proof.
  destruct p as [a|]; [by apply keeps_ret|].
  apply (keeps_bind (A := Empty_set) (fun _ => True)); [exact (keeps_any_op Panic I)|intros []].
Qed.

Lemma update_target_ok f s : (forall t, target_ok t -> target_ok (f t)) -> state_ok s -> state_ok (update_target f s).
Proof.
  intros Hf [Htr Ht Hm]. split; [done| |done]. simpl. destruct Ht; constructor; auto.
Qed.

Lemma keeps_set_target f : (forall t, target_ok t -> target_ok (f t)) -> keeping (set_target f).
Proof. intros Hf s Hs. split; [|done]. unfold typed. simpl. by apply update_target_ok. Qed.

Lemma keeps_set_state f : (forall s, state_ok s -> state_ok (f s)) -> keeping (set_state f).
Proof. intros Hf s Hs. split; [|done]. unfold typed. simpl. by apply Hf. Qed.

Lemma keeps_on_error m h k : keeping m -> (forall e, keeping (h e)) -> keeping k -> keeping (on_error m h k).
Proof. intros Hm Hh Hk. apply keeps_then; [done|]. intros [e|]; auto. Qed.

(** ** Saving *)

Lemma keeps_saveState : keeping saveState.
Proof.
  unfold saveState. apply (keeps_then (A := Z)); [exact (keeps_any_op Now I)|]. intros now.
  eapply keeps_then; [apply keeps_set_state; by intros s [? ? ?]|]. intros [].
  eapply keeps_bind; [apply keeps_state|]. intros s Hs. by apply keeps_any_op.
Qed.

(** The phases the code writes. *)
Definition plain_phase (phase : Phase) : Prop := phase_of (phase_string phase) = phase.

Lemma phase_ok t phase : plain_phase phase -> target_ok t -> target_ok (t <| tgt_Phase := phase |>).
Proof. by intros Hp [? ? ? ?]. Qed.

Lemma reason_ok t reason : target_ok t -> target_ok (t <| tgt_BlockedReason := reason |>).
Proof. by intros [? ? ? ?]. Qed.

Lemma evidence_ok t evidence : target_ok t -> target_ok (t <| tgt_ConfirmationEvidence := evidence |>).
Proof. by intros [? ? ? ?]. Qed.

Lemma payout_ok t j : journal_ok j -> target_ok t -> target_ok (t <| tgt_Payout := Some j |>).
Proof. intros Hj [? ? ? ?]. split; [done..|]. by intros j' [= <-]. Qed.

Lemma prepared_journal a total : prepared_ok a -> journal_ok (mkJournal a total 1).
Proof. intros Ha. by split. Qed.

Lemma keeps_saveActivePhase phase : plain_phase phase -> keeping (saveActivePhase phase).
Proof.
  intros Hp. unfold saveActivePhase. eapply keeps_bind; [apply keeps_state|]. intros s _.
  destruct (activePayoutTarget s) as [[t|]|e]; [|by apply keeps_ret..].
  apply keeps_then; [|intros []; apply keeps_saveState]. apply keeps_set_target. intros t' Ht'. by apply phase_ok.
Qed.

Lemma keeps_save_both phase : plain_phase phase -> keeping (save_both phase).
Proof. intros Hp. apply keeps_on_error; [by apply keeps_saveActivePhase|intros e; by apply keeps_ret|by apply keeps_saveActivePhase]. Qed.
End Typed.

Notation keeping := (keeps (fun _ => True)).

Create HintDb typed discriminated.
#[export] Hint Opaque saveState saveActivePhase save_both finishRun confirmPayout rejectPayout blockUncertainPayout
  stack_overflow submitPayoutAttempt submitPreparedPayout executePayout observeUncertainPayout runPositive run_prepared
  runActiveTarget completeDatabase observe_payout recoverState on_error op mbind M_bind : typed.
#[export] Hint Resolve keeps_saveState keeps_saveActivePhase keeps_save_both phase_ok reason_ok evidence_ok payout_ok
  empty_target_ok : typed.
#[export] Hint Resolve prepared_journal : typed.
#[export] Hint Extern 1 (prepared_ok ?a) =>
  match goal with Ha : context [Ok a] |- _ => exact (Ha a eq_refl) end : typed.
#[export] Hint Extern 1 (plain_phase _) => reflexivity : typed.
#[export] Hint Extern 1 (keeps _ (op _)) => apply keeps_any_op; exact I : typed.

Ltac keep_leaf := first [assumption|solve [auto 3 with typed]|solve [apply keeps_quiet; solve_quiet]].

(** One step through the body of a function: quiet parts at once, reads with
    what they give, writes with the typing of the field. *)
Ltac keep_step :=
  lazymatch goal with
  | |- keeping (match ?x with _ => _ end) => first [is_var x; destruct x|destruct x eqn:?]
  | |- keeping (op (PrepareSpotSend ?a ?b ?c ?d ?e) ≫= _) =>
      eapply (keeps_bind (A := result PreparedAction)); [exact (keeps_op (PrepareSpotSend a b c d e) I)|intros ? ?]
  | |- keeping (the_target ≫= _) => eapply keeps_bind; [apply keeps_target|intros ? ?]
  | |- keeping (the_state ≫= _) => eapply keeps_bind; [apply keeps_state|intros ? ?]
  | |- keeping (deref _ ≫= _) => eapply keeps_bind; [apply keeps_deref|intros ? ?]
  | |- keeping (set_target _) => apply keeps_set_target; intros ? ?; auto 6 with typed
  | |- keeping (on_error _ _ _) => apply keeps_on_error; [|intros ?|]
  | |- keeping (_ ≫= _) => apply keeps_then; [|intros ?]
  | |- _ => first [keep_leaf|progress cbn beta iota zeta]
  end.
Ltac keep := repeat keep_step.

Section Functions.
Context `{DecimalOps}.
Variable cfg : Config.

Lemma keeps_finishRun : keeping finishRun.
Proof. unfold finishRun. keep. Qed.

Lemma keeps_completeDatabase_body m : keeping m -> keeping (completeDatabase_body cfg m).
Proof. intros Hm. unfold completeDatabase_body. keep. Qed.

Section Ends.
Variable completeDatabase : F (option error).
Hypothesis complete_keeps : keeping completeDatabase.

Lemma keeps_confirmPayout evidence : keeping (confirmPayout completeDatabase evidence).
Proof. unfold confirmPayout. keep. Qed.

Lemma keeps_rejectPayout : keeping (rejectPayout cfg).
Proof. unfold rejectPayout. keep. Qed.

Lemma keeps_blockUncertainPayout reason key : keeping (blockUncertainPayout cfg reason key).
Proof. unfold blockUncertainPayout. keep. Qed.

Lemma keeps_stack_overflow : keeping (stack_overflow (A := option error)).
Proof.
  unfold stack_overflow. apply (keeps_bind (A := Empty_set) (fun _ => True)); [exact (keeps_any_op StackOverflow I)|intros []].
Qed.

#[local] Hint Resolve keeps_confirmPayout keeps_rejectPayout keeps_blockUncertainPayout keeps_stack_overflow : typed.

Lemma keeps_observeUncertainPayout_body replay : keeping replay -> keeping (observeUncertainPayout_body cfg completeDatabase replay).
Proof. intros Hr. unfold observeUncertainPayout_body. keep. Qed.

Lemma attempts_ok j n : int64 n -> journal_ok j -> journal_ok (j <| jrn_SubmitAttempts := n |>).
Proof. by intros Hn [? ?]. Qed.

Section Submitting.
Variable observe : F (option error).
Hypothesis observe_keeps : keeping observe.

Lemma keeps_submitPayoutAttempt replay : keeping (submitPayoutAttempt cfg completeDatabase observe replay).
Proof. unfold submitPayoutAttempt. keep. Qed.

#[local] Hint Resolve keeps_submitPayoutAttempt : typed.

Lemma keeps_replayPreparedPayout_body : keeping (replayPreparedPayout_body cfg completeDatabase observe).
Proof.
  unfold replayPreparedPayout_body. eapply keeps_bind; [apply keeps_target|]. intros t Ht.
  destruct (tgt_Payout t) as [j|] eqn:Ej; [|keep]. pose proof (attempts_ok j 2 ltac:(by split) (gk_payout _ Ht j Ej)).
  keep.
Qed.

Lemma keeps_submitPreparedPayout : keeping (submitPreparedPayout cfg completeDatabase observe).
Proof. unfold submitPreparedPayout. keep. Qed.

#[local] Hint Resolve keeps_submitPreparedPayout : typed.

Lemma keeps_executePayout before amount : keeping (executePayout cfg completeDatabase observe before amount).
Proof. unfold executePayout. keep. Qed.
End Submitting.

Lemma keeps_observeUncertainPayout depth : keeping (observeUncertainPayout cfg completeDatabase depth).
Proof.
  induction depth as [|depth IH]; cbn [observeUncertainPayout];
    by apply keeps_observeUncertainPayout_body, keeps_replayPreparedPayout_body; auto with typed.
Qed.

Lemma keeps_runPositive : keeping (runPositive cfg completeDatabase).
Proof. pose proof keeps_executePayout. pose proof keeps_observeUncertainPayout. unfold runPositive. keep. Qed.

Lemma keeps_run_prepared target : keeping (run_prepared cfg completeDatabase target).
Proof. pose proof keeps_runPositive. unfold run_prepared. keep. Qed.

Lemma keeps_runActiveTarget_body : keeping (runActiveTarget_body cfg completeDatabase).
Proof. pose proof keeps_run_prepared. pose proof keeps_finishRun. unfold runActiveTarget_body. keep. Qed.
End Ends.

Lemma keeps_runActiveTarget depth : keeping (runActiveTarget cfg depth).
Proof.
  induction depth as [|depth IH]; cbn [runActiveTarget];
    apply keeps_runActiveTarget_body, keeps_completeDatabase_body; [apply keeps_stack_overflow|done].
Qed.

Lemma keeps_completeDatabase : keeping (completeDatabase cfg).
Proof. apply keeps_completeDatabase_body, keeps_runActiveTarget. Qed.

Lemma keeps_observe_payout : keeping (observe_payout cfg).
Proof. apply keeps_observeUncertainPayout, keeps_completeDatabase. Qed.

Lemma blocked_ok t : target_ok t ->
  target_ok (if string_is_empty (tgt_BlockedReason t) then t <| tgt_BlockedReason := "funding run is blocked" |> else t).
Proof. intros Ht. destruct (string_is_empty _); auto with typed. Qed.

#[local] Hint Resolve keeps_finishRun keeps_run_prepared keeps_observe_payout keeps_submitPreparedPayout keeps_completeDatabase
  keeps_runActiveTarget blocked_ok : typed.

Lemma keeps_recoverState metadata : keeping (recoverState cfg metadata).
Proof. unfold recoverState. keep. Qed.

(** ** Starting a run *)

Definition trigger_ok (trigger : Trigger) : Prop := trigger_of (trigger_string trigger) = trigger.

Lemma keeps_newState trigger : trigger_ok trigger ->
  keeps (fun r => forall run, r = Ok run -> state_ok run) (newState trigger).
Proof.
  intros Ht. unfold newState, NewRunID.
  apply (keeps_then (A := result string)); [apply (keeps_then (A := result (list Z))); [exact (keeps_any_op (RandRead 8) I)|intros v; by apply keeps_ret]|].
  intros [runID|e]; [|by apply keeps_ret]. apply (keeps_then (A := Z)); [exact (keeps_any_op Now I)|]. intros now.
  apply keeps_ret. intros run Hr.
  assert (run = empty_run <| run_RunID := runID |> <| run_Trigger := trigger |> <| run_UTCDate := FormatDateOnly now |>
    <| run_CreatedAt := now |> <| run_UpdatedAt := now |>) as -> by congruence.
  split; [exact Ht|constructor|reflexivity].
Qed.

Lemma new_targets_ok records settlement recipient m err s :
  Forall record_ok records -> buildManifest (mkManifestInput records None settlement recipient) false = (m, err) ->
  state_ok s -> state_ok (s <| run_Targets := [mkTarget PayoutKindReferral PhasePrepared m None "" ""] |>).
Proof.
  intros Hr Hm [? ? ?]. split; [done| |done]. constructor; [|constructor]. split; [reflexivity..| |done].
  pose proof (buildManifest_records _ _ _ _ Hm) as Hp. simpl in Hp. split.
  - cbn. by rewrite Hp.
  - intros t Et. cbn in Et. unfold buildManifest in Hm. revert Hm. cbn. repeat case_match; by intros [= <- _].
Qed.

Lemma token_set_ok token t : token_ok token -> target_ok t ->
  target_ok (t <| tgt_Manifest ::= (fun m => m <| man_Token := Some token |>) |>).
Proof. intros Ht [? ? [? ?] ?]. split; [done..| |done]. split; [done|]. by intros t' [= <-]. Qed.

Lemma keeps_start_run total payout : keeping (start_run cfg total payout).
Proof. unfold start_run. keep. Qed.

Lemma keeps_runNew trigger : trigger_ok trigger -> keeping (runNew cfg trigger).
Proof.
  intros Htr. unfold runNew. pose proof keeps_start_run as Hstart.
  apply (keeps_bind (A := result (list FundingRecord)) _ _ _ _ (keeps_op ListPending I)). intros pending Hp. cbn in Hp.
  destruct pending as [[|x records]|e]; [keep| |keep]. specialize (Hp _ eq_refl).
  apply (keeps_bind _ _ _ _ (keeps_newState trigger Htr)). intros [run|e] Hrun; [|keep]. specialize (Hrun _ eq_refl).
  apply keeps_then; [by apply keeps_set_state|]. intros []. keep_step; [keep|].
  destruct (buildManifest _ false) as [manifest err] eqn:Em.
  apply keeps_then; [apply keeps_set_state; intros s Hs; by eapply new_targets_ok|]. intros [].
  keep_step; [keep|]. destruct err as [err|]; [keep|].
  destruct (decimalFromString _) as [payout|e]; [|keep].
  apply keeps_then; [|intros [e|]; [keep|apply Hstart]].
  destruct (dec_pos payout); [|keep].
  apply (keeps_bind (A := result Token) _ _ _ _ (keeps_op CanonicalUSDC I)). intros [token|e] Ht; [|keep].
  apply keeps_then; [|intros []; keep]. apply keeps_set_target. intros t. apply token_set_ok. by apply Ht.
Qed.

(** ** The entry points *)

Lemma keeps_loadCurrent :
  keeps (fun r => forall s meta, r = Ok (Some s, meta) -> state_ok s) (loadCurrent cfg).
Proof.
  unfold loadCurrent.
  apply (keeps_bind (A := result (option RunState * StateLoadMetadata)) _ _ _ _ (keeps_op LoadWithMetadata I)).
  intros [[current meta]|e] Hl; [|by apply keeps_ret]. apply keeps_then; [keep|]. intros []. by apply keeps_ret.
Qed.

Lemma keeps_run_body trigger : trigger_ok trigger -> keeping (run_body cfg trigger).
Proof.
  intros Ht. unfold run_body. pose proof keeps_recoverState. pose proof (keeps_runNew trigger Ht).
  apply (keeps_bind _ _ _ _ keeps_loadCurrent). intros loaded Hl. keep_step; [keep|]. keep_step; [keep|].
  destruct loaded as [[[current|] meta]|e]; [|keep|keep]. pose proof (Hl _ _ eq_refl).
  apply keeps_then; [by apply keeps_set_state|]. intros []. keep.
Qed.

Lemma keeps_run trigger execution : trigger_ok trigger -> keeping (run cfg trigger execution).
Proof. intros Ht. pose proof (keeps_run_body trigger Ht). unfold run. keep. Qed.

Lemma keeps_Recover : keeping (Recover cfg).
Proof.
  unfold Recover. pose proof keeps_recoverState.
  apply (keeps_bind _ _ _ _ keeps_loadCurrent). intros [[[current|] meta]|e] Hl; [|keep|keep].
  pose proof (Hl _ _ eq_refl). apply (keeps_then (A := Z)); [exact (keeps_any_op Now I)|]. intros now.
  apply keeps_then; [by apply keeps_set_state|]. intros []. keep.
Qed.

Definition entry_ok (e : entry_point) : Prop :=
  match e with EntryRun trigger | EntryScheduled trigger _ _ => trigger_ok trigger | EntryRecover => True end.

Lemma keeps_entry e : entry_ok e -> keeping (entry cfg e).
Proof. destruct e; simpl; intros He; [by apply keeps_run..|apply keeps_Recover]. Qed.
End Functions.

(** C24: as long as the dependencies answer with values of their Go types,
    every state the payout code hands to the state store is well-typed - its
    record ids, nonces and times fit their integers, its phase, kind and
    trigger are spelled as they are written, its requests are JSON values - so
    the store reads it back exactly. *)
Theorem saved_states_are_storable `{DecimalOps} cfg e mem tr w' s k :
  entry_ok e -> state_ok (m_state mem) ->
  partial typed_protocol tt (entry cfg e mem) tr w' (Call (Save s) k) ->
  state_ok s /\ forall data, marshalEnvelope s = Ok data -> unmarshalEnvelope data = Ok s.
Proof.
  intros He Hm Hp. assert (state_ok s) as Hs.
  { exact (partial_allowed typed_protocol _ _ _ _ (Save s) k _ Hp (keeps_entry cfg e He mem Hm)). }
  split; [done|]. intros data (text & Ht & ->)%marshalEnvelope_text. pose proof (decodes_state s text Hs Ht) as Hd.
  rewrite unmarshalEnvelope_text by (by eapply decodes_readable). destruct Hd as [_ ->]. by rewrite Ht, String.eqb_refl.
Qed.

(** ** Witness *)

Section Witness.
#[local] Existing Instance DecimalImpl.dec_ops.

(** Dependencies that answer up to the first save. *)
Definition first_save_env (_ : unit) (o : FundingOp) : option (FundingResp o * unit) :=
  match o return option (FundingResp o * unit) with
  | Now => Some (20000 * Day, tt)
  | LoadWithMetadata => Some (Ok (None, empty_metadata), tt)
  | LoadDailyConsolidation _ => Some (Ok None, tt)
  | ListPending => Some (Ok [Scenario.record], tt)
  | RandRead _ => Some (Ok [1; 2; 3; 4; 5; 6; 7; 8], tt)
  | CanonicalUSDC => Some (Ok Scenario.token, tt)
  | _ => None
  end.

Lemma first_save_typed u o r u' : first_save_env u o = Some (r, u') -> step typed_protocol u o r u'.
Proof.
  destruct o; try discriminate; intros Hr; cbn; try exact I; cbn in Hr; injection Hr as <- _.
  - intros t [= <-]. by split.
  - intros l [= <-]. constructor; [by split|constructor].
  - by intros s meta [=].
Qed.

Definition first_save := exec first_save_env tt (entry Scenario.cfg Scenario.scheduled Scenario.mem).

Lemma first_save_reached :
  match head_op (fst first_save) with
  | Some (Save s) => String.eqb (man_PayoutTotal (tgt_Manifest (first_target s))) "1.5"
  | _ => false
  end = true.
Proof. vm_compute. reflexivity. Qed.

Lemma saved_states_are_storable_witness : exists s,
  man_PayoutTotal (tgt_Manifest (first_target s)) = "1.5" /\ state_ok s.
Proof.
  pose proof first_save_reached as Hr.
  pose proof (exec_partial typed_protocol (fun _ => tt) first_save_env
    (fun h o r h' E => first_save_typed h o r h' E) (entry Scenario.cfg Scenario.scheduled Scenario.mem) tt) as Hp.
  fold first_save in Hp. destruct (fst first_save) as [a|o k]; [discriminate Hr|].
  cbn [head_op] in Hr. destruct o; try discriminate Hr.
  assert (state_ok (m_state Scenario.mem)) as Hm by (split; [reflexivity|constructor|reflexivity]).
  destruct (saved_states_are_storable Scenario.cfg Scenario.scheduled Scenario.mem _ _ state k eq_refl Hm Hp) as [Hs _].
  exact (ex_intro _ state (conj (proj1 (String.eqb_eq _ _) Hr) Hs)).
Defined.
End Witness.
