(* ===== verification/Text.v ===== *)
(** * Runes

    What the source uses of [unicode/utf8], [unicode] and [strings] beyond
    single bytes: the division of a byte string into UTF-8 encodings and
    invalid bytes, [strings.Map], [strings.Fields] and [utf8.ValidString].
    A rune is its encoding. *)

From Stdlib Require Import ZifyBool.
From S2P Require Import Prelude.

Inductive rune : Type :=
| Rune (bytes : string)
| BadByte (c : ascii).

Definition rune_text (r : rune) : string := match r with Rune s => s | BadByte c => String c "" end.

Definition byte_code (c : ascii) : Z := Z.of_nat (nat_of_ascii c).
Definition in_range (lo hi : Z) (c : ascii) : bool := (lo <=? byte_code c) && (byte_code c <=? hi).
Definition continuation : ascii -> bool := in_range 128 191.

(** [utf8.DecodeRuneInString]: the rune at the head of [s], and the rest. *)
Definition decode_rune (s : string) : option (rune * string) :=
  match s with
  | EmptyString => None
  | String a r1 =>
      let bad := Some (BadByte a, r1) in
      if in_range 0 127 a then Some (Rune (String a ""), r1)
      else match r1 with
      | EmptyString => bad
      | String b r2 =>
          if in_range 194 223 a then if continuation b then Some (Rune (String a (String b "")), r2) else bad
          else match r2 with
          | EmptyString => bad
          | String c r3 =>
              if in_range 224 239 a then
                if in_range (if byte_code a =? 224 then 160 else 128) (if byte_code a =? 237 then 159 else 191) b && continuation c
                then Some (Rune (String a (String b (String c ""))), r3) else bad
              else match r3 with
              | EmptyString => bad
              | String d r4 =>
                  if in_range 240 244 a &&
                     in_range (if byte_code a =? 240 then 144 else 128) (if byte_code a =? 244 then 143 else 191) b &&
                     continuation c && continuation d
                  then Some (Rune (String a (String b (String c (String d "")))), r4) else bad
              end
          end
      end
  end.

Fixpoint runes_of (fuel : nat) (s : string) : list rune :=
  match fuel with
  | O => []
  | S fuel => match decode_rune s with Some (r, rest) => r :: runes_of fuel rest | None => [] end
  end.
Definition runes (s : string) : list rune := runes_of (String.length s) s.

Definition text_of (l : list rune) : string := fold_right (fun r s => rune_text r +:+ s) "" l.

(** [utf8.ValidString]. *)
Definition ValidString (s : string) : bool := forallb (fun r => match r with Rune _ => true | BadByte _ => false end) (runes s).

(** The parts of [unicode] that depend on its tables: runes beyond ASCII. *)
Class UnicodeTables : Type := {
  letter_or_digit : string -> bool;
  lower_rune : string -> string;
  upper_case_rune : string -> bool;
  lower_case_rune : string -> bool;
  printable_rune : string -> bool
}.

(** Tables for texts in ASCII, for concrete inputs. *)
Definition ascii_tables : UnicodeTables := {|
  letter_or_digit := fun _ => false;
  lower_rune := fun s => s;
  upper_case_rune := fun _ => false;
  lower_case_rune := fun _ => false;
  printable_rune := fun _ => false
|}.

Definition is_upper_ascii : ascii -> bool := in_range 65 90.
Definition is_lower_ascii : ascii -> bool := in_range 97 122.
Definition is_digit_ascii : ascii -> bool := in_range 48 57.

(** [unicode.IsUpper], [unicode.IsLower] and [unicode.ToLower]. *)
Definition IsUpper `{UnicodeTables} (s : string) : bool :=
  match s with String c EmptyString => is_upper_ascii c | _ => upper_case_rune s end.
Definition IsLower `{UnicodeTables} (s : string) : bool :=
  match s with String c EmptyString => is_lower_ascii c | _ => lower_case_rune s end.
Definition ToLowerRune `{UnicodeTables} (s : string) : string :=
  match s with String c EmptyString => String (lower_ascii c) "" | _ => lower_rune s end.

(** U+FFFD, which [range] and [strings.Map] put in the place of an invalid
    byte. *)
Definition replacement : string := bytes_of [239; 191; 189].

(** The rune [range] and [[]rune] see. *)
Definition rune_value (r : rune) : string := match r with Rune s => s | BadByte _ => replacement end.

(** [unicode.IsControl]: below U+0020 and from U+007F to U+009F. *)
Definition is_control (s : string) : bool :=
  match s with
  | String a EmptyString => in_range 0 31 a || in_range 127 127 a
  | String a (String b EmptyString) => in_range 194 194 a && in_range 128 159 b
  | _ => false
  end.

(** [unicode.IsSpace] on a rune. *)
Definition is_space (s : string) : bool := existsb (String.eqb s) space_runes.

(** [strings.Map(f, s)]. *)
Definition map_runes (f : string -> string) (s : string) : string :=
  text_of (map (fun r => match r with Rune s => Rune (f s) | BadByte _ => Rune (f replacement) end) (runes s)).

(** [strings.Fields]: the words between white space, then
    [strings.Join(words, sep)]. *)
Fixpoint fields_of (l : list rune) (word : string) : list string :=
  match l with
  | [] => if string_is_empty word then [] else [word]
  | r :: l =>
      if match r with Rune s => is_space s | BadByte _ => false end
      then if string_is_empty word then fields_of l "" else word :: fields_of l ""
      else fields_of l (word +:+ rune_text r)
  end.
Definition Fields (s : string) : list string := fields_of (runes s) "".

Fixpoint Join_strings (sep : string) (l : list string) : string :=
  match l with [] => "" | [x] => x | x :: r => x +:+ sep +:+ Join_strings sep r end.

(** The first [n] bytes, and the rest. *)
Definition take_bytes (n : nat) (s : string) : string := String.substring 0 n s.
Fixpoint drop_bytes (n : nat) (s : string) : string :=
  match n, s with S n, String _ r => drop_bytes n r | _, _ => s end.

(** [strings.Contains]. *)
Fixpoint Contains (s sub : string) : bool :=
  match strip sub s with
  | Some _ => true
  | None => match s with EmptyString => false | String _ r => Contains r sub end
  end.

(** ** Facts *)

Lemma decode_rune_spec s r rest : decode_rune s = Some (r, rest) ->
  s = rune_text r +:+ rest /\ (String.length rest < String.length s)%nat.
Proof.
  destruct s as [|a s]; [done|]. cbn [decode_rune]. cbv zeta.
  destruct s as [|b [|c [|d s]]]; repeat case_match; intros [= <- <-]; (split; [reflexivity|cbn [String.length]; lia]).
Qed.

Lemma decode_rune_some c s : is_Some (decode_rune (String c s)).
Proof. cbn [decode_rune]. cbv zeta. destruct s as [|b [|d [|e s]]]; repeat case_match; eauto. Qed.

Lemma runes_of_fuel fuel fuel' s : (String.length s <= fuel)%nat -> (String.length s <= fuel')%nat ->
  runes_of fuel s = runes_of fuel' s.
Proof.
  revert fuel' s. induction fuel as [|fuel IH]; intros fuel' s Hf Hf'.
  - destruct s; [|simpl in Hf; lia]. by destruct fuel'.
  - destruct s as [|c s]; [by destruct fuel'|]. destruct fuel' as [|fuel']; [simpl in Hf'; lia|]. cbn [runes_of].
    destruct (decode_rune (String c s)) as [[r rest]|] eqn:E; [|done]. apply decode_rune_spec in E as [_ E].
    f_equal. apply IH; simpl in *; lia.
Qed.

Lemma runes_decode s r rest : decode_rune s = Some (r, rest) -> runes s = r :: runes rest.
Proof.
  intros E. pose proof (decode_rune_spec _ _ _ E) as [_ Hl]. unfold runes. destruct s as [|c s]; [done|].
  cbn [String.length runes_of]. rewrite E. f_equal. apply runes_of_fuel; simpl in *; lia.
Qed.

(** The runes make up the text. *)
Lemma text_runes s : text_of (runes s) = s.
Proof.
  induction s as [s IH] using (induction_ltof1 _ String.length). destruct s as [|c s]; [done|].
  destruct (decode_rune_some c s) as [[r rest] E]. rewrite (runes_decode _ _ _ E).
  apply decode_rune_spec in E as [E Hl]. cbn [text_of fold_right]. fold (text_of (runes rest)).
  by rewrite (IH rest Hl), E.
Qed.

(** * Clean texts

    A text is clean when it is valid UTF-8 without control characters.  What
    the excerpts do - mapping runes, splitting into words, cutting at a byte
    and going back to a valid text, trimming - keeps texts clean. *)

(** *** Encodings of single runes *)

Definition scalar (r : string) : Prop := decode_rune r = Some (Rune r, "").

Lemma scalar_app r t : scalar r -> decode_rune (r +:+ t) = Some (Rune r, t).
Proof.
  unfold scalar. destruct r as [|a [|b [|c [|d [|e r]]]]]; try done; cbn [String.append decode_rune]; cbv zeta; intros Hr;
    repeat case_match; try congruence; try (destruct t; congruence).
Qed.

Lemma scalar_decode s r rest : decode_rune s = Some (Rune r, rest) -> scalar r.
Proof.
  unfold scalar. destruct s as [|a s]; [done|]. cbn [decode_rune]. cbv zeta.
  destruct s as [|b [|c [|d s]]]; intros Hd; repeat (case_match; try congruence);
    injection Hd as <- <-; cbn [decode_rune]; cbv zeta;
    repeat match goal with H : _ = _ |- _ => rewrite H; clear H end; reflexivity.
Qed.

Lemma scalar_nonempty r : scalar r -> r <> "".
Proof. by intros H ->. Qed.

(** A later byte of a rune continues it; the first one does not. *)
Lemma scalar_bytes r : scalar r -> exists a s, r = String a s /\ continuation a = false /\
  forall p c q, s = p +:+ String c q -> continuation c = true.
Proof.
  unfold scalar. destruct r as [|a s]; [done|]. intros Hd. exists a, s. split; [done|]. revert Hd. cbn [decode_rune]. cbv zeta.
  unfold continuation.
  destruct s as [|b [|c [|d [|e s]]]]; intros Hd; repeat (case_match; try congruence);
    (split; [unfold in_range in *; lia|]); intros [|p1 [|p2 [|p3 [|? ?]]]] x q Hx; simpl in Hx;
    try discriminate; first [assert (x = b) as -> by congruence|assert (x = c) as -> by congruence|assert (x = d) as -> by congruence];
    unfold in_range in *; repeat case_match; lia.
Qed.

(** *** Texts made of runes *)

Definition utf8 (l : list string) : string := text_of (map Rune l).

Lemma utf8_cons r l : utf8 (r :: l) = r +:+ utf8 l.
Proof. done. Qed.

Lemma utf8_app l l' : utf8 (l ++ l') = utf8 l +:+ utf8 l'.
Proof. induction l as [|r l IH]; [done|]. cbn [app]. by rewrite !utf8_cons, IH, string_app_assoc. Qed.

Lemma runes_app_valid l t : Forall scalar l -> runes (utf8 l +:+ t) = map Rune l ++ runes t.
Proof.
  induction 1 as [|r l Hr Hl IH]; [done|]. rewrite utf8_cons, string_app_assoc.
  rewrite (runes_decode _ _ _ (scalar_app r _ Hr)). cbn [map app]. by rewrite IH.
Qed.

Lemma runes_utf8 l : Forall scalar l -> runes (utf8 l) = map Rune l.
Proof. intros Hl. rewrite <- (string_app_nil_r (utf8 l)), runes_app_valid by done. by rewrite app_nil_r. Qed.

(** A valid text is made of runes. *)
Lemma runes_scalar s : Forall (fun r => match r with Rune b => scalar b | BadByte _ => True end) (runes s).
Proof.
  induction s as [s IH] using (induction_ltof1 _ String.length). destruct s as [|c s]; [constructor|].
  destruct (decode_rune_some c s) as [[r rest] E]. rewrite (runes_decode _ _ _ E). constructor.
  - destruct r; [by eapply scalar_decode|done].
  - apply decode_rune_spec in E as [_ El]. by apply IH.
Qed.

Lemma ValidString_utf8 s : ValidString s = true -> exists l, s = utf8 l /\ Forall scalar l.
Proof.
  intros Hv. exists (map rune_value (runes s)). unfold ValidString in Hv. rewrite forallb_forall in Hv.
  pose proof (runes_scalar s) as Hs. rewrite Forall_forall in Hs.
  assert (map Rune (map rune_value (runes s)) = runes s) as E.
  { rewrite map_map. rewrite <- map_id. apply map_ext_in. intros [b|c] Hr; [done|]. specialize (Hv _ Hr). done. }
  split; [unfold utf8; by rewrite E, text_runes|]. apply Forall_map, Forall_forall. intros r Hr. specialize (Hs r Hr).
  destruct r; [done|]. apply list_elem_of_In in Hr. by specialize (Hv _ Hr).
Qed.

(** Runes at the ends of a text. *)
Lemma utf8_prefix w q l : scalar w -> Forall scalar l -> utf8 l = w +:+ q -> exists l', l = w :: l' /\ q = utf8 l'.
Proof.
  intros Hw Hl E. pose proof (scalar_app w q Hw) as Hd. rewrite <- E in Hd. destruct Hl as [|r l Hr Hl]; [done|].
  rewrite utf8_cons, (scalar_app _ _ Hr) in Hd. exists l. split; congruence.
Qed.

Lemma string_app_split a b c d : a +:+ b = c +:+ d ->
  (exists x, c = a +:+ x /\ b = x +:+ d) \/ (exists x, a = c +:+ x /\ d = x +:+ b).
Proof.
  revert c. induction a as [|x a IH]; intros c E; [left; by exists c|].
  destruct c as [|y c]; [right; by exists (String x a)|]. injection E as -> E.
  destruct (IH c E) as [(z & -> & ->)|(z & -> & ->)]; [left|right]; by exists z.
Qed.

Lemma utf8_suffix w p l : scalar w -> Forall scalar l -> utf8 l = p +:+ w -> exists l', l = l' ++ [w] /\ p = utf8 l'.
Proof.
  intros Hw Hl. revert p. induction Hl as [|r l Hr Hl IH]; intros p E.
  { destruct p; [|done]. cbn in E. subst w. done. }
  rewrite utf8_cons in E. destruct (string_app_split _ _ _ _ E) as [(x & -> & Ex)|(x & -> & Ex)].
  - destruct (IH x Ex) as (l' & -> & ->). by exists (r :: l').
  - destruct p as [|c p].
    + cbn in Ex. rewrite Ex in Hw. unfold scalar in Hw. rewrite (scalar_app _ _ Hr) in Hw. assert (utf8 l = "") as El by congruence.
      destruct l as [|r' l]; [|exfalso; apply Forall_cons in Hl as [Hr' _]; apply scalar_nonempty in Hr'; by destruct r'].
      exists []. split; [|done]. cbn. rewrite El in Ex. by rewrite Ex, string_app_nil_r.
    + destruct (scalar_bytes _ Hw) as (a & s & -> & Ha & _). destruct x as [|y x].
      * cbn in Ex. rewrite string_app_nil_r in Hr. destruct (IH "" (eq_sym Ex)) as (l' & -> & El').
        exists (String c p :: l'). by rewrite utf8_cons, <- El', string_app_nil_r.
      * injection Ex as -> Ex. destruct (scalar_bytes _ Hr) as (b & t & E' & _ & Hc). injection E' as -> <-.
        rewrite (Hc p y x eq_refl) in Ha. done.
Qed.

(** ** Clean texts *)

Definition plain_rune (r : string) : Prop := scalar r /\ is_control r = false.
Definition clean (s : string) : Prop := exists l, s = utf8 l /\ Forall plain_rune l.

Lemma plain_scalar l : Forall plain_rune l -> Forall scalar l.
Proof. intros H. eapply Forall_impl; [exact H|]. by intros r [? _]. Qed.

(** What a clean text is: valid UTF-8 without a control character. *)
Lemma clean_spec s : clean s <-> ValidString s = true /\
  Forall (fun r => is_control (rune_value r) = false) (runes s).
Proof.
  split.
  - intros (l & -> & Hl). pose proof (plain_scalar _ Hl) as Hs. unfold ValidString. rewrite !(runes_utf8 _ Hs). split.
    + apply forallb_forall. by intros r (b & <- & _)%in_map_iff.
    + apply Forall_map. eapply Forall_impl; [exact Hl|]. by intros r [_ ?].
  - intros [(l & -> & Hs)%ValidString_utf8 Hc]. exists l. split; [done|]. rewrite (runes_utf8 _ Hs), Forall_map in Hc.
    rewrite Forall_forall in *. intros r Hr. split; [by apply Hs|by apply (Hc r)].
Qed.

Lemma clean_app s t : clean s -> clean t -> clean (s +:+ t).
Proof. intros (l & -> & Hl) (l' & -> & Hl'). exists (l ++ l'). split; [by rewrite utf8_app|]. by apply Forall_app. Qed.

Lemma clean_empty : clean "".
Proof. by exists []. Qed.

(** The part of a clean text before a place where it can be cut. *)
Lemma clean_cut p q : clean (p +:+ q) -> ValidString p = true -> clean p.
Proof.
  intros (l & E & Hl) (l1 & -> & H1)%ValidString_utf8. exists l1. split; [done|].
  assert (map Rune l = map Rune l1 ++ runes q) as El by (rewrite <- (runes_utf8 _ (plain_scalar _ Hl)), <- E; by apply runes_app_valid).
  clear E. revert l El Hl H1. induction l1 as [|r l1 IH]; intros l El Hl H1; [done|]. destruct l as [|r' l]; [done|].
  cbn in El. assert (r' = r) as -> by congruence. apply Forall_cons in Hl as [? ?]. apply Forall_cons in H1 as [? ?].
  constructor; [done|]. apply (IH l); [congruence|done|done].
Qed.

Lemma space_runes_scalar : Forall scalar space_runes.
Proof. unfold scalar. repeat (constructor; [vm_compute; reflexivity|]). constructor. Qed.

Lemma clean_trim_start fuel s : clean s -> clean (trim_start space_runes fuel s).
Proof.
  revert s. induction fuel as [|fuel IH]; intros s Hs; [done|]. cbn [trim_start].
  destruct (first_strip space_runes s) as [r|] eqn:E; [|done]. apply IH. apply first_strip_some in E as (p & Hp & ->).
  destruct Hs as (l & E & Hl). pose proof space_runes_scalar as Hsp. rewrite Forall_forall in Hsp.
  destruct (utf8_prefix p r l (Hsp _ Hp) (plain_scalar _ Hl) (eq_sym E)) as (l' & -> & ->). exists l'. split; [done|].
  by apply Forall_cons in Hl as [_ ?].
Qed.

Lemma clean_trim_end fuel s : clean (String.rev s) -> clean (String.rev (trim_start (map String.rev space_runes) fuel s)).
Proof.
  revert s. induction fuel as [|fuel IH]; intros s Hs; [done|]. cbn [trim_start].
  destruct (first_strip (map String.rev space_runes) s) as [r|] eqn:E; [|done]. apply IH.
  apply first_strip_some in E as (p & Hp & ->). apply list_elem_of_fmap in Hp as (w & -> & Hw).
  rewrite string_rev_app, string_rev_involutive in Hs.
  destruct Hs as (l & E & Hl). pose proof space_runes_scalar as Hsp. rewrite Forall_forall in Hsp.
  destruct (utf8_suffix w _ l (Hsp _ Hw) (plain_scalar _ Hl) (eq_sym E)) as (l' & -> & ->). exists l'. split; [done|].
  by apply Forall_app in Hl as [? _].
Qed.

Lemma clean_TrimSpace s : clean s -> clean (TrimSpace s).
Proof.
  intros Hs. apply (clean_trim_start (String.length s)) in Hs. apply clean_trim_end.
  by rewrite string_rev_involutive.
Qed.

(** *** Mapping and splitting *)

Lemma clean_map_runes f s : (forall r, scalar r -> plain_rune (f r)) -> clean (map_runes f s).
Proof.
  intros Hf. pose proof (runes_scalar s) as Hs. exists (map (fun r => f (rune_value r)) (runes s)). split.
  - unfold map_runes, utf8. rewrite map_map. f_equal. apply map_ext. by intros [|].
  - apply Forall_map. eapply Forall_impl; [exact Hs|]. intros [b|c] Hb; apply Hf; [done|]. reflexivity.
Qed.

Lemma clean_fields l word : Forall plain_rune l -> clean word -> Forall clean (fields_of (map Rune l) word).
Proof.
  intros Hl. revert word. induction Hl as [|r l Hr Hl IH]; intros word Hw; cbn [map fields_of].
  - destruct (string_is_empty word); by repeat constructor.
  - destruct (is_space r).
    + destruct (string_is_empty word); [by apply IH, clean_empty|]. constructor; [done|]. by apply IH, clean_empty.
    + apply IH, clean_app; [done|]. exists [r]. split; [cbn; by rewrite string_app_nil_r|]. by constructor.
Qed.

Lemma clean_Fields s : clean s -> Forall clean (Fields s).
Proof.
  intros (l & -> & Hl). unfold Fields. rewrite (runes_utf8 _ (plain_scalar _ Hl)). by apply clean_fields, clean_empty.
Qed.

Lemma clean_Join sep l : clean sep -> Forall clean l -> clean (Join_strings sep l).
Proof.
  intros Hsep Hl. induction Hl as [|x l Hx Hl IH]; [by apply clean_empty|]. cbn [Join_strings].
  destruct l; [done|]. apply clean_app; [done|]. by apply clean_app.
Qed.
