(* ===== verification/Regexp.v ===== *)
(** * Regular expressions

    What the source uses of [regexp]: leftmost-first matching of UTF-8 text.
    An expression is matched by backtracking in the order of preference that
    the documentation of the package fixes (the left alternative first,
    repetition greedy), which is the order a search finds its matches in.
    Classes are predicates on runes; [fold] is the flag [(?i)], under which the
    letters k and s also stand for U+212A and U+017F.

    The theorems say that the search is exact: a match that is found is one
    ([match_here_sound]), and a match that exists at a place is not missed
    ([match_here_complete]). *)

From S2P Require Import Prelude Text.

Inductive regex : Type :=
| Empty
| Boundary
| Class_of (p : string -> bool)
| Seq (a b : regex)
| Alt (a b : regex)
| Star (a : regex)
| Capture (n : nat) (a : regex).

Definition Plus (a : regex) : regex := Seq a (Star a).
Definition Optional (a : regex) : regex := Alt a Empty.
Definition seq_of (l : list regex) : regex := foldr Seq Empty l.
Fixpoint alt_of (a : regex) (l : list regex) : regex :=
  match l with [] => a | b :: l => Alt a (alt_of b l) end.

(** *** Classes *)

Definition ascii_class (p : ascii -> bool) (s : string) : bool :=
  match s with String c EmptyString => p c | _ => false end.
Definition negated (p : string -> bool) (s : string) : bool := negb (p s).
Definition one_of (l : list Z) (c : ascii) : bool := existsb (Z.eqb (byte_code c)) l.

(** The class [\s], and [.], which is any rune but a newline. *)
Definition space_class : string -> bool := ascii_class (one_of [9; 10; 12; 13; 32]).
Definition any_but_newline : string -> bool := negated (ascii_class (one_of [10])).

Definition upper_ascii (c : ascii) : ascii :=
  if in_range 97 122 c then ascii_of_nat (nat_of_ascii c - 32) else c.
Definition kelvin_sign : string := bytes_of [226; 132; 170].
Definition long_s : string := bytes_of [197; 191].

(** A class under [(?i)]. *)
Definition fold (p : ascii -> bool) (s : string) : bool :=
  match s with
  | String c EmptyString => p c || p (lower_ascii c) || p (upper_ascii c)
  | _ => ((p "k"%char || p "K"%char) && String.eqb s kelvin_sign) || ((p "s"%char || p "S"%char) && String.eqb s long_s)
  end.

(** Literal text, and literal text under [(?i)]. *)
Fixpoint literal (s : string) : regex :=
  match s with EmptyString => Empty | String c s => Seq (Class_of (ascii_class (Ascii.eqb c))) (literal s) end.
Fixpoint folded (s : string) : regex :=
  match s with EmptyString => Empty | String c s => Seq (Class_of (fold (Ascii.eqb c))) (folded s) end.

(** ** Matching *)

(** A place in a text: the rune before it, the runes after it and their
    number. *)
Record cursor : Type := mkCursor { cu_prev : option rune; cu_rest : list rune; cu_pos : nat }.

Definition is_word (r : option rune) : bool :=
  match r with
  | Some r => ascii_class (fun c => is_upper_ascii c || is_lower_ascii c || is_digit_ascii c || Ascii.eqb c "_") (rune_value r)
  | None => false
  end.

Definition at_boundary (c : cursor) : bool := xorb (is_word (cu_prev c)) (is_word (head (cu_rest c))).

(** The groups that took part in a match, the latest first. *)
Definition captures : Type := list (nat * (nat * nat)).

Section Matching.
Context {R : Type}.

(** The repetitions of a [Star]: each consumes something. *)
Definition repetitions (step : cursor -> captures -> (cursor -> captures -> option R) -> option R)
    (k : cursor -> captures -> option R) : nat -> cursor -> captures -> option R :=
  fix iterate (n : nat) (c : cursor) (caps : captures) : option R :=
  match n with
  | O => k c caps
  | S n =>
      match step c caps (fun c' caps' => if (cu_pos c <? cu_pos c')%nat then iterate n c' caps' else None) with
      | Some x => Some x
      | None => k c caps
      end
  end.

Fixpoint match_here (r : regex) (c : cursor) (caps : captures) (k : cursor -> captures -> option R) : option R :=
  match r with
  | Empty => k c caps
  | Boundary => if at_boundary c then k c caps else None
  | Class_of p =>
      match cu_rest c with
      | x :: rest => if p (rune_value x) then k (mkCursor (Some x) rest (S (cu_pos c))) caps else None
      | [] => None
      end
  | Seq a b => match_here a c caps (fun c caps => match_here b c caps k)
  | Alt a b => match match_here a c caps k with Some x => Some x | None => match_here b c caps k end
  | Star a => repetitions (match_here a) k (length (cu_rest c)) c caps
  | Capture n a => match_here a c caps (fun c' caps' => k c' ((n, (cu_pos c, cu_pos c')) :: caps'))
  end.
End Matching.

(** A match: its start, its end and its groups. *)
Record found : Type := mkFound { fo_start : nat; fo_end : nat; fo_caps : captures }.

Definition match_at (r : regex) (c : cursor) : option found :=
  match_here r c [] (fun c' caps => Some (mkFound (cu_pos c) (cu_pos c') caps)).

(** The leftmost match from a place on. *)
Fixpoint search (r : regex) (prev : option rune) (rest : list rune) (pos : nat) : option found :=
  match match_at r (mkCursor prev rest pos) with
  | Some m => Some m
  | None => match rest with [] => None | x :: rest => search r (Some x) rest (S pos) end
  end.

Definition rune_slice (l : list rune) (i j : nat) : list rune := take (j - i) (drop i l).

(** [FindAllStringSubmatchIndex(text, -1)], for an expression that does not
    match the empty text: successive matches do not overlap. *)
Fixpoint find_all (fuel : nat) (r : regex) (text : list rune) (pos : nat) : list found :=
  match fuel with
  | O => []
  | S fuel =>
      match search r (last (take pos text)) (drop pos text) pos with
      | None => []
      | Some m => m :: find_all fuel r text (fo_end m)
      end
  end.
Definition FindAll (r : regex) (text : list rune) : list found := find_all (S (length text)) r text 0.

(** The text of a group; a group that took no part is empty. *)
Definition group (text : list rune) (m : found) (n : nat) : list rune :=
  match list_find (fun g => fst g = n) (fo_caps m) with
  | Some (_, (_, (i, j))) => rune_slice text i j
  | None => []
  end.

(** Parts of a text replaced: [(start, end, replacement)], in order. *)
Fixpoint splice (text : list rune) (last : nat) (parts : list (nat * nat * string)) : string :=
  match parts with
  | [] => text_of (drop last text)
  | (i, j, new) :: parts => text_of (rune_slice text last i) +:+ new +:+ splice text j parts
  end.

(** [ReplaceAllString], the template being a function of the groups. *)
Definition ReplaceAll (r : regex) (template : (nat -> string) -> string) (text : string) : string :=
  let l := runes text in
  splice l 0 (map (fun m => (fo_start m, fo_end m, template (fun n => text_of (group l m n)))) (FindAll r l)).

(** ** The search is exact *)

(** What an expression matches, from one place to another. *)
Inductive matches : regex -> cursor -> captures -> cursor -> captures -> Prop :=
| matches_empty c caps : matches Empty c caps c caps
| matches_boundary c caps : at_boundary c = true -> matches Boundary c caps c caps
| matches_class p x prev rest pos caps :
    p (rune_value x) = true ->
    matches (Class_of p) (mkCursor prev (x :: rest) pos) caps (mkCursor (Some x) rest (S pos)) caps
| matches_seq a b c1 caps1 c2 caps2 c3 caps3 :
    matches a c1 caps1 c2 caps2 -> matches b c2 caps2 c3 caps3 -> matches (Seq a b) c1 caps1 c3 caps3
| matches_left a b c caps c' caps' : matches a c caps c' caps' -> matches (Alt a b) c caps c' caps'
| matches_right a b c caps c' caps' : matches b c caps c' caps' -> matches (Alt a b) c caps c' caps'
| matches_none a c caps : matches (Star a) c caps c caps
| matches_again a c1 caps1 c2 caps2 c3 caps3 :
    matches a c1 caps1 c2 caps2 -> (cu_pos c1 < cu_pos c2)%nat -> matches (Star a) c2 caps2 c3 caps3 ->
    matches (Star a) c1 caps1 c3 caps3
| matches_capture n a c caps c' caps' :
    matches a c caps c' caps' -> matches (Capture n a) c caps c' ((n, (cu_pos c, cu_pos c')) :: caps').

(** A place and the text from it on. *)
Lemma matches_moves r c caps c' caps' : matches r c caps c' caps' ->
  (cu_pos c <= cu_pos c')%nat /\ cu_rest c' = drop (cu_pos c' - cu_pos c) (cu_rest c) /\
  (cu_pos c' + length (cu_rest c') = cu_pos c + length (cu_rest c))%nat.
Proof.
  induction 1 as [| |p x prev rest pos caps Hp|a b c1 ? c2 ? c3 ? _ (H1 & H2 & H3) _ (H4 & H5 & H6)| | | |
                  a c1 ? c2 ? c3 ? _ (H1 & H2 & H3) _ _ (H4 & H5 & H6)|]; cbn [cu_pos cu_rest length] in *; try done.
  1,2,5: by rewrite Nat.sub_diag, drop_0.
  - replace (S pos - pos)%nat with 1%nat by lia. cbn. split_and!; [lia|done|lia].
  - rewrite H5, H2, drop_drop. split_and!; [lia|f_equal; lia|]. rewrite <- drop_drop, <- H2, <- H5. lia.
  - rewrite H5, H2, drop_drop. split_and!; [lia|f_equal; lia|]. rewrite <- drop_drop, <- H2, <- H5. lia.
Qed.

Section Exact.
Context {R : Type}.
Implicit Types k : cursor -> captures -> option R.

Definition sound_for (r : regex) : Prop := forall c caps k x, match_here r c caps k = Some x ->
  exists c' caps', matches r c caps c' caps' /\ k c' caps' = Some x.

Lemma repetitions_sound a k n c caps x : sound_for a -> repetitions (match_here a) k n c caps = Some x ->
  exists c' caps', matches (Star a) c caps c' caps' /\ k c' caps' = Some x.
Proof.
  intros Ha. revert c caps. induction n as [|n IH]; intros c caps Hx; cbn [repetitions] in Hx.
  - exists c, caps. by split; [constructor|].
  - destruct (match_here a c caps _) as [y|] eqn:E.
    + assert (y = x) as -> by congruence. apply Ha in E as (c2 & caps2 & Hm & E).
      destruct (Nat.ltb_spec (cu_pos c) (cu_pos c2)) as [Hlt|]; [|done]. apply IH in E as (c3 & caps3 & H3 & E).
      exists c3, caps3. split; [|done]. by eapply matches_again.
    + exists c, caps. by split; [constructor|].
Qed.

(** A match that is found is a match. *)
Theorem match_here_sound r : sound_for r.
Proof.
  induction r as [| |p|a IHa b IHb|a IHa b IHb|a IHa|n a IHa]; intros c caps k x Hx; cbn [match_here] in Hx.
  - exists c, caps. by split; [constructor|].
  - destruct (at_boundary c) eqn:E; [|done]. exists c, caps. by split; [constructor|].
  - destruct c as [prev [|y rest] pos]; cbn in Hx; [done|]. destruct (p (rune_value y)) eqn:E; [|done].
    eexists _, caps. by split; [constructor|].
  - apply IHa in Hx as (c2 & caps2 & H2 & Hx). apply IHb in Hx as (c3 & caps3 & H3 & Hx).
    exists c3, caps3. split; [by eapply matches_seq|done].
  - destruct (match_here a c caps k) as [y|] eqn:E.
    + assert (y = x) as -> by congruence. apply IHa in E as (c' & caps' & ? & ?). exists c', caps'. by split; [constructor|].
    + apply IHb in Hx as (c' & caps' & ? & ?). exists c', caps'. by split; [apply matches_right|].
  - by eapply repetitions_sound.
  - apply IHa in Hx as (c' & caps' & ? & ?). exists c', ((n, (cu_pos c, cu_pos c')) :: caps'). by split; [constructor|].
Qed.

Lemma repetitions_complete a c caps c' caps' : matches a c caps c' caps' -> forall b, a = Star b ->
  (forall c1 caps1 c2 caps2 k x, matches b c1 caps1 c2 caps2 -> k c2 caps2 = Some x -> is_Some (match_here b c1 caps1 k)) ->
  forall k x n, k c' caps' = Some x -> (length (cu_rest c) <= n)%nat -> is_Some (repetitions (match_here b) k n c caps).
Proof.
  induction 1 as [| | | | | |a c caps|a c1 caps1 c2 caps2 c3 caps3 H12 IH12 Hlt H23 IH23|]; intros b0 Hb Hc k y0 m Hk Hn; try done.
  - destruct m as [|m]; cbn [repetitions]; [eauto|]. destruct (match_here b0 c caps _); eauto.
  - assert (a = b0) as -> by congruence. pose proof (matches_moves _ _ _ _ _ H12) as (_ & _ & Hp).
    destruct m as [|m]; [exfalso; lia|]. cbn [repetitions].
    destruct (IH23 b0 eq_refl Hc k y0 m Hk ltac:(lia)) as [y Hy].
    destruct (Hc c1 caps1 c2 caps2 (fun c' caps' => if (cu_pos c1 <? cu_pos c')%nat then repetitions (match_here b0) k m c' caps' else None) y H12)
      as [z ->]; [|eauto]. by rewrite (proj2 (Nat.ltb_lt _ _) Hlt).
Qed.

(** A match that exists is not missed. *)
Theorem match_here_complete r c caps c' caps' k x :
  matches r c caps c' caps' -> k c' caps' = Some x -> is_Some (match_here r c caps k).
Proof.
  revert c caps c' caps' k x. induction r as [| |p|a IHa b IHb|a IHa b IHb|a IHa|n a IHa]; intros c caps c' caps' k x Hm Hk;
    cbn [match_here].
  - inversion Hm; subst. eauto.
  - inversion Hm as [|? ? E| | | | | | |]; subst. rewrite E. eauto.
  - inversion Hm as [| |? ? ? ? ? ? E| | | | | |]; subst. cbn. rewrite E. eauto.
  - inversion Hm as [| | |? ? ? ? c2 caps2 ? ? H1 H2| | | | |]; subst. destruct (IHb _ _ _ _ k x H2 Hk) as [y Hy].
    exact (IHa _ _ _ _ (fun c caps => match_here b c caps k) y H1 Hy).
  - destruct (match_here a c caps k) eqn:E; [eauto|]. inversion Hm as [| | | |? ? ? ? ? ? H1|? ? ? ? ? ? H1| | |]; subst.
    + destruct (IHa _ _ _ _ k x H1 Hk). congruence.
    + by eapply IHb.
  - eapply (repetitions_complete _ _ _ _ _ Hm a eq_refl); [exact IHa|done|done].
  - inversion Hm as [| | | | | | | |? ? ? ? ? ? H1]; subst. eapply IHa; [done|]. exact Hk.
Qed.
End Exact.

(** *** Matches that consume something *)

Fixpoint nullable (r : regex) : bool :=
  match r with
  | Empty | Boundary | Star _ => true
  | Class_of _ => false
  | Seq a b => nullable a && nullable b
  | Alt a b => nullable a || nullable b
  | Capture _ a => nullable a
  end.

Lemma matches_progress r c caps c' caps' : matches r c caps c' caps' -> nullable r = false -> (cu_pos c < cu_pos c')%nat.
Proof.
  intros Hm. induction Hm as [| | |a b c1 caps1 c2 caps2 c3 caps3 H1 IH1 H2 IH2| | | | |]; cbn [nullable cu_pos]; intros Hn; try done; try lia.
  - pose proof (matches_moves _ _ _ _ _ H1). pose proof (matches_moves _ _ _ _ _ H2).
    apply andb_false_iff in Hn as [Hn|Hn]; [specialize (IH1 Hn)|specialize (IH2 Hn)]; lia.
  all: try apply orb_false_iff in Hn as [? ?]; auto.
Qed.
