(* ===== verification/Sensitive.v ===== *)
(** * Sensitive keys

    [internal/secret] and the matcher of [internal/logging/sensitive.go]:
    whether the key of a value says that the value is secret.  A key is cut
    into lower-case words, and is sensitive when the words of a pattern occur
    in it one after the other.

    A matcher remembers its decisions in a map shared by its copies;
    [matches_cached] is the code with that map, and [matches_cached_spec] says
    that it decides as [matches] does. *)

From S2P Require Import Prelude Json Text.

(* go: internal/secret/secret.go 23-23 Masked *)
Definition Masked : string := "[MASKED]".

(* go: internal/logging/sensitive.go 21-41 defaultSensitiveKeys *)
Definition defaultSensitiveKeys : list string :=
  ["api_key"; "encrypted_private_key"; "mnemonic"; "passphrase"; "password"; "private_key"; "secret"; "signing_key";
   "access_token"; "api_token"; "auth_token"; "authorization"; "bearer_token"; "cookie"; "credential";
   "proxy_authorization"; "refresh_token"; "session_token"; "set_cookie"].

(* go: internal/logging/sensitive.go 262-269 isTokenSeparator *)
Definition isTokenSeparator (r : string) : bool :=
  existsb (String.eqb r) ["_"; "-"; "."; "/"; ":"] || is_space r.

(** [strings.FieldsFunc]. *)
Fixpoint fields_func (sep : string -> bool) (l : list string) (word : string) : list string :=
  match l with
  | [] => if string_is_empty word then [] else [word]
  | r :: l =>
      if sep r then if string_is_empty word then fields_func sep l "" else word :: fields_func sep l ""
      else fields_func sep l (word +:+ r)
  end.

Section Matcher.
Context `{UnicodeTables}.

(** An underscore is written before a capital that begins a word. *)
(* go: internal/logging/sensitive.go 245-258 splitTokens *)
Fixpoint mark_words (prev : option string) (l : list string) : list string :=
  match l with
  | [] => []
  | r :: rest =>
      let begins := match prev with
                    | None => false
                    | Some p => IsUpper r && (negb (IsUpper p) || match rest with [] => false | next :: _ => IsLower next end)
                    end in
      (if begins then ["_"; r] else [r]) ++ mark_words (Some r) rest
  end.

(* go: internal/logging/sensitive.go 241-260 splitTokens *)
Definition splitTokens (s : string) : list string :=
  fields_func isTokenSeparator (map ToLowerRune (mark_words None (map rune_value (runes s)))) "".

(* go: internal/logging/sensitive.go 227-237 containsTokens *)
Definition containsTokens (haystack needle : list string) : bool :=
  if (length needle =? 0)%nat || (length haystack <? length needle)%nat then false
  else existsb (fun i => bool_decide (take (length needle) (drop i haystack) = needle))
         (seq 0 (S (length haystack - length needle))).

(* go: internal/logging/sensitive.go 50-57 sensitiveMatcher *)
Record sensitiveMatcher : Type := mkMatcher { sm_patterns : list (list string) }.

(** The patterns, each once; [seen] are the fingerprints of the earlier
    ones. *)
(* go: internal/logging/sensitive.go 62-73 newSensitiveMatcher *)
Fixpoint patterns_of (keys : list string) (seen : list string) : list (list string) :=
  match keys with
  | [] => []
  | key :: keys =>
      let tokens := splitTokens key in
      let fingerprint := Join_strings (bytes_of [0]) tokens in
      if (length tokens =? 0)%nat || existsb (String.eqb fingerprint) seen then patterns_of keys seen
      else tokens :: patterns_of keys (fingerprint :: seen)
  end.

(* go: internal/logging/sensitive.go 59-75 newSensitiveMatcher *)
Definition newSensitiveMatcher (keys : list string) : sensitiveMatcher := mkMatcher (patterns_of keys []).

(* go: internal/logging/sensitive.go 93-104 matchUncached *)
Definition matchUncached (m : sensitiveMatcher) (key : string) : bool :=
  let tokens := splitTokens key in
  if (length tokens =? 0)%nat then false else existsb (containsTokens tokens) (sm_patterns m).

(** The decision without the map. *)
Definition matches_key (m : sensitiveMatcher) (key : string) : bool :=
  if (length (sm_patterns m) =? 0)%nat then false else matchUncached m key.

(* go: internal/logging/sensitive.go 77-91 matches *)
Definition matches_cached (m : sensitiveMatcher) (cache : gmap string bool) (key : string) : bool * gmap string bool :=
  if (length (sm_patterns m) =? 0)%nat then (false, cache)
  else match cache !! key with
       | Some cached => (cached, cache)
       | None => let r := matchUncached m key in (r, <[key := r]> cache)
       end.

(** The map holds decisions of the matcher. *)
Definition coherent (m : sensitiveMatcher) (cache : gmap string bool) : Prop :=
  map_Forall (fun key r => r = matchUncached m key) cache.

Lemma matches_cached_spec m cache key : coherent m cache ->
  fst (matches_cached m cache key) = matches_key m key /\ coherent m (snd (matches_cached m cache key)).
Proof.
  intros Hc. unfold matches_cached, matches_key. destruct (_ =? _)%nat; [done|].
  destruct (cache !! key) as [r|] eqn:E; cbn [fst snd]; [by rewrite (Hc _ _ E)|]. split; [done|].
  by apply map_Forall_insert_2.
Qed.

(** A key with the words of a pattern among its own, in a row. *)
Lemma containsTokens_spec haystack needle :
  containsTokens haystack needle = true <-> needle <> [] /\ exists before after, haystack = before ++ needle ++ after.
Proof.
  unfold containsTokens. destruct needle as [|w needle]; [cbn; naive_solver|]. set (n := w :: needle).
  change (length n =? 0)%nat with false. cbn [orb]. split.
  - destruct (Nat.ltb_spec (length haystack) (length n)); [done|]. intros (i & Hi & Ht)%existsb_exists.
    apply bool_decide_eq_true in Ht. split; [done|]. exists (take i haystack), (drop (length n) (drop i haystack)).
    rewrite <- Ht at 1. by rewrite take_drop, take_drop.
  - intros (_ & before & after & ->). rewrite !length_app. destruct (Nat.ltb_spec (length before + (length n + length after)) (length n)); [lia|].
    apply existsb_exists. exists (length before). split; [apply in_seq; lia|]. apply bool_decide_eq_true.
    by rewrite drop_app_length, take_app_length.
Qed.
End Matcher.

(** * Redaction of JSON documents

    The values of [any] that [encoding/json] decodes into, and the redaction
    both the HTTP client and the logging package apply to them: the value of a
    sensitive key is masked, every other text below the root is cleaned, and
    the rest is descended into.  [agree_redacted] says what this hides. *)

(** A Go map: the last of equal keys counts, and [json.Marshal] writes the
    keys in order. *)
Fixpoint insert_field {A : Type} (k : string) (v : A) (l : list (string * A)) : list (string * A) :=
  match l with
  | [] => [(k, v)]
  | (k', v') :: r =>
      match String.compare k k' with
      | Eq => (k, v) :: r
      | Lt => (k, v) :: l
      | Gt => (k', v') :: insert_field k v r
      end
  end.
Definition go_map {A : Type} (fields : list (string * A)) : list (string * A) :=
  fold_left (fun m kv => insert_field (fst kv) (snd kv) m) fields [].

(** [decoder.Decode] into [any]. *)
Fixpoint go_value (v : json) : json :=
  match v with
  | JArr l => JArr (map go_value l)
  | JObj fields => JObj (go_map (map (fun '(k, x) => (k, go_value x)) fields))
  | _ => v
  end.

Section Redaction.
Variable sensitive : string -> bool.
Variable clean : string -> string.

(** The loops over a map and over a slice treat a child that is a text
    themselves and descend into the others; a text at the root stays. *)
Fixpoint redact_tree (v : json) : json :=
  match v with
  | JObj fields =>
      JObj (map (fun '(key, child) =>
        (key, if sensitive key then JStr Masked
              else match child with JStr text => JStr (clean text) | _ => redact_tree child end)) fields)
  | JArr l =>
      JArr (map (fun child => match child with JStr text => JStr (clean text) | _ => redact_tree child end) l)
  | _ => v
  end.

(** Two documents that differ only in what is secret: in the values of sensitive
    keys, and in texts that are redacted to the same text. *)
Inductive agree : json -> json -> Prop :=
| agree_same v : agree v v
| agree_text s s' : clean s = clean s' -> agree (JStr s) (JStr s')
| agree_arr l l' : agree_list l l' -> agree (JArr l) (JArr l')
| agree_obj fs fs' : agree_fields fs fs' -> agree (JObj fs) (JObj fs')
with agree_list : list json -> list json -> Prop :=
| agree_nil : agree_list [] []
| agree_cons v v' l l' : agree v v' -> agree_list l l' -> agree_list (v :: l) (v' :: l')
with agree_fields : list (string * json) -> list (string * json) -> Prop :=
| agree_no_fields : agree_fields [] []
| agree_public k v v' fs fs' : agree v v' -> agree_fields fs fs' -> agree_fields ((k, v) :: fs) ((k, v') :: fs')
| agree_secret k v v' fs fs' :
    sensitive k = true -> agree_fields fs fs' -> agree_fields ((k, v) :: fs) ((k, v') :: fs').

Scheme agree_mut := Induction for agree Sort Prop
  with agree_list_mut := Induction for agree_list Sort Prop
  with agree_fields_mut := Induction for agree_fields Sort Prop.
Combined Scheme agree_ind3 from agree_mut, agree_list_mut, agree_fields_mut.

(** A child as the loops over maps and lists treat it. *)
Definition redact_child (v : json) : json :=
  match v with JStr text => JStr (clean text) | _ => redact_tree v end.

Definition redact_field (kv : string * json) : string * json :=
  (fst kv, if sensitive (fst kv) then JStr Masked else redact_child (snd kv)).

Lemma redact_obj fs : redact_tree (JObj fs) = JObj (map redact_field fs).
Proof. cbn. f_equal. apply map_ext. intros [k v]. done. Qed.

Lemma redact_arr l : redact_tree (JArr l) = JArr (map redact_child l).
Proof. done. Qed.

(** Fields that are redacted alike. *)
Definition alike (a b : string * json) : Prop := fst a = fst b /\ redact_field a = redact_field b.

Lemma insert_alike k v v' l l' :
  redact_field (k, v) = redact_field (k, v') -> Forall2 alike l l' -> Forall2 alike (insert_field k v l) (insert_field k v' l').
Proof.
  intros Hv. induction 1 as [|[k1 v1] [k2 v2] l l' [Hk Ha] Hl IH]; [by repeat constructor|].
  simpl in Hk. subst k2. cbn [insert_field]. destruct (String.compare k k1); by repeat constructor.
Qed.

Lemma fold_alike fs fs' m m' :
  Forall2 alike fs fs' -> Forall2 alike m m' ->
  Forall2 alike (fold_left (fun m kv => insert_field (fst kv) (snd kv) m) fs m)
                (fold_left (fun m kv => insert_field (fst kv) (snd kv) m) fs' m').
Proof.
  intros Hf. revert m m'. induction Hf as [|[k v] [k' v'] fs fs' [Hk Ha] Hf IH]; intros m m' Hm; [done|].
  simpl in Hk. subst k'. apply IH. by apply insert_alike.
Qed.

Lemma agree_redacted :
  (forall v v', agree v v' -> redact_child (go_value v) = redact_child (go_value v')) /\
  (forall l l', agree_list l l' -> map redact_child (map go_value l) = map redact_child (map go_value l')) /\
  (forall fs fs', agree_fields fs fs' ->
     Forall2 alike (map (fun '(k, x) => (k, go_value x)) fs) (map (fun '(k, x) => (k, go_value x)) fs')).
Proof.
  apply agree_ind3.
  - done.
  - intros s s' Hs. cbn [go_value redact_child]. by rewrite Hs.
  - intros l l' _ IH. cbn [go_value redact_child redact_tree]. by f_equal.
  - intros fs fs' _ IH. cbn [go_value redact_child]. rewrite !redact_obj. f_equal.
    pose proof (fold_alike _ _ [] [] IH (List.Forall2_nil _)) as Hm. unfold go_map. revert Hm. clear.
    generalize (fold_left (fun m kv => insert_field (fst kv) (snd kv) m) (map (fun '(k, x) => (k, go_value x)) fs) []).
    generalize (fold_left (fun m kv => insert_field (fst kv) (snd kv) m) (map (fun '(k, x) => (k, go_value x)) fs') []).
    intros m' m. induction 1 as [|a b m m' [_ Ha] _ IHm]; [done|]. simpl. by rewrite Ha, IHm.
  - done.
  - intros v v' l l' _ Hv _ Hl. simpl. by rewrite Hv, Hl.
  - constructor.
  - intros k v v' fs fs' _ Hv _ Hf. simpl. constructor; [|done]. split; [done|]. unfold redact_field. simpl.
    by destruct (sensitive k); [|rewrite Hv].
  - intros k v v' fs fs' Hk _ Hf. simpl. constructor; [|done]. split; [done|]. unfold redact_field. simpl. by rewrite Hk.
Qed.
(** The root of a document: a text there is not cleaned. *)
Inductive agree_below : json -> json -> Prop :=
| agree_root v : agree_below v v
| agree_root_arr l l' : agree_list l l' -> agree_below (JArr l) (JArr l')
| agree_root_obj fs fs' : agree_fields fs fs' -> agree_below (JObj fs) (JObj fs').

Lemma agree_below_redacted v v' : agree_below v v' -> redact_tree (go_value v) = redact_tree (go_value v').
Proof.
  destruct 1 as [v|l l' Hl|fs fs' Hf]; [done|..].
  - exact (proj1 agree_redacted _ _ (agree_arr _ _ Hl)).
  - exact (proj1 agree_redacted _ _ (agree_obj _ _ Hf)).
Qed.
End Redaction.
