(* ===== verification/Diagnostics.v ===== *)
(** * Credentials in diagnostic texts

    [internal/logging/error.go]: what is logged of texts that come from
    dependencies.  A JSON document is redacted by the keys of its fields; any
    text is then searched for the shapes credentials have - user information
    in URLs, data source names, key and value pairs, bearer tokens - and the
    credential is replaced by a mark.  [SafeDiagnosticExcerpt] also removes
    control characters and bounds the length. *)

From S2P Require Import Prelude Json Text Regexp Sensitive.

(** ** The expressions *)

Definition letters_and_digits (c : ascii) : bool := is_lower_ascii c || is_digit_ascii c.
Definition quote_text : string := String quote_char "".
Definition spaces : regex := Star (Class_of space_class).
Definition separator : regex := Alt (literal "=") (literal ":").
Definition not_these (l : list Z) : regex := Class_of (negated (ascii_class (one_of l))).

(** A value: double-quoted with escapes, single-quoted on one line, or
    everything up to the end of the field. *)
Definition quoted_value : regex :=
  seq_of [literal quote_text; Star (Alt (Seq (literal (String backslash "")) (Class_of any_but_newline)) (not_these [34; 92])); literal quote_text].
Definition value_pattern : regex :=
  alt_of quoted_value
    [seq_of [literal "'"; Star (not_these [39; 13; 10]); literal "'"]; Plus (not_these [44; 59; 38; 35; 125; 93; 13; 10])].

(** [[_-]?]. *)
Definition joint : regex := Optional (Class_of (ascii_class (one_of [95; 45]))).
Definition words (l : list string) : regex :=
  match l with
  | [] => Empty
  | w :: l => seq_of (folded w :: flat_map (fun w => [joint; folded w]) l)
  end.

(** [(?:[a-z0-9]+[_-])*], a name, and [(?:[_-][a-z0-9]+)*]. *)
Definition word_run : regex := Plus (Class_of (fold letters_and_digits)).
Definition dash : regex := Class_of (ascii_class (one_of [95; 45])).
Definition secret_name (names : list (list string)) : regex :=
  seq_of [Star (Seq word_run dash); alt_of (words (hd [] names)) (map words (tl names)); Star (Seq dash word_run)].

(* go: internal/logging/error.go 20-20 errorURLUserinfoPattern *)
Definition errorURLUserinfoPattern : regex :=
  seq_of [Boundary;
    Capture 1 (seq_of [Class_of (fold is_lower_ascii);
      Star (Class_of (fold (fun c => letters_and_digits c || one_of [43; 46; 45] c))); literal "://"]);
    Capture 2 (Plus (Class_of (fun r => negb (space_class r) && negb (ascii_class (one_of [47; 64]) r)))); literal "@"].

(* go: internal/logging/error.go 21-21 errorMySQLDSNPattern *)
Definition errorMySQLDSNPattern : regex :=
  seq_of [Boundary; Plus (Class_of (fun r => negb (space_class r) && negb (ascii_class (one_of [58; 47; 64]) r))); literal ":";
    Star (not_these [13; 10]); literal "@"; Capture 1 (Seq (Alt (folded "tcp") (folded "unix")) (literal "("))].

(* go: internal/logging/error.go 22-22 errorJSONSecretPattern *)
Definition errorJSONSecretPattern : regex :=
  Seq (Capture 1 (seq_of [literal quote_text;
         secret_name [["api"; "key"]; ["authorization"]; ["cookie"]; ["credential"]; ["encrypted"; "private"; "key"]; ["mnemonic"];
           ["passphrase"]; ["password"]; ["passwd"]; ["proxy"; "authorization"]; ["pwd"]; ["private"; "key"]; ["secret"];
           ["set"; "cookie"]; ["signing"; "key"]; ["token"]];
         literal quote_text; spaces; literal ":"; spaces]))
      (Capture 2 value_pattern).

(* go: internal/logging/error.go 23-23 errorSecretPattern *)
Definition errorSecretPattern : regex :=
  Seq (Capture 1 (seq_of [Boundary;
         secret_name [["api"; "key"]; ["credential"]; ["encrypted"; "private"; "key"]; ["mnemonic"]; ["passphrase"]; ["password"];
           ["passwd"]; ["pwd"]; ["private"; "key"]; ["secret"]; ["signing"; "key"]; ["token"]];
         Boundary; spaces; separator; spaces]))
      (Capture 2 value_pattern).

Definition optional_prefix (w : string) : regex :=
  Optional (Seq (folded w) (Optional (Class_of (ascii_class (one_of [45; 95; 32]))))).

(* go: internal/logging/error.go 24-24 errorAuthorizationPattern *)
Definition errorAuthorizationPattern : regex :=
  Seq (Capture 1 (seq_of [Boundary; optional_prefix "proxy"; folded "authorization"; spaces; separator; spaces]))
      (Plus (not_these [13; 10; 44; 59])).

(* go: internal/logging/error.go 25-25 errorCookiePattern *)
Definition errorCookiePattern : regex :=
  Seq (Capture 1 (seq_of [Boundary; optional_prefix "set"; folded "cookie"; spaces; separator; spaces]))
      (Plus (not_these [13; 10])).

(* go: internal/logging/error.go 26-26 errorBearerPattern *)
Definition errorBearerPattern : regex :=
  Seq (Capture 1 (seq_of [Boundary; Optional (seq_of [folded "authorization"; spaces; separator; spaces]); folded "bearer";
         Plus (Class_of space_class)]))
      (Plus (Class_of (fold (fun c => letters_and_digits c || one_of [46; 95; 126; 43; 47; 61; 45] c)))).

(* go: internal/logging/error.go 27-27 diagnosticJSONFieldPattern *)
Definition diagnosticJSONFieldPattern : regex :=
  Seq (Capture 1 (seq_of [literal quote_text;
         Capture 2 (Star (Alt (Seq (literal (String backslash "")) (Class_of any_but_newline)) (not_these [34; 92])));
         literal quote_text; spaces; literal ":"; spaces]))
      (Capture 3 value_pattern).

(* go: internal/logging/error.go 28-28 diagnosticKeyValuePattern *)
Definition diagnosticKeyValuePattern : regex :=
  Seq (Capture 1 (seq_of [Boundary;
         Capture 2 (Seq (Class_of (fold is_lower_ascii)) (Star (Class_of (fold (fun c => letters_and_digits c || one_of [95; 46; 45] c)))));
         Boundary; spaces; separator; spaces]))
      (Capture 3 value_pattern).

(** None of them matches the empty text, so a search for all matches never
    stands still. *)
Lemma patterns_not_nullable :
  Forall (fun r => nullable r = false)
    [errorURLUserinfoPattern; errorMySQLDSNPattern; errorJSONSecretPattern; errorSecretPattern; errorAuthorizationPattern;
     errorCookiePattern; errorBearerPattern; diagnosticJSONFieldPattern; diagnosticKeyValuePattern].
Proof. repeat constructor. Qed.

(** ** Fields by their keys *)

(** *** [strconv.Unquote] of a text between double quotes *)

Fixpoint hex_number (n : nat) (acc : Z) (s : string) : option (Z * string) :=
  match n, s with
  | O, _ => Some (acc, s)
  | S n, String c s => match hex_value c with Some d => hex_number n (acc * 16 + d) s | None => None end
  | S _, EmptyString => None
  end.

Definition octal_digit (c : ascii) : option Z := if in_range 48 55 c then Some (byte_code c - 48) else None.

Definition simple_go_escape (c : ascii) : option Z :=
  if Ascii.eqb c "a" then Some 7 else if Ascii.eqb c "b" then Some 8 else if Ascii.eqb c "f" then Some 12
  else if Ascii.eqb c "n" then Some 10 else if Ascii.eqb c "r" then Some 13 else if Ascii.eqb c "t" then Some 9
  else if Ascii.eqb c "v" then Some 11 else if Ascii.eqb c backslash then Some 92
  else if Ascii.eqb c quote_char then Some 34 else None.

Definition unicode_number (n : nat) (s : string) : option (string * string) :=
  match hex_number n 0 s with
  | Some (v, s) => if (v <? 55296) || ((57344 <=? v) && (v <=? 1114111)) then Some (utf8_of v, s) else None
  | None => None
  end.

(** What follows a backslash: the bytes it stands for, and the rest. *)
Definition unquote_escape (c : ascii) (s : string) : option (string * string) :=
  match simple_go_escape c with
  | Some v => Some (bytes_of [v], s)
  | None =>
      if Ascii.eqb c "x" then match hex_number 2 0 s with Some (v, s) => Some (bytes_of [v], s) | None => None end
      else if Ascii.eqb c "u" then unicode_number 4 s
      else if Ascii.eqb c "U" then unicode_number 8 s
      else match octal_digit c, s with
           | Some a, String c1 (String c2 s) =>
               match octal_digit c1, octal_digit c2 with
               | Some b, Some d => let v := a * 64 + b * 8 + d in if v <=? 255 then Some (bytes_of [v], s) else None
               | _, _ => None
               end
           | _, _ => None
           end
  end.

Fixpoint unquote_loop (fuel : nat) (s : string) : option string :=
  match fuel with
  | O => None
  | S fuel =>
      match s with
      | EmptyString => Some ""
      | String c rest =>
          if Ascii.eqb c quote_char || (byte_code c =? 10) then None
          else if Ascii.eqb c backslash then
            match rest with
            | EmptyString => None
            | String c rest =>
                match unquote_escape c rest with
                | Some (bytes, rest) => option_map (fun t => bytes +:+ t) (unquote_loop fuel rest)
                | None => None
                end
            end
          else match decode_rune s with
               | Some (r, rest) => option_map (fun t => rune_value r +:+ t) (unquote_loop fuel rest)
               | None => None
               end
      end
  end.
Definition Unquote (s : string) : option string := unquote_loop (S (String.length s)) s.

Section Redaction.
Context `{UnicodeTables}.

(* go: internal/logging/error.go 29-33 diagnosticSensitiveMatcher *)
Definition diagnosticSensitiveMatcher : sensitiveMatcher :=
  newSensitiveMatcher (defaultSensitiveKeys ++
    ["authorization"; "proxy_authorization"; "cookie"; "set_cookie"; "credential"; "token"; "signature"; "signed_request"]).

(** The bounds of a group; the pattern's groups always take part. *)
Definition group_bounds (m : found) (n : nat) : nat * nat :=
  match list_find (fun g => fst g = n) (fo_caps m) with Some (_, (_, b)) => b | None => (fo_end m, fo_end m) end.

(* go: internal/logging/error.go 93-98 redactMatchedDiagnosticFields *)
Definition field_key (text : list rune) (quotedKey : bool) (m : found) : string :=
  let key := text_of (group text m 2) in
  if quotedKey then default key (Unquote key) else key.

(** Where no match has a sensitive key, nothing is spliced into the text. *)
(* go: internal/logging/error.go 81-112 redactMatchedDiagnosticFields *)
Definition redactMatchedDiagnosticFields (text : string) (pattern : regex) (quotedKey : bool) : string :=
  let l := runes text in
  let sensitive := List.filter (fun m => matches_key diagnosticSensitiveMatcher (field_key l quotedKey m)) (FindAll pattern l) in
  splice l 0 (map (fun m => (group_bounds m 3, quote_text +:+ Masked +:+ quote_text)) sensitive).

(* go: internal/logging/error.go 68-79 sanitizeUnstructuredDiagnostic *)
Definition sanitizeUnstructuredDiagnostic (text : string) : string :=
  let text := ReplaceAll errorURLUserinfoPattern (fun g => g 1%nat +:+ Masked +:+ "@") text in
  let text := ReplaceAll errorMySQLDSNPattern (fun g => Masked +:+ "@" +:+ g 1%nat) text in
  let text := redactMatchedDiagnosticFields text diagnosticJSONFieldPattern true in
  let text := redactMatchedDiagnosticFields text diagnosticKeyValuePattern false in
  let text := ReplaceAll errorJSONSecretPattern (fun g => g 1%nat +:+ quote_text +:+ Masked +:+ quote_text) text in
  let text := ReplaceAll errorSecretPattern (fun g => g 1%nat +:+ Masked) text in
  let text := ReplaceAll errorBearerPattern (fun g => g 1%nat +:+ Masked) text in
  let text := ReplaceAll errorAuthorizationPattern (fun g => g 1%nat +:+ Masked) text in
  let text := ReplaceAll errorCookiePattern (fun g => g 1%nat +:+ Masked) text in
  TrimSpace text.

(** [encoder.Encode] with [SetEscapeHTML(false)]. *)
Definition escape_plain_char (c : ascii) : string :=
  if one_of [60; 62; 38] c then String c "" else escape_char c.
Fixpoint escape_plain (s : string) : string :=
  match s with EmptyString => "" | String c r => escape_plain_char c +:+ escape_plain r end.
Definition encode_plain_string (s : string) : string := quote_text +:+ escape_plain s +:+ quote_text.
Fixpoint encode_plain (v : json) : string :=
  match v with
  | JStr s => encode_plain_string s
  | JArr l => "[" +:+ join_with "," (map encode_plain l) +:+ "]"
  | JObj fs => "{" +:+ join_with "," (map (fun '(k, x) => encode_plain_string k +:+ ":" +:+ encode_plain x) fs) +:+ "}"
  | _ => encode v
  end.

(* go: internal/logging/error.go 135-158 redactDiagnosticJSONValue *)
Definition redactDiagnosticJSONValue (v : json) : json :=
  redact_tree (matches_key diagnosticSensitiveMatcher) sanitizeUnstructuredDiagnostic v.

(* go: internal/logging/error.go 114-133 sanitizeDiagnosticJSON *)
Definition sanitizeDiagnosticJSON (text : string) : option string :=
  match parse_json text with
  | Some value => Some (TrimSpace (encode_plain (redactDiagnosticJSONValue (go_value value))))
  | None => None
  end.

(* go: internal/logging/error.go 58-66 SafeDiagnosticText *)
Definition SafeDiagnosticText (text : string) : string :=
  if string_is_empty text then ""
  else sanitizeUnstructuredDiagnostic (default text (sanitizeDiagnosticJSON text)).

(** ** The excerpt *)

(* go: internal/logging/error.go 174-174 SafeDiagnosticExcerpt *)
Definition truncation_marker : string := " ...[truncated]".

(** [for !utf8.ValidString(text) { text = text[:len(text)-1] }]. *)
Fixpoint trim_to_valid (fuel : nat) (text : string) : string :=
  match fuel with
  | O => text
  | S fuel => if ValidString text then text else trim_to_valid fuel (take_bytes (String.length text - 1) text)
  end.

(* go: internal/logging/error.go 171-183 SafeDiagnosticExcerpt *)
Definition bound_excerpt (text : string) (maxBytes : Z) : string :=
  if (maxBytes <=? 0) || (Z.of_nat (String.length text) <=? maxBytes) then text
  else
    let limit := maxBytes - Z.of_nat (String.length truncation_marker) in
    if limit <=? 0 then take_bytes (Z.to_nat (Z.min (Z.of_nat (String.length truncation_marker)) maxBytes)) truncation_marker
    else
      let text := trim_to_valid (Z.to_nat limit) (take_bytes (Z.to_nat limit) text) in
      TrimSpace text +:+ truncation_marker.

(* go: internal/logging/error.go 162-184 SafeDiagnosticExcerpt *)
Definition SafeDiagnosticExcerpt (text : string) (maxBytes : Z) : string :=
  let text := SafeDiagnosticText text in
  let text := map_runes (fun r => if is_control r then " " else r) text in
  bound_excerpt (Join_strings " " (Fields text)) maxBytes.

(* go: internal/logging/error.go 15-15 unavailableErrorText *)
Definition unavailableErrorText : string := "error details unavailable".
(* go: internal/logging/error.go 16-16 maxSafeErrorBytes *)
Definition maxSafeErrorBytes : Z := 4096.

(** The argument: [None] is the nil error; [Some None] an error whose method
    [Error] panics; else the text it returns. *)
(* go: internal/logging/error.go 40-54 SafeErrorText *)
Definition SafeErrorText (err : option (option string)) : string :=
  match err with
  | None => ""
  | Some None => unavailableErrorText
  | Some (Some text) => SafeDiagnosticExcerpt text maxSafeErrorBytes
  end.

(* go: internal/logging/error.go 186-188 isErrorAttrKey *)
Definition isErrorAttrKey (key : string) : bool := existsb (String.eqb "error") (splitTokens key).
End Redaction.
