(* ===== verification/Logging.v ===== *)
(** * Logging

    [internal/logging] and [internal/secret]: attributes and their values,
    what is masked of them, the console handler, the JSON handler with its
    replacement of attributes, the options, the logger that everything is
    logged through and the process-wide one, the reports of failed writes, the
    paths of source files, and secrets.

    A value is what [slog.Value] holds.  A value that resolves itself (a
    [LogValuer], such as a secret) is kept with what it resolves to; code of a
    value that panics while it is rendered is [None], and ends the record, as
    the deferred function of [Logger.log] does.  The handlers of log/slog are
    modelled as far as its documentation goes: attributes are resolved, passed
    through [redactReplaceAttr] unless they are groups, and written in order;
    groups without attributes are left out, groups without a key are inlined. *)

From S2P Require Import Prelude Clock Timestamp Json Text Regexp Sensitive Diagnostics.

(** ** Attributes *)

(** [slog.Source]. *)
Record Source : Type := mkSource { Function_ : string; File : string; Line : Z }.

(** The types of log/slog that the source asks for. *)
Inductive slog_type : Type := OtherType | SlogLevel (level : Z) | SlogSource (pointer : bool) (s : Source).

(** What [formatAny] and the error handling ask of a value of type [any]:
    its text as an error, as a [fmt.Stringer], in JSON and by [fmt.Sprint],
    and whether it is of a type of log/slog.  The inner [None] is a method
    that panics. *)
Record any_value : Type := mkAny {
  an_error : option (option string);
  an_stringer : option (option string);
  an_json : option string;
  an_sprint : string;
  an_slog : slog_type
}.

Inductive value : Type :=
| VString (s : string)
| VBool (b : bool)
| VInt64 (z : Z)
| VUint64 (z : Z)
| VFloat64 (bits : Z)
| VTime (t : Z)
| VDuration (d : Z)
| VGroup (attrs : list (string * value))
| VNil
| VAny (a : any_value)
| VLogValuer (resolved : value).

Notation attr := (string * value)%type (only parsing).

Definition is_group (v : value) : bool := match v with VGroup _ => true | _ => false end.

(** [slog.Value.Resolve]. *)
Fixpoint Resolve (v : value) : value := match v with VLogValuer v => Resolve v | _ => v end.

(* go: internal/logging/attrs.go 9-9 consolePrefixKey *)
Definition consolePrefixKey : string := "_console_prefix".
(* go: internal/logging/attrs.go 10-10 consoleSeparatorKey *)
Definition consoleSeparatorKey : string := "_console_separator".

(* go: internal/logging/attrs.go 13-15 Component *)
Definition Component (v : string) : attr := ("component", VString v).

(* go: internal/logging/attrs.go 17-19 ActionID *)
Definition ActionID (v : string) : attr := ("action_id", VString v).
(* go: internal/logging/attrs.go 21-23 Coin *)
Definition Coin (v : string) : attr := ("coin", VString v).
(* go: internal/logging/attrs.go 25-27 OwnerID *)
Definition OwnerID (v : string) : attr := ("owner_id", VString v).
(* go: internal/logging/attrs.go 29-31 FencingToken *)
Definition FencingToken (v : Z) : attr := ("fencing_token", VInt64 v).
(* go: internal/logging/attrs.go 33-35 Dex *)
Definition Dex (v : string) : attr := ("dex", VString v).
(* go: internal/logging/attrs.go 37-39 ConsolePrefix *)
Definition ConsolePrefix (v : string) : attr := (consolePrefixKey, VString v).
(* go: internal/logging/attrs.go 44-46 ConsoleSeparator *)
Definition ConsoleSeparator : attr := (consoleSeparatorKey, VBool true).

(** The constructors under any key; a time is kept as its instant. *)
(* go: internal/logging/attrs.go 55-57 String *)
Definition String_attr (key v : string) : attr := (key, VString v).
(* go: internal/logging/attrs.go 59-61 Bool *)
Definition Bool_attr (key : string) (v : bool) : attr := (key, VBool v).
(* go: internal/logging/attrs.go 63-65 Int *)
Definition Int_attr (key : string) (v : Z) : attr := (key, VInt64 v).
(* go: internal/logging/attrs.go 67-69 Int64 *)
Definition Int64_attr (key : string) (v : Z) : attr := (key, VInt64 v).
(* go: internal/logging/attrs.go 71-73 Uint64 *)
Definition Uint64_attr (key : string) (v : Z) : attr := (key, VUint64 v).
(* go: internal/logging/attrs.go 75-77 Duration *)
Definition Duration_attr (key : string) (v : Z) : attr := (key, VDuration v).
(* go: internal/logging/attrs.go 79-81 Time *)
Definition Time_attr (key : string) (v : Z) : attr := (key, VTime v).
(* go: internal/logging/attrs.go 83-85 Any *)
Definition Any_attr (key : string) (v : value) : attr := (key, v).

(* go: internal/logging/sensitive.go 194-196 isEmptyAttr *)
Definition isEmptyAttr (a : attr) : bool :=
  string_is_empty (fst a) && match snd a with VNil => true | _ => false end.

(* go: internal/logging/sensitive.go 198-206 appendGroupKey *)
Definition appendGroupKey (groups : list string) (key : string) : list string :=
  if string_is_empty key then groups else groups ++ [key].

(* go: internal/logging/sensitive.go 208-225 joinGroupKey *)
Definition joinGroupKey (groups : list string) (key : string) : string :=
  match groups with
  | [] => key
  | _ => if string_is_empty key then Join_strings "." groups else Join_strings "." (groups ++ [key])
  end.

Section Masking.
Context `{UnicodeTables}.

(* go: internal/logging/attrs.go 48-53 Err *)
Definition Err_attr (err : option (option string)) : attr :=
  match err with None => ("", VNil) | Some _ => ("error", VString (SafeErrorText err)) end.

(** An attribute with the flag that says it was replaced. *)
(* go: internal/logging/sensitive.go 118-135 redactKeyChanged *)
Definition redactKeyChanged (m : sensitiveMatcher) (a : attr) (key : string) : attr * bool :=
  if matches_key m key then ((fst a, VString Masked), true)
  else if isErrorAttrKey key then
    match snd a with
    | VString original =>
        let sanitized := SafeDiagnosticExcerpt original maxSafeErrorBytes in
        ((fst a, VString sanitized), negb (String.eqb sanitized original))
    | VAny (mkAny (Some err) _ _ _ _) => ((fst a, VString (SafeErrorText (Some err))), true)
    | _ => (a, false)
    end
  else (a, false).

(* go: internal/logging/sensitive.go 113-116 redactKey *)
Definition redactKey (m : sensitiveMatcher) (a : attr) (key : string) : attr := fst (redactKeyChanged m a key).

(** A loop over attributes that copies them only once one has changed:
    [before] are the attributes seen, [out] the copy. *)
Fixpoint copy_on_write (f : attr -> attr * bool) (l before : list attr) (out : option (list attr)) : option (list attr) :=
  match l with
  | [] => out
  | a :: l =>
      let '(next, changed) := f a in
      let out := match out with None => if changed then Some before else None | Some _ => out end in
      copy_on_write f l (before ++ [a]) (option_map (fun o => o ++ [next]) out)
  end.

(* go: internal/logging/sensitive.go 158-192 sanitizeAttr *)
Fixpoint sanitizeAttr (m : sensitiveMatcher) (groups : list string) (key : string) (v : value) : attr * bool :=
  match v with
  | VGroup children =>
      let nextGroups := appendGroupKey groups key in
      match copy_on_write (fun '(k, c) => sanitizeAttr m nextGroups k c) children [] None with
      | None => ((key, v), false)
      | Some out => ((key, VGroup out), true)
      end
  | _ =>
      if isEmptyAttr (key, v) then ((key, v), false)
      else if negb (string_is_empty key) then
        let '(next, changed) := redactKeyChanged m (key, v) (joinGroupKey groups key) in
        if changed then (next, true) else ((key, v), false)
      else ((key, v), false)
  end.

(* go: internal/logging/sensitive.go 109-111 redact *)
Definition redact (m : sensitiveMatcher) (a : attr) : attr := redactKey m a (fst a).

(* go: internal/logging/sensitive.go 137-156 sanitizeAttrs *)
Definition sanitizeAttrs (m : sensitiveMatcher) (attrs : list attr) : list attr :=
  if (length attrs =? 0)%nat || (length (sm_patterns m) =? 0)%nat then attrs
  else default attrs (copy_on_write (fun '(k, v) => sanitizeAttr m [] k v) attrs [] None).

End Masking.

(** ** The console *)

(** The texts of values that are not written out: floating-point numbers and
    groups on the console, floating-point numbers and values of type [any] in
    JSON, and [slog.Value.String] of what is no string. *)
Class Rendering : Type := {
  format_float : Z -> string;
  group_string : list attr -> string;
  json_float : Z -> string;
  json_any : any_value -> string;
  value_text : value -> string
}.

(** *** [strconv.Quote] *)

(** The code point of a rune. *)
Definition code_point (r : string) : Z :=
  match map byte_code (String.list_ascii_of_string r) with
  | [a] => a
  | [a; b] => (a - 192) * 64 + (b - 128)
  | [a; b; c] => (a - 224) * 4096 + (b - 128) * 64 + (c - 128)
  | [a; b; c; d] => (a - 240) * 262144 + (b - 128) * 4096 + (c - 128) * 64 + (d - 128)
  | _ => 0
  end.

Definition hex_digits (n : nat) (z : Z) : string :=
  fold_right (fun k s => String (hex_digit (z / 16 ^ Z.of_nat k mod 16)) s) "" (rev (seq 0 n)).

Definition IsPrint `{UnicodeTables} (r : string) : bool :=
  match r with String c EmptyString => in_range 32 126 c | _ => printable_rune r end.

Definition short_escape (z : Z) : option string :=
  if z =? 7 then Some "a" else if z =? 8 then Some "b" else if z =? 12 then Some "f" else if z =? 10 then Some "n"
  else if z =? 13 then Some "r" else if z =? 9 then Some "t" else if z =? 11 then Some "v" else None.

Definition quote_rune `{UnicodeTables} (r : rune) : string :=
  let slash := String backslash "" in
  match r with
  | BadByte c => slash +:+ "x" +:+ hex_digits 2 (byte_code c)
  | Rune r =>
      let z := code_point r in
      if (z =? 34) || (z =? 92) then slash +:+ r
      else if IsPrint r then r
      else match short_escape z with
           | Some e => slash +:+ e
           | None =>
               if (z <? 32) || (z =? 127) then slash +:+ "x" +:+ hex_digits 2 z
               else if z <? 65536 then slash +:+ "u" +:+ hex_digits 4 z
               else slash +:+ "U" +:+ hex_digits 8 z
           end
  end.

Definition Quote `{UnicodeTables} (s : string) : string :=
  dquote +:+ fold_right (fun r t => quote_rune r +:+ t) "" (runes s) +:+ dquote.

(** *** Fields *)

(* go: internal/logging/console_handler.go 25-25 consoleFieldSeparator *)
Definition consoleFieldSeparator : string := "  │  ".
(* go: internal/logging/console_handler.go 26-26 consoleEventKey *)
Definition consoleEventKey : string := "event".

(* go: internal/logging/console_handler.go 28-30 consoleFieldPriorityNormal *)
Definition consoleFieldPriorityNormal : Z := 0.
Definition consoleFieldPriorityAmount : Z := 1.
Definition consoleFieldPriorityProminent : Z := 2.

(* go: internal/logging/console_handler.go 33-36 consoleField *)
Record consoleField : Type := mkField { cf_text : string; cf_priority : Z }.

(* go: internal/logging/console_handler.go 38-43 consoleFieldPresentation *)
Record consoleFieldPresentation : Type := mkPresentation {
  fp_label : string;
  fp_unit : string;
  fp_highlight : bool;
  fp_priority : Z
}.

Definition labelled (label : string) : consoleFieldPresentation := mkPresentation label "" false 0.
Definition usdc (label : string) (priority : Z) : consoleFieldPresentation := mkPresentation label "USDC" true priority.

(* go: internal/logging/console_handler.go 47-109 consoleFieldPresentations *)
Definition consoleFieldPresentations : list (string * consoleFieldPresentation) :=
  [("accepted", labelled "Accepted"); ("account_kind", labelled "Account type"); ("action_id", labelled "Action ID");
   ("action_kind", labelled "Action"); ("address", labelled "Address"); ("alert_key", labelled "Alert");
   ("amount", usdc "Amount" consoleFieldPriorityProminent); ("attempt", labelled "Attempt");
   ("attempt_count", labelled "Attempts"); ("attempts", labelled "Attempts");
   ("available", usdc "Available" consoleFieldPriorityAmount); ("aws_region", labelled "AWS region");
   ("balance_observed", labelled "Balance observed"); ("builder", labelled "Builder"); ("builder_count", labelled "Builders");
   ("claim_balance_visible", labelled "Claim visible"); ("claimable_usdc", usdc "Claimable" consoleFieldPriorityProminent);
   ("coin", labelled "Coin"); ("component", labelled "Component"); ("current_exists", labelled "Saved run found");
   ("data_dir", labelled "Data directory"); ("decreased", labelled "Decreased"); ("dex", labelled "DEX");
   ("eligible", labelled "Eligible"); ("error", labelled "Error"); ("evidence", labelled "Evidence");
   ("fencing_token", labelled "Fencing token"); ("hold", usdc "Hold" consoleFieldPriorityAmount);
   ("last_available", usdc "Last available" consoleFieldPriorityAmount); ("last_total", usdc "Last total" consoleFieldPriorityAmount);
   ("next_run_at", labelled "Next run"); ("notification_kind", labelled "Notification"); ("operation", labelled "Operation");
   ("outcome", labelled "Outcome"); ("owner_id", labelled "Owner ID"); ("payout_total", usdc "Payout" consoleFieldPriorityProminent);
   ("phase", labelled "Phase"); ("primary_invalid", labelled "Primary invalid"); ("query_kind", labelled "Query");
   ("raw_total", usdc "Raw total" consoleFieldPriorityAmount); ("reason", labelled "Reason"); ("recipient", labelled "Recipient");
   ("recipient_count", labelled "Recipients"); ("record_count", labelled "Records");
   ("recovered_from_backup", labelled "Recovered from backup"); ("rejected", labelled "Rejected");
   ("requests_remaining", labelled "Requests left"); ("response", labelled "Response"); ("run_id", labelled "Run ID");
   ("run_on_start", labelled "Run on start"); ("settlement", labelled "Settlement");
   ("settlement_total_before", usdc "Settlement before" consoleFieldPriorityAmount); ("signer_count", labelled "Signers");
   ("sufficient", labelled "Sufficient"); ("threshold_usdc", usdc "Threshold" consoleFieldPriorityAmount);
   ("total", usdc "Total" consoleFieldPriorityAmount); ("total_before", usdc "Before" consoleFieldPriorityAmount);
   ("trigger", labelled "Trigger"); ("unavailable_duration", labelled "Unavailable"); ("wait", labelled "Wait");
   ("warning_count", labelled "Warnings")].

Definition presentation (leaf : string) : consoleFieldPresentation :=
  match List.find (fun p => String.eqb (fst p) leaf) consoleFieldPresentations with
  | Some (_, p) => p
  | None => labelled ""
  end.

(** [strings.Split] by one byte. *)
Fixpoint split_byte (sep : ascii) (s word : string) : list string :=
  match s with
  | EmptyString => [word]
  | String c s => if Ascii.eqb c sep then word :: split_byte sep s "" else split_byte sep s (word +:+ String c "")
  end.
Definition Split (sep : ascii) (s : string) : list string := split_byte sep s "".

(** The names that are written in capitals. *)
Definition acronyms : list (string * string) :=
  [("aws", "AWS"); ("ddb", "DDB"); ("dex", "DEX"); ("http", "HTTP"); ("id", "ID"); ("json", "JSON"); ("mysql", "MySQL");
   ("pk", "PK"); ("url", "URL"); ("usdc", "USDC")].

(** [strings.ToUpper(word[:1]) + word[1:]], for a first byte in ASCII; a first
    byte beyond it is not valid text by itself and becomes U+FFFD. *)
Definition capitalize (word : string) : string :=
  match word with
  | EmptyString => ""
  | String c rest => (if in_range 0 127 c then String (upper_ascii c) "" else replacement) +:+ rest
  end.

Section Console.
Context `{UnicodeTables} `{Rendering}.

(** [strings.ToLower] on any text. *)
Definition ToLower (s : string) : string := map_runes ToLowerRune s.

(* go: internal/logging/console_handler.go 329-355 humanizeConsoleKey *)
Definition humanize_word (index : nat) (word : string) : string :=
  match List.find (fun p => String.eqb (fst p) (ToLower word)) acronyms with
  | Some (_, name) => name
  | None => if (index =? 0)%nat then capitalize (ToLower word) else ToLower word
  end.

(* go: internal/logging/console_handler.go 326-358 humanizeConsoleKey *)
Definition humanizeConsoleKey (key : string) : string := Join_strings " " (imap humanize_word (Split "_" key)).

(* go: internal/logging/console_handler.go 314-324 formatConsoleLabel *)
Definition formatConsoleLabel (key leafLabel : string) : string :=
  let parts := Split "." key in
  Join_strings " / " (imap (fun index part =>
    if (index =? length parts - 1)%nat && negb (string_is_empty leafLabel) then leafLabel else humanizeConsoleKey part) parts).

(* go: internal/logging/console_handler.go 413-426 formatConsoleFieldValue *)
Definition formatConsoleFieldValue (v : string) : string :=
  if string_is_empty v then dquote +:+ dquote
  else if Contains v "│" then Quote v
  else if existsb (fun r => is_control (rune_value r)) (runes v) then Quote v
  else v.

(** The part of a key after its last point. *)
Definition leaf_of (key : string) : string := List.last (Split "." key) "".

(* go: internal/logging/console_handler.go 17-22 ansiReset *)
Definition ansi (code : string) : string := bytes_of [27] +:+ "[" +:+ code +:+ "m".

(* go: internal/logging/console_handler.go 280-296 formatField *)
Definition formatField (color : bool) (key v : string) : consoleField :=
  let p := presentation (leaf_of key) in
  let v := formatConsoleFieldValue v in
  let v := if negb (string_is_empty (fp_unit p)) && negb (existsb (String.eqb v) [Masked; "<nil>"; dquote +:+ dquote])
           then v +:+ " " +:+ fp_unit p else v in
  let field := formatConsoleLabel key (fp_label p) +:+ ": " +:+ v in
  mkField (if color && fp_highlight p then ansi "1;36" +:+ field +:+ ansi "0" else field) (fp_priority p).

(* go: internal/logging/console_handler.go 298-312 orderConsoleFields *)
Definition orderConsoleFields (fields : list consoleField) : list string :=
  flat_map (fun priority => map cf_text (List.filter (fun f => cf_priority f =? priority) fields))
    [consoleFieldPriorityProminent; consoleFieldPriorityAmount; consoleFieldPriorityNormal].

(* go: internal/logging/console_handler.go 360-365 joinKey *)
Definition joinKey (prefix key : string) : string :=
  if string_is_empty prefix then key else prefix +:+ "." +:+ key.

Fixpoint zero_padded (k : nat) (r : Z) : string :=
  match k with O => "" | S k => String (digit_char (r / 10 ^ Z.of_nat k mod 10)) (zero_padded k r) end.

(** In UTC, with microseconds. *)
(* go: internal/logging/console_handler.go 396-398 formatConsoleTime *)
Definition formatConsoleTime (t : Z) : string :=
  let r := t mod Day in
  FormatDateOnly t +:+ "T" +:+ two_digits (r / Hour) +:+ ":" +:+ two_digits (r mod Hour / Minute) +:+ ":" +:+
  two_digits (r mod Minute / Second) +:+ "." +:+ zero_padded 6 (r mod Second / Microsecond) +:+ "Z".

(* go: internal/logging/console_handler.go 400-411 formatAny *)
Definition formatAny (a : any_value) : option string :=
  match an_stringer a with
  | Some text => text
  | None => Some (default (an_sprint a) (an_json a))
  end.

(* go: internal/logging/console_handler.go 367-394 formatValue *)
Definition formatValue (v : value) : option string :=
  match Resolve v with
  | VString s => Some s
  | VTime t => Some (formatConsoleTime t)
  | VDuration d => Some (Duration_string d)
  | VBool b => Some (if b then "yes" else "no")
  | VInt64 z | VUint64 z => Some (itoa z)
  | VFloat64 bits => Some (format_float bits)
  | VNil => Some "<nil>"
  | VAny a => formatAny a
  | VGroup attrs => Some (group_string attrs)
  | VLogValuer _ => None
  end.

(** What a record has put together so far. *)
Record console_line : Type := mkLine { cl_fields : list consoleField; cl_prefix : string; cl_separator : bool }.

Definition add_field (f : consoleField) (l : console_line) : console_line :=
  mkLine (cl_fields l ++ [f]) (cl_prefix l) (cl_separator l).

(* go: internal/logging/console_handler.go 111-120 consoleHandler *)
Record consoleHandler : Type := mkConsole {
  ch_level : Z;
  ch_addSource : bool;
  ch_color : bool;
  ch_matcher : sensitiveMatcher;
  ch_attrs : list attr;
  ch_groups : list string
}.

(** The keys that only matter for the line as a whole. *)
(* go: internal/logging/console_handler.go 210-233 appendAttr *)
Definition presentation_attr (prefix key : string) (v : value) (l : console_line) : option (option console_line) :=
  if String.eqb key consoleEventKey then Some (Some l)
  else if String.eqb key consolePrefixKey then
    Some (if string_is_empty prefix
          then option_map (fun text => mkLine (cl_fields l) text (cl_separator l)) (formatValue v) else Some l)
  else if String.eqb key consoleSeparatorKey then
    Some (Some (if string_is_empty prefix
                then match Resolve v with VBool b => mkLine (cl_fields l) (cl_prefix l) b | _ => l end else l))
  else None.

(** A value that is no group, under its path. *)
(* go: internal/logging/console_handler.go 247-260 appendAttr *)
Definition append_leaf (h : consoleHandler) (path key : string) (v : value) (l : console_line) : option console_line :=
  let next := redactKey (ch_matcher h) (key, v) path in
  if string_is_empty key then Some l
  else option_map (fun text => add_field (formatField (ch_color h) path text) l) (formatValue (snd next)).

(* go: internal/logging/console_handler.go 198-261 appendAttr *)
Fixpoint appendAttr (h : consoleHandler) (prefix key : string) (v : value) (l : console_line) : option console_line :=
  if isEmptyAttr (key, v) then Some l
  else match presentation_attr prefix key v l with
  | Some r => r
  | None =>
      let path := joinKey prefix key in
      let sensitive := negb (string_is_empty key) && matches_key (ch_matcher h) path in
      if negb (is_group v) && sensitive then Some (add_field (formatField (ch_color h) path Masked) l)
      else
        (fix resolved (v : value) : option console_line :=
           match v with
           | VLogValuer v => resolved v
           | VGroup children =>
               fold_left (fun acc child => match acc with
                                           | Some l => appendAttr h path (fst child) (snd child) l
                                           | None => None
                                           end) children (Some l)
           | _ => append_leaf h path key v l
           end) v
  end.

(** *** Levels *)

Definition LevelDebug : Z := -4.
Definition LevelInfo : Z := 0.
Definition LevelWarn : Z := 4.
Definition LevelError : Z := 8.

(** [slog.Level.String]: the level below, and the distance from it. *)
Definition Level_String (level : Z) : string :=
  let above base distance :=
    if distance =? 0 then base else base +:+ (if distance <? 0 then "" else "+") +:+ itoa distance in
  if level <? LevelInfo then above "DEBUG" (level - LevelDebug)
  else if level <? LevelWarn then above "INFO" (level - LevelInfo)
  else if level <? LevelError then above "WARN" (level - LevelWarn)
  else above "ERROR" (level - LevelError).

(* go: internal/logging/options.go 80-93 levelName *)
Definition levelName (level : Z) : string :=
  if level =? LevelDebug then "DEBUG" else if level =? LevelInfo then "INFO" else if level =? LevelWarn then "WARN"
  else if level =? LevelError then "ERROR" else Level_String level.

(* go: internal/logging/console_handler.go 263-278 formatLevel *)
Definition formatLevel (color : bool) (level : Z) : string :=
  let name := levelName level in
  let text := name +:+ String.concat "" (repeat " " (5 - length (runes name))) in
  if negb color then text
  else ansi (if LevelError <=? level then "31" else if LevelWarn <=? level then "33"
             else if level <=? LevelDebug then "36" else "32") +:+ text +:+ ansi "0".

(* go: internal/logging/console_handler.go 164-171 Handle *)
Definition console_text (h : consoleHandler) (when level : Z) (message : string) (l : console_line) : string :=
  let message := if string_is_empty (cl_prefix l) then message else cl_prefix l +:+ " " +:+ message in
  let line := formatConsoleTime when +:+ " " +:+ formatLevel (ch_color h) level +:+ " " +:+ message in
  if (length (cl_fields l) =? 0)%nat then line
  else line +:+ consoleFieldSeparator +:+ Join_strings consoleFieldSeparator (orderConsoleFields (cl_fields l)).

(** [source] is the place of the call, when it is wanted and known. *)
(* go: internal/logging/console_handler.go 143-181 Handle *)
Definition Handle (h : consoleHandler) (when level : Z) (message : string) (source : option string) (attrs : list attr)
    : option string :=
  let prefix := Join_strings "." (ch_groups h) in
  let add acc a := match acc with Some l => appendAttr h prefix (fst a) (snd a) l | None => None end in
  match fold_left add (ch_attrs h ++ attrs) (Some (mkLine [] "" false)) with
  | None => None
  | Some l =>
      let l := match source with
               | Some s => if ch_addSource h then add_field (formatField (ch_color h) "source" s) l else l
               | None => l
               end in
      let newline := bytes_of [10] in
      Some ((if cl_separator l then newline else "") +:+ console_text h when level message l +:+ newline)
  end.

(* go: internal/logging/console_handler.go 183-187 WithAttrs *)
Definition WithAttrs (h : consoleHandler) (attrs : list attr) : consoleHandler :=
  mkConsole (ch_level h) (ch_addSource h) (ch_color h) (ch_matcher h) (ch_attrs h ++ attrs) (ch_groups h).

(* go: internal/logging/console_handler.go 189-196 WithGroup *)
Definition WithGroup (h : consoleHandler) (name : string) : consoleHandler :=
  if string_is_empty name then h
  else mkConsole (ch_level h) (ch_addSource h) (ch_color h) (ch_matcher h) (ch_attrs h) (ch_groups h ++ [name]).

(* go: internal/logging/console_handler.go 122-137 newConsoleHandler *)
Definition newConsoleHandler (level : Z) (addSource color : bool) (sensitiveKeys : list string) : consoleHandler :=
  mkConsole level addSource color (newSensitiveMatcher sensitiveKeys) [] [].
End Console.

(** ** Places in the source *)

(** *** Paths

    [path/filepath] on Unix.  A path is cut at its slashes. *)

Definition slash : ascii := "/"%char.

Definition rooted (s : string) : bool := HasPrefix s "/".

(** The path_elements that are left of a path; [out] are those before, in reverse
    order. *)
Fixpoint clean_parts (is_rooted : bool) (parts out : list string) : list string :=
  match parts with
  | [] => rev out
  | part :: parts =>
      if string_is_empty part || String.eqb part "." then clean_parts is_rooted parts out
      else if String.eqb part ".." then
        match out with
        | prev :: rest =>
            if String.eqb prev ".." then clean_parts is_rooted parts (part :: out) else clean_parts is_rooted parts rest
        | [] => clean_parts is_rooted parts (if is_rooted then [] else [part])
        end
      else clean_parts is_rooted parts (part :: out)
  end.

(** [filepath.Clean]. *)
Definition Clean (s : string) : string :=
  let body := Join_strings "/" (clean_parts (rooted s) (Split slash s) []) in
  if rooted s then "/" +:+ body else if string_is_empty body then "." else body.

(** [filepath.Join] of two parts that are not empty. *)
Definition Join_path (dir name : string) : string := Clean (dir +:+ "/" +:+ name).

(** [filepath.Dir]: the path up to its last slash. *)
Definition Dir (s : string) : string :=
  match removelast (Split slash s) with
  | [] => Clean ""
  | parts => Clean (Join_strings "/" parts +:+ "/")
  end.

(** [path.Base]: the last element, without the slashes after it. *)
Definition Base (s : string) : string :=
  if string_is_empty s then "."
  else match List.filter (fun part => negb (string_is_empty part)) (Split slash s) with
       | [] => "/"
       | parts => List.last parts ""
       end.

(** The path_elements after the common ones. *)
Fixpoint after_common (base targ : list string) : list string * list string :=
  match base, targ with
  | b :: base', t :: targ' => if String.eqb b t then after_common base' targ' else (base, targ)
  | _, _ => (base, targ)
  end.

(** The path_elements of a clean path. *)
Definition path_elements (s : string) : list string := List.filter (fun part => negb (string_is_empty part)) (Split slash s).

(** [filepath.Rel]; [None] is an error. *)
Definition Rel (basepath targpath : string) : option string :=
  let base := Clean basepath in
  let targ := Clean targpath in
  if String.eqb targ base then Some "."
  else
    let base := if String.eqb base "." then "" else base in
    if negb (Bool.eqb (rooted base) (rooted targ)) then None
    else match after_common (path_elements base) (path_elements targ) with
         | (".." :: _, _ :: _) => None
         | (up, down) => Some (Join_strings "/" (map (fun _ => "..") up ++ down))
         end.

(** The text after the last occurrence of [marker]. *)
Fixpoint after_last (marker s : string) : option string :=
  match s with
  | EmptyString => strip marker s
  | String _ r => match after_last marker r with Some t => Some t | None => strip marker s end
  end.

(** *** Source files *)

(** What the process asks of its surroundings: the working directory, whether
    a file is there, and the path of the main module in the build info. *)
Record host : Type := mkHost {
  Getwd : result string;
  Stat : string -> bool;
  ReadBuildInfo : option string
}.

(** The root that was found and, once it was asked for, the module's name. *)
(* go: internal/logging/source_path.go 15-20 sourceRootDir *)
Record source_cache : Type := mkSourceCache { sourceRootDir : string; sourceModuleName : option string }.

Section SourcePath.
Variable env : host.

(** The loop over the parents; [fuel] bounds their number. *)
(* go: internal/logging/source_path.go 102-111 findSourceRootDirectory *)
Fixpoint search_root (fuel : nat) (wd : string) : string :=
  match fuel with
  | O => ""
  | S fuel =>
      if Stat env (Join_path wd "go.mod") then wd
      else
        let parent := Dir wd in
        if String.eqb parent wd then "" else search_root fuel parent
  end.

(* go: internal/logging/source_path.go 97-112 findSourceRootDirectory *)
Definition findSourceRootDirectory : string :=
  match Getwd env with
  | Err _ => ""
  | Ok wd => search_root (S (S (String.length wd))) wd
  end.

(* go: internal/logging/source_path.go 84-95 sourceRootDirectory *)
Definition sourceRootDirectory (c : source_cache) : string * source_cache :=
  if negb (string_is_empty (sourceRootDir c)) then (sourceRootDir c, c)
  else
    let root := findSourceRootDirectory in
    (root, if string_is_empty root then c else mkSourceCache root (sourceModuleName c)).

(* go: internal/logging/source_path.go 125-135 moduleDirectoryName *)
Definition moduleDirectoryName (modulePath : string) : string :=
  let modulePath := TrimSpace modulePath in
  if string_is_empty modulePath || String.eqb modulePath "command-line-arguments" then ""
  else
    let name := Base modulePath in
    if String.eqb name "." || String.eqb name "/" then "" else name.

(* go: internal/logging/source_path.go 114-123 sourceModuleDirectoryName *)
Definition sourceModuleDirectoryName (c : source_cache) : string * source_cache :=
  match sourceModuleName c with
  | Some name => (name, c)
  | None =>
      let name := match ReadBuildInfo env with Some path => moduleDirectoryName path | None => "" end in
      (name, mkSourceCache (sourceRootDir c) (Some name))
  end.

(* go: internal/logging/source_path.go 68-82 trimSourceFileByProjectRoot *)
Definition trimSourceFileByProjectRoot (c : source_cache) (file : string) : option string * source_cache :=
  let '(root, c) := sourceRootDirectory c in
  (if string_is_empty root then None
   else match Rel root file with
        | None => None
        | Some rel =>
            if String.eqb rel "." || String.eqb rel ".." || HasPrefix rel "../" || HasPrefix rel "/" then None else Some rel
        end, c).

(* go: internal/logging/source_path.go 45-66 trimSourceFile *)
Definition trimSourceFile (c : source_cache) (file : string) : string * source_cache :=
  if string_is_empty file then ("", c)
  else match trimSourceFileByProjectRoot c file with
  | (Some rel, c) => (rel, c)
  | (None, c) =>
      let '(rootName, c) := sourceModuleDirectoryName c in
      (if string_is_empty rootName then file
       else match after_last ("/" +:+ rootName +:+ "/") file with
            | Some rest => rest
            | None => match strip (rootName +:+ "/") file with Some rest => rest | None => file end
            end, c)
  end.
End SourcePath.

(** A place as a value: the struct, or a pointer to it. *)
Definition source_any (pointer : bool) (s : Source) : any_value :=
  mkAny None None
    (Some (encode (JObj [("function", JStr (Function_ s)); ("file", JStr (File s)); ("line", JNum (itoa (Line s)))])))
    ((if pointer then "&" else "") +:+ "{" +:+ Function_ s +:+ " " +:+ File s +:+ " " +:+ itoa (Line s) +:+ "}")
    (SlogSource pointer s).

(** A level as a value. *)
Definition level_any (level : Z) : any_value :=
  mkAny None (Some (Some (Level_String level))) (Some (dquote +:+ Level_String level +:+ dquote)) (Level_String level)
    (SlogLevel level).

(** ** The handlers

    [trim] is [trimSourceFile] with what the process has remembered of its
    surroundings. *)

Section Handlers.
Context `{UnicodeTables} `{Rendering}.
Variable trim : string -> string.

(* go: internal/logging/source_path.go 39-43 source *)
Definition source_text (s : Source) : string := trim (File s) +:+ ":" +:+ itoa (Line s).

(* go: internal/logging/source_path.go 22-37 trimSourceAttr *)
Definition trimSourceAttr (a : attr) : attr :=
  match snd a with
  | VAny any =>
      match an_slog any with
      | SlogSource pointer s => (fst a, VAny (source_any pointer (mkSource (Function_ s) (trim (File s)) (Line s))))
      | _ => a
      end
  | _ => a
  end.

(** The level as text. *)
(* go: internal/logging/logger.go 81-86 redactReplaceAttr *)
Definition level_attr (v : value) : attr :=
  ("level", VString (match v with
                     | VAny any => match an_slog any with SlogLevel level => levelName level | _ => value_text v end
                     | VString s => s
                     | _ => value_text v
                     end)).

(** What the JSON handler writes for an attribute; asking a value for a time
    that it is not panics. *)
(* go: internal/logging/logger.go 75-95 redactReplaceAttr *)
Definition redactReplaceAttr (m : sensitiveMatcher) (groups : list string) (a : attr) : option attr :=
  if String.eqb (fst a) "time" then match snd a with VTime t => Some ("time", VTime t) | _ => None end
  else if String.eqb (fst a) "level" then Some (level_attr (snd a))
  else if String.eqb (fst a) "source" then Some (trimSourceAttr a)
  else if String.eqb (fst a) consolePrefixKey || String.eqb (fst a) consoleSeparatorKey then Some ("", VNil)
  else Some (redactKey m a (joinGroupKey groups (fst a))).

(** *** [slog.JSONHandler] *)

(** A string: neither HTML nor the characters beyond ASCII are escaped,
    except the line separators. *)
Definition slog_rune (r : rune) : string :=
  let backslash := String backslash "" in
  match r with
  | BadByte _ => backslash +:+ "ufffd"
  | Rune r =>
      let z := code_point r in
      if (z =? 34) || (z =? 92) then backslash +:+ r
      else if z =? 10 then backslash +:+ "n"
      else if z =? 13 then backslash +:+ "r"
      else if z =? 9 then backslash +:+ "t"
      else if (z <? 32) || (z =? 8232) || (z =? 8233) then backslash +:+ "u" +:+ hex_digits 4 z
      else r
  end.
Definition slog_string (s : string) : string := dquote +:+ fold_right (fun r t => slog_rune r +:+ t) "" (runes s) +:+ dquote.

(** A value that is neither a group nor resolves itself. *)
Definition json_value (v : value) : string :=
  match v with
  | VString s => slog_string s
  | VBool b => if b then "true" else "false"
  | VInt64 z | VUint64 z | VDuration z => itoa z
  | VFloat64 bits => json_float bits
  | VTime t => match format_time t with
               | Some text => slog_string text
               | None => slog_string "!ERROR:time.Time year outside of range [0,9999]"
               end
  | VNil => "null"
  | VAny any => json_any any
  | VGroup _ | VLogValuer _ => ""
  end.

Definition json_field (key : string) (v : value) : string := slog_string key +:+ ":" +:+ json_value v.

Definition json_group (key : string) (fields : list string) : list string :=
  if (length fields =? 0)%nat || string_is_empty key then fields
  else [slog_string key +:+ ":{" +:+ Join_strings "," fields +:+ "}"].

Definition both (a b : option (list string)) : option (list string) :=
  match a, b with Some l, Some l' => Some (l ++ l') | _, _ => None end.

(** A value that is no group, after the replacement; [inner] are the groups
    of what is inside it. *)
Definition json_replaced (inner : list string) (m : sensitiveMatcher) (a : attr) : option (list string) :=
  let v := Resolve (snd a) in
  if isEmptyAttr (fst a, v) then Some []
  else match v with
  | VAny (mkAny _ _ _ _ (SlogSource true s)) =>
      let parts := List.filter (fun part => negb (isEmptyAttr part))
        [(if string_is_empty (Function_ s) then ("", VNil) else ("function", VString (Function_ s)));
         (if string_is_empty (File s) then ("", VNil) else ("file", VString (File s)));
         (if Line s =? 0 then ("", VNil) else ("line", VInt64 (Line s)))] in
      option_map (json_group (fst a))
        (fold_right (fun part rest =>
           both (option_map (fun a => [json_field (fst a) (snd a)]) (redactReplaceAttr m inner part)) rest) (Some []) parts)
  | _ => Some [json_field (fst a) v]
  end.

Definition json_leaf (m : sensitiveMatcher) (groups inner : list string) (a : attr) : option (list string) :=
  match redactReplaceAttr m groups a with Some a => json_replaced inner m a | None => None end.

Fixpoint json_attr (m : sensitiveMatcher) (groups : list string) (key : string) (v : value) : option (list string) :=
  match v with
  | VLogValuer v => json_attr m groups key v
  | VGroup children =>
      option_map (json_group key)
        (fold_left (fun acc child => both acc (json_attr m (appendGroupKey groups key) (fst child) (snd child)))
           children (Some []))
  | _ => json_leaf m groups (appendGroupKey groups key) (key, v)
  end.

Definition json_attrs (m : sensitiveMatcher) (attrs : list attr) : option (list string) :=
  fold_left (fun acc a => both acc (json_attr m [] (fst a) (snd a))) attrs (Some []).

(** The attributes of [WithAttrs] are written when they are given. *)
Record jsonHandler : Type := mkJsonHandler {
  jh_level : Z;
  jh_addSource : bool;
  jh_matcher : sensitiveMatcher;
  jh_preformatted : list string
}.

Definition json_handle (h : jsonHandler) (when level : Z) (message : string) (source : option Source) (attrs : list attr)
    : option string :=
  let builtin a := json_leaf (jh_matcher h) [] [] a in
  let fields :=
    both (if IsZero when then Some [] else builtin ("time", VTime when))
    (both (builtin ("level", VAny (level_any level)))
    (both (if jh_addSource h then builtin ("source", VAny (source_any true (default (mkSource "" "" 0) source))) else Some [])
    (both (builtin ("msg", VString message))
    (both (Some (jh_preformatted h)) (json_attrs (jh_matcher h) attrs))))) in
  option_map (fun fields => "{" +:+ Join_strings "," fields +:+ "}" +:+ bytes_of [10]) fields.

(** *** Either *)

Inductive handler : Type := ConsoleH (h : consoleHandler) | JsonH (h : jsonHandler).

Definition handler_level (h : handler) : Z := match h with ConsoleH h => ch_level h | JsonH h => jh_level h end.

(* go: internal/logging/console_handler.go 139-141 Enabled *)
Definition Enabled (h : handler) (level : Z) : bool := handler_level h <=? level.

Definition handler_WithAttrs (h : handler) (attrs : list attr) : option handler :=
  match h with
  | ConsoleH h => Some (ConsoleH (WithAttrs h attrs))
  | JsonH h =>
      option_map (fun texts => JsonH (mkJsonHandler (jh_level h) (jh_addSource h) (jh_matcher h) (jh_preformatted h ++ texts)))
        (json_attrs (jh_matcher h) attrs)
  end.

Definition handler_Handle (h : handler) (when level : Z) (message : string) (source : option Source) (attrs : list attr)
    : option string :=
  match h with
  | ConsoleH h => Handle h when level message (option_map source_text source) attrs
  | JsonH h => json_handle h when level message source attrs
  end.
End Handlers.

(** ** Options *)

Section Options.
Context `{UnicodeTables}.

(* go: internal/logging/options.go 11-23 FormatConsole *)
Definition FormatConsole : string := "console".
Definition FormatJSON : string := "json".
Definition ColorAuto : string := "auto".
Definition ColorNever : string := "never".

Definition normal (v : string) : string := ToLower (TrimSpace v).

(* go: internal/logging/options.go 24-37 ParseLevel *)
Definition ParseLevel (v : string) : Z * option error :=
  if existsb (String.eqb (normal v)) [""; "info"] then (LevelInfo, None)
  else if String.eqb (normal v) "debug" then (LevelDebug, None)
  else if String.eqb (normal v) "warn" then (LevelWarn, None)
  else if String.eqb (normal v) "error" then (LevelError, None)
  else (LevelInfo, Some (Errorf "unknown log level %q" [v])).

(** [None] is a panic. *)
(* go: internal/logging/options.go 39-45 MustParseLevel *)
Definition MustParseLevel (v : string) : option Z :=
  match ParseLevel v with (level, None) => Some level | (_, Some _) => None end.

(* go: internal/logging/options.go 95-104 normalizeFormat *)
Definition normalizeFormat (v : string) : string :=
  if String.eqb (normal v) FormatConsole then FormatConsole
  else if existsb (String.eqb (normal v)) [""; FormatJSON] then FormatJSON
  else FormatConsole.

(* go: internal/logging/options.go 106-115 normalizeColor *)
Definition normalizeColor (v : string) : string :=
  if existsb (String.eqb (normal v)) [""; ColorAuto] then ColorAuto
  else if String.eqb (normal v) ColorNever then ColorNever
  else ColorAuto.

(** [os.ModeCharDevice]. *)
Definition ModeCharDevice : Z := Z.shiftl 1 21.

(** A writer: [None] is no file, else the mode of the file or the error of
    asking for it. *)
Definition output : Type := option (result Z).

(* go: internal/logging/options.go 117-133 shouldColor *)
Definition shouldColor (format color : string) (out : output) : bool :=
  if negb (String.eqb format FormatConsole) then false
  else if String.eqb (normalizeColor color) ColorNever then false
  else match out with
       | Some (Ok mode) => negb (Z.land mode ModeCharDevice =? 0)
       | _ => false
       end.
End Options.

(** ** The logger *)

(* go: internal/logging/logger.go 21-29 Config *)
Record LogConfig : Type := mkLogConfig {
  lc_Format : string;
  lc_Level : string;
  lc_Output : option output;
  lc_AddSource : bool;
  lc_Component : string;
  lc_Color : string;
  lc_SensitiveKeys : list string
}.

(** The zero value has no handler. *)
(* go: internal/logging/logger.go 31-35 Logger *)
Record Logger : Type := mkLogger { lo_handler : option handler; lo_addSource : bool; lo_matcher : sensitiveMatcher }.

Definition zero_Logger : Logger := mkLogger None false (mkMatcher []).

(** What became of a call: the record was not wanted, a panic was caught, or
    the record went to the output. *)
Inductive log_outcome : Type := Unlogged | Recovered | Logged (record : string).

Section Logger.
Context `{UnicodeTables} `{Rendering}.
Variable trim : string -> string.

(** [stdout] is the standard output. *)
(* go: internal/logging/logger.go 39-73 New *)
Definition New (stdout : output) (cfg : LogConfig) : Logger :=
  let out := default stdout (lc_Output cfg) in
  let level := match ParseLevel (lc_Level cfg) with (level, None) => level | (_, Some _) => LevelInfo end in
  let sensitiveKeys := defaultSensitiveKeys ++ lc_SensitiveKeys cfg in
  let matcher := newSensitiveMatcher sensitiveKeys in
  let format := normalizeFormat (lc_Format cfg) in
  let color := normalizeColor (lc_Color cfg) in
  let h := if String.eqb format FormatConsole
           then ConsoleH (newConsoleHandler level (lc_AddSource cfg) (shouldColor format color out) sensitiveKeys)
           else JsonH (mkJsonHandler level (lc_AddSource cfg) (newSensitiveMatcher sensitiveKeys) []) in
  let h := if string_is_empty (lc_Component cfg) then Some h else handler_WithAttrs trim h [Component (lc_Component cfg)] in
  mkLogger h (lc_AddSource cfg) matcher.

(** The logger a call is for: the process-wide one in the place of a zero
    value. *)
(* go: internal/logging/logger.go 151-157 log *)
Definition base_of (dflt lg : Logger) : Logger := match lo_handler lg with Some _ => lg | None => dflt end.

(** The derived logger and what is written to the standard error. *)
(* go: internal/logging/logger.go 97-118 With *)
Definition With (dflt lg : Logger) (attrs : list attr) : Logger * list string :=
  let base := base_of dflt lg in
  match lo_handler base with
  | None => (base, [])
  | Some h =>
      match handler_WithAttrs trim h (sanitizeAttrs (lo_matcher base) attrs) with
      | Some h => (mkLogger (Some h) (lo_addSource base) (lo_matcher base), [])
      | None => (base, ["logging: recovered panic while deriving logger" +:+ bytes_of [10]])
      end
  end.

(* go: internal/logging/logger.go 120-122 WithComponent *)
Definition WithComponent (dflt lg : Logger) (component : string) : Logger * list string := With dflt lg [Component component].

(** [source] is the place of the call. *)
(* go: internal/logging/logger.go 140-174 log *)
Definition log (dflt lg : Logger) (now level : Z) (message : string) (source : Source) (attrs : list attr) : log_outcome :=
  let base := base_of dflt lg in
  match lo_handler base with
  | None => Unlogged
  | Some h =>
      if negb (Enabled h level) then Unlogged
      else match handler_Handle trim h now level message (if lo_addSource base then Some source else None)
                   (sanitizeAttrs (lo_matcher base) attrs) with
           | None => Recovered
           | Some record => Logged record
           end
  end.

(* go: internal/logging/logger.go 124-126 Debug *)
Definition Debug_log (dflt lg : Logger) (now : Z) := log dflt lg now LevelDebug.
(* go: internal/logging/logger.go 128-130 Info *)
Definition Info_log (dflt lg : Logger) (now : Z) := log dflt lg now LevelInfo.
(* go: internal/logging/logger.go 132-134 Warn *)
Definition Warn_log (dflt lg : Logger) (now : Z) := log dflt lg now LevelWarn.
(* go: internal/logging/logger.go 136-138 Error *)
Definition Error_log (dflt lg : Logger) (now : Z) := log dflt lg now LevelError.

(** *** The process-wide logger *)

(** What it is at first. *)
(* go: internal/logging/default.go 13-13 defaultLogger *)
Definition defaultLogger (stdout : output) : Logger := New stdout (mkLogConfig "" "" None false "" "" []).

(** The process-wide logger afterwards, and what is written to the standard
    error. *)
(* go: internal/logging/default.go 24-33 SetDefault *)
Definition SetDefault (dflt lg : Logger) : Logger * list string :=
  match lo_handler lg with
  | None => (dflt, ["logging: ignoring SetDefault with an uninitialized Logger (use logging.New)" +:+ bytes_of [10]])
  | Some _ => (lg, [])
  end.

(** The functions of the package log to [Default()]; those with a format have
    its text and no attributes. *)
(* go: internal/logging/default.go 41-43 Debug *)
Definition package_Debug (dflt : Logger) (now : Z) := log dflt dflt now LevelDebug.
(* go: internal/logging/default.go 45-47 Info *)
Definition package_Info (dflt : Logger) (now : Z) := log dflt dflt now LevelInfo.
(* go: internal/logging/default.go 49-51 Warn *)
Definition package_Warn (dflt : Logger) (now : Z) := log dflt dflt now LevelWarn.
(* go: internal/logging/default.go 53-55 Error *)
Definition package_Error (dflt : Logger) (now : Z) := log dflt dflt now LevelError.
(* go: internal/logging/default.go 57-59 Debugf *)
Definition package_Debugf (dflt : Logger) (now : Z) (text : string) (source : Source) := log dflt dflt now LevelDebug text source [].
(* go: internal/logging/default.go 61-63 Infof *)
Definition package_Infof (dflt : Logger) (now : Z) (text : string) (source : Source) := log dflt dflt now LevelInfo text source [].
(* go: internal/logging/default.go 65-67 Warnf *)
Definition package_Warnf (dflt : Logger) (now : Z) (text : string) (source : Source) := log dflt dflt now LevelWarn text source [].
(* go: internal/logging/default.go 69-71 Errorf *)
Definition package_Errorf (dflt : Logger) (now : Z) (text : string) (source : Source) := log dflt dflt now LevelError text source [].

(** *** Errors of the writer *)

(* go: internal/logging/logger.go 176-181 handleErrorReporter *)
Record handleErrorReporter : Type := mkReporter { re_interval : Z; re_lastReport : Z; re_suppressed : Z }.

(* go: internal/logging/logger.go 16-19 logHandleErrorReporter *)
Definition logHandleErrorReporter : handleErrorReporter := mkReporter (30 * Second) zero_time 0.

(** At most one report in an interval; the reports left out are counted. *)
(* go: internal/logging/logger.go 205-216 shouldReport *)
Definition shouldReport (r : handleErrorReporter) (now : Z) : bool * Z * handleErrorReporter :=
  if (re_interval r <=? 0) || IsZero (re_lastReport r) || (re_interval r <=? now - re_lastReport r)
  then (true, re_suppressed r, mkReporter (re_interval r) now 0)
  else (false, 0, mkReporter (re_interval r) (re_lastReport r) (re_suppressed r + 1)).

(** The text for the standard error, if there is one. *)
(* go: internal/logging/logger.go 183-203 report *)
Definition report (r : handleErrorReporter) (now level : Z) (message : string) (err : option (option string))
    : list string * handleErrorReporter :=
  match err with
  | None => ([], r)
  | Some _ =>
      let '(should, suppressed, r) := shouldReport r now in
      (if negb should then []
       else ["logging: failed to write log record" +:+ consoleFieldSeparator +:+ "Level: " +:+ levelName level +:+
             consoleFieldSeparator +:+ "Message: " +:+ Quote message +:+
             consoleFieldSeparator +:+ "Error: " +:+ SafeErrorText err +:+
             (if 0 <? suppressed then consoleFieldSeparator +:+ "Suppressed: " +:+ itoa suppressed else "") +:+
             bytes_of [10]], r)
  end.

(** What a call writes to the output and to the standard error, given the
    error of writing the record. *)
(* go: internal/logging/logger.go 140-174 log *)
Definition deliver (r : handleErrorReporter) (now level : Z) (message : string) (write : string -> option (option string))
    (o : log_outcome) : list string * list string * handleErrorReporter :=
  match o with
  | Unlogged => ([], [], r)
  | Recovered => ([], ["logging: recovered panic while emitting log" +:+ bytes_of [10]], r)
  | Logged record => let '(reports, r) := report r now level message (write record) in ([record], reports, r)
  end.
End Logger.

(** ** Secrets *)

Section Secret.
Context `{UnicodeTables}.

(* go: internal/secret/secret.go 27-29 SecretString *)
Record SecretString : Type := mkSecret { secret_value : string }.

(* go: internal/secret/secret.go 32-34 NewString *)
Definition NewString (v : string) : SecretString := mkSecret v.
(* go: internal/secret/secret.go 37-39 Reveal *)
Definition Reveal (s : SecretString) : string := secret_value s.
(* go: internal/secret/secret.go 42-44 LogValue *)
Definition LogValue (s : SecretString) : value := VString Masked.
(* go: internal/secret/secret.go 47-49 String *)
Definition secret_String (s : SecretString) : string := Masked.
(* go: internal/secret/secret.go 52-54 GoString *)
Definition secret_GoString (s : SecretString) : string := Masked.
(* go: internal/secret/secret.go 57-59 MarshalJSON *)
Definition secret_MarshalJSON (s : SecretString) : string := Quote Masked.
(* go: internal/secret/secret.go 62-64 MarshalText *)
Definition secret_MarshalText (s : SecretString) : string := Masked.
(* go: internal/secret/secret.go 67-70 UnmarshalText *)
Definition secret_UnmarshalText (s : SecretString) (text : string) : SecretString := mkSecret text.

(** A secret as an attribute. *)
Definition secret_attr (key : string) (s : SecretString) : attr := (key, VLogValuer (LogValue s)).
End Secret.
