(* ===== verification/LoggingTheorems.v ===== *)
(** * What the log may contain

    The loops that copy attributes only when one is masked compute the
    attribute-wise masking ([sanitize_is_pointwise]); values under sensitive
    keys have no influence on what is written ([log_hides_secrets]); and a
    record of the console is one line, whatever its values contain
    ([record_is_one_line]).  A place in the source is written by its path from
    the root of the module ([trimmed_below_root]), which is the nearest
    directory with a [go.mod] ([source_root_is_nearest]). *)

From Stdlib Require Import ZifyBool.
From S2P Require Import Prelude Clock Timestamp Json Text Regexp Sensitive Diagnostics Logging.

Section Masking.
Context `{UnicodeTables}.
Variable m : sensitiveMatcher.

(** ** Masking, attribute by attribute *)

Fixpoint mask (groups : list string) (key : string) (v : value) : attr :=
  match v with
  | VGroup children => (key, VGroup (map (fun '(k, c) => mask (appendGroupKey groups key) k c) children))
  | _ => if string_is_empty key then (key, v) else redactKey m (key, v) (joinGroupKey groups key)
  end.

Section ValueInd.
Variable P : value -> Prop.
Hypothesis Hgroup : forall l, Forall (fun a => P (snd a)) l -> P (VGroup l).
Hypothesis Hvaluer : forall v, P v -> P (VLogValuer v).
Hypothesis Hleaf : forall v, is_group v = false -> (forall u, v <> VLogValuer u) -> P v.

Fixpoint value_ind' (v : value) : P v :=
  match v with
  | VGroup l => Hgroup l ((fix go (l : list attr) : Forall (fun a => P (snd a)) l :=
                             match l with
                             | [] => List.Forall_nil _
                             | a :: l => List.Forall_cons _ _ _ (value_ind' (snd a)) (go l)
                             end) l)
  | VLogValuer v => Hvaluer v (value_ind' v)
  | VString s => Hleaf (VString s) eq_refl (fun u E => ltac:(discriminate))
  | VBool b => Hleaf (VBool b) eq_refl (fun u E => ltac:(discriminate))
  | VInt64 z => Hleaf (VInt64 z) eq_refl (fun u E => ltac:(discriminate))
  | VUint64 z => Hleaf (VUint64 z) eq_refl (fun u E => ltac:(discriminate))
  | VFloat64 z => Hleaf (VFloat64 z) eq_refl (fun u E => ltac:(discriminate))
  | VTime t => Hleaf (VTime t) eq_refl (fun u E => ltac:(discriminate))
  | VDuration d => Hleaf (VDuration d) eq_refl (fun u E => ltac:(discriminate))
  | VNil => Hleaf VNil eq_refl (fun u E => ltac:(discriminate))
  | VAny a => Hleaf (VAny a) eq_refl (fun u E => ltac:(discriminate))
  end.
End ValueInd.

(** An attribute that is not replaced is left as it was. *)
Lemma redactKey_unchanged a key : snd (redactKeyChanged m a key) = false -> fst (redactKeyChanged m a key) = a.
Proof.
  unfold redactKeyChanged. destruct a as [k v]. cbn [fst snd]. destruct (matches_key m key); [done|].
  destruct (isErrorAttrKey key); [|done]. destruct v as [s| | | | | | | | |[[err|] ? ? ? ?]|]; try done. cbn [fst snd].
  destruct (String.eqb_spec (SafeDiagnosticExcerpt s maxSafeErrorBytes) s) as [E|]; [by rewrite E|done].
Qed.

(** What a loop is to do with each attribute. *)
Definition computes (f : attr -> attr * bool) (g : attr -> attr) (a : attr) : Prop :=
  fst (f a) = g a /\ (snd (f a) = false -> g a = a).

Lemma copy_some f g l before out : Forall (computes f g) l -> copy_on_write f l before (Some out) = Some (out ++ map g l).
Proof.
  intros Hl. revert before out. induction Hl as [|a l [Ha _] Hl IH]; intros before out; cbn [copy_on_write map]; [by rewrite app_nil_r|].
  destruct (f a) as [next changed]. cbn in Ha. subst next. cbn [option_map]. rewrite IH. by rewrite <- app_assoc.
Qed.

Lemma copy_none f g l before : Forall (computes f g) l ->
  match copy_on_write f l before None with
  | None => map g l = l
  | Some out => out = before ++ map g l
  end.
Proof.
  intros Hl. revert before. induction Hl as [|a l [Ha Hs] Hl IH]; intros before; cbn [copy_on_write map]; [done|].
  destruct (f a) as [next changed]. cbn in Ha, Hs. subst next. destruct changed; cbn [option_map].
  - rewrite (copy_some _ _ _ _ _ Hl). by rewrite <- app_assoc.
  - rewrite (Hs eq_refl). specialize (IH (before ++ [a])). destruct (copy_on_write f l (before ++ [a]) None).
    + by rewrite <- app_assoc in IH.
    + by rewrite IH.
Qed.

Lemma sanitizeAttr_computes v groups key :
  fst (sanitizeAttr m groups key v) = mask groups key v /\
  (snd (sanitizeAttr m groups key v) = false -> mask groups key v = (key, v)).
Proof.
  revert groups key. induction v as [l IH|v _|v Hg Hv] using value_ind'; intros groups key.
  - cbn [sanitizeAttr mask]. set (f := fun '(k, c) => sanitizeAttr m (appendGroupKey groups key) k c).
    set (g := fun '(k, c) => mask (appendGroupKey groups key) k c).
    assert (Forall (computes f g) l) as Hl.
    { eapply Forall_impl; [exact IH|]. intros [k c] Hc. exact (Hc _ k). }
    change (copy_on_write _ l [] None) with (copy_on_write f l [] None).
    pose proof (copy_none f g l [] Hl) as Hc. destruct (copy_on_write f l [] None) as [out|]; cbn [fst snd]; [by subst out|change (map _ l) with (map g l); by rewrite Hc].
  - cbn [sanitizeAttr mask]. unfold isEmptyAttr. rewrite andb_false_r. destruct (string_is_empty key); [done|]. cbn [negb fst snd].
    unfold redactKey. pose proof (redactKey_unchanged (key, VLogValuer v) (joinGroupKey groups key)) as Hu.
    destruct (redactKeyChanged m (key, VLogValuer v) (joinGroupKey groups key)) as [next []]; [done|]. by rewrite (Hu eq_refl).
  - assert (mask groups key v = if string_is_empty key then (key, v) else redactKey m (key, v) (joinGroupKey groups key)) as -> by by destruct v.
    assert (sanitizeAttr m groups key v =
      if isEmptyAttr (key, v) then ((key, v), false)
      else if negb (string_is_empty key) then
        let '(next, changed) := redactKeyChanged m (key, v) (joinGroupKey groups key) in
        if changed then (next, true) else ((key, v), false)
      else ((key, v), false)) as -> by by destruct v.
    unfold isEmptyAttr. cbn [fst snd]. destruct (string_is_empty key); cbn [andb negb]; [by destruct v|].
    unfold redactKey. pose proof (redactKey_unchanged (key, v) (joinGroupKey groups key)) as Hu.
    destruct (redactKeyChanged m (key, v) (joinGroupKey groups key)) as [next []]; [done|]. by rewrite (Hu eq_refl).
Qed.

(** The logger masks attribute by attribute: the copying loops compute the
    plain masking. *)
Lemma sanitize_is_pointwise attrs : sm_patterns m <> [] ->
  sanitizeAttrs m attrs = map (fun '(k, v) => mask [] k v) attrs.
Proof.
  intros Hm. unfold sanitizeAttrs. destruct attrs as [|a attrs]; [done|]. cbn [length Nat.eqb orb].
  destruct (length (sm_patterns m)) eqn:E; [by apply nil_length_inv in E|]. cbn [Nat.eqb].
  set (f := fun '(k, v) => sanitizeAttr m [] k v). set (g := fun '(k, v) => mask [] k v).
  assert (Forall (computes f g) (a :: attrs)) as Hl by (apply Forall_forall; intros [k v] _; exact (sanitizeAttr_computes v [] k)).
  pose proof (copy_none f g _ [] Hl) as Hc. by destruct (copy_on_write f (a :: attrs) [] None) as [out|]; cbn [default]; rewrite Hc.
Qed.

(** ** Secrets *)

(** Attributes that differ only in values under sensitive keys. *)
Inductive same_but_secrets : list string -> attr -> attr -> Prop :=
| same_attr groups a : same_but_secrets groups a a
| secret_value groups key v v' :
    key <> "" -> matches_key m (joinGroupKey groups key) = true -> is_group v = false -> is_group v' = false ->
    same_but_secrets groups (key, v) (key, v')
| same_group groups key l l' :
    Forall2 (same_but_secrets (appendGroupKey groups key)) l l' -> same_but_secrets groups (key, VGroup l) (key, VGroup l').

Fixpoint masked_alike groups a a' (Hs : same_but_secrets groups a a') {struct Hs} :
  mask groups (fst a) (snd a) = mask groups (fst a') (snd a').
Proof.
  destruct Hs as [groups a|groups key v v' Hk Hm Hv Hv'|groups key l l' Hl]; cbn [fst snd].
  - reflexivity.
  - assert (forall v, is_group v = false -> mask groups key v = (key, VString Masked)) as Hmask.
    { intros u Hu. assert (mask groups key u = if string_is_empty key then (key, u) else redactKey m (key, u) (joinGroupKey groups key)) as ->
        by by destruct u. destruct key as [|c key]; [done|]. cbn [string_is_empty]. unfold redactKey, redactKeyChanged. by rewrite Hm. }
    by rewrite !Hmask.
  - cbn [mask]. do 2 f_equal. induction Hl as [|[k c] [k' c'] l l' Ha Hl IH]; [reflexivity|]. cbn [map].
    f_equal; [exact (masked_alike _ _ _ Ha)|exact IH].
Qed.

Lemma sanitized_alike l l' : sm_patterns m <> [] -> Forall2 (same_but_secrets []) l l' -> sanitizeAttrs m l = sanitizeAttrs m l'.
Proof.
  intros Hm Hl. rewrite !sanitize_is_pointwise by done. induction Hl as [|[k v] [k' v'] l l' Ha Hl IH]; [done|].
  cbn [map]. f_equal; [exact (masked_alike _ _ _ Ha)|done].
Qed.
End Masking.

Section Logger.
Context `{UnicodeTables} `{Rendering}.

Lemma patterns_of_head key keys : splitTokens key <> [] -> patterns_of (key :: keys) [] <> [].
Proof. cbn [patterns_of]. by destruct (splitTokens key). Qed.

Section Derived.
Variable trim : string -> string.
Variable stdout : output.

(** The loggers of the program: made by [New], derived with [With], taken
    from the process-wide one, or left at their zero value. *)
Inductive derived : Logger -> Prop :=
| derived_new cfg : derived (New trim stdout cfg)
| derived_with dflt lg attrs : derived dflt -> derived lg -> derived (fst (With trim dflt lg attrs))
| derived_default dflt lg : derived dflt -> derived lg -> derived (fst (SetDefault dflt lg))
| derived_zero : derived zero_Logger.

Lemma derived_base dflt lg : derived dflt -> derived lg -> derived (base_of dflt lg).
Proof. intros Hd Hl. unfold base_of. by destruct (lo_handler lg). Qed.

Lemma derived_matcher lg : derived lg -> lo_handler lg <> None -> sm_patterns (lo_matcher lg) <> [].
Proof.
  induction 1 as [cfg|dflt lg attrs _ IHd _ IHl|dflt lg _ IHd _ IHl|]; [| | |done].
  - intros _. apply patterns_of_head. by vm_compute.
  - unfold With, base_of. destruct (lo_handler lg) eqn:El.
    + rewrite El. destruct (handler_WithAttrs trim h _); cbn; intros _; by apply IHl.
    + destruct (lo_handler dflt) eqn:Ed; [|done]. destruct (handler_WithAttrs trim h _); cbn; intros _; by apply IHd.
  - unfold SetDefault. destruct (lo_handler lg); cbn; [intros _; by apply IHl|exact IHd].
Qed.

(** C37: what a logger writes does not depend on the values of sensitive keys,
    on the console and in JSON: calls whose attributes differ only in such
    values - in groups too, the path being the key - write the same text, and
    loggers derived with such attributes are the same. *)
Theorem log_hides_secrets dflt lg now level message source l l' :
  derived dflt -> derived lg -> Forall2 (same_but_secrets (lo_matcher (base_of dflt lg)) []) l l' ->
  log trim dflt lg now level message source l = log trim dflt lg now level message source l' /\
  With trim dflt lg l = With trim dflt lg l'.
Proof.
  intros Hd Hl Hs. pose proof (derived_matcher _ (derived_base _ _ Hd Hl)) as Hm. unfold log, With.
  destruct (lo_handler (base_of dflt lg)); [|done]. by rewrite (sanitized_alike _ _ _ (Hm ltac:(done)) Hs).
Qed.
End Derived.

(** ** Lines *)

(** Bytes that move neither the cursor nor the state of a terminal. *)
Definition printable_byte (c : ascii) : bool := in_range 32 126 c || in_range 128 255 c.
Definition printable (s : string) : Prop := Forall (fun c => printable_byte c = true) (String.list_ascii_of_string s).

Lemma printable_cons c s : printable (String c s) <-> printable_byte c = true /\ printable s.
Proof. unfold printable. cbn. by rewrite Forall_cons. Qed.

Lemma printable_app s t : printable (s +:+ t) <-> printable s /\ printable t.
Proof.
  induction s as [|c s IH]; cbn [String.append].
  - split; [|by intros [_ ?]]. intros Ht. split; [constructor|done].
  - rewrite !printable_cons, IH. tauto.
Qed.

Lemma printable_Join sep l : printable sep -> Forall printable l -> printable (Join_strings sep l).
Proof.
  intros Hs. induction 1 as [|x l Hx Hl IH]; [constructor|]. cbn [Join_strings]. destruct l; [done|].
  by rewrite !printable_app.
Qed.

(** The bytes of a rune beyond ASCII are printable; those of ASCII are unless
    they are controls. *)
Lemma rune_printable r : scalar r -> is_control r = false -> printable r.
Proof.
  intros Hr Hc. destruct (scalar_bytes r Hr) as (a & s & -> & Ha & Hs). apply printable_cons.
  assert (Forall (fun c => printable_byte c = true) (String.list_ascii_of_string s)) as Hrest.
  { apply Forall_forall. intros c Hc'. apply list_elem_of_split in Hc' as (p & q & E).
    assert (s = String.string_of_list_ascii p +:+ String c (String.string_of_list_ascii q)) as Es.
    { rewrite <- (String.string_of_list_ascii_of_string s), E. clear. induction p as [|x p IH]; [done|]. cbn. by f_equal. }
    specialize (Hs _ _ _ Es). unfold printable_byte, continuation, in_range in *. lia. }
  split; [|exact Hrest]. destruct s as [|b s].
  - cbn [is_control] in Hc. unfold scalar in Hr. cbn in Hr. destruct (in_range 0 127 a) eqn:Ea; [|done].
    unfold printable_byte, in_range in *. lia.
  - assert (in_range 0 127 a = false) as Ea.
    { destruct (in_range 0 127 a) eqn:Ea; [|done]. unfold scalar in Hr. cbn [decode_rune] in Hr. cbv zeta in Hr. rewrite Ea in Hr. congruence. }
    assert (byte_code a < 256) by (unfold byte_code; pose proof (nat_ascii_bounded a); lia).
    assert (0 <= byte_code a) by (unfold byte_code; lia).
    unfold printable_byte, in_range in *. lia.
Qed.

Lemma bad_byte_printable s c rest : decode_rune s = Some (BadByte c, rest) -> printable_byte c = true.
Proof.
  destruct s as [|a s]; [done|]. cbn [decode_rune]. cbv zeta. intros Hd.
  assert (in_range 0 127 a = false /\ c = a) as [Ha ->].
  { destruct (in_range 0 127 a); [congruence|]. split; [done|]. destruct s as [|b [|x [|y s]]]; repeat case_match; congruence. }
  assert (byte_code a < 256) by (unfold byte_code; pose proof (nat_ascii_bounded a); lia).
  assert (0 <= byte_code a) by (unfold byte_code; lia).
  unfold printable_byte, in_range in *. lia.
Qed.

Lemma runes_bad s : Forall (fun r => match r with BadByte c => printable_byte c = true | Rune _ => True end) (runes s).
Proof.
  induction s as [s IH] using (induction_ltof1 _ String.length). destruct s as [|c s]; [constructor|].
  destruct (decode_rune_some c s) as [[r rest] E]. rewrite (runes_decode _ _ _ E). constructor.
  - destruct r; [done|by eapply bad_byte_printable].
  - apply decode_rune_spec in E as [_ El]. by apply IH.
Qed.

Lemma text_printable l : Forall (fun r => printable (rune_text r)) l -> printable (text_of l).
Proof. induction 1 as [|r l Hr Hl IH]; [constructor|]. cbn [text_of fold_right]. by apply printable_app. Qed.

(** A text without control characters. *)
Lemma quiet_printable s : existsb (fun r => is_control (rune_value r)) (runes s) = false -> printable s.
Proof.
  intros Hc. rewrite <- (text_runes s). apply text_printable. pose proof (runes_scalar s) as Hs. pose proof (runes_bad s) as Hb.
  rewrite Forall_forall in *. intros r Hr. specialize (Hs r Hr). specialize (Hb r Hr). destruct r as [b|c]; cbn [rune_text].
  - apply rune_printable; [done|]. apply not_true_iff_false. intros Hctl. apply not_true_iff_false in Hc. apply Hc.
    apply existsb_exists. exists (Rune b). by rewrite <- list_elem_of_In.
  - by repeat constructor.
Qed.

Lemma hex_digit_printable z : 0 <= z < 16 -> printable_byte (hex_digit z) = true.
Proof.
  intros Hz. unfold hex_digit, printable_byte, in_range, byte_code. destruct (Z.ltb_spec z 10); rewrite nat_ascii_embedding by lia; lia.
Qed.

Lemma hex_digits_printable n z : printable (hex_digits n z).
Proof.
  unfold hex_digits. induction (rev (seq 0 n)) as [|k l IH]; [constructor|]. cbn [fold_right]. apply printable_cons. split; [|done].
  apply hex_digit_printable. apply Z.mod_pos_bound. lia.
Qed.

Lemma quote_rune_printable r :
  match r with Rune b => scalar b | BadByte _ => True end -> printable (quote_rune r).
Proof.
  intros Hr. destruct r as [b|c]; cbn [quote_rune].
  2: { apply printable_app. split; [by repeat constructor|]. apply printable_app. split; [by repeat constructor|apply hex_digits_printable]. }
  assert (forall e, printable e -> printable (String backslash "" +:+ e)) as Hslash.
  { intros e He. apply printable_app. split; [by repeat constructor|done]. }
  destruct (is_control b) eqn:Ec.
  - (* a control is neither a quote nor printed *)
    destruct ((code_point b =? 34) || (code_point b =? 92)) eqn:Eq.
    { apply Hslash. destruct b as [|a [|b0 [|c b]]]; try done; cbn in Ec, Eq.
      - unfold code_point in Eq. cbn in Eq. unfold in_range in Ec. lia.
      - exfalso. unfold code_point in Eq. cbn in Eq. unfold in_range in Ec. lia. }
    destruct (IsPrint b) eqn:Ep.
    { destruct b as [|a [|b0 [|c b]]]; try done.
      - cbn in Ep, Ec. unfold in_range in *. lia.
      - apply printable_cons. cbn in Ec. unfold in_range in Ec. split; [unfold printable_byte, in_range; lia|].
        apply printable_cons. split; [unfold printable_byte, in_range; lia|constructor]. }
    destruct (short_escape (code_point b)) as [e|] eqn:Ee.
    { apply Hslash. unfold short_escape in Ee. repeat (case_match; [by (injection Ee as <-; repeat constructor)|]). done. }
    repeat case_match; apply Hslash, printable_app; (split; [by repeat constructor|apply hex_digits_printable]).
  - pose proof (rune_printable b Hr Ec) as Hb. repeat case_match; try done; try by apply Hslash.
    + apply Hslash. unfold short_escape in *. by repeat (case_match; [simplify_eq; repeat constructor|]).
    + apply Hslash, printable_app. split; [by repeat constructor|apply hex_digits_printable].
    + apply Hslash, printable_app. split; [by repeat constructor|apply hex_digits_printable].
    + apply Hslash, printable_app. split; [by repeat constructor|apply hex_digits_printable].
Qed.

Lemma Quote_printable s : printable (Quote s).
Proof.
  unfold Quote. apply printable_app. split; [by repeat constructor|]. apply printable_app. split; [|by repeat constructor].
  pose proof (runes_scalar s) as Hs. induction Hs as [|r l Hr Hl IH]; [constructor|]. cbn [fold_right].
  apply printable_app. split; [by apply quote_rune_printable|done].
Qed.

(** Whatever the value is, it is written in printable bytes. *)
Lemma field_value_printable v : printable (formatConsoleFieldValue v).
Proof.
  unfold formatConsoleFieldValue. destruct (string_is_empty v); [by repeat constructor|].
  destruct (Contains v "│"); [apply Quote_printable|]. destruct (existsb _ (runes v)) eqn:E; [apply Quote_printable|].
  by apply quiet_printable.
Qed.

(** *** Labels *)

(** Keys are printable ASCII. *)
Definition plain (s : string) : Prop := Forall (fun c => in_range 32 126 c = true) (String.list_ascii_of_string s).

Lemma plain_cons c s : plain (String c s) <-> in_range 32 126 c = true /\ plain s.
Proof. unfold plain. cbn. by rewrite Forall_cons. Qed.

Lemma plain_app s t : plain (s +:+ t) <-> plain s /\ plain t.
Proof.
  induction s as [|c s IH]; cbn [String.append].
  - split; [|by intros [_ ?]]. intros Ht. split; [constructor|done].
  - rewrite !plain_cons, IH. tauto.
Qed.

Lemma plain_printable s : plain s -> printable s.
Proof. intros Hs. eapply Forall_impl; [exact Hs|]. intros c Hc. unfold printable_byte. by rewrite Hc. Qed.

Lemma Split_plain sep s word : plain s -> plain word -> Forall plain (split_byte sep s word).
Proof.
  revert word. induction s as [|c s IH]; intros word Hs Hw; cbn [split_byte]; [by constructor|].
  apply plain_cons in Hs as [Hc Hs]. destruct (Ascii.eqb c sep); [constructor; [done|]; apply IH; [done|constructor]|].
  apply IH; [done|]. apply plain_app. split; [done|]. by repeat constructor.
Qed.

Lemma ToLower_printable s : plain s -> printable (ToLower s).
Proof.
  intros Hs. unfold ToLower, map_runes.
  assert (runes s = map (fun c => Rune (String c "")) (String.list_ascii_of_string s)) as ->.
  { induction s as [|c s IH]; [done|]. apply plain_cons in Hs as [Hc Hs]. cbn [String.list_ascii_of_string map].
    rewrite <- IH by done. apply runes_decode. cbn [decode_rune]. cbv zeta.
    assert (in_range 0 127 c = true) as -> by (unfold in_range in *; lia). done. }
  apply text_printable. rewrite !Forall_map. eapply Forall_impl; [exact Hs|]. intros c Hc. cbn [rune_text ToLowerRune].
  apply printable_cons. split; [|constructor]. unfold lower_ascii. destruct ((65 <=? nat_of_ascii c)%nat && (nat_of_ascii c <=? 90)%nat) eqn:E.
  - unfold printable_byte, in_range, byte_code. rewrite nat_ascii_embedding by lia. lia.
  - unfold printable_byte. by rewrite Hc.
Qed.

Lemma capitalize_printable s : printable s -> printable (capitalize s).
Proof.
  destruct s as [|c s]; [done|]. intros [Hc Hs]%printable_cons. cbn [capitalize]. apply printable_app. split; [|done].
  destruct (in_range 0 127 c); [|by repeat constructor]. apply printable_cons. split; [|constructor]. unfold upper_ascii.
  destruct (in_range 97 122 c) eqn:E; [|done]. unfold printable_byte, in_range, byte_code in *. rewrite nat_ascii_embedding by lia. lia.
Qed.

Lemma humanize_printable key : plain key -> printable (humanizeConsoleKey key).
Proof.
  intros Hk. unfold humanizeConsoleKey. apply printable_Join; [by repeat constructor|].
  apply Forall_lookup. intros i x Hx. rewrite list_lookup_imap in Hx. apply fmap_Some in Hx as (w & Hw & ->).
  pose proof (Split_plain "_" key "" Hk (List.Forall_nil _)) as Hs. eapply Forall_lookup_1 in Hs; [|exact Hw].
  unfold humanize_word. destruct (List.find _ acronyms) as [[k name]|] eqn:E.
  - apply List.find_some in E as [Hin _].
    assert (Forall (fun p => printable (snd p)) acronyms) as Ha by (unfold acronyms; repeat constructor).
    rewrite Forall_forall in Ha. apply list_elem_of_In in Hin. exact (Ha _ Hin).
  - destruct (i =? 0)%nat; [apply capitalize_printable|]; by apply ToLower_printable.
Qed.

Lemma presentation_printable leaf : printable (fp_label (presentation leaf)) /\ printable (fp_unit (presentation leaf)).
Proof.
  unfold presentation. destruct (List.find _ _) as [[k p]|] eqn:E; [|split; constructor]. apply List.find_some in E as [Hin _].
  assert (forallb (fun p => forallb printable_byte (String.list_ascii_of_string (fp_label (snd p))) &&
                            forallb printable_byte (String.list_ascii_of_string (fp_unit (snd p)))) consoleFieldPresentations = true)
    as Ht by (vm_compute; reflexivity).
  rewrite forallb_forall in Ht. specialize (Ht _ Hin). apply andb_true_iff in Ht as [H1 H2]. rewrite !forallb_forall in *.
  split; apply Forall_forall; intros c Hc%list_elem_of_In; auto.
Qed.

Lemma label_printable key leafLabel : plain key -> printable leafLabel -> printable (formatConsoleLabel key leafLabel).
Proof.
  intros Hk Hl. unfold formatConsoleLabel. apply printable_Join; [by repeat constructor|].
  apply Forall_lookup. intros i x Hx. rewrite list_lookup_imap in Hx. apply fmap_Some in Hx as (w & Hw & ->).
  pose proof (Split_plain "." key "" Hk (List.Forall_nil _)) as Hs. eapply Forall_lookup_1 in Hs; [|exact Hw].
  destruct (_ && _); [done|by apply humanize_printable].
Qed.

Lemma formatField_printable key v : plain key -> printable (cf_text (formatField false key v)).
Proof.
  intros Hk. unfold formatField. destruct (presentation_printable (leaf_of key)) as [Hl Hu].
  set (p := presentation (leaf_of key)) in *. pose proof (field_value_printable v) as Hv. cbn [andb cf_text].
  apply printable_app. split; [by apply label_printable|]. apply printable_app. split; [by repeat constructor|].
  destruct (_ && _); [|done]. apply printable_app. split; [done|]. apply printable_app. by split; [repeat constructor|].
Qed.

(** *** Records *)

(** The keys of a value, those of the groups in it included; a prefix for the
    message is written as it is. *)
Definition key_ok (key : string) (v : value) : Prop :=
  plain key /\ (key = consolePrefixKey -> forall text, formatValue v = Some text -> printable text).

Fixpoint keys_ok (v : value) : Prop :=
  match v with
  | VGroup l => fold_right (fun a P => key_ok (fst a) (snd a) /\ keys_ok (snd a) /\ P) True l
  | VLogValuer v => keys_ok v
  | _ => True
  end.
Definition attr_ok (a : attr) : Prop := key_ok (fst a) (snd a) /\ keys_ok (snd a).

Definition line_ok (l : console_line) : Prop := Forall (fun f => printable (cf_text f)) (cl_fields l) /\ printable (cl_prefix l).

Lemma add_field_ok f l : line_ok l -> printable (cf_text f) -> line_ok (add_field f l).
Proof. intros [Hf Hp] Ht. split; [|done]. cbn. apply Forall_app. by split; [|constructor]. Qed.

Lemma joinKey_plain prefix key : plain prefix -> plain key -> plain (joinKey prefix key).
Proof.
  intros Hp Hk. unfold joinKey. destruct (string_is_empty prefix); [done|]. apply plain_app. split; [done|].
  apply plain_app. by split; [repeat constructor|].
Qed.

Lemma presentation_attr_ok prefix key v l r : line_ok l -> key_ok key v -> presentation_attr prefix key v l = Some r ->
  forall l', r = Some l' -> line_ok l'.
Proof.
  intros [Hf Hp] [_ Hk]. unfold presentation_attr. destruct (String.eqb key consoleEventKey); [intros E l' ->; simplify_eq; by split|].
  destruct (String.eqb_spec key consolePrefixKey) as [->|].
  - intros E l' ->. destruct (string_is_empty prefix); [|simplify_eq; by split].
    destruct (formatValue v) as [text|] eqn:Et; [|done]. cbn in E. simplify_eq. split; [done|]. by apply (Hk eq_refl).
  - destruct (String.eqb key consoleSeparatorKey); [|done]. intros E l' ->. destruct (string_is_empty prefix); simplify_eq; [|by split].
    destruct (Resolve v); by split.
Qed.

Lemma append_leaf_ok h path key v l l' : ch_color h = false -> plain path -> line_ok l ->
  append_leaf h path key v l = Some l' -> line_ok l'.
Proof.
  intros Hc Hp Hl. unfold append_leaf. destruct (string_is_empty key); [congruence|]. rewrite Hc.
  destruct (formatValue _) as [text|]; [|done]. cbn. intros [= <-]. apply add_field_ok; [done|by apply formatField_printable].
Qed.

Definition resolved_append (h : consoleHandler) (path key : string) (l : console_line) : value -> option console_line :=
  fix resolved (v : value) : option console_line :=
    match v with
    | VLogValuer v => resolved v
    | VGroup children =>
        fold_left (fun acc child => match acc with
                                    | Some l => appendAttr h path (fst child) (snd child) l
                                    | None => None
                                    end) children (Some l)
    | _ => append_leaf h path key v l
    end.

Lemma appendAttr_eq h prefix key v l : appendAttr h prefix key v l =
  if isEmptyAttr (key, v) then Some l
  else match presentation_attr prefix key v l with
  | Some r => r
  | None =>
      if negb (is_group v) && (negb (string_is_empty key) && matches_key (ch_matcher h) (joinKey prefix key))
      then Some (add_field (formatField (ch_color h) (joinKey prefix key) Masked) l)
      else resolved_append h (joinKey prefix key) key l v
  end.
Proof. by destruct v. Qed.

Lemma appendAttr_ok h v : ch_color h = false -> forall prefix key l l',
  plain prefix -> key_ok key v -> keys_ok v -> line_ok l -> appendAttr h prefix key v l = Some l' -> line_ok l'.
Proof.
  intros Hc. enough ((forall path key l l', plain path -> keys_ok v -> line_ok l -> resolved_append h path key l v = Some l' -> line_ok l') /\
    forall prefix key l l', plain prefix -> key_ok key v -> keys_ok v -> line_ok l -> appendAttr h prefix key v l = Some l' -> line_ok l') by tauto.
  assert (forall u, (forall path key l l', plain path -> keys_ok u -> line_ok l -> resolved_append h path key l u = Some l' -> line_ok l') ->
    forall prefix key l l', plain prefix -> key_ok key u -> keys_ok u -> line_ok l -> appendAttr h prefix key u l = Some l' -> line_ok l') as Hstep.
  { intros u Hu prefix key l l' Hp Hk Hks Hl. rewrite appendAttr_eq. destruct (isEmptyAttr _); [congruence|].
    destruct (presentation_attr prefix key u l) as [r|] eqn:Er; [intros E; by eapply presentation_attr_ok|].
    pose proof (joinKey_plain prefix key Hp (proj1 Hk)) as Hj. destruct (_ && _); [|by apply Hu].
    intros [= <-]. rewrite Hc. apply add_field_ok; [done|by apply formatField_printable]. }
  induction v as [children IH|v IH|v Hg Hv] using value_ind'.
  - match goal with |- ?A /\ _ => assert A as Hr; [|split; [exact Hr|by apply Hstep]] end.
    intros path key l l' Hp Hks Hl. cbn [resolved_append keys_ok] in *. revert l Hl Hks.
    induction IH as [|[k c] children [_ Hchild] _ IHl]; intros l Hl Hks; cbn [fold_left fold_right] in *; [congruence|].
    destruct Hks as (Hk & Hks & Hrest). cbn [fst snd] in *. destruct (appendAttr h path k c l) as [l1|] eqn:E.
    + apply IHl; [|done]. by eapply Hchild.
    + intros E'. exfalso. clear -E'. induction children as [|a children IHc]; [done|]. by apply IHc.
  - match goal with |- ?A /\ _ => assert A as Hr; [|split; [exact Hr|by apply Hstep]] end.
    intros path key l l' Hp Hks Hl. cbn [resolved_append keys_ok] in *. by apply IH.
  - match goal with |- ?A /\ _ => assert A as Hr; [|split; [exact Hr|by apply Hstep]] end.
    intros path key l l' Hp Hks Hl E. apply (append_leaf_ok h path key v l l' Hc Hp Hl). rewrite <- E.
    destruct v; try done. by destruct (Hv v).
Qed.

Lemma append_all_ok h prefix attrs acc l' : ch_color h = false -> plain prefix -> Forall attr_ok attrs ->
  (forall l, acc = Some l -> line_ok l) ->
  fold_left (fun acc (a : attr) => match acc with Some l => appendAttr h prefix (fst a) (snd a) l | None => None end) attrs acc = Some l' ->
  line_ok l'.
Proof.
  intros Hc Hp Ha. revert acc. induction Ha as [|[k v] attrs [Hk Hks] _ IH]; intros acc Hacc; cbn [fold_left]; [by intros ->; apply Hacc|].
  apply IH. destruct acc as [l|]; [|done]. intros l1 E. eapply (appendAttr_ok h v Hc); [exact Hp|exact Hk|exact Hks|by apply Hacc|exact E].
Qed.

Lemma digit_printable z : printable_byte (digit_char (z mod 10)) = true.
Proof.
  unfold digit_char, printable_byte, in_range, byte_code. pose proof (Z.mod_pos_bound z 10).
  rewrite nat_ascii_embedding by lia. lia.
Qed.

Lemma two_digits_printable z : printable (two_digits z).
Proof. unfold two_digits. apply printable_cons. split; [apply digit_printable|]. apply printable_cons. split; [apply digit_printable|constructor]. Qed.

Lemma zero_padded_printable k z : printable (zero_padded k z).
Proof. revert z. induction k as [|k IH]; intros z; [constructor|]. apply printable_cons. split; [apply digit_printable|apply IH]. Qed.

Lemma time_printable t : printable (formatConsoleTime t).
Proof.
  unfold formatConsoleTime, FormatDateOnly. destruct (civil_of_days _) as [[y mo] d]. unfold format_date.
  repeat (apply printable_app; split); try apply two_digits_printable; try apply zero_padded_printable; by repeat constructor.
Qed.

Lemma itoa_printable z : printable (itoa z).
Proof.
  unfold itoa. assert (forall d, printable (DecimalString.NilEmpty.string_of_uint d)) as Hd by (induction d; repeat constructor; done).
  assert (forall d, printable (DecimalString.NilZero.string_of_uint d)) as Hz.
  { intros d. destruct d; [by repeat constructor|..]; apply Hd. }
  destruct (Z.to_int z) as [d|d]; cbn [DecimalString.NilZero.string_of_int]; [apply Hz|]. apply printable_cons. split; [done|apply Hz].
Qed.

Lemma level_name_printable level : printable (levelName level).
Proof.
  unfold levelName, Level_String. cbv zeta.
  repeat case_match; try (by repeat constructor); rewrite !printable_app; split_and!; try apply itoa_printable; by repeat constructor.
Qed.

Lemma level_printable level : printable (formatLevel false level).
Proof.
  unfold formatLevel. cbn [negb]. apply printable_app. split; [apply level_name_printable|].
  - induction (5 - length (runes (levelName level)))%nat as [|n IH]; [constructor|]. cbn [repeat String.concat].
    destruct (repeat " " n); [by repeat constructor|]. by apply printable_cons.
Qed.

Lemma ordered_printable fields : Forall (fun f => printable (cf_text f)) fields -> Forall printable (orderConsoleFields fields).
Proof.
  intros Hf. unfold orderConsoleFields. rewrite !Forall_forall in *. intros s Hs%list_elem_of_In.
  apply in_flat_map in Hs as (p & _ & Hs). apply in_map_iff in Hs as (f & <- & [Hin _]%filter_In). apply Hf. by apply list_elem_of_In.
Qed.

Lemma text_line_printable h now level message l : ch_color h = false -> line_ok l -> printable message ->
  printable (console_text h now level message l).
Proof.
  intros Hc [Hf Hp] Hm. unfold console_text. rewrite Hc.
  assert (printable " ") as Hspace by by repeat constructor.
  assert (printable (formatConsoleTime now +:+ " " +:+ formatLevel false level +:+ " " +:+
    (if string_is_empty (cl_prefix l) then message else cl_prefix l +:+ " " +:+ message))) as Hline.
  { rewrite !printable_app. split_and!; [apply time_printable|done|apply level_printable|done|].
    destruct (string_is_empty (cl_prefix l)); [done|]. by rewrite !printable_app. }
  destruct (length (cl_fields l) =? 0)%nat; [done|]. rewrite printable_app. split; [done|]. rewrite printable_app.
  assert (printable consoleFieldSeparator) as Hsep by by repeat constructor.
  split; [done|]. apply printable_Join; [done|by apply ordered_printable].
Qed.

(** A record of the console is exactly one line of text, whatever its
    values are - raw answers of dependencies, errors, keys of maps: when the
    constant parts of the call (message, keys, prefix) are
    printable, no byte before the final newline is a control byte, except
    that a record with a separator is preceded by one newline.  So no value
    can forge a record or drive the terminal. *)
Theorem record_is_one_line h now level message source attrs line :
  ch_color h = false -> Forall plain (ch_groups h) -> Forall attr_ok (ch_attrs h) -> Forall attr_ok attrs ->
  printable message ->
  Handle h now level message source attrs = Some line ->
  exists body, printable body /\ (line = body +:+ bytes_of [10] \/ line = bytes_of [10] +:+ body +:+ bytes_of [10]).
Proof.
  intros Hc Hg Ha Ha' Hm. unfold Handle. destruct (fold_left _ _ _) as [l|] eqn:E; [|done]. cbv zeta.
  assert (plain (Join_strings "." (ch_groups h))) as Hprefix.
  { clear -Hg. induction Hg as [|g gs Hg Hgs IH]; [constructor|]. cbn [Join_strings]. destruct gs; [done|].
    apply plain_app. split; [done|]. apply plain_app. by split; [repeat constructor|]. }
  apply append_all_ok in E; [|done|done|by apply Forall_app|by intros ? [= <-]; split; constructor].
  set (l1 := match source with Some _ => _ | None => l end). assert (line_ok l1) as Hl.
  { subst l1. destruct source; [|done]. destruct (ch_addSource h); [|done]. apply add_field_ok; [done|].
    rewrite Hc. apply formatField_printable. by repeat constructor. }
  intros [= <-]. exists (console_text h now level message l1). split; [by apply text_line_printable|].
  destruct (cl_separator l1); auto.
Qed.
End Logger.

(** ** Paths of source files *)

Section Paths.

(** An element of a path that is a name. *)
Definition free_of (sep : ascii) (s : string) : Prop := Forall (fun c => c <> sep) (String.list_ascii_of_string s).
Definition name_ok (s : string) : Prop := s <> "" /\ s <> "." /\ s <> ".." /\ free_of slash s.
Definition path_of (l : list string) : string := "/" +:+ Join_strings "/" l.

Lemma split_end sep a w : free_of sep a -> split_byte sep a w = [w +:+ a].
Proof.
  unfold free_of. revert w. induction a as [|c a IH]; intros w Ha; cbn [split_byte]; [by rewrite string_app_nil_r|].
  cbn in Ha. apply Forall_cons in Ha as [Hc Ha]. destruct (Ascii.eqb_spec c sep); [done|]. rewrite IH by done. by rewrite string_app_assoc.
Qed.

Lemma split_app sep a b w : free_of sep a -> split_byte sep (a +:+ String sep b) w = (w +:+ a) :: split_byte sep b "".
Proof.
  unfold free_of. revert w. induction a as [|c a IH]; intros w Ha.
  - cbn. by rewrite Ascii.eqb_refl, string_app_nil_r.
  - cbn in Ha. apply Forall_cons in Ha as [Hc Ha]. cbn [String.append split_byte]. destruct (Ascii.eqb_spec c sep); [done|].
    rewrite IH by done. by rewrite string_app_assoc.
Qed.

Lemma Split_Join l : Forall (free_of slash) l -> l <> [] -> Split slash (Join_strings "/" l) = l.
Proof.
  unfold Split. induction 1 as [|a l Ha Hl IH]; [done|]. intros _. destruct l as [|b l]; [by apply split_end|].
  cbn [Join_strings] in *. change ("/" +:+ ?x) with (String slash x). rewrite split_app by done. by rewrite IH.
Qed.

Lemma Split_path l : Forall (free_of slash) l -> Split slash (path_of l) = "" :: match l with [] => [""] | _ => l end.
Proof.
  intros Hl. unfold path_of, Split. change ("/" +:+ ?x) with (String slash x).
  change (String slash ?x) with ("" +:+ String slash x). rewrite split_app by constructor. f_equal.
  destruct l; [done|]. by apply Split_Join.
Qed.

Lemma split_free sep s w : free_of sep w -> Forall (free_of sep) (split_byte sep s w).
Proof.
  unfold free_of. revert w. induction s as [|c s IH]; intros w Hw; cbn [split_byte]; [by repeat constructor|].
  destruct (Ascii.eqb_spec c sep); [constructor; [done|]; by apply IH|]. apply IH.
  clear -Hw n. induction w as [|d w IHw]; cbn in *; [by repeat constructor|]. apply Forall_cons in Hw as [? ?]. constructor; [done|by apply IHw].
Qed.

(** What is left of an absolute path are names. *)
Lemma clean_parts_names parts out : Forall (free_of slash) parts -> Forall name_ok out -> Forall name_ok (clean_parts true parts out).
Proof.
  revert out. induction parts as [|p parts IH]; intros out Hp Ho; cbn [clean_parts]; [by apply Forall_rev|].
  apply Forall_cons in Hp as [Hp1 Hp]. destruct p as [|c p]; [by apply IH|]. cbn [string_is_empty orb].
  destruct (String.eqb_spec (String c p) "."); [by apply IH|]. destruct (String.eqb_spec (String c p) "..").
  - destruct out as [|prev rest]; [by apply IH|]. apply Forall_cons in Ho as [(H1 & H2 & H3 & H4) Ho].
    destruct (String.eqb_spec prev ".."); [done|by apply IH].
  - apply IH; [done|]. constructor; [|done]. by split_and!.
Qed.

Lemma clean_parts_id r l out : Forall name_ok l -> clean_parts r l out = rev out ++ l.
Proof.
  intros Hl. revert out. induction Hl as [|a l (H1 & H2 & H3 & H4) Hl IH]; intros out; cbn [clean_parts]; [by rewrite app_nil_r|].
  destruct a as [|c a]; [done|]. cbn [string_is_empty orb]. destruct (String.eqb_spec (String c a) "."); [done|].
  destruct (String.eqb_spec (String c a) ".."); [done|]. rewrite IH. cbn [rev]. by rewrite <- app_assoc.
Qed.

Lemma clean_parts_length r parts out : (length (clean_parts r parts out) <= length parts + length out)%nat.
Proof.
  revert out. induction parts as [|p parts IH]; intros out; cbn [clean_parts]; [by rewrite length_rev|].
  destruct (_ || _); [specialize (IH out); cbn; lia|]. destruct (String.eqb p "..").
  - destruct out as [|prev rest]; [destruct r; [specialize (IH [])|specialize (IH [p])]; cbn in *; lia|].
    destruct (String.eqb prev ".."); [specialize (IH (p :: prev :: rest))|specialize (IH rest)]; cbn in *; lia.
  - specialize (IH (p :: out)). cbn in *. lia.
Qed.

Lemma split_length sep s w : (length (split_byte sep s w) <= S (String.length s))%nat.
Proof.
  revert w. induction s as [|c s IH]; intros w; cbn [split_byte]; [done|]. destruct (Ascii.eqb c sep); cbn.
  - specialize (IH ""). lia.
  - specialize (IH (w +:+ String c "")). lia.
Qed.

Lemma Clean_rooted s : rooted s = true ->
  exists l, Clean s = path_of l /\ Forall name_ok l /\ (length l <= S (String.length s))%nat.
Proof.
  intros Hr. unfold Clean. rewrite Hr. eexists. split; [reflexivity|]. split.
  - apply clean_parts_names; [|constructor]. apply split_free. constructor.
  - etransitivity; [apply clean_parts_length|]. cbn. rewrite Nat.add_0_r. apply split_length.
Qed.

Lemma names_free l : Forall name_ok l -> Forall (free_of slash) l.
Proof. intros Hl. eapply Forall_impl; [exact Hl|]. by intros s (_ & _ & _ & ?). Qed.

Lemma rooted_path l : rooted (path_of l) = true.
Proof. reflexivity. Qed.

Lemma Clean_path l : Forall name_ok l -> Clean (path_of l) = path_of l.
Proof.
  intros Hl. unfold Clean. rewrite rooted_path, Split_path by by apply names_free. cbn [clean_parts string_is_empty orb].
  destruct l as [|a l]; [done|]. by rewrite clean_parts_id.
Qed.

Lemma Join_last a l : Join_strings "/" ((a :: l) ++ [""]) = Join_strings "/" (a :: l) +:+ "/".
Proof.
  revert a. induction l as [|b l IH]; intros a; [done|].
  change (Join_strings "/" ((a :: b :: l) ++ [""])) with (a +:+ "/" +:+ Join_strings "/" ((b :: l) ++ [""])).
  rewrite IH, <- !string_app_assoc. cbn [Join_strings]. by rewrite !string_app_assoc.
Qed.

Lemma path_slash l : path_of l +:+ "/" = path_of (match l with [] => [""; ""] | _ => l ++ [""] end).
Proof. destruct l as [|a l]; [done|]. unfold path_of. by rewrite Join_last, string_app_assoc. Qed.

Lemma clean_parts_last r l out : Forall name_ok l -> clean_parts r (l ++ [""]) out = rev out ++ l.
Proof.
  intros Hl. revert out. induction Hl as [|a l (H1 & H2 & H3 & H4) Hl IH]; intros out; cbn [app clean_parts]; [by rewrite app_nil_r|].
  destruct a as [|c a]; [done|]. cbn [string_is_empty orb]. destruct (String.eqb_spec (String c a) "."); [done|].
  destruct (String.eqb_spec (String c a) ".."); [done|]. rewrite IH. cbn [rev]. by rewrite <- app_assoc.
Qed.

(** The parent of a path. *)
Lemma Dir_path l x : Forall name_ok (l ++ [x]) -> Dir (path_of (l ++ [x])) = path_of l.
Proof.
  intros Hl. unfold Dir. rewrite Split_path by by apply names_free.
  destruct (l ++ [x]) as [|y t] eqn:E; [by destruct l|]. rewrite <- E in *. clear E y t.
  change (removelast ("" :: l ++ [x])) with (removelast (("" :: l) ++ [x])). rewrite removelast_last.
  apply Forall_app in Hl as [Hl _]. destruct l as [|a l]; [done|].
  change (Join_strings "/" ("" :: a :: l)) with (path_of (a :: l)). rewrite path_slash.
  unfold Clean. rewrite rooted_path, Split_path by (apply Forall_app; split; [by apply names_free|by repeat constructor]).
  change ((a :: l) ++ [""]) with (a :: l ++ [""]). cbv iota.
  change (clean_parts true ("" :: ?p) []) with (clean_parts true p []).
  change (a :: l ++ [""]) with ((a :: l) ++ [""]). by rewrite clean_parts_last.
Qed.

Lemma Dir_root : Dir (path_of []) = path_of [].
Proof. reflexivity. Qed.

(** The root of the module, among the ancestors of a directory, the deepest
    first. *)
Fixpoint nearest (env : host) (names : list string) : string :=
  if Stat env (Join_path (path_of (rev names)) "go.mod") then path_of (rev names)
  else match names with [] => "" | _ :: names => nearest env names end.

Lemma Join_snoc l x : Join_strings "/" (l ++ [x]) = match l with [] => x | _ => Join_strings "/" l +:+ "/" +:+ x end.
Proof.
  induction l as [|a l IH]; [done|]. destruct l as [|b l]; [done|].
  change (Join_strings "/" ((a :: b :: l) ++ [x])) with (a +:+ "/" +:+ Join_strings "/" ((b :: l) ++ [x])). rewrite IH.
  change (Join_strings "/" (a :: b :: l)) with (a +:+ "/" +:+ Join_strings "/" (b :: l)). by rewrite !string_app_assoc.
Qed.

Lemma path_longer l x : x <> "" -> path_of l <> path_of (l ++ [x]).
Proof.
  intros Hx E%(f_equal String.length). unfold path_of in E. rewrite Join_snoc in E. destruct x as [|c x]; [done|].
  destruct l as [|a l]; [cbn in E; lia|]. rewrite !string_length_app in E. cbn [String.length] in E. lia.
Qed.

Lemma search_nearest env names fuel : Forall name_ok names -> (length names < fuel)%nat ->
  search_root env fuel (path_of (rev names)) = nearest env names.
Proof.
  revert fuel. induction names as [|x names IH]; intros fuel Hn Hf; (destruct fuel as [|fuel]; [cbn in Hf; lia|]); cbn [search_root nearest].
  - cbn [rev]. destruct (Stat _ _); [done|]. by rewrite Dir_root, String.eqb_refl.
  - destruct (Stat _ _); [done|]. apply Forall_cons in Hn as [(Hx & Hx1 & Hx2 & Hx3) Hn]. cbn [rev].
    rewrite Dir_path by (apply Forall_app; split; [by apply Forall_rev|by repeat constructor]).
    destruct (String.eqb_spec (path_of (rev names)) (path_of (rev names ++ [x]))) as [E|]; [by apply path_longer in E|].
    apply IH; [done|]. cbn in Hf. lia.
Qed.

Lemma split_nonempty sep s w : split_byte sep s w <> [].
Proof. revert w. induction s as [|c s IH]; intros w; cbn [split_byte]; [done|]. by destruct (Ascii.eqb c sep). Qed.

Lemma Dir_rooted s : rooted s = true -> exists l, Dir s = path_of l /\ Forall name_ok l /\ (length l <= String.length s)%nat.
Proof.
  unfold rooted, HasPrefix. destruct s as [|c s]; [done|]. cbn [strip]. destruct (Ascii.eqb_spec "/" c) as [<-|]; [|done]. intros _.
  unfold Dir, Split. cbn [split_byte]. change (Ascii.eqb "/" slash) with true. cbv iota.
  pose proof (split_free slash s "" (List.Forall_nil _)) as Hfree. pose proof (split_length slash s "") as Hlen.
  destruct (exists_last (split_nonempty slash s "")) as (ps & x & E). rewrite E in *. clear E.
  change (removelast ("" :: ps ++ [x])) with (removelast (("" :: ps) ++ [x])). rewrite removelast_last. cbv iota.
  apply Forall_app in Hfree as [Hfree _]. rewrite length_app in Hlen. cbn in Hlen.
  destruct ps as [|p ps]; [exists []; by split_and!; [|constructor|cbn; lia]|].
  change (Join_strings "/" ("" :: p :: ps)) with (path_of (p :: ps)). rewrite path_slash.
  assert (Forall (free_of slash) ((p :: ps) ++ [""])) as Hall by (apply Forall_app; split; [done|by repeat constructor]).
  unfold Clean. rewrite rooted_path, Split_path by done. eexists. split; [reflexivity|].
  change ((p :: ps) ++ [""]) with (p :: ps ++ [""]). cbv iota. change (clean_parts true ("" :: ?p) []) with (clean_parts true p []).
  change (p :: ps ++ [""]) with ((p :: ps) ++ [""]). split; [apply clean_parts_names; [done|constructor]|].
  etransitivity; [apply clean_parts_length|]. rewrite length_app. cbn in *. lia.
Qed.

(** The search ends, and finds the nearest directory with a [go.mod]: that of
    the process, or its deepest ancestor that has one.  So the fuel of
    [findSourceRootDirectory] is enough. *)
Theorem source_root_is_nearest env wd : Getwd env = Ok wd -> rooted wd = true ->
  (forall more, search_root env (S (S (String.length wd)) + more) wd = findSourceRootDirectory env) /\
  exists names, Dir wd = path_of (rev names) /\ Forall name_ok names /\
    findSourceRootDirectory env =
      if Stat env (Join_path wd "go.mod") then wd
      else if String.eqb (Dir wd) wd then "" else nearest env names.
Proof.
  intros Hwd Hr. destruct (Dir_rooted wd Hr) as (l & Hd & Hn & Hl). unfold findSourceRootDirectory. rewrite Hwd.
  assert (forall fuel, (String.length wd < fuel)%nat -> search_root env (S fuel) wd =
    if Stat env (Join_path wd "go.mod") then wd else if String.eqb (Dir wd) wd then "" else nearest env (rev l)) as Hs.
  { intros fuel Hf. cbn [search_root]. destruct (Stat _ _); [done|]. cbv zeta. destruct (String.eqb _ _); [done|].
    rewrite Hd, <- (rev_involutive l) at 1. apply search_nearest; [by apply Forall_rev|]. rewrite length_rev. lia. }
  split; [intros more; cbn [Nat.add]; rewrite !Hs by lia; done|].
  exists (rev l). rewrite rev_involutive. split_and!; [done|by apply Forall_rev|]. rewrite Hs by lia. done.
Qed.

(** *** Trimming *)

Lemma elements_path l : Forall name_ok l -> path_elements (path_of l) = l.
Proof.
  intros Hl. unfold path_elements. rewrite Split_path by by apply names_free. cbn [List.filter string_is_empty negb].
  destruct Hl as [|a l Ha Hl]; [done|]. assert (Forall name_ok (a :: l)) as H by by constructor. clear Ha Hl.
  induction H as [|b t (Hb & _) _ IH]; [done|]. cbn [List.filter]. destruct b as [|c b]; [done|]. cbn [string_is_empty negb]. by rewrite IH.
Qed.

Lemma after_common_prefix l r : after_common l (l ++ r) = ([], r).
Proof. induction l as [|a l IH]; cbn [after_common app]; [by destruct r|]. by rewrite String.eqb_refl. Qed.

Lemma path_inj_nil l a r : Forall name_ok (l ++ a :: r) -> path_of (l ++ a :: r) <> path_of l.
Proof.
  intros Hn E. assert (path_elements (path_of (l ++ a :: r)) = path_elements (path_of l)) as E' by by rewrite E.
  rewrite !elements_path in E'; [|by apply Forall_app in Hn as [? _]|done].
  apply (f_equal length) in E'. rewrite length_app in E'. cbn in E'. lia.
Qed.

(** A path below another, relative to it. *)
Lemma Rel_below l r : Forall name_ok (l ++ r) -> r <> [] -> Rel (path_of l) (path_of (l ++ r)) = Some (Join_strings "/" r).
Proof.
  intros Hn Hr. pose proof (proj1 (proj1 (Forall_app _ _ _) Hn)) as Hl. destruct r as [|a r]; [done|].
  unfold Rel. rewrite !Clean_path by done. destruct (String.eqb_spec (path_of (l ++ a :: r)) (path_of l)) as [E|_]; [by apply path_inj_nil in E|].
  assert (String.eqb (path_of l) "." = false) as -> by done. cbv zeta. rewrite !rooted_path. cbn [Bool.eqb negb].
  rewrite !elements_path, after_common_prefix by done. reflexivity.
Qed.

(** The first element of a path decides how it begins. *)
Lemma Join_begins a r : name_ok a -> let rel := Join_strings "/" (a :: r) in
  rel <> "." /\ rel <> ".." /\ HasPrefix rel "../" = false /\ HasPrefix rel "/" = false.
Proof.
  intros (H1 & H2 & H3 & H4) rel. assert (exists rest, rel = a +:+ rest /\ (rest = "" \/ exists t, rest = String slash t)) as (rest & -> & Hrest).
  { subst rel. destruct r as [|b r]; [exists ""; rewrite string_app_nil_r; auto|]. exists ("/" +:+ Join_strings "/" (b :: r)). split; [done|]. right. by eexists. }
  unfold free_of in H4. unfold HasPrefix.
  destruct a as [|c a]; [done|]. cbn in H4. apply Forall_cons in H4 as [Hc H4].
  assert (forall d s, strip "/" (String d s) = if Ascii.eqb slash d then Some s else None) as Hslash by done.
  split_and!.
  - intros [= -> E]. destruct a; [done|]. by destruct rest.
  - intros [= -> E]. destruct a as [|d a]; [cbn in E; subst rest; destruct Hrest as [?|[t ?]]; congruence|].
    cbn in E. injection E as -> E. destruct a; [done|]. by destruct rest.
  - cbn [String.append strip]. destruct (Ascii.eqb_spec "." c) as [<-|]; [|done].
    destruct a as [|d a]; cbn [String.append strip].
    + destruct Hrest as [->|[t ->]]; done.
    + destruct (Ascii.eqb_spec "." d) as [<-|]; [|done]. destruct a as [|e a]; [done|]. cbn in H4.
      apply Forall_cons in H4 as [_ H4]. apply Forall_cons in H4 as [He _]. cbn [String.append strip].
      destruct (Ascii.eqb_spec "/" e) as [<-|]; [done|done].
  - cbn [String.append strip]. destruct (Ascii.eqb_spec "/" c) as [<-|]; done.
Qed.

(** A file below the root of the module is written by its path from there. *)
Theorem trimmed_below_root env c root rest :
  sourceRootDir c = path_of root -> Forall name_ok (root ++ rest) -> rest <> [] ->
  trimSourceFile env c (path_of (root ++ rest)) = (Join_strings "/" rest, c).
Proof.
  intros Hc Hn Hr. unfold trimSourceFile, trimSourceFileByProjectRoot, sourceRootDirectory.
  assert (forall l, string_is_empty (path_of l) = false) as He by done. rewrite Hc, !He. cbn [negb]. rewrite He, Rel_below by done.
  destruct rest as [|a rest]; [done|]. apply Forall_app in Hn as [_ Hn]. apply Forall_cons in Hn as [Ha _].
  destruct (Join_begins a rest Ha) as (H1 & H2 & H3 & H4).
  destruct (String.eqb_spec (Join_strings "/" (a :: rest)) "."); [done|].
  destruct (String.eqb_spec (Join_strings "/" (a :: rest)) ".."); [done|]. by rewrite H3, H4.
Qed.
End Paths.

(** ** Witnesses *)

Section Witnesses.
#[local] Existing Instance ascii_tables.
#[local] Instance plain_rendering : Rendering := {|
  format_float := fun _ => "0"; group_string := fun _ => "[]"; json_float := fun _ => "0"; json_any := fun _ => "null";
  value_text := fun _ => ""
|}.

Definition no_trim (file : string) : string := file.
Definition here : Source := mkSource "main.main" "main.go" 19.
Definition console_config : LogConfig := mkLogConfig "console" "info" None false "funding" "never" [].
Definition service_logger : Logger := New no_trim None console_config.

(** A request whose answer is logged, with its credentials. *)
Definition answer_attrs (token : string) (key : value) : list attr :=
  [("event", VString "payout_submitted"); ("amount", VString "12.5");
   ("request", VGroup [("apiKey", key); ("attempt", VInt64 2)]); ("access_token", VString token);
   ("response", VString ("line one" +:+ bytes_of [10] +:+ "line two"))].

(** The JSON logger that is the process-wide one at first. *)
Lemma log_hides_secrets_witness :
  log no_trim (defaultLogger no_trim None) zero_Logger 0 0 "payout submitted" here (answer_attrs "t0ken" (VString "k3y")) =
  log no_trim (defaultLogger no_trim None) zero_Logger 0 0 "payout submitted" here (answer_attrs "other" (VInt64 7)) /\
  With no_trim (defaultLogger no_trim None) zero_Logger (answer_attrs "t0ken" (VString "k3y")) =
  With no_trim (defaultLogger no_trim None) zero_Logger (answer_attrs "other" (VInt64 7)).
Proof.
  apply (log_hides_secrets no_trim None (defaultLogger no_trim None) zero_Logger 0 0 "payout submitted" here
           (answer_attrs "t0ken" (VString "k3y")) (answer_attrs "other" (VInt64 7))).
  - apply derived_new.
  - apply derived_zero.
  - unfold answer_attrs. constructor; [apply same_attr|]. constructor; [apply same_attr|]. constructor.
    + apply same_group. constructor; [|constructor; [apply same_attr|constructor]].
      apply secret_value; [discriminate|vm_compute; reflexivity|reflexivity|reflexivity].
    + constructor; [|constructor; [apply same_attr|constructor]].
      apply secret_value; [discriminate|vm_compute; reflexivity|reflexivity|reflexivity].
Defined.

Definition logged_line : string :=
  "1970-01-01T00:00:00.000000Z INFO  payout submitted  │  Amount: 12.5 USDC  │  Component: funding  │  Request / Apikey: [MASKED]  │  Request / Attempt: 2  │  Access token: [MASKED]  │  Response: " +:+
  dquote +:+ "line one\nline two" +:+ dquote +:+ bytes_of [10].

Definition service_console : consoleHandler :=
  WithAttrs (newConsoleHandler 0 false false defaultSensitiveKeys) [Component "funding"].

Example service_logs :
  log no_trim zero_Logger service_logger 0 0 "payout submitted" here (answer_attrs "t0ken" (VString "k3y")) = Logged logged_line.
Proof. by vm_compute. Qed.

(** The same record in JSON. *)
Definition json_line (parts : list string) : string := Join_strings dquote parts +:+ bytes_of [10].
Example service_logs_json :
  log no_trim (defaultLogger no_trim None) zero_Logger 0 0 "payout submitted" here (answer_attrs "t0ken" (VString "k3y")) =
  Logged (json_line ["{"; "time"; ":"; "1970-01-01T00:00:00Z"; ","; "level"; ":"; "INFO"; ","; "msg"; ":"; "payout submitted"; ",";
    "event"; ":"; "payout_submitted"; ","; "amount"; ":"; "12.5"; ","; "request"; ":{"; "apiKey"; ":"; "[MASKED]"; ","; "attempt";
    ":2},"; "access_token"; ":"; "[MASKED]"; ","; "response"; ":"; "line one\nline two"; "}"]).
Proof. by vm_compute. Qed.

Lemma record_is_one_line_witness :
  Handle service_console 0 0 "payout submitted" None (answer_attrs "t0ken" (VString "k3y")) = Some logged_line /\
  exists body, printable body /\ (logged_line = body +:+ bytes_of [10] \/ logged_line = bytes_of [10] +:+ body +:+ bytes_of [10]).
Proof.
  assert (Handle service_console 0 0 "payout submitted" None (answer_attrs "t0ken" (VString "k3y")) = Some logged_line)
    as E by (vm_compute; reflexivity).
  split; [exact E|].
  apply (record_is_one_line service_console 0 0 "payout submitted" None (answer_attrs "t0ken" (VString "k3y"))).
  - reflexivity.
  - constructor.
  - repeat constructor; discriminate.
  - repeat constructor; discriminate.
  - repeat constructor.
  - exact E.
Defined.

(** A checkout with its module at the root. *)
Definition checkout : host :=
  mkHost (Ok "/home/bot/src/cmd") (fun p => String.eqb p "/home/bot/src/go.mod") (Some "builder-code-bot").

Example source_of_main :
  trimSourceFile checkout (mkSourceCache "" None) "/home/bot/src/internal/app/app.go" =
    ("internal/app/app.go", mkSourceCache "/home/bot/src" None) /\
  trimSourceFile checkout (mkSourceCache "" None) "/build/builder-code-bot/cmd/main.go" =
    ("cmd/main.go", mkSourceCache "/home/bot/src" (Some "builder-code-bot")).
Proof. split; by vm_compute. Qed.

Lemma source_root_is_nearest_witness :
  (forall more, search_root checkout (S (S (String.length "/home/bot/src/cmd")) + more) "/home/bot/src/cmd" = "/home/bot/src") /\
  findSourceRootDirectory checkout = "/home/bot/src".
Proof.
  assert (findSourceRootDirectory checkout = "/home/bot/src") as E by (vm_compute; reflexivity).
  split; [|exact E]. rewrite <- E. apply (source_root_is_nearest checkout "/home/bot/src/cmd" eq_refl eq_refl).
Defined.

Lemma trimmed_below_root_witness :
  trimSourceFile checkout (mkSourceCache "/home/bot/src" None) "/home/bot/src/internal/app/app.go" =
    ("internal/app/app.go", mkSourceCache "/home/bot/src" None).
Proof.
  apply (trimmed_below_root checkout (mkSourceCache "/home/bot/src" None) ["home"; "bot"; "src"] ["internal"; "app"; "app.go"]).
  - reflexivity.
  - repeat constructor; discriminate.
  - discriminate.
Defined.
End Witnesses.
