(* ===== verification/HttpClient.v ===== *)
(** * The HTTP client

    [internal/hyperliquid/client/client.go]: one POST per request with a
    bounded response, and the excerpt of a failed response that errors, logs
    and notifications may show: sensitive fields are masked, control
    characters and white space are normalised, the length is bounded.

    The network is an operation.  The parser of URLs and the table of status
    texts belong to Go's library and are parameters, as are the Unicode tables
    beyond ASCII. *)

From S2P Require Import Prelude Prog Crash Json Text Sensitive Diagnostics Signing.

(** ** Text *)

(** [unicode.IsSpace], [unicode.IsLetter] and [unicode.IsDigit] of
    [rune(b)]: the byte as a code point below U+0100. *)
Definition byte_is_space (b : ascii) : bool := existsb (Z.eqb (byte_code b)) [9; 10; 11; 12; 13; 32; 133; 160].
Definition byte_is_letter (b : ascii) : bool :=
  is_upper_ascii b || is_lower_ascii b || existsb (Z.eqb (byte_code b)) [170; 181; 186] ||
  in_range 192 214 b || in_range 216 246 b || in_range 248 255 b.

Definition double_quote : ascii := ascii_of_nat 34.
Definition single_quote : ascii := ascii_of_nat 39.
Definition is_quote (b : ascii) : bool := Ascii.eqb b double_quote || Ascii.eqb b single_quote.

(* go: internal/hyperliquid/client/client.go 288-311 sensitiveResponseKeys *)
Definition sensitiveResponseKeys : list string :=
  ["apikey"; "authorization"; "cookie"; "credential"; "encryptedprivatekey"; "mnemonic"; "passphrase"; "password";
   "privatekey"; "proxyauthorization"; "secret"; "setcookie"; "signingkey"; "accesstoken"; "apitoken"; "authtoken";
   "bearertoken"; "refreshtoken"; "sessiontoken"; "signature"; "signedrequest"; "token"].

Section Redaction.
Context `{UnicodeTables}.

(** One rune of a key: dropped unless it is a letter or a digit, else in lower
    case. *)
Definition key_rune (r : rune) : string :=
  match r with
  | BadByte _ => ""
  | Rune (String c EmptyString) =>
      if is_upper_ascii c || is_lower_ascii c || is_digit_ascii c then String (lower_ascii c) "" else ""
  | Rune s => if letter_or_digit s then lower_rune s else ""
  end.

(* go: internal/hyperliquid/client/client.go 313-327 isSensitiveResponseKey *)
Definition isSensitiveResponseKey (key : string) : bool :=
  let candidate := fold_right (fun r s => key_rune r +:+ s) "" (runes key) in
  existsb (Contains candidate) sensitiveResponseKeys.

(** *** Texts by index *)

Definition at_index (text : list ascii) (i : nat) : ascii := nth i text (ascii_of_nat 0).
Definition slice (text : list ascii) (i j : nat) : list ascii := firstn (j - i) (skipn i text).

(** [for end > 0 && unicode.IsSpace(rune(text[end-1])) { end-- }]. *)
Fixpoint skip_back (text : list ascii) (e : nat) : nat :=
  match e with
  | O => O
  | S e' => if byte_is_space (at_index text e') then skip_back text e' else e
  end.

(** The opening quote before the index [i], which is not escaped. *)
Fixpoint quote_before (text : list ascii) (quote : ascii) (i : nat) : option nat :=
  match i with
  | O => None
  | S start =>
      if Ascii.eqb (at_index text start) quote &&
         ((start =? 0)%nat || negb (Ascii.eqb (at_index text (start - 1)) backslash))
      then Some start else quote_before text quote start
  end.

Definition key_byte (b : ascii) : bool :=
  byte_is_letter b || is_digit_ascii b || existsb (Ascii.eqb b) ["_"%char; "-"%char; "."%char].

Fixpoint word_start (text : list ascii) (start : nat) : nat :=
  match start with
  | O => O
  | S start' => if key_byte (at_index text start') then word_start text start' else start
  end.

(* go: internal/hyperliquid/client/client.go 369-395 responseKeyBefore *)
Definition responseKeyBefore (text : list ascii) (delimiter : nat) : list ascii :=
  let e := skip_back text delimiter in
  match e with
  | O => []
  | S last =>
      let quote := at_index text last in
      if is_quote quote then
        match quote_before text quote last with
        | Some start => slice text (S start) last
        | None => []
        end
      else slice text (word_start text e) e
  end.

(** The loop over a quoted value, from [index]. *)
Fixpoint quoted_end (fuel : nat) (text : list ascii) (quote : ascii) (escaped : bool) (index : nat) : nat :=
  match fuel with
  | O => length text
  | S fuel =>
      if (length text <=? index)%nat then length text
      else if escaped then quoted_end fuel text quote false (S index)
      else if Ascii.eqb (at_index text index) backslash then quoted_end fuel text quote true (S index)
      else if Ascii.eqb (at_index text index) quote then S index
      else quoted_end fuel text quote false (S index)
  end.

Definition ends_value (b : ascii) : bool :=
  existsb (Z.eqb (byte_code b)) [44; 59; 38; 10; 13; 125; 93].

Fixpoint plain_end (fuel : nat) (text : list ascii) (index : nat) : nat :=
  match fuel with
  | O => length text
  | S fuel =>
      if (length text <=? index)%nat then length text
      else if ends_value (at_index text index) then index
      else plain_end fuel text (S index)
  end.

(* go: internal/hyperliquid/client/client.go 397-426 responseValueEnd *)
Definition responseValueEnd (text : list ascii) (start : nat) : nat :=
  if (length text <=? start)%nat then start
  else if is_quote (at_index text start)
  then quoted_end (length text) text (at_index text start) false (S start)
  else plain_end (length text) text start.

(** [for valueStart < len(text) && unicode.IsSpace(...) { valueStart++ }]. *)
Fixpoint skip_spaces (fuel : nat) (text : list ascii) (i : nat) : nat :=
  match fuel with
  | O => i
  | S fuel => if (i <? length text)%nat && byte_is_space (at_index text i) then skip_spaces fuel text (S i) else i
  end.

Definition masked : list ascii := String.list_ascii_of_string Masked.

(** What replaces the value from [valueStart] to [valueEnd]. *)
(* go: internal/hyperliquid/client/client.go 349-358 redactTextKeyValues *)
Definition masked_value (text : list ascii) (valueStart valueEnd : nat) : list ascii :=
  if (valueStart <? length text)%nat && is_quote (at_index text valueStart) then
    let quote := at_index text valueStart in
    [quote] ++ masked ++
    (if (valueStart <? valueEnd)%nat && (valueEnd <=? length text)%nat && Ascii.eqb (at_index text (valueEnd - 1)) quote
     then [quote] else [])
  else masked.

(** The loop: [last] is the end of the text written so far. *)
(* go: internal/hyperliquid/client/client.go 333-366 redactTextKeyValues *)
Fixpoint redact_loop (fuel : nat) (text : list ascii) (index last : nat) (output : list ascii) : list ascii :=
  match fuel with
  | O => output ++ skipn last text
  | S fuel =>
      if (length text <=? index)%nat then (if (last =? 0)%nat then text else output ++ skipn last text)
      else
        let c := at_index text index in
        if negb (Ascii.eqb c "=" || Ascii.eqb c ":") then redact_loop fuel text (S index) last output
        else if negb (isSensitiveResponseKey (String.string_of_list_ascii (responseKeyBefore text index)))
        then redact_loop fuel text (S index) last output
        else
          let valueStart := skip_spaces (length text) text (S index) in
          let valueEnd := responseValueEnd text valueStart in
          redact_loop fuel text valueEnd valueEnd
            (output ++ slice text last valueStart ++ masked_value text valueStart valueEnd)
  end.

(* go: internal/hyperliquid/client/client.go 332-367 redactTextKeyValues *)
Definition redactTextKeyValues (text : string) : string :=
  let bytes := String.list_ascii_of_string text in
  String.string_of_list_ascii (redact_loop (S (length bytes)) bytes 0 0 []).

(** *** JSON bodies *)

(** The values of sensitive keys are masked, other texts below are
    redacted. *)
(* go: internal/hyperliquid/client/client.go 263-286 redactHTTPErrorJSON *)
Definition redactHTTPErrorJSON (v : json) : json := redact_tree isSensitiveResponseKey redactTextKeyValues v.

(* go: internal/hyperliquid/client/client.go 243-261 redactHTTPErrorBody *)
Definition redactHTTPErrorBody (body : string) : string :=
  match parse_json body with
  | Some value =>
      encode (match value with
              | JStr text => JStr (redactTextKeyValues text)
              | _ => redactHTTPErrorJSON (go_value value)
              end)
  | None => redactTextKeyValues body
  end.

(** ** The excerpt *)

(* go: internal/hyperliquid/client/client.go 28-28 maxHTTPErrorExcerptBytes *)
Definition maxHTTPErrorExcerptBytes : nat := 1024.

(* go: internal/hyperliquid/client/client.go 428-444 truncateHTTPErrorExcerpt *)
Definition truncateHTTPErrorExcerpt (text : string) (sourceTruncated : bool) : string :=
  if negb sourceTruncated && (String.length text <=? maxHTTPErrorExcerptBytes)%nat then text
  else
    let limit := (maxHTTPErrorExcerptBytes - String.length truncation_marker)%nat in
    if (limit =? 0)%nat then truncation_marker
    else
      let text :=
        if (limit <? String.length text)%nat then trim_to_valid limit (take_bytes limit text) else text in
      TrimSpace text +:+ truncation_marker.

(* go: internal/hyperliquid/client/client.go 228-241 safeHTTPErrorExcerpt *)
Definition safeHTTPErrorExcerpt (body : string) (sourceTruncated : bool) : string :=
  if string_is_empty body then ""
  else
    let text := SafeDiagnosticText (redactHTTPErrorBody body) in
    let text := map_runes (fun r => if is_control r then " " else r) text in
    let text := Join_strings " " (Fields text) in
    truncateHTTPErrorExcerpt text sourceTruncated.
End Redaction.

(** ** Requests *)

(* go: internal/hyperliquid/client/client.go 23-24 mainnetBaseURL *)
Definition mainnetBaseURL : string := "https://api.hyperliquid.xyz".
(* go: internal/hyperliquid/client/client.go 24-24 testnetBaseURL *)
Definition testnetBaseURL : string := "https://api.hyperliquid-testnet.xyz".
(* go: internal/hyperliquid/client/client.go 27-27 defaultMaxResponseBytes *)
Definition defaultMaxResponseBytes : Z := Z.shiftl 2 20.
(* go: internal/hyperliquid/client/client.go 30-30 endpointExchange *)
Definition endpointExchange : string := "/exchange".
(* go: internal/hyperliquid/client/client.go 31-31 endpointInfo *)
Definition endpointInfo : string := "/info".

(** The parts of a URL the client looks at. *)
Record URL : Type := mkURL {
  u_Scheme : string;
  u_Host : string;
  u_Path : string;
  u_RawQuery : string;
  u_Fragment : string
}.

(** [url.Parse], [URL.String] and [http.StatusText]. *)
Class NetOps : Type := {
  url_Parse : string -> result URL;
  url_String : URL -> string;
  StatusText : Z -> string
}.

(** One exchange over the network: [Do] answers with the status code,
    [ReadBody] with what [io.ReadAll] of at most [limit] bytes gives. *)
Inductive HttpOp : Type :=
| NewRequest (url payload : string)
| DoRequest (url payload : string)
| ReadBody (limit : Z)
| CloseBody.

Definition HttpResp (o : HttpOp) : Type :=
  match o with
  | NewRequest _ _ | CloseBody => option error
  | DoRequest _ _ => result Z
  | ReadBody _ => result string
  end.

#[export] Instance HttpSig : EffSig := {| Op := HttpOp; Resp := HttpResp |}.

(** [strings.TrimRight(s, c)] with one byte. *)
Definition TrimRightByte (c : ascii) (s : string) : string :=
  String.rev (trim_start [String c ""] (String.length s) (String.rev s)).

Section Client.
Context `{UnicodeTables} `{NetOps}.

(* go: internal/hyperliquid/client/client.go 91-100 baseURLForNetwork *)
Definition baseURLForNetwork (network : Network) : result string :=
  let network := NormalizeNetwork network in
  if String.eqb network NetworkMainnet then Ok mainnetBaseURL
  else if String.eqb network NetworkTestnet then Ok testnetBaseURL
  else Err (Errorf "unsupported hyperliquid network %q" [network]).

(* go: internal/hyperliquid/client/client.go 184-196 parseBaseURL *)
Definition parseBaseURL (value : string) : result URL :=
  match url_Parse (TrimSpace value) with
  | Err err => Err (Wrapf "parse hyperliquid base url: %w" [] err)
  | Ok u =>
      if negb (String.eqb (u_Scheme u) "http" || String.eqb (u_Scheme u) "https") || string_is_empty (u_Host u)
      then Err (Errorf "hyperliquid base url requires an http or https host" [])
      else if negb (string_is_empty (u_RawQuery u)) || negb (string_is_empty (u_Fragment u))
      then Err (Errorf "hyperliquid base url must not include query or fragment" [])
      else Ok u
  end.

(* go: internal/hyperliquid/client/client.go 39-42 Client *)
Record Client : Type := mkHttpClient { hc_baseURL : URL }.

(* go: internal/hyperliquid/client/client.go 72-89 New *)
Definition New (network : Network) (configuredURL : string) : result Client :=
  let network := NormalizeNetwork network in
  let? defaultURL := baseURLForNetwork network in
  let target := TrimSpace configuredURL in
  let target := if string_is_empty target then defaultURL else target in
  let? baseURL := parseBaseURL target in
  Ok (mkHttpClient baseURL).

(* go: internal/hyperliquid/client/client.go 177-182 endpointURL *)
Definition endpointURL (c : Client) (endpoint : string) : string :=
  let u := hc_baseURL c in
  url_String (mkURL (u_Scheme u) (u_Host u) (TrimRightByte "/" (u_Path u) +:+ endpoint) "" "").

(* go: internal/hyperliquid/client/client.go 220-226 canonicalHTTPStatus *)
Definition canonicalHTTPStatus (statusCode : Z) : string :=
  let statusText := StatusText statusCode in
  if string_is_empty statusText then itoa statusCode else itoa statusCode +:+ " " +:+ statusText.

(** The error of a response without a 2xx status, as it is printed. *)
(* go: internal/hyperliquid/client/client.go 54-70 HTTPStatusError *)
Definition HTTPStatusError (endpoint status excerpt : string) : error :=
  if string_is_empty excerpt then Errorf "hyperliquid %s returned %s" [endpoint; status]
  else Errorf "hyperliquid %s returned %s: %s" [endpoint; status; excerpt].

(** The body, at most [defaultMaxResponseBytes] of it, and whether there was
    more. *)
(* go: internal/hyperliquid/client/client.go 209-218 readBoundedResponseBody *)
Definition readBoundedResponseBody : prog (result (string * bool)) :=
  data ← perform (ReadBody (defaultMaxResponseBytes + 1));
  mret (match data with
        | Err err => Err err
        | Ok data =>
            if Z.of_nat (String.length data) <=? defaultMaxResponseBytes then Ok (data, false)
            else Ok (take_bytes (Z.to_nat defaultMaxResponseBytes) data, true)
        end).

(* go: internal/hyperliquid/client/client.go 198-207 readResponseBody *)
Definition readResponseBody : prog (result string) :=
  r ← readBoundedResponseBody;
  mret (let? (data, truncated) := r in
        if (truncated : bool) then Err (Errorf "body exceeds %d bytes" [itoa defaultMaxResponseBytes]) else Ok data).

(** What follows a response: the body of the answer, the decoded value, and
    the error, before the body is closed. *)
(* go: internal/hyperliquid/client/client.go 149-174 post *)
Definition read_response {A : Type} (endpoint : string) (status : Z) (out : option (string -> option A))
    : prog (string * option A * option error) :=
  if (status <? 200) || (300 <=? status) then
    r ← readBoundedResponseBody;
    mret (match r with
          | Err err => ("", None, Some (Wrapf "read hyperliquid %s error response (%s): %w" [endpoint; canonicalHTTPStatus status] err))
          | Ok (body, sourceTruncated) =>
              let excerpt := safeHTTPErrorExcerpt body sourceTruncated in
              (excerpt, None, Some (HTTPStatusError endpoint (canonicalHTTPStatus status) excerpt))
          end)
  else
    r ← readResponseBody;
    mret (match r with
          | Err err => ("", None, Some (Wrapf "read hyperliquid %s response: %w" [endpoint] err))
          | Ok body =>
              match out with
              | None => (body, None, None)
              | Some decode =>
                  match decode body with
                  | None => (body, None, Some (Wrapf "decode hyperliquid %s response: %w" [endpoint] (Errorf "invalid JSON" [])))
                  | Some value => (body, Some value, None)
                  end
              end
          end).

(** The context is not nil.  [raw] is nil or the bytes to send, [request] is
    nil or the value to encode. *)
(* go: internal/hyperliquid/client/client.go 113-175 post *)
Definition post {A : Type} (c : option Client) (endpoint : string) (request : option json) (raw : option string)
    (out : option (string -> option A)) : prog (string * option A * option error) :=
  match c with
  | None => mret ("", None, Some (Errorf "hyperliquid client is nil" []))
  | Some c =>
      match raw, request with
      | None, None => mret ("", None, Some (Errorf "hyperliquid %s request is nil" [endpoint]))
      | _, _ =>
          let payload := match raw, request with Some raw, _ => raw | None, Some v => encode v | None, None => "" end in
          let url := endpointURL c endpoint in
          try perform (NewRequest url payload)
            else (fun err => ("", None, Some (Wrapf "build hyperliquid %s request: %w" [endpoint] err))) ;;
          let! status := perform (DoRequest url payload)
            else (fun err => ("", None, Some (Wrapf "post hyperliquid %s: %w" [endpoint] err))) ;;
          r ← read_response endpoint status out;
          closed ← perform CloseBody;
          mret (match closed with
                | None => r
                | Some closeErr =>
                    (fst r, joined (snd r) (Some (Wrapf "close hyperliquid %s response body (%s): %w"
                                                   [endpoint; canonicalHTTPStatus status] closeErr)))
                end)
      end
  end.

(* go: internal/hyperliquid/client/client.go 102-104 Info *)
Definition Info {A : Type} (c : option Client) (request : json) (decode : string -> option A) : prog (string * option A * option error) :=
  post c endpointInfo (Some request) None (Some decode).

(** With [out] nil, as the exchange client calls it. *)
(* go: internal/hyperliquid/client/client.go 106-111 ExchangeRaw *)
Definition ExchangeRaw (c : option Client) (request : string) : prog (string * option error) :=
  if string_is_empty request then mret ("", Some (Errorf "hyperliquid %s request is empty" [endpointExchange]))
  else r ← post (A := unit) c endpointExchange None (Some request) None; mret (fst (fst r), snd r).
End Client.
