(* ===== verification/HttpTheorems.v ===== *)
(** * What the HTTP client guarantees

    The excerpt of a failed response is bounded and clean
    ([http_excerpts_are_clean]) and does not depend on the secrets of the body
    ([redaction_hides_secrets], [redaction_masks_value]); a submitted action
    leaves the process at most once, byte for byte, and counts as accepted or
    rejected only after a complete successful response
    ([submission_over_http]). *)

From S2P Require Import Prelude DecimalSpec Prog Crash Model Json JsonFacts JsonStruct Signing Exchange ExchangeFacts Text Sensitive Diagnostics DiagnosticFacts HttpClient.

(** ** Excerpts *)

Lemma truncate_clean text sourceTruncated : clean text ->
  let excerpt := truncateHTTPErrorExcerpt text sourceTruncated in
  clean excerpt /\ (String.length excerpt <= maxHTTPErrorExcerptBytes)%nat /\
  (sourceTruncated = true -> exists rest, excerpt = rest +:+ truncation_marker).
Proof.
  intros Ht. unfold truncateHTTPErrorExcerpt.
  destruct (negb sourceTruncated && (String.length text <=? maxHTTPErrorExcerptBytes)%nat) eqn:E.
  { apply andb_true_iff in E as [E1 E2]. apply Nat.leb_le in E2. split_and!; [done..|]. by intros ->. }
  change ((maxHTTPErrorExcerptBytes - String.length truncation_marker)%nat) with 1009%nat. cbv zeta.
  change (1009 =? 0)%nat with false. cbv iota.
  assert (clean (if (1009 <? String.length text)%nat then trim_to_valid 1009 (take_bytes 1009 text) else text) /\
    (String.length (if (1009 <? String.length text)%nat then trim_to_valid 1009 (take_bytes 1009 text) else text) <= 1009)%nat) as [Hc Hl].
  { destruct (Nat.ltb_spec 1009 (String.length text)); [by apply cut_clean|done]. }
  set (cut := if (1009 <? String.length text)%nat then trim_to_valid 1009 (take_bytes 1009 text) else text) in *. clearbody cut.
  pose proof (TrimSpace_length cut). split_and!.
  - apply clean_app; [by apply clean_TrimSpace|apply marker_clean].
  - rewrite string_length_app. change (String.length truncation_marker) with 15%nat. unfold maxHTTPErrorExcerptBytes. lia.
  - by eexists.
Qed.

(** The excerpt of a failed response is at most 1024 bytes of valid UTF-8
    without control characters, whatever the body holds; a shortened one
    says so. *)
Lemma http_excerpts_are_clean `{UnicodeTables} body sourceTruncated :
  let excerpt := safeHTTPErrorExcerpt body sourceTruncated in
  clean excerpt /\ (String.length excerpt <= maxHTTPErrorExcerptBytes)%nat /\
  (body <> "" -> sourceTruncated = true -> exists text, excerpt = text +:+ truncation_marker).
Proof.
  unfold safeHTTPErrorExcerpt. destruct (string_is_empty body) eqn:Eb.
  { split_and!; [apply clean_empty|simpl; lia|]. intros Hb. by destruct body. }
  destruct (truncate_clean _ sourceTruncated (flattened_clean (SafeDiagnosticText (redactHTTPErrorBody body)))) as (? & ? & ?).
  by split_and!.
Qed.

(** ** Redaction of JSON bodies *)

Section Redaction.
Context `{UnicodeTables}.

(** The root is treated like a child. *)
Lemma redactHTTPErrorBody_json body v : parse_json body = Some v ->
  redactHTTPErrorBody body = encode (redact_child isSensitiveResponseKey redactTextKeyValues (go_value v)).
Proof. intros Hp. unfold redactHTTPErrorBody. rewrite Hp. by destruct v. Qed.

(** Secrets do not reach the excerpt: two JSON bodies that differ only in
    the values of sensitive keys - at any depth - and in the masked parts of
    texts have the same excerpt. *)
Theorem redaction_hides_secrets body body' v v' sourceTruncated :
  parse_json body = Some v -> parse_json body' = Some v' -> agree isSensitiveResponseKey redactTextKeyValues v v' ->
  safeHTTPErrorExcerpt body sourceTruncated = safeHTTPErrorExcerpt body' sourceTruncated.
Proof.
  intros Hv Hv' Ha. unfold safeHTTPErrorExcerpt.
  assert (string_is_empty body = false) as -> by by destruct body.
  assert (string_is_empty body' = false) as -> by by destruct body'.
  rewrite (redactHTTPErrorBody_json _ _ Hv), (redactHTTPErrorBody_json _ _ Hv').
  by rewrite (proj1 (agree_redacted _ _) v v' Ha).
Qed.
End Redaction.

(** ** Submitting an action *)

Section Submission.
Context `{UnicodeTables} `{NetOps}.

(** [Exchange.Submit] with the HTTP client as its transport. *)
Definition submit_over_http (c : option HttpClient.Client) (action : PreparedAction) : prog (SubmitResult * option error) :=
  if string_is_empty (pa_RequestBody action)
  then mret (mkSubmitResult false false "", Some (Errorf "prepared request body is empty" []))
  else r ← ExchangeRaw c (pa_RequestBody action); mret (classify (fst r) (snd r)).

Definition sends (o : HttpOp) : bool := match o with DoRequest _ _ => true | _ => false end.

(** The trace of a request that was answered completely. *)
Definition complete_exchange (c : HttpClient.Client) (payload data : string) (status : Z) : list (event HttpSig) :=
  let url := endpointURL c endpointExchange in
  [Ev (NewRequest url payload : @Op HttpSig) (None : HttpResp (NewRequest url payload));
   Ev (DoRequest url payload : @Op HttpSig) (Ok status : HttpResp (DoRequest url payload));
   Ev (ReadBody (defaultMaxResponseBytes + 1) : @Op HttpSig) (Ok data : HttpResp (ReadBody (defaultMaxResponseBytes + 1)));
   Ev (CloseBody : @Op HttpSig) (None : HttpResp CloseBody)].

(** Exposes the next operation of the program. *)
Ltac reduce := cbn [mbind prog_mbind prog_bind mret prog_ret perform let_ok if_err fst snd read_response
  readBoundedResponseBody readResponseBody rbind ops_in count_le wp history allowed step sends].

(** The only request carries the bytes of the action. *)
Lemma submit_ops c action :
  ops_in (Sig := HttpSig) (fun o => match o with DoRequest _ payload => payload = pa_RequestBody action | _ => True end)
    (submit_over_http c action).
Proof.
  unfold submit_over_http. destruct (string_is_empty (pa_RequestBody action)) eqn:E; [done|].
  unfold ExchangeRaw. rewrite E. unfold post. destruct c as [c|]; [|done].
  reduce. split; [done|]. intros [e|]; [done|]. reduce. split; [done|]. intros [status|e]; [|done]. unfold read_response.
  destruct ((status <? 200) || (300 <=? status)); reduce; (split; [done|]); intros [data|e]; reduce;
    try destruct (_ <=? defaultMaxResponseBytes); reduce; (split; [done|]); by intros [e'|].
Qed.

Lemma submit_once c action :
  count_le (Sig := HttpSig) sends 1 (submit_over_http c action).
Proof.
  unfold submit_over_http. destruct (string_is_empty (pa_RequestBody action)) eqn:E; [done|].
  unfold ExchangeRaw. rewrite E. unfold post. destruct c as [c|]; [|done].
  reduce. intros [e|]; [done|]. reduce. intros [status|e]; [|done]. unfold read_response.
  destruct ((status <? 200) || (300 <=? status)); reduce; intros [data|e]; reduce;
    try destruct (_ <=? defaultMaxResponseBytes); reduce; by intros [e'|].
Qed.

(** What an accepted or rejected action has behind it. *)
Definition verdict (c : HttpClient.Client) (payload : string) (a : SubmitResult * option error) (h : list (event HttpSig)) : Prop :=
  sr_Accepted (fst a) = true \/ sr_Rejected (fst a) = true ->
  snd a = None /\ exists data status, rev h = complete_exchange c payload data status /\
    200 <= status < 300 /\ Z.of_nat (String.length data) <= defaultMaxResponseBytes /\
    decode_status data = Some (if sr_Accepted (fst a) then "ok" else "err").

Lemma verdict_failed c payload body err h : verdict c payload (classify body (Some err)) h.
Proof. by intros [?|?]. Qed.

Lemma classify_verdict body : sr_Accepted (fst (classify body None)) = true \/ sr_Rejected (fst (classify body None)) = true ->
  snd (classify body None) = None /\ decode_status body = Some (if sr_Accepted (fst (classify body None)) then "ok" else "err").
Proof.
  unfold classify. destruct (decode_status body) as [status|]; [|by intros [?|?]]. cbn [sr_Accepted sr_Rejected].
  destruct (String.eqb_spec status "ok") as [->|]; [done|]. destruct (String.eqb_spec status "err") as [->|]; [done|].
  by intros [?|?].
Qed.

Lemma submit_verdict c action :
  wp (history (Sig := HttpSig) (fun _ _ => True)) [] (submit_over_http (Some c) action) (verdict c (pa_RequestBody action)).
Proof.
  unfold submit_over_http. destruct (string_is_empty (pa_RequestBody action)) eqn:E; [by intros [?|?]|].
  unfold ExchangeRaw. rewrite E. unfold post. reduce. split; [done|]. intros [e|] h1 ->; [by intros [?|?]|].
  reduce. split; [done|]. intros [status|e] h2 ->; [|by intros [?|?]]. unfold read_response.
  destruct ((status <? 200) || (300 <=? status)) eqn:Es; reduce; (split; [done|]); intros [data|e] h3 ->; reduce.
  - destruct (_ <=? defaultMaxResponseBytes); reduce; (split; [done|]); intros [e'|] h4 ->; apply verdict_failed.
  - split; [done|]. intros [e'|] h4 ->; apply verdict_failed.
  - destruct (Z.leb_spec (Z.of_nat (String.length data)) defaultMaxResponseBytes); reduce; (split; [done|]).
    + intros [e'|] h4 ->; [apply verdict_failed|]. intros Hv. destruct (classify_verdict data Hv) as [Hv1 Hv2].
      split; [done|]. exists data, status. split; [done|]. apply orb_false_iff in Es as [E1 E2]. split; [lia|done].
    + intros [e'|] h4 ->; apply verdict_failed.
  - split; [done|]. intros [e'|] h4 ->; apply verdict_failed.
Qed.

(** C13: an action leaves the process at most once and byte for byte; it counts
    as accepted or rejected only after a 2xx response whose whole body, at
    most 2 MiB, was read and closed without an error and says so. *)
Theorem submission_over_http {W : Type} (pr : protocol W) w c action tr w' m' :
  partial pr w (submit_over_http (Some c) action) tr w' m' ->
  (length (List.filter (fun e => match e with Ev o _ => sends o end) tr) <= 1)%nat /\
  Forall (fun e => match e with Ev (DoRequest _ payload) _ => payload = pa_RequestBody action | _ => True end) tr /\
  forall r err, m' = Ret (r, err) -> sr_Accepted r = true \/ sr_Rejected r = true ->
    err = None /\ exists data status, tr = complete_exchange c (pa_RequestBody action) data status /\
      200 <= status < 300 /\ Z.of_nat (String.length data) <= defaultMaxResponseBytes /\
      decode_status data = Some (if sr_Accepted r then "ok" else "err").
Proof.
  intros Hp. split; [exact (count_le_partial _ _ _ _ _ _ _ _ Hp (submit_once _ _))|]. split.
  { destruct (ops_in_partial _ _ _ _ _ _ _ Hp (submit_ops (Some c) action)) as [Hf _].
    eapply Forall_impl; [exact Hf|]. intros [o r]. by destruct o. }
  intros r err -> Hr. pose proof (history_returns _ _ _ _ _ _ _ _ _ Hp (submit_verdict c action)) as Hv.
  rewrite app_nil_r in Hv. unfold verdict in Hv. rewrite rev_involutive in Hv. by apply Hv.
Qed.
End Submission.

(** ** Witnesses *)

Section Witnesses.

#[local] Existing Instance ascii_tables.

(** A parser for URLs of one host. *)
#[local] Instance sample_net : NetOps := {|
  url_Parse := fun s => match strip "https://" s with
                        | Some host => Ok (mkURL "https" host "" "" "")
                        | None => Err (Errorf "parse %q" [s])
                        end;
  url_String := fun u => u_Scheme u +:+ "://" +:+ u_Host u +:+ u_Path u;
  StatusText := fun status => if status =? 503 then "Service Unavailable" else ""
|}.

Definition body_with (secret : string) : json :=
  JObj [("error", JStr "denied"); ("request", JArr [JObj [("apiKey", JStr secret); ("attempt", JNum "2")]])].

Lemma redaction_hides_secrets_witness :
  safeHTTPErrorExcerpt (encode (body_with "s3cr3t")) false =
  safeHTTPErrorExcerpt (encode (body_with "0x1234")) false.
Proof.
  apply (redaction_hides_secrets _ _ (body_with "s3cr3t") (body_with "0x1234") false).
  - vm_compute. reflexivity.
  - vm_compute. reflexivity.
  - apply agree_obj, agree_public; [apply agree_same|]. apply agree_public; [|apply agree_no_fields].
    apply agree_arr, agree_cons; [|apply agree_nil]. apply agree_obj, agree_secret; [vm_compute; reflexivity|].
    apply agree_public; [apply agree_same|apply agree_no_fields].
Defined.

Definition sample_client : HttpClient.Client := mkHttpClient (mkURL "https" "api.hyperliquid.xyz" "" "" "").
Definition sample_action : PreparedAction := mkPrepared "spotSend" "0xaa" "0xbb" "USDC:0x6d1e" "12.5" 1 (encode (JObj [])).
Definition accepted_body : string := encode (JObj [("status", JStr "ok")]).

(** A network that accepts. *)
Definition accepting_net (_ : unit) (o : HttpOp) : option (HttpResp o * unit) :=
  match o return option (HttpResp o * unit) with
  | NewRequest _ _ | CloseBody => Some (None, tt)
  | DoRequest _ _ => Some (Ok 200, tt)
  | ReadBody _ => Some (Ok accepted_body, tt)
  end.

Definition any_network : protocol unit := {| allowed _ _ := True; step _ (_ : @Op HttpSig) _ _ := True |}.

Lemma submission_over_http_witness : exists tr r,
  partial any_network tt (submit_over_http (Some sample_client) sample_action) tr tt (Ret (r, None)) /\
  sr_Accepted r = true /\ exists data status, tr = complete_exchange sample_client "{}" data status.
Proof.
  pose proof (exec_partial (Sig := HttpSig) any_network (fun _ => tt) accepting_net (fun _ _ _ _ _ => I)
    (submit_over_http (Some sample_client) sample_action) tt) as Hp.
  assert (fst (exec (Sig := HttpSig) accepting_net tt (submit_over_http (Some sample_client) sample_action)) =
    Ret (mkSubmitResult true false accepted_body, None)) as E by (vm_compute; reflexivity).
  rewrite E in Hp. exists (exec_trace (Sig := HttpSig) accepting_net tt (submit_over_http (Some sample_client) sample_action)),
    (mkSubmitResult true false accepted_body). split; [exact Hp|]. split; [reflexivity|].
  destruct (proj2 (proj2 (submission_over_http any_network _ _ _ _ _ _ Hp)) _ _ eq_refl (or_introl eq_refl))
    as (_ & data & status & Htr & _).
  exact (ex_intro _ data (ex_intro _ status Htr)).
Defined.
End Witnesses.

(** * Redaction of plain texts

    The value after a sensitive key is masked up to the next field delimiter
    ([redaction_masks_value]). *)

Section Text.
Context `{UnicodeTables}.

Definition delimiter (b : ascii) : bool := Ascii.eqb b "=" || Ascii.eqb b ":".

Lemma at_index_app a b i : at_index (a ++ b) (length a + i) = at_index b i.
Proof. unfold at_index. rewrite app_nth2 by lia. f_equal. lia. Qed.

Lemma at_index_l a b i : (i < length a)%nat -> at_index (a ++ b) i = at_index a i.
Proof. intros Hi. unfold at_index. by rewrite app_nth1. Qed.

Lemma at_index_in a i : (i < length a)%nat -> at_index a i ∈ a.
Proof. intros Hi. apply list_elem_of_In. by apply nth_In. Qed.

(** Bytes that are no delimiters are passed over. *)
Lemma redact_loop_skip k text fuel index last output :
  (forall j, (index <= j < index + k)%nat -> delimiter (at_index text j) = false) -> (index + k <= length text)%nat ->
  redact_loop (k + fuel) text index last output = redact_loop fuel text (index + k) last output.
Proof.
  revert index. induction k as [|k IH]; intros index Hd Hl; [by rewrite Nat.add_0_r|]. cbn [Nat.add redact_loop].
  rewrite (proj2 (Nat.leb_gt _ _)) by lia. cbv zeta. fold (delimiter (at_index text index)). rewrite Hd by lia. cbn [negb].
  rewrite IH; [f_equal; lia| |lia]. intros j Hj. apply Hd. lia.
Qed.

(** At the end of the text. *)
Lemma redact_loop_end fuel text index last output : (length text <= index)%nat -> (0 < last)%nat ->
  redact_loop (S fuel) text index last output = output ++ skipn last text.
Proof.
  intros Hi Hl. cbn [redact_loop]. rewrite (proj2 (Nat.leb_le _ _)) by done. by rewrite (proj2 (Nat.eqb_neq last 0)) by lia.
Qed.

Lemma key_byte_plain b : key_byte b = true -> byte_is_space b = false /\ is_quote b = false /\ delimiter b = false.
Proof. destruct b as [[] [] [] [] [] [] [] []]; vm_compute; done. Qed.

Lemma word_start_key pre key rest k : Forall (fun b => key_byte b = true) key ->
  (forall p b, pre = p ++ [b] -> key_byte b = false) -> (k <= length key)%nat ->
  word_start (pre ++ key ++ rest) (length pre + k) = length pre.
Proof.
  intros Hk Hp. induction k as [|k IH]; intros Hl.
  - rewrite Nat.add_0_r. destruct pre as [|b p] using rev_ind; [done|]. rewrite length_app, Nat.add_1_r. cbn [word_start].
    rewrite <- app_assoc, <- (Nat.add_0_r (length p)) at 1. rewrite at_index_app. cbn [at_index app nth].
    change (nth 0 ([b] ++ key ++ rest) (ascii_of_nat 0)) with b. by rewrite (Hp p b eq_refl).
  - rewrite Nat.add_succ_r. cbn [word_start]. rewrite at_index_app, at_index_l by lia.
    rewrite (proj1 (Forall_forall _ _) Hk (at_index key k)) by (apply at_index_in; lia). apply IH. lia.
Qed.

Lemma slice_middle (a b c : list ascii) : slice (a ++ b ++ c) (length a) (length a + length b) = b.
Proof.
  unfold slice. rewrite drop_app_length. replace (length a + length b - length a)%nat with (length b) by lia.
  apply take_app_length.
Qed.

Lemma key_before pre key rest : key <> [] -> Forall (fun b => key_byte b = true) key ->
  (forall p b, pre = p ++ [b] -> key_byte b = false) ->
  responseKeyBefore (pre ++ key ++ rest) (length pre + length key) = key.
Proof.
  intros Hne Hk Hp. unfold responseKeyBefore. destruct (length key) as [|k] eqn:El; [by destruct key|].
  assert (at_index (pre ++ key ++ rest) (length pre + k) = at_index key k) as Hat.
  { by rewrite at_index_app, at_index_l by lia. }
  destruct (key_byte_plain (at_index key k)) as (Hs & Hq & _).
  { apply (proj1 (Forall_forall _ _) Hk). apply at_index_in. lia. }
  rewrite Nat.add_succ_r. cbn [skip_back]. rewrite Hat, Hs. rewrite Hat, Hq. rewrite <- Nat.add_succ_r, <- El.
  rewrite word_start_key by (done || lia). apply slice_middle.
Qed.

Lemma plain_end_spec a value post fuel :
  Forall (fun b => ends_value b = false) value -> (forall b p, post = b :: p -> ends_value b = true) ->
  (length value < fuel)%nat ->
  plain_end fuel (a ++ value ++ post) (length a) = (length a + length value)%nat.
Proof.
  intros Hv Hp. revert a fuel. induction Hv as [|b value Hb Hv IH]; intros a fuel Hf; (destruct fuel as [|fuel]; [simpl in Hf; lia|]);
    cbn [plain_end]; rewrite !length_app.
  - destruct post as [|b p]; [rewrite (proj2 (Nat.leb_le _ _)) by (simpl; lia); simpl; lia|].
    rewrite (proj2 (Nat.leb_gt _ _)) by (simpl; lia). rewrite <- (Nat.add_0_r (length a)) at 1. rewrite at_index_app.
    change (at_index ([] ++ b :: p) 0) with b. rewrite (Hp b p eq_refl). simpl. lia.
  - rewrite (proj2 (Nat.leb_gt _ _)) by (simpl; lia). rewrite <- (Nat.add_0_r (length a)) at 1. rewrite at_index_app.
    change (at_index ((b :: value) ++ post) 0) with b. rewrite Hb.
    change ((b :: value) ++ post) with ([b] ++ value ++ post). rewrite (app_assoc a [b]).
    specialize (IH (a ++ [b]) fuel). rewrite length_app in IH. cbn [length] in *. rewrite <- Nat.add_1_r in Hf.
    replace (S (length a)) with (length a + 1)%nat by lia. rewrite IH by lia. lia.
Qed.

(** In a text, the value after a sensitive key - the longest word of key
    characters before an equals sign or a colon - is replaced by the mask up
    to the next field delimiter, whatever it is, and the rest of the text is
    left alone. *)
Theorem redaction_masks_value pre key d v value post :
  let text := pre ++ key ++ [d] ++ (v :: value) ++ post in
  Forall (fun b => delimiter b = false) (pre ++ key ++ post) -> delimiter d = true ->
  key <> [] -> Forall (fun b => key_byte b = true) key -> (forall p b, pre = p ++ [b] -> key_byte b = false) ->
  isSensitiveResponseKey (String.string_of_list_ascii key) = true ->
  byte_is_space v = false -> is_quote v = false -> Forall (fun b => ends_value b = false) (v :: value) ->
  (forall b p, post = b :: p -> ends_value b = true) ->
  redactTextKeyValues (String.string_of_list_ascii text) =
  String.string_of_list_ascii (pre ++ key ++ [d] ++ masked ++ post).
Proof.
  intros text Hd Hdel Hne Hk Hpre Hs Hv Hq Hval Hpost. unfold redactTextKeyValues.
  rewrite String.list_ascii_of_string_of_list_ascii. cbv zeta. f_equal.
  apply Forall_app in Hd as [Hdpre Hd]. apply Forall_app in Hd as [Hdkey Hdpost].
  set (n := (length pre + length key)%nat). set (vs := S n). set (ve := (vs + length (v :: value))%nat).
  assert (length text = ve + length post)%nat as Hlen.
  { subst text ve vs n. rewrite !length_app. simpl. lia. }
  replace (S (length text)) with (n + S (S (length value) + S (length post)))%nat by (subst ve vs; simpl in *; lia).
  rewrite redact_loop_skip; [|intros j Hj|subst ve vs; simpl in *; lia].
  2:{ subst text. rewrite app_assoc. rewrite at_index_l by (rewrite length_app; subst n; lia).
      assert (at_index (pre ++ key) j ∈ pre ++ key) as Hin by (apply at_index_in; rewrite length_app; subst n; lia).
      apply elem_of_app in Hin as [Hin|Hin]; [exact (proj1 (Forall_forall _ _) Hdpre _ Hin)|exact (proj1 (Forall_forall _ _) Hdkey _ Hin)]. }
  rewrite Nat.add_0_l. cbn [redact_loop].
  rewrite (proj2 (Nat.leb_gt _ _)) by (subst ve vs; simpl in *; lia). cbv zeta.
  assert (at_index text n = d) as ->.
  { subst text n. rewrite app_assoc, <- length_app, <- (Nat.add_0_r (length (pre ++ key))), at_index_app. done. }
  fold (delimiter d). rewrite Hdel. cbn [negb]. unfold text at 1. subst n. rewrite key_before, Hs by done. cbn [negb].
  fold vs.
  assert (at_index text vs = v) as Hat.
  { subst text vs. replace (S (length pre + length key)) with (length (pre ++ key ++ [d]) + 0)%nat by (rewrite !length_app; simpl; lia).
    replace (pre ++ key ++ [d] ++ (v :: value) ++ post) with ((pre ++ key ++ [d]) ++ (v :: value) ++ post) by (by rewrite <- !app_assoc).
    by rewrite at_index_app. }
  assert (skip_spaces (length text) text vs = vs) as ->.
  { destruct (length text); [done|]. cbn [skip_spaces]. by rewrite Hat, Hv, andb_false_r. }
  assert (responseValueEnd text vs = ve) as ->.
  { unfold responseValueEnd. rewrite (proj2 (Nat.leb_gt _ _)) by (subst ve; simpl in *; lia). rewrite Hat, Hq.
    assert (vs = length (pre ++ key ++ [d])) as Evs by (subst vs; rewrite !length_app; simpl; lia).
    rewrite Evs. replace text with ((pre ++ key ++ [d]) ++ (v :: value) ++ post) by (subst text; by rewrite <- !app_assoc).
    rewrite plain_end_spec; [by rewrite <- Evs|done|done|]. rewrite !length_app. simpl. lia. }
  unfold masked_value. rewrite Hat, Hq, andb_false_r.
  replace (S (length value) + S (length post))%nat with (length post + S (S (length value)))%nat by lia.
  rewrite redact_loop_skip; [|intros j Hj|lia].
  2:{ replace j with (ve + (j - ve))%nat by lia.
      replace text with ((pre ++ key ++ [d] ++ (v :: value)) ++ post) by (subst text; by rewrite <- !app_assoc).
      replace ve with (length (pre ++ key ++ [d] ++ (v :: value))) by (subst ve vs; rewrite !length_app; simpl; lia).
      rewrite at_index_app. apply (proj1 (Forall_forall _ _) Hdpost). apply at_index_in. subst ve vs. rewrite !length_app. simpl in *. lia. }
  rewrite redact_loop_end by (subst ve vs; lia). rewrite app_nil_l.
  replace (skipn ve text) with post.
  2:{ replace text with ((pre ++ key ++ [d] ++ (v :: value)) ++ post) by (subst text; by rewrite <- !app_assoc).
      replace ve with (length (pre ++ key ++ [d] ++ (v :: value))) by (subst ve vs; rewrite !length_app; simpl; lia).
      by rewrite drop_app_length. }
  replace (slice text 0 vs) with (pre ++ key ++ [d]); [by rewrite <- !app_assoc|].
  unfold slice. rewrite Nat.sub_0_r, drop_0.
  replace text with ((pre ++ key ++ [d]) ++ (v :: value) ++ post) by (subst text; by rewrite <- !app_assoc).
  replace vs with (length (pre ++ key ++ [d])) by (subst vs; rewrite !length_app; simpl; lia). by rewrite take_app_length.
Qed.
End Text.

(** ** Witness *)


Lemma redaction_masks_value_witness :
  @redactTextKeyValues ascii_tables "signing failed, apiKey=s3cr3t; retry" = "signing failed, apiKey=[MASKED]; retry".
Proof.
  pose proof (@redaction_masks_value ascii_tables (String.list_ascii_of_string "signing failed, ")
    (String.list_ascii_of_string "apiKey") "=" "s" (String.list_ascii_of_string "3cr3t") (String.list_ascii_of_string "; retry")) as H.
  apply H; clear H.
  - vm_compute. repeat constructor.
  - reflexivity.
  - discriminate.
  - vm_compute. repeat constructor.
  - intros p b Hp. assert (last (String.list_ascii_of_string "signing failed, ") = Some b) as Hl by (rewrite Hp; apply last_snoc).
    vm_compute in Hl. injection Hl as <-. reflexivity.
  - vm_compute. reflexivity.
  - reflexivity.
  - reflexivity.
  - vm_compute. repeat constructor.
  - intros b p [= <- _]. reflexivity.
Defined.
