(* ===== verification/InfoClient.v ===== *)
(** * The info client

    [internal/hyperliquid/info]: the questions the service asks the exchange -
    the canonical USDC token, spot balances, claimable rewards and the request
    limit of a user - and what it accepts as an answer.

    The client talks to a [Transport]; the HTTP client is the instance the
    program uses. *)

From Stdlib Require Import QArith.
From S2P Require Import Prelude DecimalSpec DecimalImpl Prog Crash Model Json JsonStruct Envelope Text HttpClient.

(* go: internal/hyperliquid/info/types.go 17-23 SpotToken *)
Record SpotToken : Type := mkSpotToken {
  st_Name : string;
  st_TokenID : string;
  st_Index : Z;
  st_WeiDecimals : Z;
  st_IsCanonical : bool
}.
#[export] Instance SpotToken_settable : Settable SpotToken := fun t =>
  mkSpotToken (st_Name t) (st_TokenID t) (st_Index t) (st_WeiDecimals t) (st_IsCanonical t).

(* go: internal/hyperliquid/info/types.go 13-15 SpotMeta *)
Record SpotMeta : Type := mkSpotMeta { sm_Tokens : list SpotToken }.

(* go: internal/hyperliquid/info/types.go 25-30 SpotBalance *)
Record SpotBalance : Type := mkSpotBalance {
  spb_Coin : string;
  spb_Token : Z;
  spb_Total : string;
  spb_Hold : string
}.
#[export] Instance SpotBalance_settable : Settable SpotBalance := fun b =>
  mkSpotBalance (spb_Coin b) (spb_Token b) (spb_Total b) (spb_Hold b).

(** ** Decoding *)

(** [json.Unmarshal]: the document is checked first. *)
Definition unmarshal {A : Type} (dec : decoder A) (zero : A) (body : string) : option A :=
  match parse_json body with Some _ => dec body zero | None => None end.

(* go: internal/hyperliquid/info/types.go 17-23 SpotToken *)
Definition dec_spot_token : decoder SpotToken := dec_struct (field [
  ("name", dec_str (fun v t => t <| st_Name := v |>));
  ("tokenId", dec_str (fun v t => t <| st_TokenID := v |>));
  ("index", dec_int64 (fun v t => t <| st_Index := v |>));
  ("weiDecimals", dec_int64 (fun v t => t <| st_WeiDecimals := v |>));
  ("isCanonical", dec_bool (fun v t => t <| st_IsCanonical := v |>))]).
Definition zero_spot_token : SpotToken := mkSpotToken "" "" 0 0 false.

(* go: internal/hyperliquid/info/types.go 13-15 SpotMeta *)
Definition dec_spot_meta : decoder SpotMeta := dec_struct (field [
  ("tokens", dec_slice zero_spot_token (fun v _ => mkSpotMeta v) dec_spot_token)]).

(* go: internal/hyperliquid/info/types.go 25-30 SpotBalance *)
Definition dec_spot_balance : decoder SpotBalance := dec_struct (field [
  ("coin", dec_str (fun v b => b <| spb_Coin := v |>));
  ("token", dec_int64 (fun v b => b <| spb_Token := v |>));
  ("total", dec_str (fun v b => b <| spb_Total := v |>));
  ("hold", dec_str (fun v b => b <| spb_Hold := v |>))]).
Definition zero_spot_balance : SpotBalance := mkSpotBalance "" 0 "" "".

(* go: internal/hyperliquid/info/client.go 82-84 SpotBalance *)
Definition dec_balances : decoder (list SpotBalance) := dec_struct (field [
  ("balances", dec_slice zero_spot_balance (fun v _ => v) dec_spot_balance)]).

(** An entry is a slice of raw values; [None] stands for the missing
    pointer. *)
(* go: internal/hyperliquid/info/client.go 101-103 ClaimableUSDC *)
Definition dec_token_states : decoder (option (list (list string))) := dec_struct (field [
  ("tokenToState", dec_ptr [] (fun r => r) (fun v _ => v) (dec_slice [] (fun v _ => v) (dec_slice "" (fun v _ => v) (dec_raw (fun v _ => v)))))]).

(* go: internal/hyperliquid/info/client.go 127-129 ClaimableUSDC *)
Definition dec_unclaimed : decoder string := dec_struct (field [("unclaimedRewards", dec_str (fun v _ => v))]).

(** The answer about a limit, with pointers for the required counts. *)
(* go: internal/hyperliquid/info/client.go 154-159 UserRateLimit *)
Record rate_limit_response : Type := mkRateLimitResponse {
  rl_CumVlm : string;
  rl_NRequestsUsed : option Z;
  rl_NRequestsCap : option Z;
  rl_NRequestsSurplus : Z
}.
#[export] Instance rate_limit_settable : Settable rate_limit_response := fun r =>
  mkRateLimitResponse (rl_CumVlm r) (rl_NRequestsUsed r) (rl_NRequestsCap r) (rl_NRequestsSurplus r).

(* go: internal/hyperliquid/info/client.go 154-159 UserRateLimit *)
Definition dec_rate_limit : decoder rate_limit_response := dec_struct (field [
  ("cumVlm", dec_str (fun v r => r <| rl_CumVlm := v |>));
  ("nRequestsUsed", dec_ptr 0 rl_NRequestsUsed (fun v r => r <| rl_NRequestsUsed := v |>) (dec_uint64 (fun v _ => v)));
  ("nRequestsCap", dec_ptr 0 rl_NRequestsCap (fun v r => r <| rl_NRequestsCap := v |>) (dec_uint64 (fun v _ => v)));
  ("nRequestsSurplus", dec_uint64 (fun v r => r <| rl_NRequestsSurplus := v |>))]).

(** ** The transport *)

(** A request with the decoder of its answer; the answer counts only without
    an error. *)
(* go: internal/hyperliquid/info/client.go 14-16 Transport *)
Class Transport `{Sig : EffSig} : Type := info : forall A : Type, json -> (string -> option A) -> prog (result A).

(** The result of a call whose value is used only when the error is nil. *)
Definition to_result {A : Type} (value : option A) (err : option error) : result A :=
  match err, value with
  | Some err, _ => Err err
  | None, Some v => Ok v
  | None, None => Err (Errorf "no value" [])
  end.

#[export] Instance http_transport `{UnicodeTables} `{NetOps} (c : option HttpClient.Client) :
    Transport (Sig := HttpSig) := fun A request decode =>
  r ← Info c request decode; mret (to_result (snd (fst r)) (snd r)).

Section Client.
Context `{DecimalOps} `{Sig : EffSig}.
Variable transport : option (Transport (Sig := Sig)).

(* go: internal/hyperliquid/info/client.go 24-26 SpotMeta *)
Definition nil_transport : error := Errorf "hyperliquid info transport is nil" [].

(** A question: the type of the request, its user if any, and the text put
    around an error. *)
(* go: internal/hyperliquid/info/client.go 24-29 SpotMeta *)
Definition ask {A : Type} (kind : string) (user : option string) (decode : string -> option A) (what : string) : prog (result A) :=
  match transport with
  | None => mret (Err nil_transport)
  | Some t =>
      let request := JObj (("type", JStr kind) :: match user with Some a => [("user", JStr a)] | None => [] end) in
      r ← t A request decode;
      mret (match r with Err err => Err (Wrapf (what +:+ ": %w") [] err) | Ok v => Ok v end)
  end.

(* go: internal/hyperliquid/info/client.go 22-32 SpotMeta *)
Definition query_SpotMeta : prog (result SpotMeta) :=
  ask "spotMeta" None (unmarshal dec_spot_meta (mkSpotMeta [])) "query spot metadata".

(* go: internal/hyperliquid/info/client.go 42-60 ResolveCanonicalUSDC *)
Definition ResolveCanonicalUSDC (meta : SpotMeta) : result Token :=
  let matches := List.filter (fun token => String.eqb (st_Name token) "USDC" && st_IsCanonical token) (sm_Tokens meta) in
  match matches with
  | [selected] =>
      if string_is_empty (TrimSpace (st_TokenID selected)) || (st_WeiDecimals selected <? 0)
      then Err (Errorf "canonical USDC metadata is invalid" [])
      else Ok (mkToken (st_Name selected) (st_TokenID selected) (st_Index selected) (st_WeiDecimals selected)
                 (st_Name selected +:+ ":" +:+ st_TokenID selected))
  | _ => Err (Errorf "expected exactly one canonical USDC token, found %d" [itoa (Z.of_nat (length matches))])
  end.

(* go: internal/hyperliquid/info/client.go 34-40 CanonicalUSDC *)
Definition CanonicalUSDC : prog (result Token) :=
  let! meta := query_SpotMeta else Err ;; mret (ResolveCanonicalUSDC meta).

(* go: internal/hyperliquid/info/client.go 62-76 ParseSpotBalance *)
Definition ParseSpotBalance (balance : SpotBalance) : result SpotBalanceAmounts :=
  match NewFromString (spb_Total balance) with
  | Err err => Err (Wrapf "parse total spot balance: %w" [] err)
  | Ok total =>
      match NewFromString (spb_Hold balance) with
      | Err err => Err (Wrapf "parse held spot balance: %w" [] err)
      | Ok hold =>
          let available := dec_sub total hold in
          if dec_neg available
          then Err (Errorf "available spot balance is negative: total %s, hold %s" [dec_string total; dec_string hold])
          else Ok (mkBalance _ total available)
      end
  end.

(** The first balance of the token decides; without one it is zero. *)
(* go: internal/hyperliquid/info/client.go 89-94 SpotBalance *)
Definition select_balance (balances : list SpotBalance) (token : Token) : result SpotBalanceAmounts :=
  match List.find (fun b => (spb_Token b =? tok_Index token) && String.eqb (spb_Coin b) (tok_Name token)) balances with
  | Some balance => ParseSpotBalance balance
  | None => Ok (mkBalance _ dec_zero dec_zero)
  end.

(* go: internal/hyperliquid/info/client.go 78-95 SpotBalance *)
Definition query_SpotBalance (address : string) (token : Token) : prog (result SpotBalanceAmounts) :=
  let! balances := ask "spotClearinghouseState" (Some address) (unmarshal dec_balances []) "query spot balance" else Err ;;
  mret (select_balance balances token).

(** The loop over the entries; [claimable] is [None] until the token's entry
    was found. *)
(* go: internal/hyperliquid/info/client.go 112-143 ClaimableUSDC *)
Fixpoint claimable_loop (entryIndex : Z) (entries : list (list string)) (token : Token) (claimable : option decimal)
    : result (option decimal) :=
  match entries with
  | [] => Ok claimable
  | entry :: entries =>
      match entry with
      | [first; second] =>
          match unmarshal (dec_int64 (fun v _ => v)) 0 first with
          | None => Err (Wrapf "parse claimable reward token index at entry %d: %w" [itoa entryIndex] (Errorf "invalid JSON" []))
          | Some tokenIndex =>
              if negb (tokenIndex =? tok_Index token) then claimable_loop (entryIndex + 1) entries token claimable
              else
                match claimable with
                | Some _ => Err (Errorf "claimable reward response contains duplicate USDC token index %d" [itoa (tok_Index token)])
                | None =>
                    match unmarshal dec_unclaimed "" second with
                    | None => Err (Wrapf "parse claimable USDC reward state: %w" [] (Errorf "invalid JSON" []))
                    | Some unclaimedRewards =>
                        match NewFromString unclaimedRewards with
                        | Err err => Err (Wrapf "parse claimable USDC rewards: %w" [] err)
                        | Ok amount =>
                            if dec_neg amount
                            then Err (Errorf "claimable USDC rewards are negative: %s" [dec_string amount])
                            else claimable_loop (entryIndex + 1) entries token (Some amount)
                        end
                    end
                end
          end
      | _ => Err (Errorf "claimable reward token entry %d is invalid" [itoa entryIndex])
      end
  end.

(* go: internal/hyperliquid/info/client.go 105-148 ClaimableUSDC *)
Definition read_claimable (response : option (list (list string))) (token : Token) : result decimal :=
  match response with
  | None => Err (Errorf "claimable reward response is missing tokenToState" [])
  | Some entries => let? claimable := claimable_loop 0 entries token None in Ok (default dec_zero claimable)
  end.

(* go: internal/hyperliquid/info/client.go 97-148 ClaimableUSDC *)
Definition query_ClaimableUSDC (address : string) (token : Token) : prog (result decimal) :=
  let! response := ask "referral" (Some address) (unmarshal dec_token_states None) "query claimable USDC rewards" else Err ;;
  mret (read_claimable response token).

(* go: internal/hyperliquid/info/client.go 163-172 UserRateLimit *)
Definition read_rate_limit (response : rate_limit_response) : result UserRateLimit :=
  match rl_NRequestsUsed response, rl_NRequestsCap response with
  | Some used, Some cap => Ok (mkUserRateLimit (rl_CumVlm response) used cap (rl_NRequestsSurplus response))
  | _, _ => Err (Errorf "query user rate limit: response is missing request counts" [])
  end.

(* go: internal/hyperliquid/info/client.go 150-173 UserRateLimit *)
Definition query_UserRateLimit (address : string) : prog (result UserRateLimit) :=
  let! response := ask "userRateLimit" (Some address) (unmarshal dec_rate_limit (mkRateLimitResponse "" None None 0))
                     "query user rate limit" else Err ;;
  mret (read_rate_limit response).
End Client.
