(* ===== verification/InfoTheorems.v ===== *)
(** * What the answers of the info client mean

    The canonical token is the only one so marked ([canonical_usdc_spec]), a
    balance is consistent and comes from one successful answer
    ([spot_balance_over_http]), and claimable rewards are unambiguous
    ([claimable_over_http]). *)

From Stdlib Require Import QArith Lqa.
From S2P Require Import Prelude DecimalSpec DecimalImpl Prog Crash Model Json JsonStruct Envelope Text HttpClient HttpTheorems InfoClient.

(** ** One question *)

Section Question.
Context `{UnicodeTables} `{NetOps}.

(** The HTTP client as the transport of the info client. *)
Definition over_http (c : HttpClient.Client) : option (Transport (Sig := HttpSig)) :=
  Some (http_transport (Some c)).

(** The body of a question. *)
Definition question (kind : string) (user : option string) : string :=
  encode (JObj (("type", JStr kind) :: match user with Some a => [("user", JStr a)] | None => [] end)).

(** The trace of a question that was answered completely. *)
Definition answered (c : HttpClient.Client) (payload data : string) (status : Z) : list (event HttpSig) :=
  let url := endpointURL c endpointInfo in
  [Ev (NewRequest url payload : @Op HttpSig) (None : HttpResp (NewRequest url payload));
   Ev (DoRequest url payload : @Op HttpSig) (Ok status : HttpResp (DoRequest url payload));
   Ev (ReadBody (defaultMaxResponseBytes + 1) : @Op HttpSig) (Ok data : HttpResp (ReadBody (defaultMaxResponseBytes + 1)));
   Ev (CloseBody : @Op HttpSig) (None : HttpResp CloseBody)].

(** One question was asked and the whole answer to it, of at most 2 MiB and
    with a 2xx status, decodes to the value. *)
Definition evidence {A : Type} (c : HttpClient.Client) (payload : string) (decode : string -> option A) (tr : list (event HttpSig)) (v : A) : Prop :=
  exists data status, tr = answered c payload data status /\ 200 <= status < 300 /\
    Z.of_nat (String.length data) <= defaultMaxResponseBytes /\ decode data = Some v.

#[local] Ltac reduce := cbn [mbind prog_mbind prog_bind mret prog_ret perform let_ok if_err fst snd read_response
  readBoundedResponseBody readResponseBody rbind wp history allowed step to_result joined].

Lemma ask_wp {A : Type} c kind user (decode : string -> option A) what :
  wp (history (Sig := HttpSig) (fun _ _ => True)) [] (ask (over_http c) kind user decode what)
    (fun r h => forall v, r = Ok v -> evidence c (question kind user) decode (rev h) v).
Proof.
  unfold ask, over_http, http_transport, Info, post. fold (question kind user).
  reduce. split; [done|]. intros [e|] h1 ->; [done|].
  reduce. split; [done|]. intros [status|e] h2 ->; [|done]. unfold read_response.
  destruct ((status <? 200) || (300 <=? status)) eqn:Es; reduce; (split; [done|]); intros [data|e] h3 ->; reduce.
  - destruct (_ <=? defaultMaxResponseBytes); reduce; (split; [done|]); by intros [e'|] h4 ->.
  - split; [done|]. by intros [e'|] h4 ->.
  - destruct (Z.leb_spec (Z.of_nat (String.length data)) defaultMaxResponseBytes); reduce; [|split; [done|]; by intros [e'|] h4 ->].
    destruct (decode data) as [v|] eqn:Ed; reduce; (split; [done|]); intros [e'|] h4 ->; try done.
    intros v' [= <-]. apply orb_false_iff in Es as [E1 E2]. exists data, status. split; [done|]. split; [lia|done].
  - split; [done|]. by intros [e'|] h4 ->.
Qed.

(** A query is a question and a reading of its answer. *)
Lemma query_evidence {W A B : Type} (pr : protocol W) w c kind user (decode : string -> option A) what (read : A -> result B) tr w' b :
  partial pr w (let! v := ask (over_http c) kind user decode what else Err ;; mret (read v)) tr w' (Ret (Ok b)) ->
  exists v, evidence c (question kind user) decode tr v /\ read v = Ok b.
Proof.
  intros Hp. refine (_ (history_returns (fun _ _ => True) pr [] w _ tr w' (Ok b)
    (fun r h => forall b', r = Ok b' -> exists v, evidence c (question kind user) decode (rev h) v /\ read v = Ok b') Hp _)).
  - intros Hq. destruct (Hq b eq_refl) as (v & Hv & Hr). exists v. split; [|done].
    by rewrite app_nil_r, rev_involutive in Hv.
  - unfold let_ok. apply wp_bind. eapply wp_mono; [|apply ask_wp]. intros [v|e] h Hv b'; [|done].
    intros E. exists v. split; [by apply Hv|]. exact E.
Qed.
End Question.

(** ** The canonical token *)

Definition marked (t : SpotToken) : bool := String.eqb (st_Name t) "USDC" && st_IsCanonical t.

(** An element that is the only one of a list with a property. *)
Definition only {A : Type} (f : A -> bool) (x : A) (l : list A) : Prop :=
  exists before after, l = before ++ x :: after /\ f x = true /\ Forall (fun y => f y = false) (before ++ after).

Lemma filter_none {A : Type} (f : A -> bool) l : List.filter f l = [] <-> Forall (fun y => f y = false) l.
Proof.
  induction l as [|y l IH]; cbn [List.filter]; [done|]. rewrite Forall_cons, <- IH. destruct (f y); naive_solver.
Qed.

Lemma filter_only {A : Type} (f : A -> bool) x l : List.filter f l = [x] <-> only f x l.
Proof.
  split.
  - induction l as [|y l IH]; cbn [List.filter]; [done|]. destruct (f y) eqn:E.
    + intros [= -> Hl]. exists [], l. by rewrite <- filter_none.
    + intros Hl. destruct (IH Hl) as (before & after & -> & Hx & Hf). exists (y :: before), after.
      split; [done|]. split; [done|]. by constructor.
  - intros (before & after & -> & Hx & Hf). apply Forall_app in Hf as [Hb Ha].
    rewrite List.filter_app. cbn [List.filter]. rewrite Hx. apply filter_none in Hb, Ha. by rewrite Hb, Ha.
Qed.

(** The canonical USDC token is the only token of the metadata that is
    named USDC and marked canonical, with a token id that is not blank and
    decimals that are not negative; it carries the wire form that a spot send
    requires.  In any other case there is no token. *)
Theorem canonical_usdc_spec (meta : SpotMeta) (token : Token) :
  ResolveCanonicalUSDC meta = Ok token <->
  exists t, only marked t (sm_Tokens meta) /\ TrimSpace (st_TokenID t) <> "" /\ 0 <= st_WeiDecimals t /\
    token = mkToken "USDC" (st_TokenID t) (st_Index t) (st_WeiDecimals t) ("USDC:" +:+ st_TokenID t).
Proof.
  unfold ResolveCanonicalUSDC. cbv zeta. fold marked.
  assert (Hname : forall t, only marked t (sm_Tokens meta) -> st_Name t = "USDC").
  { intros t (? & ? & _ & Hm & _). apply andb_true_iff in Hm as [Hm _]. by apply String.eqb_eq in Hm. }
  split.
  - destruct (List.filter marked (sm_Tokens meta)) as [|t [|]] eqn:E; [done| |done].
    apply filter_only in E. destruct (string_is_empty _ || _) eqn:Eg; [done|]. intros Ht. exists t.
    apply orb_false_iff in Eg as [E1 E2]. split; [done|]. split; [by intros E3; rewrite E3 in E1|]. split; [lia|].
    injection Ht as <-. by rewrite (Hname t E).
  - intros (t & Ho & Hid & Hd & ->). rewrite (proj2 (filter_only _ _ _) Ho).
    rewrite (Hname t Ho). destruct (TrimSpace (st_TokenID t)) as [|]; [done|].
    assert (st_WeiDecimals t <? 0 = false) as -> by lia. done.
Qed.

(** ** Balances, rewards and limits *)

Section Answers.
Context `{UnicodeTables} `{NetOps} `{Laws : DecimalLaws}.

(** The entry of a token. *)
Definition of_token (token : Token) (b : SpotBalance) : bool :=
  (spb_Token b =? tok_Index token) && String.eqb (spb_Coin b) (tok_Name token).

Lemma find_split {A : Type} (f : A -> bool) l x : List.find f l = Some x ->
  exists before after, l = before ++ x :: after /\ f x = true /\ Forall (fun y => f y = false) before.
Proof.
  induction l as [|y l IH]; cbn [List.find]; [done|]. destruct (f y) eqn:E.
  - intros [= ->]. by exists [], l.
  - intros Hx. destruct (IH Hx) as (before & after & -> & Hf & Hb). exists (y :: before), after.
    split; [done|]. split; [done|]. by constructor.
Qed.

(** A spot balance is read from the complete 2xx answer to exactly one
    question about the address: the first entry of the token decides, the
    available amount is the total less what is held and never negative, and
    both are zero when the token has no entry. *)
Theorem spot_balance_over_http {W : Type} (pr : protocol W) w c address token tr w' bal :
  partial pr w (query_SpotBalance (over_http c) address token) tr w' (Ret (Ok bal)) ->
  exists balances, evidence c (question "spotClearinghouseState" (Some address)) (unmarshal dec_balances []) tr balances /\
    ((Forall (fun b => of_token token b = false) balances /\ bal = mkBalance _ dec_zero dec_zero) \/
     exists before b after hold, balances = before ++ b :: after /\ of_token token b = true /\
       Forall (fun b => of_token token b = false) before /\
       dec_parse (spb_Total b) = Some (bal_Total bal) /\ dec_parse (spb_Hold b) = Some hold /\
       (dec_value (bal_Available bal) == dec_value (bal_Total bal) - dec_value hold)%Q /\
       (0 <= dec_value (bal_Available bal))%Q).
Proof.
  intros Hp. apply query_evidence in Hp as (balances & He & Hr). exists balances. split; [done|].
  unfold select_balance in Hr. fold (of_token token) in Hr.
  destruct (List.find (of_token token) balances) as [b|] eqn:Ef.
  - right. apply find_split in Ef as (before & after & -> & Hb & Hn).
    unfold ParseSpotBalance, NewFromString in Hr.
    destruct (dec_parse (spb_Total b)) as [total|] eqn:Et; [|done].
    destruct (dec_parse (spb_Hold b)) as [hold|] eqn:Eh; [|done].
    destruct (dec_neg _) eqn:En; [done|]. apply dec_neg_false in En. injection Hr as <-.
    exists before, b, after, hold. cbn [bal_Total bal_Available]. repeat split; try done. apply dec_value_sub.
  - left. split; [|congruence]. apply Forall_forall. intros b Hb. apply list_elem_of_In in Hb.
    by apply (List.find_none _ _ Ef).
Qed.

(** ** Claimable rewards *)

(** The token index of an entry, which must be a pair. *)
Definition entry_index (entry : list string) : option Z :=
  match entry with [first; _] => unmarshal (dec_int64 (fun v _ => v)) 0 first | _ => None end.

(** The rewards of an entry. *)
Definition entry_amount (entry : list string) : option decimal :=
  match entry with
  | [_; second] => unclaimed ← unmarshal dec_unclaimed "" second; dec_parse unclaimed
  | _ => None
  end.

Definition entry_of (token : Token) (entry : list string) : bool := bool_decide (entry_index entry = Some (tok_Index token)).

(** The outcome of the loop: every entry has an index; at most one is the
    token's, none when its amount was found before. *)
Lemma claimable_loop_spec entries token : forall i found amount,
  claimable_loop i entries token found = Ok amount ->
  Forall (fun e => is_Some (entry_index e)) entries /\
  ((Forall (fun e => entry_of token e = false) entries /\ amount = found) \/
   (found = None /\ exists e v, only (entry_of token) e entries /\ entry_amount e = Some v /\ dec_neg v = false /\ amount = Some v)).
Proof.
  induction entries as [|e entries IH]; intros i found amount; cbn [claimable_loop]; [intros [= <-]; by eauto|].
  destruct e as [|first [|second [|]]]; try done.
  destruct (unmarshal (dec_int64 _) 0 first) as [index|] eqn:Ei; [|done].
  assert (Hi : entry_index [first; second] = Some index) by done.
  assert (Hof : entry_of token [first; second] = (index =? tok_Index token)).
  { unfold entry_of. rewrite Hi. case_bool_decide as Hb; destruct (Z.eqb_spec index (tok_Index token)); congruence. }
  destruct (index =? tok_Index token) eqn:Ee; cbn [negb].
  - destruct found as [|]; [done|].
    destruct (unmarshal dec_unclaimed "" second) as [unclaimed|] eqn:Eu; [|done]. unfold NewFromString.
    destruct (dec_parse unclaimed) as [v|] eqn:Ev; [|done]. destruct (dec_neg v) eqn:En; [done|].
    intros Hl. destruct (IH _ _ _ Hl) as [Hall [[Hn ->]|[? _]]]; [|done].
    split; [constructor; [by rewrite Hi|done]|]. right. split; [done|]. exists [first; second], v.
    split; [by exists [], entries|]. split; [|done]. unfold entry_amount. by rewrite Eu.
  - intros Hl. destruct (IH _ _ _ Hl) as [Hall Hrest]. split; [constructor; [by rewrite Hi|done]|].
    destruct Hrest as [[Hn ->]|(-> & e & v & (before & after & -> & He & Hn) & Hv & Hneg & ->)].
    + left. split; [by constructor|done].
    + right. split; [done|]. exists e, v. split; [|done]. exists ([first; second] :: before), after.
      split; [done|]. split; [done|]. by constructor.
Qed.

(** Claimable rewards are read from the complete 2xx answer to exactly one
    question about the address, in which every entry is a pair with a token
    index: they are zero when no entry is the token's, and otherwise the
    amount, never negative, of the only entry that is. *)
Theorem claimable_over_http {W : Type} (pr : protocol W) w c address token tr w' amount :
  partial pr w (query_ClaimableUSDC (over_http c) address token) tr w' (Ret (Ok amount)) ->
  exists entries, evidence c (question "referral" (Some address)) (unmarshal dec_token_states None) tr (Some entries) /\
    Forall (fun e => is_Some (entry_index e)) entries /\ (0 <= dec_value amount)%Q /\
    ((Forall (fun e => entry_of token e = false) entries /\ amount = dec_zero) \/
     exists e, only (entry_of token) e entries /\ entry_amount e = Some amount).
Proof.
  intros Hp. apply query_evidence in Hp as ([entries|] & He & Hr); [|done]. exists entries. split; [done|].
  unfold read_claimable, rbind in Hr. destruct (claimable_loop 0 entries token None) as [found|] eqn:El; [|done].
  injection Hr as <-. destruct (claimable_loop_spec _ _ _ _ _ El) as [Hall Hrest]. split; [done|].
  destruct Hrest as [[Hn ->]|(_ & e & v & Ho & Hv & Hneg & ->)]; cbn [default].
  - split; [rewrite dec_value_zero; lra|]. by left.
  - split; [by apply dec_neg_false|]. right. by exists e.
Qed.
End Answers.

(** ** Witnesses *)

Section Witnesses.
#[local] Existing Instances ascii_tables sample_net DecimalImpl.dec_ops DecimalImpl.dec_laws.

Definition usdc : Token := mkToken "USDC" "0x6d1e" 0 8 "USDC:0x6d1e".

(** A server that answers every question with a body. *)
Definition answering (body : string) (_ : unit) (o : HttpOp) : option (HttpResp o * unit) :=
  match o return option (HttpResp o * unit) with
  | NewRequest _ _ | CloseBody => Some (None, tt)
  | DoRequest _ _ => Some (Ok 200, tt)
  | ReadBody _ => Some (Ok body, tt)
  end.

Definition balances_body : string :=
  encode (JObj [("balances", JArr [
    JObj [("coin", JStr "HYPE"); ("token", JNum "150"); ("total", JStr "3"); ("hold", JStr "0")];
    JObj [("coin", JStr "USDC"); ("token", JNum "0"); ("total", JStr "12.5"); ("hold", JStr "2.25")]])]).

Definition rewards_body : string :=
  encode (JObj [("tokenToState", JArr [
    JArr [JNum "150"; JObj [("unclaimedRewards", JStr "7")]];
    JArr [JNum "0"; JObj [("unclaimedRewards", JStr "1.75")]]])]).

Definition sample_balance_query : prog (result SpotBalanceAmounts) :=
  query_SpotBalance (over_http sample_client) "0xaa" usdc.
Definition sample_rewards_query : prog (result decimal) :=
  query_ClaimableUSDC (over_http sample_client) "0xaa" usdc.

Definition text_of_balance (m : prog (result SpotBalanceAmounts)) : option (string * string) :=
  match m with Ret (Ok b) => Some (dec_string (bal_Total b), dec_string (bal_Available b)) | _ => None end.
Definition text_of_amount (m : prog (result decimal)) : option string :=
  match m with Ret (Ok v) => Some (dec_string v) | _ => None end.

Lemma spot_balance_over_http_witness : exists tr bal balances,
  partial any_network tt sample_balance_query tr tt (Ret (Ok bal)) /\
  (dec_string (bal_Total bal), dec_string (bal_Available bal)) = ("12.5", "10.25") /\
  evidence sample_client (question "spotClearinghouseState" (Some "0xaa")) (unmarshal dec_balances []) tr balances.
Proof.
  pose proof (exec_partial (Sig := HttpSig) any_network (fun _ => tt) (answering balances_body) (fun _ _ _ _ _ => I)
    sample_balance_query tt) as Hp.
  assert (text_of_balance (fst (exec (Sig := HttpSig) (answering balances_body) tt sample_balance_query)) = Some ("12.5", "10.25")) as E
    by (vm_compute; reflexivity).
  destruct (fst (exec (Sig := HttpSig) (answering balances_body) tt sample_balance_query)) as [[bal|e]|o k]; try discriminate E.
  destruct (spot_balance_over_http any_network _ _ _ _ _ _ _ Hp) as (balances & He & _).
  exists (exec_trace (Sig := HttpSig) (answering balances_body) tt sample_balance_query), bal, balances.
  split; [exact Hp|]. split; [|exact He]. by apply (inj Some) in E.
Defined.

Lemma claimable_over_http_witness : exists tr amount entries,
  partial any_network tt sample_rewards_query tr tt (Ret (Ok amount)) /\ dec_string amount = "1.75" /\
  evidence sample_client (question "referral" (Some "0xaa")) (unmarshal dec_token_states None) tr (Some entries).
Proof.
  pose proof (exec_partial (Sig := HttpSig) any_network (fun _ => tt) (answering rewards_body) (fun _ _ _ _ _ => I)
    sample_rewards_query tt) as Hp.
  assert (text_of_amount (fst (exec (Sig := HttpSig) (answering rewards_body) tt sample_rewards_query)) = Some "1.75") as E
    by (vm_compute; reflexivity).
  destruct (fst (exec (Sig := HttpSig) (answering rewards_body) tt sample_rewards_query)) as [[amount|e]|o k]; try discriminate E.
  destruct (claimable_over_http any_network _ _ _ _ _ _ _ Hp) as (entries & He & _).
  exists (exec_trace (Sig := HttpSig) (answering rewards_body) tt sample_rewards_query), amount, entries.
  split; [exact Hp|]. split; [|exact He]. by apply (inj Some) in E.
Defined.
End Witnesses.
