(* ===== verification/Mock.v ===== *)
(** * The local exchange

    [internal/dev/hyperliquidmock/server.go]: the in-process server the
    repository's own end-to-end tests run against.  It keeps the accounts of
    an exchange - balances, claimable rewards, request counts - checks
    signatures, applies signed actions, remembers the answer to every nonce of
    every signer, and can be told to fail in each way the clients have to
    cope with.

    One request is one step: decoding touches no state, and the rest of a
    handler runs under the server's mutex. *)

From Stdlib Require Import QArith.
From S2P Require Import Prelude DecimalSpec Prog Crash Model Clock Sha256 Msgpack Signing Json JsonStruct Envelope Text Exchange HttpClient InfoClient.

(** ** State *)

(* go: internal/dev/hyperliquidmock/server.go 24-33 FailureMode *)
Inductive FailureMode : Type :=
| failureNone
| FailureRejected
| FailureAmbiguous
| FailureAmbiguousApplied
| FailureHTTPError
| FailureHTTPErrorApplied.

#[export] Instance FailureMode_eq_dec : EqDecision FailureMode.
Proof. solve_decision. Defined.

(* go: internal/dev/hyperliquidmock/server.go 36-39 RecordedRequest *)
Record RecordedRequest : Type := mkRecorded { rr_ActionType : string; rr_Destination : string }.

(** An address in normal form and a wire token. *)
(* go: internal/dev/hyperliquidmock/server.go 41-44 balanceKey *)
Definition balanceKey : Type := string * string.

(* go: internal/dev/hyperliquidmock/server.go 46-50 exchangeOutcome *)
Record exchangeOutcome : Type := mkOutcome { oc_hash : string; oc_statusCode : Z; oc_body : string }.

(* go: internal/dev/hyperliquidmock/server.go 52-55 spotBalance *)
Record spotBalance `{DecimalOps} : Type := mkSpot { sb_total : decimal; sb_hold : decimal }.

(** The state behind the mutex. *)
(* go: internal/dev/hyperliquidmock/server.go 58-76 Server *)
Record Server `{DecimalOps} : Type := mkServer {
  sv_balances : gmap balanceKey spotBalance;
  sv_claimRewards : gmap balanceKey decimal;
  sv_rateLimits : gmap string UserRateLimit;
  sv_balanceSnapshots : gmap balanceKey (list spotBalance);
  sv_rateLimitSnapshots : gmap string (list UserRateLimit);
  sv_authoritativeBalanceReads : gmap balanceKey Z;
  sv_requests : list RecordedRequest;
  sv_nextFailure : FailureMode;
  sv_outcomes : gmap string exchangeOutcome
}.

#[export] Instance Server_settable `{DecimalOps} : Settable Server := fun s =>
  mkServer _ (sv_balances s) (sv_claimRewards s) (sv_rateLimits s) (sv_balanceSnapshots s) (sv_rateLimitSnapshots s)
    (sv_authoritativeBalanceReads s) (sv_requests s) (sv_nextFailure s) (sv_outcomes s).

(** What a handler writes: the status, the content type and the body. *)
Record answer : Type := mkAnswer { an_status : Z; an_type : string; an_body : string }.

(** A request: reading its body gives [rq_data], then the error, if any. *)
Record http_request : Type := mkRequest {
  rq_Method : string;
  rq_Path : string;
  rq_data : string;
  rq_error : option error
}.

(* go: internal/dev/hyperliquidmock/server.go 461-461 normalizeAddress *)
Definition normalizeAddress (value : string) : string := toLower (TrimSpace value).

(* go: internal/dev/hyperliquidmock/server.go 463-467 canonicalToken *)
Definition canonicalToken : SpotToken := mkSpotToken "USDC" "0" 0 6 true.

(** [token.Name + ":" + token.TokenID] of that token. *)
(* go: internal/dev/hyperliquidmock/server.go 231-231 handleInfo *)
Definition wireToken : string := st_Name canonicalToken +:+ ":" +:+ st_TokenID canonicalToken.

(* go: internal/dev/hyperliquidmock/server.go 456-459 hashBytes *)
Definition hashBytes (value : string) : string := sha256_hex value.

(** ** Writing answers *)

(* go: internal/dev/hyperliquidmock/server.go 478-482 writeRaw *)
Definition writeRaw (status : Z) (body : string) : answer := mkAnswer status "application/json" body.

(** The values that are written can be encoded. *)
(* go: internal/dev/hyperliquidmock/server.go 469-476 writeJSON *)
Definition writeJSON (status : Z) (value : json) : answer := writeRaw status (encode value).

(** [http.Error]. *)
Definition http_Error (message : string) (status : Z) : answer :=
  mkAnswer status "text/plain; charset=utf-8" (message +:+ bytes_of [10]).

(** [map[string]string] is encoded with its keys in order. *)
(* go: internal/dev/hyperliquidmock/server.go 276-276 handleExchange *)
Definition refusal (status : Z) (response : string) : answer :=
  writeJSON status (JObj [("response", JStr response); ("status", JStr "err")]).
(* go: internal/dev/hyperliquidmock/server.go 217-217 handleInfo *)
Definition info_error (text : string) : answer := writeJSON 400 (JObj [("error", JStr text)]).

(* go: internal/hyperliquid/info/types.go 17-23 SpotToken *)
Definition spot_token_json (t : SpotToken) : json :=
  JObj [("name", JStr (st_Name t)); ("tokenId", JStr (st_TokenID t)); ("index", JNum (itoa (st_Index t)));
        ("weiDecimals", JNum (itoa (st_WeiDecimals t))); ("isCanonical", JBool (st_IsCanonical t))].
(* go: internal/hyperliquid/info/types.go 25-30 SpotBalance *)
Definition spot_balance_json (b : SpotBalance) : json :=
  JObj [("coin", JStr (spb_Coin b)); ("token", JNum (itoa (spb_Token b))); ("total", JStr (spb_Total b)); ("hold", JStr (spb_Hold b))].
(* go: internal/hyperliquid/info/types.go 37-42 UserRateLimit *)
Definition rate_limit_json (l : UserRateLimit) : json :=
  JObj [("cumVlm", JStr (url_CumVlm l)); ("nRequestsUsed", JNum (itoa (url_NRequestsUsed l)));
        ("nRequestsCap", JNum (itoa (url_NRequestsCap l))); ("nRequestsSurplus", JNum (itoa (url_NRequestsSurplus l)))].

(** ** Reading requests *)

(* go: internal/dev/hyperliquidmock/server.go 210-215 handleInfo *)
Record info_request : Type := mkInfoRequest { ir_Type : string; ir_User : string; ir_StartTime : Z; ir_EndTime : Z }.
#[export] Instance info_request_settable : Settable info_request := fun r =>
  mkInfoRequest (ir_Type r) (ir_User r) (ir_StartTime r) (ir_EndTime r).

(* go: internal/dev/hyperliquidmock/server.go 210-216 handleInfo *)
Definition dec_info_request : decoder info_request := dec_struct (field [
  ("type", dec_str (fun v r => r <| ir_Type := v |>));
  ("user", dec_str (fun v r => r <| ir_User := v |>));
  ("startTime", dec_uint64 (fun v r => r <| ir_StartTime := v |>));
  ("endTime", dec_uint64 (fun v r => r <| ir_EndTime := v |>))]).

(* go: internal/hyperliquid/signing/signing.go 14-18 Signature *)
Definition dec_signature : decoder Signature := dec_struct (field [
  ("r", dec_str (fun v s => mkSignature v (sig_S s) (sig_V s)));
  ("s", dec_str (fun v s => mkSignature (sig_R s) v (sig_V s)));
  ("v", dec_int64 (fun v s => mkSignature (sig_R s) (sig_S s) v))]).

(* go: internal/dev/hyperliquidmock/server.go 270-274 handleExchange *)
Record exchange_request : Type := mkExchangeRequest { er_Action : string; er_Nonce : Z; er_Signature : Signature }.

(* go: internal/dev/hyperliquidmock/server.go 270-275 handleExchange *)
Definition dec_exchange_request : decoder exchange_request := dec_struct (field [
  ("action", dec_raw (fun v r => mkExchangeRequest v (er_Nonce r) (er_Signature r)));
  ("nonce", dec_uint64 (fun v r => mkExchangeRequest (er_Action r) v (er_Signature r)));
  ("signature", dec_in er_Signature (fun v r => mkExchangeRequest (er_Action r) (er_Nonce r) v) dec_signature)]).

(* go: internal/dev/hyperliquidmock/server.go 279-282 handleExchange *)
Definition dec_action_type : decoder string := dec_struct (field [("type", dec_str (fun v _ => v))]).

(* go: internal/hyperliquid/signing/spot_send.go 24-32 SpotSendAction *)
Definition dec_spot_send : decoder SpotSendAction := dec_struct (field [
  ("type", dec_str (fun v a => mkSpotSend v (ss_HyperliquidChain a) (ss_SignatureChainID a) (ss_Destination a) (ss_Token a) (ss_Amount a) (ss_Time a)));
  ("hyperliquidChain", dec_str (fun v a => mkSpotSend (ss_Type a) v (ss_SignatureChainID a) (ss_Destination a) (ss_Token a) (ss_Amount a) (ss_Time a)));
  ("signatureChainId", dec_str (fun v a => mkSpotSend (ss_Type a) (ss_HyperliquidChain a) v (ss_Destination a) (ss_Token a) (ss_Amount a) (ss_Time a)));
  ("destination", dec_str (fun v a => mkSpotSend (ss_Type a) (ss_HyperliquidChain a) (ss_SignatureChainID a) v (ss_Token a) (ss_Amount a) (ss_Time a)));
  ("token", dec_str (fun v a => mkSpotSend (ss_Type a) (ss_HyperliquidChain a) (ss_SignatureChainID a) (ss_Destination a) v (ss_Amount a) (ss_Time a)));
  ("amount", dec_str (fun v a => mkSpotSend (ss_Type a) (ss_HyperliquidChain a) (ss_SignatureChainID a) (ss_Destination a) (ss_Token a) v (ss_Time a)));
  ("time", dec_uint64 (fun v a => mkSpotSend (ss_Type a) (ss_HyperliquidChain a) (ss_SignatureChainID a) (ss_Destination a) (ss_Token a) (ss_Amount a) v))]).

Definition zero_signature : Signature := mkSignature "" "" 0.
Definition zero_spot_send : SpotSendAction := mkSpotSend "" "" "" "" "" "" 0.

Section Server.
Context `{DecimalOps}.

(* go: internal/dev/hyperliquidmock/server.go 81-89 New *)
Definition New : Server := mkServer _ ∅ ∅ ∅ ∅ ∅ ∅ [] failureNone ∅.

(** The zero value of a balance. *)
Definition no_balance : spotBalance := mkSpot _ dec_zero dec_zero.
Definition balance_of (s : Server) (key : balanceKey) : spotBalance := default no_balance (sv_balances s !! key).
Definition reward_of (s : Server) (key : balanceKey) : decimal := default dec_zero (sv_claimRewards s !! key).

(** ** Preparing an account

    An error is a panic of the test. *)

(* go: internal/dev/hyperliquidmock/server.go 444-454 parseSpotBalance *)
Definition parseSpotBalance (total hold : string) : result spotBalance :=
  match NewFromString total with
  | Err err => Err (Wrapf "invalid mock total spot balance %q: %v" [total] err)
  | Ok totalValue =>
      match NewFromString hold with
      | Err err => Err (Wrapf "invalid mock held spot balance %q: %v" [hold] err)
      | Ok holdValue => Ok (mkSpot _ totalValue holdValue)
      end
  end.

(* go: internal/dev/hyperliquidmock/server.go 102-107 SetSpotBalanceWithHold *)
Definition SetSpotBalanceWithHold (address token total hold : string) (s : Server) : result Server :=
  let? value := parseSpotBalance total hold in
  Ok (s <| sv_balances ::= <[(normalizeAddress address, token) := value]> |>).

(* go: internal/dev/hyperliquidmock/server.go 97-99 SetSpotBalance *)
Definition SetSpotBalance (address token amount : string) (s : Server) : result Server :=
  SetSpotBalanceWithHold address token amount "0" s.

(* go: internal/dev/hyperliquidmock/server.go 113-120 QueueSpotBalanceSnapshot *)
Definition QueueSpotBalanceSnapshot (address token total hold : string) (s : Server) : result Server :=
  let? value := parseSpotBalance total hold in
  let key := (normalizeAddress address, token) in
  Ok (s <| sv_balanceSnapshots ::= (fun m => <[key := default [] (m !! key) ++ [value]]> m) |>
        <| sv_authoritativeBalanceReads ::= <[key := 0]> |>).

(* go: internal/dev/hyperliquidmock/server.go 125-130 PendingSpotBalanceSnapshots *)
Definition PendingSpotBalanceSnapshots (address token : string) (s : Server) : Z :=
  Z.of_nat (length (default [] (sv_balanceSnapshots s !! (normalizeAddress address, token)))).

(* go: internal/dev/hyperliquidmock/server.go 134-139 AuthoritativeSpotBalanceReadsAfterSnapshots *)
Definition AuthoritativeSpotBalanceReadsAfterSnapshots (address token : string) (s : Server) : Z :=
  default 0 (sv_authoritativeBalanceReads s !! (normalizeAddress address, token)).

(* go: internal/dev/hyperliquidmock/server.go 142-150 SetClaimReward *)
Definition SetClaimReward (address token amount : string) (s : Server) : result Server :=
  match NewFromString amount with
  | Err err => Err (Wrapf "invalid mock claim reward %q: %v" [amount] err)
  | Ok value => Ok (s <| sv_claimRewards ::= <[(normalizeAddress address, token) := value]> |>)
  end.

(* go: internal/dev/hyperliquidmock/server.go 153-160 SetUserRateLimit *)
Definition SetUserRateLimit (address : string) (used cap : Z) (s : Server) : Server :=
  s <| sv_rateLimits ::= <[normalizeAddress address := mkUserRateLimit "" used cap 0]> |>.

(* go: internal/dev/hyperliquidmock/server.go 165-173 QueueUserRateLimitSnapshot *)
Definition QueueUserRateLimitSnapshot (address : string) (used cap : Z) (s : Server) : Server :=
  let key := normalizeAddress address in
  s <| sv_rateLimitSnapshots ::= (fun m => <[key := default [] (m !! key) ++ [mkUserRateLimit "" used cap 0]]> m) |>.

(* go: internal/dev/hyperliquidmock/server.go 176-180 FailNextExchange *)
Definition FailNextExchange (mode : FailureMode) (s : Server) : Server := s <| sv_nextFailure := mode |>.

(* go: internal/dev/hyperliquidmock/server.go 183-187 Requests *)
Definition Requests (s : Server) : list RecordedRequest := sv_requests s.

(** ** Answering questions *)

(** An [int] that is incremented. *)
Definition int_succ (z : Z) : Z := (z + 1 + 9223372036854775808) mod uint64_mod - 9223372036854775808.

(* go: internal/dev/hyperliquidmock/server.go 399-414 visibleSpotBalanceLocked *)
Definition visibleSpotBalanceLocked (key : balanceKey) (s : Server) : spotBalance * Server :=
  match default [] (sv_balanceSnapshots s !! key) with
  | [] =>
      (balance_of s key,
       match sv_authoritativeBalanceReads s !! key with
       | Some n => s <| sv_authoritativeBalanceReads ::= <[key := int_succ n]> |>
       | None => s
       end)
  | value :: queue =>
      (value, s <| sv_balanceSnapshots ::= match queue with [] => delete key | _ => <[key := queue]> end |>)
  end.

(* go: internal/dev/hyperliquidmock/server.go 427-431 visibleUserRateLimitLocked *)
Definition rate_limit_of (s : Server) (address : string) : UserRateLimit :=
  default (mkUserRateLimit "" 0 10000 0) (sv_rateLimits s !! address).

(* go: internal/dev/hyperliquidmock/server.go 416-432 visibleUserRateLimitLocked *)
Definition visibleUserRateLimitLocked (address : string) (s : Server) : UserRateLimit * Server :=
  match default [] (sv_rateLimitSnapshots s !! address) with
  | value :: queue =>
      (value, s <| sv_rateLimitSnapshots ::= match queue with [] => delete address | _ => <[address := queue]> end |>)
  | [] => (rate_limit_of s address, s)
  end.

(* go: internal/dev/hyperliquidmock/server.go 434-442 incrementUserRateLimitLocked *)
Definition incrementUserRateLimitLocked (address : string) (s : Server) : Server :=
  let key := normalizeAddress address in
  let value := rate_limit_of s key in
  s <| sv_rateLimits ::= <[key := mkUserRateLimit (url_CumVlm value) (wrap64 (url_NRequestsUsed value + 1))
                                    (url_NRequestsCap value) (url_NRequestsSurplus value)]> |>.

(* go: internal/dev/hyperliquidmock/server.go 222-228 handleInfo *)
Definition spot_meta_json : json := JObj [("tokens", JArr [spot_token_json canonicalToken])].

(* go: internal/dev/hyperliquidmock/server.go 234-236 handleInfo *)
Definition balances_json (value : spotBalance) : json :=
  JObj [("balances", JArr [spot_balance_json
    (mkSpotBalance (st_Name canonicalToken) (st_Index canonicalToken) (dec_string (sb_total value)) (dec_string (sb_hold value)))])].

(* go: internal/dev/hyperliquidmock/server.go 243-256 handleInfo *)
Definition referral_json (reward : decimal) : json :=
  let tokenState := JObj [("unclaimedRewards", JStr (dec_string reward))] in
  JObj [("unclaimedRewards", JStr (dec_string reward));
        ("tokenToState", JArr (if dec_equal reward dec_zero then []
                               else [JArr [JNum (itoa (st_Index canonicalToken)); tokenState]]))].

(* go: internal/dev/hyperliquidmock/server.go 209-267 handleInfo *)
Definition handleInfo (body : string) (s : Server) : answer * Server :=
  match unmarshal dec_info_request (mkInfoRequest "" "" 0 0) body with
  | None => (info_error "invalid request", s)
  | Some request =>
      let key := (normalizeAddress (ir_User request), wireToken) in
      if String.eqb (ir_Type request) "spotMeta" then (writeJSON 200 spot_meta_json, s)
      else if String.eqb (ir_Type request) "spotClearinghouseState" then
        let '(value, s) := visibleSpotBalanceLocked key s in (writeJSON 200 (balances_json value), s)
      else if String.eqb (ir_Type request) "referral" then (writeJSON 200 (referral_json (reward_of s key)), s)
      else if String.eqb (ir_Type request) "userRateLimit" then
        let '(value, s) := visibleUserRateLimitLocked (normalizeAddress (ir_User request)) s in
        (writeJSON 200 (rate_limit_json value), s)
      else (info_error "unsupported info type", s)
  end.

(** ** Applying actions *)

(* go: internal/dev/hyperliquidmock/server.go 304-317 handleExchange *)
Definition applyClaim (signerAddress : string) (s : Server) : result Server :=
  let key := (normalizeAddress signerAddress, wireToken) in
  let reward := reward_of s key in
  if negb (dec_less (dec_of_int 1) reward) then Err (Errorf "must have more than 1 USDC of rewards to claim" [])
  else
    let balance := balance_of s key in
    Ok (s <| sv_balances ::= <[key := mkSpot _ (dec_add (sb_total balance) reward) (sb_hold balance)]> |>
          <| sv_claimRewards ::= delete key |>).

(** The two accounts may be the same. *)
(* go: internal/dev/hyperliquidmock/server.go 380-397 applySpotSend *)
Definition applySpotSend (signerAddress : string) (action : SpotSendAction) (s : Server) : result Server :=
  match NewFromString (ss_Amount action) with
  | Err _ => Err (Errorf "invalid amount" [])
  | Ok amount =>
      if negb (dec_pos amount) then Err (Errorf "invalid amount" [])
      else
        let source := (normalizeAddress signerAddress, ss_Token action) in
        let destination := (normalizeAddress (ss_Destination action), ss_Token action) in
        let sourceBalance := balance_of s source in
        if dec_less (dec_sub (sb_total sourceBalance) (sb_hold sourceBalance)) amount then Err (Errorf "insufficient balance" [])
        else
          let s := s <| sv_balances ::= <[source := mkSpot _ (dec_sub (sb_total sourceBalance) amount) (sb_hold sourceBalance)]> |> in
          let destinationBalance := balance_of s destination in
          Ok (s <| sv_balances ::= <[destination := mkSpot _ (dec_add (sb_total destinationBalance) amount) (sb_hold destinationBalance)]> |>)
  end.

(** The answer a mode prescribes, and whether the action is applied. *)
(* go: internal/dev/hyperliquidmock/server.go 355-366 handleExchange *)
Definition prescribed (mode : FailureMode) : Z * string * bool :=
  let response status text := encode (JObj [("status", JStr status); ("response", JStr text)]) in
  match mode with
  | failureNone => (200, encode (JObj [("status", JStr "ok"); ("response", JObj [("type", JStr "default")])]), true)
  | FailureRejected => (200, response "err" "injected rejection", false)
  | FailureAmbiguous => (200, response "unknown" "injected ambiguity", false)
  | FailureAmbiguousApplied => (200, response "unknown" "injected ambiguity", true)
  | FailureHTTPError => (503, response "unknown" "injected transport failure", false)
  | FailureHTTPErrorApplied => (503, response "unknown" "injected transport failure", true)
  end.

(* go: internal/dev/hyperliquidmock/server.go 369-369 handleExchange *)
Definition mutation_rejected : string := encode (JObj [("status", JStr "err"); ("response", JStr "mutation rejected")]).

(* go: internal/dev/hyperliquidmock/server.go 342-342 handleExchange *)
Definition idempotencyKey (signerAddress : string) (nonce : Z) : string :=
  normalizeAddress signerAddress +:+ ":" +:+ itoa nonce.

(** A signed action whose signer has used the nonce for nothing else yet. *)
(* go: internal/dev/hyperliquidmock/server.go 353-377 handleExchange *)
Definition first_execution (key bodyHash signerAddress : string) (apply : Server -> result Server) (s : Server) : answer * Server :=
  let '(statusCode, response, shouldApply) := prescribed (sv_nextFailure s) in
  let s := s <| sv_nextFailure := failureNone |> in
  let '(statusCode, response, s) :=
    if (shouldApply : bool) then
      match apply s with
      | Err _ => (200, mutation_rejected, s)
      | Ok s => (statusCode, response, incrementUserRateLimitLocked signerAddress s)
      end
    else (statusCode, response, s) in
  (writeRaw statusCode response, s <| sv_outcomes ::= <[key := mkOutcome bodyHash statusCode response]> |>).

(** What happens under the mutex. *)
(* go: internal/dev/hyperliquidmock/server.go 340-377 handleExchange *)
Definition execute (body signerAddress : string) (nonce : Z) (record : RecordedRequest) (apply : Server -> result Server)
    (s : Server) : answer * Server :=
  let bodyHash := hashBytes body in
  let s := s <| sv_requests ::= (fun l => l ++ [record]) |> in
  let key := idempotencyKey signerAddress nonce in
  match sv_outcomes s !! key with
  | Some prior =>
      if negb (String.eqb (oc_hash prior) bodyHash) then (refusal 200 "nonce already used", s)
      else (writeRaw (oc_statusCode prior) (oc_body prior), s)
  | None => first_execution key bodyHash signerAddress apply s
  end.

Context `{Crypto}.

(** A signed action: its signer, its nonce, what is recorded of it and what
    applying it does; or the answer that refuses it. *)
Definition signed_action : Type := (string * Z * RecordedRequest * (Server -> result Server)).

(* go: internal/dev/hyperliquidmock/server.go 294-317 handleExchange *)
Definition accept_claim (request : exchange_request) : signed_action + answer :=
  let action := WObject [("type", WString "claimRewards")] in
  match RecoverL1ActionSigner (mkActionHashInput (Some action) (er_Nonce request) None None) NetworkTestnet (er_Signature request) with
  | Err _ => inr (refusal 400 "invalid signature")
  | Ok signerAddress => inl (signerAddress, er_Nonce request, mkRecorded "claimRewards" "", applyClaim signerAddress)
  end.

(* go: internal/dev/hyperliquidmock/server.go 318-335 handleExchange *)
Definition accept_spot_send (request : exchange_request) : signed_action + answer :=
  match unmarshal dec_spot_send zero_spot_send (er_Action request) with
  | None => inr (refusal 400 "invalid spot send")
  | Some action =>
      if negb (ss_Time action =? er_Nonce request) then inr (refusal 400 "invalid spot send")
      else if negb (String.eqb (ss_HyperliquidChain action) "Testnet") then inr (refusal 200 "wrong signing network")
      else match RecoverSpotSendSigner action (er_Signature request) with
           | Err _ => inr (refusal 400 "invalid signature")
           | Ok signerAddress =>
               inl (signerAddress, er_Nonce request, mkRecorded "spotSend" (ss_Destination action), applySpotSend signerAddress action)
           end
  end.

(** What is decided before the mutex is taken. *)
(* go: internal/dev/hyperliquidmock/server.go 269-339 handleExchange *)
Definition accept (body : string) : signed_action + answer :=
  match unmarshal dec_exchange_request (mkExchangeRequest "" 0 zero_signature) body with
  | None => inr (refusal 400 "invalid request")
  | Some request =>
      match unmarshal dec_action_type "" (er_Action request) with
      | None => inr (refusal 400 "invalid action")
      | Some actionType =>
          if String.eqb actionType "claimRewards" then accept_claim request
          else if String.eqb actionType "spotSend" then accept_spot_send request
          else inr (refusal 400 "unsupported action")
      end
  end.

(* go: internal/dev/hyperliquidmock/server.go 269-378 handleExchange *)
Definition handleExchange (body : string) (s : Server) : answer * Server :=
  match accept body with
  | inr refused => (refused, s)
  | inl (signerAddress, nonce, record, apply) => execute body signerAddress nonce record apply s
  end.

(** ** Requests *)

(** [io.ReadAll] of at most [limit] bytes of the body. *)
Definition ReadAll (limit : Z) (request : http_request) : result string :=
  if limit <=? Z.of_nat (String.length (rq_data request)) then Ok (take_bytes (Z.to_nat limit) (rq_data request))
  else match rq_error request with Some err => Err err | None => Ok (rq_data request) end.

(* go: internal/dev/hyperliquidmock/server.go 189-207 serveHTTP *)
Definition serveHTTP (request : http_request) (s : Server) : answer * Server :=
  if negb (String.eqb (rq_Method request) "POST") then (http_Error "method not allowed" 405, s)
  else match ReadAll (Z.shiftl 1 20) request with
       | Err _ => (http_Error "read request" 400, s)
       | Ok body =>
           if String.eqb (rq_Path request) "/info" then handleInfo body s
           else if String.eqb (rq_Path request) "/exchange" then handleExchange body s
           else (http_Error "404 page not found" 404, s)
       end.
End Server.
