(* ===== verification/Settings.v ===== *)
(** * The configuration

    [internal/config] and the validators of [internal/logging/options.go]: the
    configuration file, its defaults, its normalization and its validation.

    A validator normalizes its part in place and the caller drops the
    configuration on an error, so each is a function to the normalized part
    or an error.  A [secret.SecretString] is the string it reveals.  The TOML
    decoder and [url.ParseRequestURI] are not code of the repository and are
    parameters. *)

From S2P Require Import Prelude.

(** ** The parts of the file *)

(* go: internal/config/mysql.go 10-16 MySQLConfig *)
Record MySQLConfig : Type := mkMySQL {
  my_Host : string;
  my_Port : Z;
  my_Database : string;
  my_User : string;
  my_Password : string
}.

(* go: internal/config/hyperliquid.go 14-17 HyperliquidConfig *)
Record HyperliquidConfig : Type := mkHyperliquid { hl_Network : string; hl_BaseURL : string }.

(* go: internal/config/signing.go 15-17 SigningConfig *)
Record SigningConfig : Type := mkSigning { sg_DecryptPassword : string }.

(* go: internal/config/signing.go 19-23 BuilderConfig *)
Record BuilderConfig : Type := mkBuilder {
  bc_Name : string;
  bc_Address : string;
  bc_EncryptedPrivateKey : string
}.

(* go: internal/config/signing.go 25-28 AccountConfig *)
Record AccountConfig : Type := mkAccount { ac_Address : string; ac_EncryptedPrivateKey : string }.

(* go: internal/config/signing.go 30-32 PayoutConfig *)
Record PayoutConfig : Type := mkPayout { pc_RecipientAddress : string }.

(* go: internal/config/logging.go 10-15 LoggingConfig *)
Record LoggingConfig : Type := mkLogging {
  lg_Format : string;
  lg_Level : string;
  lg_Color : string;
  lg_AddSource : bool
}.

(* go: internal/config/notification.go 8-11 AWSConfig *)
Record AWSConfig : Type := mkAWS { aws_Region : string; aws_Profile : string }.

(* go: internal/config/notification.go 18-22 SESConfig *)
Record SESConfig : Type := mkSES {
  ses_From : string;
  ses_To : list string;
  ses_SubjectPrefix : string
}.

(* go: internal/config/notification.go 13-16 NotificationConfig *)
Record NotificationConfig : Type := mkNotification { nt_Enabled : bool; nt_SES : SESConfig }.

(* go: internal/config/config.go 13-23 Config *)
Record FileConfig : Type := mkFileConfig {
  fc_MySQL : MySQLConfig;
  fc_Hyperliquid : HyperliquidConfig;
  fc_Signing : SigningConfig;
  fc_Builders : list BuilderConfig;
  fc_Settlement : AccountConfig;
  fc_ReferralPayout : PayoutConfig;
  fc_Logging : LoggingConfig;
  fc_AWS : AWSConfig;
  fc_Notification : NotificationConfig
}.

(* go: internal/config/config.go 25-38 Default *)
Definition Default : FileConfig :=
  mkFileConfig (mkMySQL "" 3306 "" "" "") (mkHyperliquid "mainnet" "") (mkSigning "") [] (mkAccount "" "") (mkPayout "")
    (mkLogging "console" "info" "auto" false) (mkAWS "" "") (mkNotification false (mkSES "" [] "[builder-code]")).

(** ** Validation *)

(* go: internal/config/config.go 100-105 requireValue *)
Definition requireValue (name value : string) : option error :=
  if string_is_empty (TrimSpace value) then Some (Errorf "%s is required" [name]) else None.

Notation "'check?' e 'in' k" := (match e with Some err => Err err | None => k end)
  (at level 200, e at level 100, k at level 200, right associativity, only parsing).

(* go: internal/config/mysql.go 18-35 NormalizeAndValidate *)
Definition validate_MySQL (cfg : MySQLConfig) : result MySQLConfig :=
  let cfg := mkMySQL (TrimSpace (my_Host cfg)) (my_Port cfg) (TrimSpace (my_Database cfg)) (TrimSpace (my_User cfg)) (my_Password cfg) in
  check? requireValue "host" (my_Host cfg) in
  check? requireValue "database" (my_Database cfg) in
  check? requireValue "user" (my_User cfg) in
  if (my_Port cfg <? 1) || (65535 <? my_Port cfg) then Err (Errorf "port must be between 1 and 65535" []) else Ok cfg.

(* go: internal/config/hyperliquid.go 10-10 MainnetBaseURL *)
Definition MainnetBaseURL : string := "https://api.hyperliquid.xyz".
(* go: internal/config/hyperliquid.go 11-11 TestnetBaseURL *)
Definition TestnetBaseURL : string := "https://api.hyperliquid-testnet.xyz".

(* go: internal/config/signing.go 11-11 zeroAddress *)
Definition zeroAddress : string := "0x0000000000000000000000000000000000000000".

Definition is_hex (c : ascii) : bool :=
  let n := nat_of_ascii c in
  ((48 <=? n) && (n <=? 57) || (97 <=? n) && (n <=? 102) || (65 <=? n) && (n <=? 70))%nat.

Fixpoint all_bytes (f : ascii -> bool) (s : string) : bool :=
  match s with EmptyString => true | String c r => f c && all_bytes f r end.

(** [addressPattern.MatchString]. *)
(* go: internal/config/signing.go 13-13 addressPattern *)
Definition is_address (s : string) : bool :=
  match strip "0x" s with Some digits => (String.length digits =? 40)%nat && all_bytes is_hex digits | None => false end.
(* go: internal/config/signing.go 13-13 addressPattern *)
Definition addressPattern : string := "^0x[0-9a-fA-F]{40}$".

Definition at_builder (index : Z) (err : error) : error := Wrapf "builders[%d]: %w" [itoa index] err.

(** The loop over the builders, with the names and addresses it has seen. *)
(* go: internal/config/signing.go 45-67 normalizeAndValidateAccounts *)
Fixpoint validate_builders (index : Z) (builders : list BuilderConfig) (names addresses : gset string)
    : result (list BuilderConfig * gset string) :=
  match builders with
  | [] => Ok ([], addresses)
  | b :: builders =>
      let b := mkBuilder (TrimSpace (bc_Name b)) (TrimSpace (bc_Address b)) (bc_EncryptedPrivateKey b) in
      match requireValue "builder name" (bc_Name b) with
      | Some err => Err (at_builder index err)
      | None =>
          if negb (is_address (bc_Address b))
          then Err (Errorf "builders[%d]: builder address must match %s" [itoa index; addressPattern])
          else if string_is_empty (bc_EncryptedPrivateKey b)
          then Err (Errorf "builders[%d]: encrypted_private_key is required" [itoa index])
          else if bool_decide (bc_Name b ∈ names) then Err (Errorf "duplicate builder name %q" [bc_Name b])
          else
            let canonicalAddress := toLower (bc_Address b) in
            if bool_decide (canonicalAddress ∈ addresses) then Err (Errorf "duplicate builder address %q" [bc_Address b])
            else
              let? (rest, addresses) :=
                validate_builders (index + 1) builders ({[bc_Name b]} ∪ names) ({[canonicalAddress]} ∪ addresses) in
              Ok (b :: rest, addresses)
      end
  end.

(* go: internal/config/signing.go 91-112 normalizeAndValidatePayoutRecipient *)
Definition normalizeAndValidatePayoutRecipient (name : string) (payout : PayoutConfig) (settlementAddress : string)
    (builderAddresses : gset string) : result PayoutConfig :=
  let payout := mkPayout (TrimSpace (pc_RecipientAddress payout)) in
  if negb (is_address (pc_RecipientAddress payout))
  then Err (Errorf "%s recipient address must match %s" [name; addressPattern])
  else
    let recipientAddress := toLower (pc_RecipientAddress payout) in
    if String.eqb recipientAddress zeroAddress then Err (Errorf "%s recipient address must not be the zero address" [name])
    else if EqualFold (pc_RecipientAddress payout) settlementAddress
    then Err (Errorf "%s recipient address must differ from settlement address" [name])
    else if bool_decide (recipientAddress ∈ builderAddresses)
    then Err (Errorf "%s recipient address must differ from builder addresses" [name])
    else Ok payout.

(* go: internal/config/signing.go 38-89 normalizeAndValidateAccounts *)
Definition normalizeAndValidateAccounts (cfg : FileConfig) : result FileConfig :=
  if bool_decide (fc_Builders cfg = []) then Err (Errorf "at least one builder is required" [])
  else
    let? (builders, addresses) := validate_builders 0 (fc_Builders cfg) ∅ ∅ in
    let settlement := mkAccount (TrimSpace (ac_Address (fc_Settlement cfg))) (ac_EncryptedPrivateKey (fc_Settlement cfg)) in
    if negb (is_address (ac_Address settlement)) then Err (Errorf "settlement address must match %s" [addressPattern])
    else if string_is_empty (ac_EncryptedPrivateKey settlement)
    then Err (Errorf "settlement encrypted_private_key is required" [])
    else if bool_decide (toLower (ac_Address settlement) ∈ addresses)
    then Err (Errorf "settlement address must differ from builder addresses" [])
    else
      let? payout := normalizeAndValidatePayoutRecipient "referral payout" (fc_ReferralPayout cfg) (ac_Address settlement) addresses in
      Ok (mkFileConfig (fc_MySQL cfg) (fc_Hyperliquid cfg) (fc_Signing cfg) builders settlement payout
            (fc_Logging cfg) (fc_AWS cfg) (fc_Notification cfg)).

(* go: internal/logging/options.go 47-56 ValidateFormat *)
Definition ValidateFormat (value : string) : option error :=
  let v := toLower (TrimSpace value) in
  if String.eqb v "console" || String.eqb v "json" then None else Some (Errorf "must be %q or %q" ["console"; "json"]).

(* go: internal/logging/options.go 58-67 ValidateLevel *)
Definition ValidateLevel (value : string) : option error :=
  let v := toLower (TrimSpace value) in
  if existsb (String.eqb v) ["debug"; "info"; "warn"; "error"] then None
  else Some (Errorf "must be one of %q, %q, %q, %q" ["debug"; "info"; "warn"; "error"]).

(* go: internal/logging/options.go 69-78 ValidateColor *)
Definition ValidateColor (value : string) : option error :=
  let v := toLower (TrimSpace value) in
  if String.eqb v "auto" || String.eqb v "never" then None else Some (Errorf "must be %q or %q" ["auto"; "never"]).

Definition under (name : string) (e : option error) : option error :=
  match e with Some err => Some (Wrapf (name +:+ ": %w") [] err) | None => None end.

(* go: internal/config/logging.go 17-31 NormalizeAndValidate *)
Definition validate_Logging (cfg : LoggingConfig) : result LoggingConfig :=
  let norm v := toLower (TrimSpace v) in
  let cfg := mkLogging (norm (lg_Format cfg)) (norm (lg_Level cfg)) (norm (lg_Color cfg)) (lg_AddSource cfg) in
  check? under "format" (ValidateFormat (lg_Format cfg)) in
  check? under "level" (ValidateLevel (lg_Level cfg)) in
  check? under "color" (ValidateColor (lg_Color cfg)) in
  Ok cfg.

(* go: internal/config/notification.go 24-28 NormalizeAndValidate *)
Definition validate_AWS (cfg : AWSConfig) : AWSConfig := mkAWS (TrimSpace (aws_Region cfg)) (TrimSpace (aws_Profile cfg)).

(* go: internal/config/notification.go 46-55 normalizeStrings *)
Definition normalizeStrings (values : list string) : list string :=
  List.filter (fun v => negb (string_is_empty v)) (map TrimSpace values).

(* go: internal/config/notification.go 30-44 NormalizeAndValidate *)
Definition validate_Notification (cfg : NotificationConfig) : result NotificationConfig :=
  let ses := mkSES (TrimSpace (ses_From (nt_SES cfg))) (normalizeStrings (ses_To (nt_SES cfg))) (TrimSpace (ses_SubjectPrefix (nt_SES cfg))) in
  let cfg := mkNotification (nt_Enabled cfg) ses in
  if negb (nt_Enabled cfg) then Ok cfg
  else if string_is_empty (ses_From ses) then Err (Errorf "notification.ses.from is required when notification is enabled" [])
  else if bool_decide (ses_To ses = []) then Err (Errorf "notification.ses.to is required when notification is enabled" [])
  else Ok cfg.

Definition named {A : Type} (name : string) (r : result A) : result A :=
  match r with Ok a => Ok a | Err err => Err (Wrapf "%s: %w" [name] err) end.

Section URL.
(** [url.ParseRequestURI]: the scheme and the host. *)
Variable ParseRequestURI : string -> result (string * string).

(* go: internal/config/hyperliquid.go 26-46 ResolveBaseURL *)
Definition ResolveBaseURL (cfg : HyperliquidConfig) : result string :=
  let network := toLower (TrimSpace (hl_Network cfg)) in
  let? defaultURL :=
    (if String.eqb network "mainnet" then Ok MainnetBaseURL
     else if String.eqb network "testnet" then Ok TestnetBaseURL
     else Err (Errorf "network must be %q or %q" ["mainnet"; "testnet"])) in
  let override := TrimSpace (hl_BaseURL cfg) in
  if string_is_empty override then Ok defaultURL
  else
    let invalid := Err (Errorf "base_url must be an absolute HTTP or HTTPS URL" []) in
    match ParseRequestURI override with
    | Err _ => invalid
    | Ok (scheme, host) =>
        if (negb (String.eqb scheme "http") && negb (String.eqb scheme "https")) || string_is_empty host then invalid
        else Ok override
    end.

(* go: internal/config/hyperliquid.go 19-24 NormalizeAndValidate *)
Definition validate_Hyperliquid (cfg : HyperliquidConfig) : result HyperliquidConfig :=
  let cfg := mkHyperliquid (toLower (TrimSpace (hl_Network cfg))) (TrimSpace (hl_BaseURL cfg)) in
  let? _ := ResolveBaseURL cfg in Ok cfg.

(* go: internal/config/config.go 65-87 NormalizeAndValidate *)
Definition NormalizeAndValidate (cfg : FileConfig) : result FileConfig :=
  let? mysql := named "mysql" (validate_MySQL (fc_MySQL cfg)) in
  let? hyperliquid := named "hyperliquid" (validate_Hyperliquid (fc_Hyperliquid cfg)) in
  let? cfg := named "accounts" (normalizeAndValidateAccounts
                (mkFileConfig mysql hyperliquid (fc_Signing cfg) (fc_Builders cfg) (fc_Settlement cfg) (fc_ReferralPayout cfg)
                   (fc_Logging cfg) (fc_AWS cfg) (fc_Notification cfg))) in
  let? logging := named "logging" (validate_Logging (fc_Logging cfg)) in
  let aws := validate_AWS (fc_AWS cfg) in
  let? notification := named "notification" (validate_Notification (fc_Notification cfg)) in
  let cfg := mkFileConfig (fc_MySQL cfg) (fc_Hyperliquid cfg) (fc_Signing cfg) (fc_Builders cfg) (fc_Settlement cfg)
               (fc_ReferralPayout cfg) logging aws notification in
  if nt_Enabled (fc_Notification cfg) && string_is_empty (aws_Region (fc_AWS cfg))
  then Err (Errorf "aws.region is required when notification is enabled" [])
  else Ok cfg.

(** [decoder.Decode(&cfg)] on top of the defaults. *)
Variable toml_decode : string -> FileConfig -> result FileConfig.

(** [%04o] of permission bits. *)
Definition octal4 (n : Z) : string :=
  String.concat "" (map (fun d => itoa (n / d mod 8)) [512; 64; 8; 1]).

(* go: internal/config/config.go 89-98 ValidateFileMode *)
Definition ValidateFileMode (path : string) (info : result Z) : option error :=
  match info with
  | Err err => Some (Wrapf "stat config %s: %w" [path] err)
  | Ok mode =>
      if Z.land (Z.land mode 511) 63 =? 0 then None
      else Some (Errorf "config %s permissions %04o allow group or other access; require 0600 or stricter" [path; octal4 (Z.land mode 511)])
  end.

(** After the file mode was accepted. *)
(* go: internal/config/config.go 45-62 LoadFile *)
Definition parse_file (path : string) (data : result string) : result FileConfig :=
  match data with
  | Err err => Err (Wrapf "read config %s: %w" [path] err)
  | Ok data =>
      match toml_decode data Default with
      | Err err => Err (Wrapf "decode config %s: %w" [path] err)
      | Ok cfg =>
          match NormalizeAndValidate cfg with
          | Err err => Err (Wrapf "validate config %s: %w" [path] err)
          | Ok cfg => Ok cfg
          end
      end
  end.
End URL.
