(* ===== verification/Keycipher.v ===== *)
(** * Encrypted private keys

    [internal/crypt/keycipher]: a private key under AES-256-GCM with a key
    derived from the password by scrypt, stored as the base64 text of the
    salt, the nonce and the ciphertext.  [base64.RawStdEncoding] is written
    out; scrypt, AES and GCM are operations of other packages and are the
    class [Ciphers], with [CipherLaws] what is relied on. *)

From S2P Require Import Prelude.

(** ** Base64 *)

Definition byte_value (c : ascii) : Z := Z.of_nat (nat_of_ascii c).
Definition byte_of (z : Z) : ascii := ascii_of_nat (Z.to_nat z).

(** The alphabet of the standard encoding. *)
Definition sextet_char (v : Z) : ascii :=
  byte_of (if v <? 26 then 65 + v else if v <? 52 then 71 + v else if v <? 62 then v - 4 else if v =? 62 then 43 else 47).
Definition char_sextet (c : ascii) : option Z :=
  let n := byte_value c in
  if (65 <=? n) && (n <=? 90) then Some (n - 65)
  else if (97 <=? n) && (n <=? 122) then Some (n - 71)
  else if (48 <=? n) && (n <=? 57) then Some (n + 4)
  else if n =? 43 then Some 62 else if n =? 47 then Some 63 else None.

(** [base64.RawStdEncoding.EncodeToString]. *)
Fixpoint base64_encode (s : string) : string :=
  match s with
  | EmptyString => EmptyString
  | String a EmptyString =>
      let v := byte_value a in
      String (sextet_char (v / 4)) (String (sextet_char (v mod 4 * 16)) EmptyString)
  | String a (String b EmptyString) =>
      let v := byte_value a * 256 + byte_value b in
      String (sextet_char (v / 1024)) (String (sextet_char (v / 16 mod 64)) (String (sextet_char (v mod 16 * 4)) EmptyString))
  | String a (String b (String c r)) =>
      let v := byte_value a * 65536 + byte_value b * 256 + byte_value c in
      String (sextet_char (v / 262144)) (String (sextet_char (v / 4096 mod 64))
        (String (sextet_char (v / 64 mod 64)) (String (sextet_char (v mod 64)) (base64_encode r))))
  end.

(** Line breaks are skipped wherever they stand. *)
Fixpoint drop_line_breaks (s : string) : string :=
  match s with
  | EmptyString => EmptyString
  | String c r =>
      if (byte_value c =? 10) || (byte_value c =? 13) then drop_line_breaks r else String c (drop_line_breaks r)
  end.

Fixpoint decode_quanta (s : string) : option string :=
  match s with
  | EmptyString => Some EmptyString
  | String _ EmptyString => None
  | String a (String b EmptyString) =>
      x ← char_sextet a; y ← char_sextet b;
      Some (String (byte_of (x * 4 + y / 16)) EmptyString)
  | String a (String b (String c EmptyString)) =>
      x ← char_sextet a; y ← char_sextet b; z ← char_sextet c;
      Some (String (byte_of (x * 4 + y / 16)) (String (byte_of (y mod 16 * 16 + z / 4)) EmptyString))
  | String a (String b (String c (String d r))) =>
      x ← char_sextet a; y ← char_sextet b; z ← char_sextet c; w ← char_sextet d;
      rest ← decode_quanta r;
      Some (String (byte_of (x * 4 + y / 16)) (String (byte_of (y mod 16 * 16 + z / 4)) (String (byte_of (z mod 4 * 64 + w)) rest)))
  end.

(** [base64.RawStdEncoding.DecodeString]. *)
Definition base64_decode (s : string) : result string :=
  match decode_quanta (drop_line_breaks s) with
  | Some data => Ok data
  | None => Err (Errorf "illegal base64 data" [])
  end.

(** ** The cipher *)

Class Ciphers : Type := {
  scrypt_Key : string -> string -> Z -> Z -> Z -> Z -> result string;
  aes_NewCipher : string -> option error;
  cipher_NewGCM : string -> option error;
  gcm_Seal : string -> string -> string -> string;
  gcm_Open : string -> string -> string -> option string
}.

(** Opening inverts sealing and accepts nothing else; a sealed text is longer
    than the empty one. *)
Class CipherLaws `{Ciphers} : Prop := {
  open_seal key nonce plaintext : gcm_Open key nonce (gcm_Seal key nonce plaintext) = Some plaintext;
  open_authentic key nonce ciphertext plaintext :
    gcm_Open key nonce ciphertext = Some plaintext -> ciphertext = gcm_Seal key nonce plaintext;
  seal_length key nonce plaintext : String.length (gcm_Seal key nonce plaintext) = (String.length plaintext + 16)%nat
}.

(* go: internal/crypt/keycipher/keycipher.go 18-18 scryptN *)
Definition scryptN : Z := 32768.
(* go: internal/crypt/keycipher/keycipher.go 19-19 scryptR *)
Definition scryptR : Z := 8.
(* go: internal/crypt/keycipher/keycipher.go 20-20 scryptP *)
Definition scryptP : Z := 1.
(* go: internal/crypt/keycipher/keycipher.go 21-21 keyLen *)
Definition keyLen : Z := 32.
(* go: internal/crypt/keycipher/keycipher.go 22-22 saltLen *)
Definition saltLen : nat := 16.
(* go: internal/crypt/keycipher/keycipher.go 23-23 nonceLen *)
Definition nonceLen : nat := 12.

Section Cipher.
Context `{Ciphers}.

(* go: internal/crypt/keycipher/keycipher.go 110-116 deriveKey *)
Definition deriveKey (password salt : string) : result string :=
  match scrypt_Key password salt scryptN scryptR scryptP keyLen with
  | Ok key => Ok key
  | Err err => Err (Wrapf "derive encryption key: %w" [] err)
  end.

(** [aes.NewCipher] and [cipher.NewGCM]. *)
(* go: internal/crypt/keycipher/keycipher.go 49-56 Encrypt *)
Definition new_gcm (key : string) : option error :=
  match aes_NewCipher key with
  | Some err => Some (Wrapf "create cipher: %w" [] err)
  | None => match cipher_NewGCM key with Some err => Some (Wrapf "create gcm: %w" [] err) | None => None end
  end.

(** [salt] and [nonce] are what reading the random source gave. *)
(* go: internal/crypt/keycipher/keycipher.go 27-66 Encrypt *)
Definition Encrypt (privateKey password : string) (salt nonce : result string) : result string :=
  let plaintext := TrimSpace privateKey in
  if string_is_empty plaintext then Err (Errorf "private key is required" [])
  else if string_is_empty password then Err (Errorf "password is required" [])
  else
    match salt with
    | Err err => Err (Wrapf "generate salt: %w" [] err)
    | Ok salt =>
        let? key := deriveKey password salt in
        match new_gcm key with
        | Some err => Err err
        | None =>
            match nonce with
            | Err err => Err (Wrapf "generate nonce: %w" [] err)
            | Ok nonce => Ok (base64_encode (salt +:+ nonce +:+ gcm_Seal key nonce plaintext))
            end
        end
    end.

Definition slice_bytes (from to_ : nat) (s : string) : string := String.substring from (to_ - from) s.

(* go: internal/crypt/keycipher/keycipher.go 69-108 Decrypt *)
Definition Decrypt (encrypted password : string) : result string :=
  let token := TrimSpace encrypted in
  if string_is_empty token then Err (Errorf "encrypted private key is required" [])
  else if string_is_empty password then Err (Errorf "password is required" [])
  else
    match base64_decode token with
    | Err err => Err (Wrapf "decode encrypted private key: %w" [] err)
    | Ok decoded =>
        if (String.length decoded <=? saltLen + nonceLen)%nat then Err (Errorf "encrypted private key is too short" [])
        else
          let salt := slice_bytes 0 saltLen decoded in
          let nonce := slice_bytes saltLen (saltLen + nonceLen) decoded in
          let ciphertext := slice_bytes (saltLen + nonceLen) (String.length decoded) decoded in
          let? key := deriveKey password salt in
          match new_gcm key with
          | Some err => Err err
          | None =>
              match gcm_Open key nonce ciphertext with
              | None => Err (Errorf "decrypt private key: authentication failed" [])
              | Some plaintext => Ok plaintext
              end
          end
    end.
End Cipher.

(** * What the encryption of keys guarantees

    Decrypting an encrypted key gives the key back, and whatever decrypts
    under a password is a sealed text of it ([key_roundtrip]). *)

(** ** Base64 *)

Definition in_alphabet (c : ascii) : bool := match char_sextet c with Some _ => true | None => false end.

Lemma sextet_inv v : 0 <= v < 64 -> char_sextet (sextet_char v) = Some v.
Proof.
  intros Hv. assert (forallb (fun v => bool_decide (char_sextet (sextet_char v) = Some v)) (seqZ 0 64) = true) as Hall by (vm_compute; reflexivity).
  rewrite forallb_forall in Hall. specialize (Hall v ltac:(rewrite <- list_elem_of_In, elem_of_seqZ; lia)).
  by apply bool_decide_eq_true in Hall.
Qed.

Lemma byte_of_value c : byte_of (byte_value c) = c.
Proof. unfold byte_of, byte_value. rewrite Nat2Z.id. apply ascii_nat_embedding. Qed.

Lemma byte_value_range c : 0 <= byte_value c < 256.
Proof. unfold byte_value. pose proof (nat_ascii_bounded c). lia. Qed.

(** Induction by groups of three bytes. *)
Lemma group_ind (P : string -> Prop) :
  P "" -> (forall a, P (String a "")) -> (forall a b, P (String a (String b ""))) ->
  (forall a b c r, P r -> P (String a (String b (String c r)))) -> forall s, P s.
Proof.
  intros H0 H1 H2 H3. fix IH 1. intros [|a [|b [|c r]]]; [done|apply H1|apply H2|apply H3, IH].
Qed.

#[local] Ltac sextets := rewrite !sextet_inv by (Z.div_mod_to_equations; lia); cbn [mbind option_bind].

(** A byte computed from sextets is the byte they came from. *)
Lemma byte_of_eq z c : z = byte_value c -> byte_of z = c.
Proof. intros ->. apply byte_of_value. Qed.

Lemma decode_quanta_encode s : decode_quanta (base64_encode s) = Some s.
Proof.
  induction s as [|a|a b|a b c r IH] using group_ind; [done|..]; cbn [base64_encode decode_quanta];
    pose proof (byte_value_range a) as Ha; try pose proof (byte_value_range b) as Hb; try pose proof (byte_value_range c) as Hc.
  - sextets. do 2 f_equal. apply byte_of_eq. Z.div_mod_to_equations. lia.
  - sextets. do 2 f_equal; [|f_equal]; apply byte_of_eq; Z.div_mod_to_equations; lia.
  - sextets. rewrite IH. cbn [mbind option_bind]. do 2 f_equal; [|f_equal; [|f_equal]]; apply byte_of_eq; Z.div_mod_to_equations; lia.
Qed.

Fixpoint all_in (f : ascii -> bool) (s : string) : bool :=
  match s with EmptyString => true | String c r => f c && all_in f r end.

Lemma all_in_app f a b : all_in f (a +:+ b) = all_in f a && all_in f b.
Proof. induction a as [|c a IH]; [done|]. cbn. by rewrite IH, andb_assoc. Qed.

Lemma all_in_rev f a : all_in f (String.rev a) = all_in f a.
Proof.
  induction a as [|c a IH]; [done|]. rewrite string_rev_cons, all_in_app, IH. cbn [all_in]. by rewrite andb_true_r, andb_comm.
Qed.

Lemma encode_alphabet s : all_in in_alphabet (base64_encode s) = true.
Proof.
  assert (Hc : forall v, 0 <= v < 64 -> in_alphabet (sextet_char v) = true) by (intros v Hv; unfold in_alphabet; by rewrite sextet_inv).
  induction s as [|a|a b|a b c r IH] using group_ind; [done|..]; cbn [base64_encode all_in];
    pose proof (byte_value_range a) as Ha; try pose proof (byte_value_range b) as Hb; try pose proof (byte_value_range c) as Hc';
    rewrite !Hc by (Z.div_mod_to_equations; lia); done.
Qed.

Lemma alphabet_no_break s : all_in in_alphabet s = true -> drop_line_breaks s = s.
Proof.
  induction s as [|c s IH]; [done|]. cbn [all_in drop_line_breaks]. intros [Hc Hs]%andb_true_iff. rewrite (IH Hs).
  destruct c as [[] [] [] [] [] [] [] []]; first [reflexivity|discriminate Hc].
Qed.

(** Prefixes that start outside the alphabet. *)
Definition foreign (ps : list string) : bool :=
  forallb (fun p => match p with String c _ => negb (in_alphabet c) | EmptyString => false end) ps.

Lemma foreign_no_strip ps s : foreign ps = true -> all_in in_alphabet s = true -> first_strip ps s = None.
Proof.
  intros Hf Hs. apply first_strip_none. intros p r Hp ->.
  unfold foreign in Hf. rewrite forallb_forall in Hf. specialize (Hf p ltac:(by apply list_elem_of_In)).
  destruct p as [|c p]; [done|]. cbn [String.append all_in] in Hs. apply andb_true_iff in Hs as [Hs _]. by rewrite Hs in Hf.
Qed.

Lemma alphabet_trimmed s : all_in in_alphabet s = true -> TrimSpace s = s.
Proof.
  intros Hs. apply TrimSpace_fix; apply foreign_no_strip; try done; [vm_compute; reflexivity..|]. by rewrite all_in_rev.
Qed.

Lemma base64_roundtrip s : base64_decode (base64_encode s) = Ok s.
Proof. unfold base64_decode. by rewrite (alphabet_no_break _ (encode_alphabet s)), decode_quanta_encode. Qed.

(** ** The payload *)

Lemma substring_whole s : String.substring 0 (String.length s) s = s.
Proof. induction s as [|c s IH]; [done|]. cbn. by rewrite IH. Qed.

Lemma substring_0_app a b : String.substring 0 (String.length a) (a +:+ b) = a.
Proof. induction a as [|c a IH]; cbn; [by destruct b|]. by rewrite IH. Qed.

Lemma substring_drop a b n : String.substring (String.length a) n (a +:+ b) = String.substring 0 n b.
Proof. induction a as [|c a IH]; [done|]. cbn. apply IH. Qed.

(** The three parts of a payload. *)
Lemma payload_parts salt nonce ciphertext :
  String.length salt = saltLen -> String.length nonce = nonceLen ->
  let decoded := salt +:+ nonce +:+ ciphertext in
  slice_bytes 0 saltLen decoded = salt /\ slice_bytes saltLen (saltLen + nonceLen) decoded = nonce /\
  slice_bytes (saltLen + nonceLen) (String.length decoded) decoded = ciphertext.
Proof.
  intros Hs Hn. cbv zeta. unfold slice_bytes. split_and!.
  - rewrite Nat.sub_0_r, <- Hs. apply substring_0_app.
  - rewrite <- Hs at 1. rewrite substring_drop. replace (saltLen + nonceLen - saltLen)%nat with (String.length nonce) by lia.
    apply substring_0_app.
  - rewrite <- string_app_assoc. rewrite <- Hs, <- Hn, <- string_length_app, substring_drop, string_length_app.
    replace (String.length (salt +:+ nonce) + String.length ciphertext - String.length (salt +:+ nonce))%nat
      with (String.length ciphertext) by lia. apply substring_whole.
Qed.

(** Every string that is long enough has these parts. *)
Lemma string_split n s : (n <= String.length s)%nat -> exists a b, s = a +:+ b /\ String.length a = n.
Proof.
  revert s. induction n as [|n IH]; intros s Hl; [by exists "", s|].
  destruct s as [|c s]; cbn in Hl; [lia|]. destruct (IH s ltac:(lia)) as (a & b & -> & Ha).
  exists (String c a), b. split; [done|]. cbn. by rewrite Ha.
Qed.

Section Roundtrip.
Context `{Laws : CipherLaws}.

(** A token that holds the key [plaintext] under the password. *)
Definition seals (token password plaintext : string) : Prop :=
  exists salt nonce key, String.length salt = saltLen /\ String.length nonce = nonceLen /\
    deriveKey password salt = Ok key /\ base64_decode (TrimSpace token) = Ok (salt +:+ nonce +:+ gcm_Seal key nonce plaintext).

Lemma Decrypt_seals token password plaintext : Decrypt token password = Ok plaintext -> seals token password plaintext.
Proof.
  unfold Decrypt. destruct (string_is_empty (TrimSpace token)); [done|]. destruct (string_is_empty password); [done|].
  destruct (base64_decode (TrimSpace token)) as [decoded|] eqn:Ed; [|done].
  destruct (Nat.leb_spec (String.length decoded) (saltLen + nonceLen)) as [|Hl]; [done|].
  destruct (string_split saltLen decoded ltac:(lia)) as (salt & rest & -> & Hs). rewrite string_length_app in Hl.
  destruct (string_split nonceLen rest ltac:(lia)) as (nonce & ciphertext & -> & Hn).
  destruct (payload_parts salt nonce ciphertext Hs Hn) as (-> & -> & ->). cbn [rbind].
  destruct (deriveKey password salt) as [key|] eqn:Ek; [|done]. cbn [rbind]. destruct (new_gcm key); [done|].
  destruct (gcm_Open key nonce ciphertext) as [p|] eqn:Eo; [|done]. intros [= ->].
  apply open_authentic in Eo as ->. by exists salt, nonce, key.
Qed.

Lemma decrypt_encrypted privateKey password salt nonce token :
  String.length salt = saltLen -> String.length nonce = nonceLen ->
  Encrypt privateKey password (Ok salt) (Ok nonce) = Ok token -> Decrypt token password = Ok (TrimSpace privateKey).
Proof.
  intros Hs Hn.
  unfold Encrypt, Decrypt. destruct (string_is_empty (TrimSpace privateKey)) eqn:Ep; [done|].
  destruct (string_is_empty password) eqn:Epw; [done|]. cbn [rbind].
  destruct (deriveKey password salt) as [key|] eqn:Ek; [|done]. cbn [rbind]. destruct (new_gcm key) eqn:Eg; [done|].
  intros E. assert (token = base64_encode (salt +:+ nonce +:+ gcm_Seal key nonce (TrimSpace privateKey))) as -> by congruence.
  rewrite (alphabet_trimmed _ (encode_alphabet _)), base64_roundtrip.
  destruct (payload_parts salt nonce (gcm_Seal key nonce (TrimSpace privateKey)) Hs Hn) as (-> & -> & ->).
  rewrite !string_length_app, seal_length, Hs, Hn.
  rewrite (proj2 (Nat.leb_gt _ _)) by lia. rewrite Ek. cbn [rbind]. rewrite Eg, open_seal.
  destruct salt as [|a [|b salt]]; try discriminate Hs. cbn [String.append base64_encode].
  destruct (salt +:+ _) eqn:Es; cbn; done.
Qed.

(** An encrypted private key is decrypted with the same password to the
    key, white space around it removed; and whatever is decrypted under a
    password is the very key sealed in the token under a key derived from
    that password. *)
Theorem key_roundtrip privateKey password salt nonce token :
  String.length salt = saltLen -> String.length nonce = nonceLen ->
  Encrypt privateKey password (Ok salt) (Ok nonce) = Ok token ->
  Decrypt token password = Ok (TrimSpace privateKey) /\
  forall token' plaintext, Decrypt token' password = Ok plaintext -> seals token' password plaintext.
Proof.
  intros Hs Hn He. split; [by eapply decrypt_encrypted|]. intros token' p. apply Decrypt_seals.
Qed.
End Roundtrip.

(** ** A concrete cipher *)

Section Witness.

Definition toy_tag : string := bytes_of (repeat 7 16).

(** Sealing appends a tag to the key, the nonce, and the text. *)
#[local] Instance toy_ciphers : Ciphers := {|
  scrypt_Key := fun password salt _ _ _ _ => Ok (password +:+ salt);
  aes_NewCipher := fun _ => None;
  cipher_NewGCM := fun _ => None;
  gcm_Seal := fun _ _ plaintext => toy_tag +:+ plaintext;
  gcm_Open := fun _ _ ciphertext => strip toy_tag ciphertext
|}.

#[local] Instance toy_laws : CipherLaws.
Proof.
  split; cbn [gcm_Open gcm_Seal toy_ciphers].
  - intros _ _ p. by apply strip_spec.
  - intros _ _ c p. by apply strip_spec.
  - intros _ _ p. rewrite string_length_app. cbn. lia.
Qed.

Definition sample_salt : string := bytes_of (seqZ 0 16).
Definition sample_nonce : string := bytes_of (seqZ 100 12).
Definition sample_token : string :=
  match Encrypt " 0x1234 " "hunter2" (Ok sample_salt) (Ok sample_nonce) with Ok token => token | Err _ => "" end.

Lemma key_roundtrip_witness : Decrypt sample_token "hunter2" = Ok "0x1234".
Proof.
  exact (proj1 (key_roundtrip " 0x1234 " "hunter2" sample_salt sample_nonce sample_token
    ltac:(vm_compute; reflexivity) ltac:(vm_compute; reflexivity) ltac:(vm_compute; reflexivity))).
Defined.
End Witness.
