(* ===== verification/App.v ===== *)
(** * The application

    [internal/app] and the constructors of the funding package: from the
    configuration file and the encrypted keys to the running service, and the
    consolidate-only command; the order of the start is in [Service.v].

    The operations of a process are those of its start and its end, those of
    the scheduler, and those of the funding code, marked by the task that
    performs them.  The scheduler's callbacks are served by running the
    funding code: first the closures of [App.Run] ([closures], over the
    signature [RunnerSig] with the funding entries as operations), then the
    entries themselves ([inline]). *)

From S2P Require Import Prelude DecimalSpec Prog Crash Scheduler Model Report Clock Effects Payout Recovery Run Daily Consolidation Sweep Text Signing Exchange HttpClient Settings Keycipher.

(** ** Constructors of the funding package *)

Section Constructors.

(** The dependencies are present or nil. *)
(* go: internal/funding/orchestrator.go 18-33 OrchestratorConfig *)
Record OrchestratorConfig : Type := mkOrchestratorConfig {
  oc_dependencies : bool;
  oc_Notifier : bool;
  oc_Builders : list string;
  oc_BuilderNames : list (string * string);
  oc_Settlement : string;
  oc_ReferralRecipient : string;
  oc_Network : string
}.

(* go: internal/funding/orchestrator.go 74-74 zeroEthereumAddress *)
Definition zeroEthereumAddress : string := "0x0000000000000000000000000000000000000000".

(** The loop over the builders, with the addresses it has seen. *)
(* go: internal/funding/orchestrator.go 87-100 NewOrchestrator *)
Fixpoint check_builders (settlement : string) (builders : list string) (seen : gset string) : result (gset string) :=
  match builders with
  | [] => Ok seen
  | builder :: builders =>
      let address := address_key builder in
      if string_is_empty address then Err (Errorf "builder address is required" [])
      else if EqualFold address (TrimSpace settlement) then Err (Errorf "settlement account must not be a builder" [])
      else if bool_decide (address ∈ seen) then Err (Errorf "duplicate builder address %q" [builder])
      else check_builders settlement builders ({[address]} ∪ seen)
  end.

(* go: internal/funding/orchestrator.go 77-127 NewOrchestrator *)
Definition NewOrchestrator (cfg : OrchestratorConfig) : result Config :=
  if negb (oc_dependencies cfg) then Err (Errorf "funding orchestrator dependencies are required" [])
  else if bool_decide (oc_Builders cfg = []) || string_is_empty (TrimSpace (oc_Settlement cfg)) ||
          string_is_empty (TrimSpace (oc_ReferralRecipient cfg))
  then Err (Errorf "funding accounts are required" [])
  else
    let? seen := check_builders (oc_Settlement cfg) (oc_Builders cfg) ∅ in
    let recipient := TrimSpace (oc_ReferralRecipient cfg) in
    if EqualFold recipient zeroEthereumAddress
    then Err (Errorf "referral recipient account must not be the zero address" [])
    else if EqualFold (TrimSpace (oc_Settlement cfg)) recipient
    then Err (Errorf "settlement and referral recipient accounts must differ" [])
    else if bool_decide (toLower recipient ∈ seen) then Err (Errorf "referral recipient account must not be a builder" [])
    else Ok (mkConfig (oc_Builders cfg) (cloneBuilderNames (oc_BuilderNames cfg)) (oc_Settlement cfg) recipient
               (oc_Network cfg) (oc_Notifier cfg)).

(** A consolidator is an orchestrator without a recipient. *)
(* go: internal/funding/consolidation.go 30-70 NewConsolidator *)
Definition NewConsolidator (dependencies notifier : bool) (builders : list string) (names : list (string * string))
    (settlement network : string) : result Config :=
  if negb dependencies then Err (Errorf "funding consolidator dependencies are required" [])
  else
    let settlement := TrimSpace settlement in
    if bool_decide (builders = []) || string_is_empty settlement
    then Err (Errorf "funding consolidation accounts are required" [])
    else
      let? _ := check_builders settlement builders ∅ in
      Ok (mkConfig builders (cloneBuilderNames names) settlement "" network notifier).
End Constructors.

(** ** The pool of MySQL connections *)

Section Pool.

(* go: internal/repository/mysql/client.go 14-22 connectTimeout *)
Definition connectTimeout : Z := 5 * Second.
Definition readTimeout : Z := 30 * Second.
Definition writeTimeout : Z := 30 * Second.
Definition maxOpenConns : Z := 10.
Definition maxIdleConns : Z := 5.
Definition connMaxLifetime : Z := 30 * Minute.
Definition connMaxIdleTime : Z := 5 * Minute.

(** What is set of the driver's configuration; the rest is as
    [drivermysql.NewConfig] left it. *)
Record driver_config : Type := mkDriver {
  dv_User : string;
  dv_Passwd : string;
  dv_Net : string;
  dv_Addr : string;
  dv_DBName : string;
  dv_Timeout : Z;
  dv_ReadTimeout : Z;
  dv_WriteTimeout : Z;
  dv_ParseTime : bool
}.

(** The driver: a connector for a configuration, or an error. *)
Context {Connector : Type}.
Variable NewConnector : driver_config -> result Connector.

(** [sql.DB]: no connection is opened here. *)
Record DB : Type := mkDB {
  db_connector : Connector;
  db_MaxOpenConns : Z;
  db_MaxIdleConns : Z;
  db_ConnMaxLifetime : Z;
  db_ConnMaxIdleTime : Z
}.

(** [net.JoinHostPort]. *)
Definition JoinHostPort (host port : string) : string :=
  if Contains host ":" then "[" +:+ host +:+ "]:" +:+ port else host +:+ ":" +:+ port.

(* go: internal/repository/mysql/client.go 26-48 Open *)
Definition Open (cfg : MySQLConfig) : result DB :=
  let driverCfg := mkDriver (my_User cfg) (my_Password cfg) "tcp" (JoinHostPort (my_Host cfg) (itoa (my_Port cfg))) (my_Database cfg)
                     connectTimeout readTimeout writeTimeout true in
  let? connector := NewConnector driverCfg in
  Ok (mkDB connector maxOpenConns maxIdleConns connMaxLifetime connMaxIdleTime).
End Pool.

(** ** The process and its surroundings *)

Inductive side : Type := PayoutSide | ConsolidationSide.

(** [NewSES] is [ses.New]; [ReadSecret] the prompt of the terminal;
    [SendAlert] and [SendTest] go to the notifier. *)
Inductive AppOp `{DecimalOps} : Type :=
| WriteStdout (text : string)
| StatFile (path : string)
| ReadFile (path : string)
| NewSES
| ReadSecret (label : string)
| SendAlert (key subject body : string)
| SendTest
| OpenMySQL
| CloseMySQL
| AcquireProcessLock
| CloseProcessLock
| SchedulerO (o : Scheduler.SchedOp)
| FundingO (s : side) (o : FundingOp).

Definition AppResp `{DecimalOps} (o : AppOp) : Type :=
  match o with
  | StatFile _ => result Z
  | ReadFile _ => result string
  | WriteStdout _ | NewSES | OpenMySQL | CloseMySQL | AcquireProcessLock | CloseProcessLock | SendTest => option error
  | ReadSecret _ => result string
  | SendAlert _ _ _ => unit
  | SchedulerO o => Scheduler.SchedResp o
  | FundingO _ o => FundingResp o
  end.

Definition AppSig `{DecimalOps} : EffSig := {| Op := AppOp; Resp := AppResp |}.

Section Lift.
Context `{DecimalOps}.

(** Funding code as part of the process. *)
Fixpoint lift {A : Type} (s : side) (m : prog (Sig := FundingSig) A) : prog (Sig := AppSig) A :=
  match m with
  | Ret a => Ret a
  | Call o k => Call (Sig := AppSig) (FundingO s o) (fun r => lift s (k r))
  end.
End Lift.

(** *** The closures of [App.Run] *)

(** The scheduler with the two funding entries it triggers. *)
Inductive RunnerOp : Type :=
| WaitO (o : Scheduler.SchedOp)
| RunScheduledO (trigger : Trigger) (attempt maxAttempts : Z)
| RunDailyConsolidationO.

Definition RunnerResp (o : RunnerOp) : Type :=
  match o with
  | WaitO o => Scheduler.SchedResp o
  | RunScheduledO _ _ _ | RunDailyConsolidationO => option error
  end.

Definition RunnerSig : EffSig := {| Op := RunnerOp; Resp := RunnerResp |}.

(* go: internal/app/app.go 195-196 Run *)
Definition maxAttempts : Z := Scheduler.MaxNonfatalRetries + 1.

(** The counter after a funding task ended. *)
(* go: internal/app/app.go 202-207 Run *)
Definition next_attempt (attempt : Z) (runErr : option error) : Z :=
  match runErr with
  | None => 1
  | Some err => if negb (IsFatal err) && (attempt <? maxAttempts) then attempt + 1 else attempt
  end.

(** Serving the callbacks; the closures share [attempt]. *)
(* go: internal/app/app.go 197-210 Run *)
Fixpoint closures {A : Type} (m : prog (Sig := Scheduler.SchedSig) A) (attempt : Z) : prog (Sig := RunnerSig) A :=
  match m with
  | Ret a => Ret a
  | Call o k =>
      match o return (Scheduler.SchedResp o -> prog (Sig := Scheduler.SchedSig) A) -> prog (Sig := RunnerSig) A with
      | Scheduler.RunFunding => fun k =>
          Call (Sig := RunnerSig) (RunScheduledO TriggerUTC attempt maxAttempts)
            (fun runErr => closures (k runErr) (next_attempt attempt runErr))
      | Scheduler.Consolidate => fun k => Call (Sig := RunnerSig) RunDailyConsolidationO (fun err => closures (k err) attempt)
      | o => fun k => Call (Sig := RunnerSig) (WaitO o) (fun r => closures (k r) attempt)
      end k
  end.

(** The scheduler that [app.New] builds has both callbacks and the system's
    clock and timers. *)
(* go: internal/app/app.go 135-145 New *)
Definition utcScheduler : Scheduler.Scheduler := Scheduler.mkScheduler true true true true.

(* go: internal/app/app.go 188-211 Run *)
Definition App_Run (fuel : nat) : prog (Sig := RunnerSig) (Z + error) :=
  closures (Scheduler.Run utcScheduler true true true fuel) 1.

(** *** The funding entries in their place *)

Section Process.
Context `{DecimalOps} `{Crypto} `{Ciphers} `{NetOps}.
(** [url.ParseRequestURI] and the TOML decoder. *)
Variable ParseRequestURI : string -> result (string * string).
Variable toml_decode : string -> FileConfig -> result FileConfig.

(** The memory of the orchestrator lives through all entries. *)
Fixpoint inline {A : Type} (cfg : Config) (m : prog (Sig := RunnerSig) A) (mem : Mem) : prog (Sig := AppSig) A :=
  match m with
  | Ret a => Ret a
  | Call o k =>
      match o return (RunnerResp o -> prog (Sig := RunnerSig) A) -> prog (Sig := AppSig) A with
      | WaitO o => fun k => Call (Sig := AppSig) (SchedulerO o) (fun r => inline cfg (k r) mem)
      | RunScheduledO trigger attempt maxAttempts => fun k =>
          prog_bind (lift PayoutSide (RunScheduled cfg trigger attempt maxAttempts mem))
            (fun r => inline cfg (k (fst r)) (snd r))
      | RunDailyConsolidationO => fun k =>
          prog_bind (lift ConsolidationSide (RunDailyConsolidation cfg mem)) (fun r => inline cfg (k (fst r)) (snd r))
      end k
  end.

(** *** The password prompt *)

(** The operation [ReadSecret] of a process, given the answers of the
    terminal: whether the input is one, and the results of writing the label,
    of reading the password and of writing the line break after it. *)
(* go: internal/app/secret_prompt.go 38-61 ReadSecret *)
Definition terminal_ReadSecret (isTerminal : bool) (written : option error) (raw : result string) (newlineErr : option error)
    : result string :=
  if negb isTerminal then Err (Errorf "secret input must be entered from a terminal" [])
  else match written with
  | Some err => Err (Wrapf "write secret prompt: %w" [] err)
  | None =>
      match raw, newlineErr with
      | Err err, Some nl =>
          Err (Join (Wrapf "read secret from terminal: %w" [] err) (Wrapf "write secret prompt newline: %w" [] nl))
      | Err err, None => Err (Wrapf "read secret from terminal: %w" [] err)
      | Ok _, Some nl => Err (Wrapf "write secret prompt newline: %w" [] nl)
      | Ok raw, None => Ok raw
      end
  end.

(** The bytes of the password are overwritten once it was copied. *)
(* go: internal/app/secret_prompt.go 121-125 zeroBytes *)
Definition zeroBytes (value : list Z) : list Z := map (fun _ => 0) value.

(** *** Signers *)

(* go: internal/app/secret_prompt.go 101-119 addSigner *)
Definition addSigner (signers : list (string * PrivateKey)) (name configuredAddress encrypted password : string)
    : result (list (string * PrivateKey)) :=
  match Decrypt encrypted password with
  | Err err => Err (Wrapf "decrypt signer %q: %w" [name] err)
  | Ok plaintext =>
      match ParsePrivateKey plaintext with
      | Err err => Err (Wrapf "parse signer %q: %w" [name] err)
      | Ok key =>
          match Address key with
          | Err err => Err (Wrapf "derive signer %q address: %w" [name] err)
          | Ok derivedAddress =>
              if negb (EqualFold configuredAddress derivedAddress)
              then Err (Errorf "signer %q configured address does not match derived address" [name])
              else Ok (signers ++ [(configuredAddress, key)])
          end
      end
  end.

(** The loop over the builders. *)
(* go: internal/app/secret_prompt.go 91-99 buildBuilderSigners *)
Fixpoint buildBuilderSigners (builders : list BuilderConfig) (password : string) (signers : list (string * PrivateKey))
    : result (list (string * PrivateKey)) :=
  match builders with
  | [] => Ok signers
  | b :: builders =>
      let? signers := addSigner signers (bc_Name b) (bc_Address b) (bc_EncryptedPrivateKey b) password in
      buildBuilderSigners builders password signers
  end.

(* go: internal/app/secret_prompt.go 80-89 buildSigners *)
Definition buildSigners (cfg : FileConfig) (password : string) : result (list (string * PrivateKey)) :=
  let? signers := buildBuilderSigners (fc_Builders cfg) password [] in
  addSigner signers "settlement" (ac_Address (fc_Settlement cfg)) (ac_EncryptedPrivateKey (fc_Settlement cfg)) password.

(** *** Assembly *)

Definition builder_addresses (cfg : FileConfig) : list string := map bc_Address (fc_Builders cfg).
Definition builder_names (cfg : FileConfig) : list (string * string) :=
  map (fun b => (toLower (bc_Address b), bc_Name b)) (fc_Builders cfg).

(** The transport and the exchange client, whose errors both assemblies
    report alike. *)
(* go: internal/app/app.go 242-255 assembleOrchestrator *)
Definition assemble_clients (cfg : FileConfig) (signers : list (string * PrivateKey)) : result (HttpClient.Client * Exchange.Client) :=
  let network := hl_Network (fc_Hyperliquid cfg) in
  let? baseURL := ResolveBaseURL ParseRequestURI (fc_Hyperliquid cfg) in
  match HttpClient.New network baseURL with
  | Err err => Err (Wrapf "initialize Hyperliquid transport: %w" [] err)
  | Ok transport =>
      match Exchange.New true network signers with
      | Err err => Err (Wrapf "initialize Hyperliquid exchange client: %w" [] err)
      | Ok exchange => Ok (transport, exchange)
      end
  end.

(* go: internal/app/app.go 234-281 assembleOrchestrator *)
Definition assembleOrchestrator (cfg : FileConfig) (signers : list (string * PrivateKey)) : result Config :=
  let? _ := assemble_clients cfg signers in
  NewOrchestrator (mkOrchestratorConfig true true (builder_addresses cfg) (builder_names cfg) (ac_Address (fc_Settlement cfg))
    (pc_RecipientAddress (fc_ReferralPayout cfg)) (hl_Network (fc_Hyperliquid cfg))).

(* go: internal/app/consolidation.go 72-108 assembleConsolidator *)
Definition assembleConsolidator (cfg : FileConfig) (signers : list (string * PrivateKey)) : result Config :=
  let? _ := assemble_clients cfg signers in
  NewConsolidator true true (builder_addresses cfg) (builder_names cfg) (ac_Address (fc_Settlement cfg)) (hl_Network (fc_Hyperliquid cfg)).
End Process.
