(* ===== verification/Flags.v ===== *)
(** * Command lines

    What the two programs use of the standard library's [flag] package: a
    [FlagSet] with [ContinueOnError], its flags of type bool and string, its
    errors, and the texts it writes to its output.  A flag is the way its
    value is set in the structure the flags are stored in. *)

From S2P Require Import Prelude Text Logging.

(** [strings.Cut] with a separator of one byte. *)
Fixpoint Cut (s : string) (sep : ascii) : option (string * string) :=
  match s with
  | EmptyString => None
  | String c r =>
      if Ascii.eqb c sep then Some ("", r)
      else match Cut r sep with Some (before, after) => Some (String c before, after) | None => None end
  end.

(** [flag.ErrHelp]. *)
Definition ErrHelp : error := Errorf "flag: help requested" [].

(** The variable of a flag: how a value changes the variables [T], and the
    default of a text. *)
Inductive flag_value (T : Type) : Type :=
| BoolValue (put : bool -> T -> T)
| StringValue (initial : string) (put : string -> T -> T).
Arguments BoolValue {T}. Arguments StringValue {T}.

Record Flag (T : Type) : Type := mkFlag { fl_name : string; fl_value : flag_value T; fl_usage : string }.
Arguments mkFlag {T}. Arguments fl_name {T}. Arguments fl_value {T}. Arguments fl_usage {T}.

(** [BoolVar] and [StringVar]. *)
Definition BoolVar {T : Type} (put : bool -> T -> T) (name usage : string) : Flag T := mkFlag name (BoolValue put) usage.
Definition StringVar {T : Type} (put : string -> T -> T) (name value usage : string) : Flag T := mkFlag name (StringValue value put) usage.

(** [strconv.ParseBool]. *)
Definition ParseBool (s : string) : option bool :=
  if existsb (String.eqb s) ["1"; "t"; "T"; "true"; "TRUE"; "True"] then Some true
  else if existsb (String.eqb s) ["0"; "f"; "F"; "false"; "FALSE"; "False"] then Some false
  else None.

Section FlagSet.
Context `{UnicodeTables} {T : Type}.
Variable name : string.
Variable flags : list (Flag T).

Definition lookup_flag (name : string) : option (Flag T) := List.find (fun f => String.eqb (fl_name f) name) flags.

(** *** The texts of the usage *)

Definition newline : string := bytes_of [10].

(** A flag of [PrintDefaults], written with one call; a default that is the
    zero value is not shown. *)
Definition flag_text (f : Flag T) : string :=
  let head := "  -" +:+ fl_name f +:+ match fl_value f with BoolValue _ => "" | StringValue _ _ => " string" end in
  head +:+ (if (String.length head <=? 4)%nat then bytes_of [9] else newline +:+ "    " +:+ bytes_of [9]) +:+
  fl_usage f +:+
  match fl_value f with
  | StringValue (String _ _ as value) _ => " (default " +:+ Quote value +:+ ")"
  | _ => ""
  end +:+ newline.

(** The flags are visited in the order of their names. *)
Fixpoint insert_flag (f : Flag T) (l : list (Flag T)) : list (Flag T) :=
  match l with [] => [f] | g :: r => if String.leb (fl_name f) (fl_name g) then f :: l else g :: insert_flag f r end.
Definition PrintDefaults : list string := map flag_text (fold_right insert_flag [] flags).

Definition defaultUsage : list string := ("Usage of " +:+ name +:+ ":" +:+ newline) :: PrintDefaults.

(** [failf]: the error goes to the output, followed by the usage. *)
Variable usage : list string.
Definition failf (format : string) (args : list string) (text : string) : list string * error :=
  ((text +:+ newline) :: usage, Errorf format args).

(** *** Parsing *)

Definition cut_equals (s : string) : string * option string :=
  match s with
  | EmptyString => (s, None)
  | String c r => match Cut r "=" with Some (before, after) => (String c before, Some after) | None => (s, None) end
  end.

(** [fs.Parse]: what it writes and either its error or the variables with the
    positional arguments. *)
Fixpoint Parse (args : list string) (t : T) {struct args} : list string * result (T * list string) :=
  let fail format a text := let '(texts, err) := failf format a text in (texts, Err err) in
  match args with
  | [] => ([], Ok (t, []))
  | s :: args' =>
      if (String.length s <? 2)%nat || negb (HasPrefix s "-") then ([], Ok (t, args))
      else if String.eqb s "--" then ([], Ok (t, args'))
      else
        let name := if HasPrefix s "--" then drop_bytes 2 s else drop_bytes 1 s in
        if string_is_empty name || HasPrefix name "-" || HasPrefix name "="
        then fail "bad flag syntax: %s" [s] ("bad flag syntax: " +:+ s)
        else
          let '(name, value) := cut_equals name in
          match lookup_flag name with
          | None =>
              if String.eqb name "help" || String.eqb name "h" then (usage, Err ErrHelp)
              else fail "flag provided but not defined: -%s" [name] ("flag provided but not defined: -" +:+ name)
          | Some f =>
              match fl_value f with
              | BoolValue put =>
                  let value := default "true" value in
                  match ParseBool value with
                  | Some b => Parse args' (put b t)
                  | None =>
                      fail "invalid boolean value %q for -%s: %v" [value; name; "parse error"]
                        ("invalid boolean value " +:+ Quote value +:+ " for -" +:+ name +:+ ": parse error")
                  end
              | StringValue _ put =>
                  match value, args' with
                  | Some value, _ => Parse args' (put value t)
                  | None, value :: args' => Parse args' (put value t)
                  | None, [] => fail "flag needs an argument: -%s" [name] ("flag needs an argument: -" +:+ name)
                  end
              end
          end
  end.
End FlagSet.
