(* ===== verification/Service.v ===== *)
(** * A process of the service

    [cmd/builder-code-bot/main.go], [app.New], [App.Run], [App.Close] and
    [app.ConsolidateFunds]: what a process does from its start to its end, as
    one program over [AppSig].  The scheduler's loop is cut after [fuel]
    iterations; a process that is still running then is one that stops there.

    The records that are logged on the way are left out, and so are the
    arguments that are never nil here (the context, the output, the
    receivers); how the process logs is at the end. *)

From S2P Require Import Prelude FileSystem Store DecimalSpec Prog Crash Scheduler Model Report Clock Effects Payout Recovery Run Daily Consolidation Sweep Text Signing Exchange HttpClient Settings Keycipher Logging Flags App.

Section Service.
Context `{DecimalOps} `{Crypto} `{Ciphers} `{NetOps}.
Variable ParseRequestURI : string -> result (string * string).
Variable toml_decode : string -> FileConfig -> result FileConfig.

Notation P := (prog (Sig := AppSig)).

(** An operation with its response. *)
Definition app_op (o : AppOp) : P (AppResp o) := Call (Sig := AppSig) o (fun r => Ret r).

(* go: internal/app/app.go 32-37 Options *)
Record Options : Type := mkOptions {
  opt_ConfigPath : string;
  opt_RunOnStart : bool;
  opt_TestSES : bool;
  opt_ConsolidateOnly : bool
}.

(* go: internal/app/app.go 30-30 defaultConfigPath *)
Definition defaultConfigPath : string := "./config.toml".

(* go: internal/app/app.go 58-61 New *)
Definition config_path (path : string) : string :=
  let path := TrimSpace path in if string_is_empty path then defaultConfigPath else path.

(* go: internal/config/config.go 40-63 LoadFile *)
Definition LoadFile (path : string) : P (result FileConfig) :=
  info ← app_op (StatFile path);
  match ValidateFileMode path info with
  | Some err => mret (Err err)
  | None => data ← app_op (ReadFile path); mret (parse_file ParseRequestURI toml_decode path data)
  end.

(* go: internal/app/app.go 227-232 buildNotifier *)
Definition buildNotifier (cfg : FileConfig) : P (option error) :=
  if negb (nt_Enabled (fc_Notification cfg)) then mret None else app_op NewSES.

(* go: internal/app/secret_prompt.go 63-78 resolvePassword *)
Definition resolvePassword (configured : string) : P (result string) :=
  if negb (string_is_empty configured) then mret (Ok configured)
  else
    password ← app_op (ReadSecret "Enter private key decryption password: ");
    mret (match password with
          | Err err => Err (Wrapf "read private key decryption password: %w" [] err)
          | Ok password =>
              if string_is_empty password then Err (Errorf "private key decryption password is empty" []) else Ok password
          end).

(* go: internal/app/app.go 88-94 New *)
Definition startup_alert (body : string) : P unit := app_op (SendAlert "startup_signing" "Funding service startup failed" body).

(* go: internal/app/app.go 167-172 joinStartupCleanupError *)
Definition joinStartupCleanupError (startupErr : error) (operation : string) (cleanupErr : option error) : error :=
  match cleanupErr with
  | None => startupErr
  | Some err => Join startupErr (Wrapf "%s after startup failure: %w" [operation] err)
  end.

(** The memory of a new orchestrator. *)
(* go: internal/funding/orchestrator.go 115-126 NewOrchestrator *)
Definition new_memory : Mem := mkMem empty_run empty_report ∅ ∅.

(* go: internal/app/runtime.go 15-32 startRuntime *)
Definition startRuntime (cfg : Config) (runOnStart : bool) : P (option error * Mem) :=
  if runOnStart then
    r ← lift PayoutSide (Run cfg TriggerRunOnStart new_memory);
    mret (option_map (Wrapf "run funding on start: %w" []) (fst r), snd r)
  else
    r ← lift PayoutSide (Recover cfg new_memory);
    mret (option_map (Wrapf "recover current funding run: %w" []) (fst r), snd r).

(** With the process lock; an error is returned through the two deferred
    calls. *)
(* go: internal/app/app.go 118-149 New *)
Definition start_locked (opts : Options) (cfg : FileConfig) (signers : list (string * PrivateKey)) : P (result (Config * Mem)) :=
  r ← match assembleOrchestrator ParseRequestURI cfg signers with
      | Err err => mret (Err err)
      | Ok orchestrator =>
          started ← startRuntime orchestrator (opt_RunOnStart opts);
          mret (match fst started with Some err => Err err | None => Ok (orchestrator, snd started) end)
      end;
  match r with
  | Ok app => mret (Ok app)
  | Err err =>
      closed ← app_op CloseProcessLock;
      mret (Err (joinStartupCleanupError err "release process lock" closed))
  end.

(* go: internal/app/app.go 105-149 New *)
Definition start_with_db (opts : Options) (cfg : FileConfig) (signers : list (string * PrivateKey)) : P (result (Config * Mem)) :=
  r ← (locked ← app_op AcquireProcessLock;
       match locked with Some err => mret (Err err) | None => start_locked opts cfg signers end);
  match r with
  | Ok app => mret (Ok app)
  | Err err =>
      closed ← app_op CloseMySQL;
      mret (Err (joinStartupCleanupError err "close MySQL pool" closed))
  end.

(* go: internal/app/app.go 54-150 New *)
Definition app_New (opts : Options) : P (result (Config * Mem)) :=
  loaded ← LoadFile (config_path (opt_ConfigPath opts));
  match loaded with
  | Err err => mret (Err (Wrapf "load configuration: %w" [] err))
  | Ok cfg =>
      notifier ← buildNotifier cfg;
      match notifier with
      | Some err => mret (Err (Wrapf "initialize notifier: %w" [] err))
      | None =>
          password ← resolvePassword (sg_DecryptPassword (fc_Signing cfg));
          match password with
          | Err err => startup_alert "Private key password resolution failed." ;; mret (Err err)
          | Ok password =>
              match buildSigners cfg password with
              | Err err => startup_alert "Private key decryption or address validation failed." ;; mret (Err err)
              | Ok signers =>
                  opened ← app_op OpenMySQL;
                  match opened with
                  | Some err => mret (Err (Wrapf "initialize MySQL pool: %w" [] err))
                  | None => start_with_db opts cfg signers
                  end
              end
          end
      end
  end.

(** [errors.Join] of two errors that may be nil. *)
Definition join (a b : option error) : option error :=
  match a, b with
  | Some a, Some b => Some (Join a b)
  | Some a, None | None, Some a => Some a
  | None, None => None
  end.

(* go: internal/app/app.go 213-225 Close *)
Definition app_Close : P (option error) :=
  dbErr ← app_op CloseMySQL;
  lockErr ← app_op CloseProcessLock;
  mret (join dbErr lockErr).

(* go: internal/app/consolidation.go 21-70 ConsolidateFunds *)
Definition ConsolidateFunds (configPath : string) : P (option error) :=
  loaded ← LoadFile (config_path configPath);
  match loaded with
  | Err err => mret (Some (Wrapf "load configuration: %w" [] err))
  | Ok cfg =>
      notifier ← buildNotifier cfg;
      match notifier with
      | Some err => mret (Some (Wrapf "initialize notifier: %w" [] err))
      | None =>
          password ← resolvePassword (sg_DecryptPassword (fc_Signing cfg));
          match password with
          | Err err => mret (Some err)
          | Ok password =>
              match buildBuilderSigners (fc_Builders cfg) password [] with
              | Err err => mret (Some (Wrapf "initialize consolidation signers: %w" [] err))
              | Ok signers =>
                  locked ← app_op AcquireProcessLock;
                  match locked with
                  | Some err => mret (Some err)
                  | None =>
                      err ← match assembleConsolidator ParseRequestURI cfg signers with
                            | Err err => mret (Some err)
                            | Ok consolidator =>
                                r ← lift ConsolidationSide (Consolidator_Run consolidator new_memory); mret (fst r)
                            end;
                      closed ← app_op CloseProcessLock;
                      mret (join err closed)
                  end
              end
          end
      end
  end.

(* go: internal/app/ses_test_email.go 37-85 SendSESTestEmail *)
Definition SendSESTestEmail (configPath : string) : P (option error) :=
  loaded ← LoadFile (config_path configPath);
  match loaded with
  | Err err => mret (Some (Wrapf "load configuration: %w" [] err))
  | Ok cfg =>
      created ← app_op NewSES;
      match created with
      | Some err => mret (Some (Wrapf "initialize SES test notifier: %w" [] err))
      | None =>
          sent ← app_op SendTest;
          mret (option_map (Wrapf "send SES test email: %w" []) sent)
      end
  end.

(** The service after its start; [None] while the scheduler still runs. *)
(* go: cmd/builder-code-bot/main.go 54-64 runWithOutput *)
Definition run_service (fuel : nat) (cfg : Config) (mem : Mem) : P (option (option error)) :=
  ended ← inline cfg (App_Run fuel) mem;
  match ended with
  | inl _ => mret None
  | inr err =>
      closed ← app_Close;
      mret (Some (join (if is_canceled err then None else Some err) closed))
  end.

(** The process, once the flags were parsed. *)
(* go: cmd/builder-code-bot/main.go 47-64 runWithOutput *)
Definition process (fuel : nat) (opts : Options) : P (option (option error)) :=
  if opt_TestSES opts then err ← SendSESTestEmail (opt_ConfigPath opts); mret (Some err)
  else if opt_ConsolidateOnly opts then err ← ConsolidateFunds (opt_ConfigPath opts); mret (Some err)
  else
    service ← app_New opts;
    match service with
    | Err err => mret (Some (Some err))
    | Ok (cfg, mem) => run_service fuel cfg mem
    end.
End Service.

(** * The command line of the service

    [cmd/builder-code-bot/main.go]: the flags, their checks, the usage text
    and the process they start. *)

Section Command.
Context `{UnicodeTables}.

(** ** Flags *)

Definition put_config (v : string) (o : Options) : Options :=
  mkOptions v (opt_RunOnStart o) (opt_TestSES o) (opt_ConsolidateOnly o).
Definition put_run_on_start (v : bool) (o : Options) : Options :=
  mkOptions (opt_ConfigPath o) v (opt_TestSES o) (opt_ConsolidateOnly o).
Definition put_test_ses (v : bool) (o : Options) : Options :=
  mkOptions (opt_ConfigPath o) (opt_RunOnStart o) v (opt_ConsolidateOnly o).
Definition put_consolidate_only (v : bool) (o : Options) : Options :=
  mkOptions (opt_ConfigPath o) (opt_RunOnStart o) (opt_TestSES o) v.

(* go: cmd/builder-code-bot/main.go 86-98 newOptionFlagSet *)
Definition newOptionFlagSet (opts : Options) : list (Flag Options) :=
  [StringVar put_config "config" (opt_ConfigPath opts) "configuration file path";
   BoolVar put_run_on_start "run-on-start" "run the database payout phase during startup";
   BoolVar put_test_ses "test-ses" "send one SES test email and exit";
   BoolVar put_consolidate_only "consolidate-only" "claim and sweep builder funds, then exit"].

(* go: cmd/builder-code-bot/main.go 89-92 newOptionFlagSet *)
Definition Usage (opts : Options) : list string :=
  ("Usage: builder-code-bot [flags]" +:+ newline +:+ newline +:+ "Available flags:" +:+ newline) :: PrintDefaults (newOptionFlagSet opts).

Definition initial_options : Options := mkOptions "./config.toml" false false false.

(** The output of the flag set is discarded. *)
(* go: cmd/builder-code-bot/main.go 67-84 parseOptions *)
Definition parseOptions (args : list string) : result Options :=
  match snd (Parse (newOptionFlagSet initial_options) (Usage initial_options) args initial_options) with
  | Err err => Err err
  | Ok (opts, rest) =>
      if negb (bool_decide (rest = [])) then Err (Errorf "unexpected positional arguments: %v" rest)
      else if opt_TestSES opts && opt_RunOnStart opts then Err (Errorf "-test-ses and -run-on-start cannot be used together" [])
      else if opt_ConsolidateOnly opts && (opt_TestSES opts || opt_RunOnStart opts)
      then Err (Errorf "-consolidate-only cannot be used with -test-ses or -run-on-start" [])
      else Ok opts
  end.

(** ** The process *)

Context `{DecimalOps} `{Crypto} `{Ciphers} `{NetOps}.
Variable ParseRequestURI : string -> result (string * string).
Variable toml_decode : string -> FileConfig -> result FileConfig.

Notation P := (prog (Sig := AppSig)).

(** Every text of the usage is written; the first error is kept. *)
(* go: cmd/builder-code-bot/main.go 107-118 Write *)
Fixpoint write_tracked (texts : list string) (tracked : option error) : P (option error) :=
  match texts with
  | [] => mret tracked
  | text :: texts =>
      err ← app_op (WriteStdout text);
      write_tracked texts (match tracked with Some err => Some err | None => err end)
  end.
(* go: cmd/builder-code-bot/main.go 100-105 writeUsage *)
Definition writeUsage : P (option error) := write_tracked (Usage initial_options) None.

(* go: cmd/builder-code-bot/main.go 31-65 runWithOutput *)
Definition runWithOutput (fuel : nat) (args : list string) : P (option (option error)) :=
  match parseOptions args with
  | Err err =>
      if bool_decide (err = ErrHelp) then
        writeErr ← writeUsage;
        mret (Some (option_map (Wrapf "write usage: %w" []) writeErr))
      else mret (Some (Some err))
  | Ok opts => process ParseRequestURI toml_decode fuel opts
  end.
End Command.

(** ** What the process logs *)

Section Logs.
Context `{UnicodeTables} `{Rendering}.
Variable trim : string -> string.

(** The logger of the configuration, and the process-wide logger after it was
    installed. *)
(* go: internal/app/app.go 174-186 configureLogger *)
Definition configureLogger (stdout : output) (dflt : Logger) (cfg : FileConfig) : Logger * Logger :=
  let lg := fc_Logging cfg in
  let logger := Logging.New trim stdout (mkLogConfig (lg_Format lg) (lg_Level lg) None (lg_AddSource lg) "" (lg_Color lg)
                  ["decrypt_password"; "private_key"; "encrypted_private_key"; "signature"; "signed_request"]) in
  (logger, fst (SetDefault dflt logger)).

(** A task that failed; an alert has been sent by then. *)
(* go: internal/app/app.go 152-165 logScheduledFailure *)
Definition logScheduledFailure (dflt logger : Logger) (now : Z) (task : Scheduler.Task) (runErr : option error) (source : Source) : log_outcome :=
  let attrs event := [String_attr "event" event; String_attr "scheduled_task" (match task with Scheduler.TaskConsolidation => "consolidation" | Scheduler.TaskFunding => "funding" end);
                      Err_attr (option_map (fun err => Some (error_text err)) runErr)] in
  match task with
  | Scheduler.TaskConsolidation =>
      Warn_log trim dflt logger now "scheduled daily consolidation failed" source (attrs "scheduled_daily_consolidation_failed")
  | _ => Error_log trim dflt logger now "scheduled funding run failed" source (attrs "scheduled_funding_run_failed")
  end.

(** The end of the process: the record of its error, and its exit code. *)
(* go: cmd/builder-code-bot/main.go 17-25 main *)
Definition main_end (dflt : Logger) (now : Z) (source : Source) (err : option error) : log_outcome * Z :=
  match err with
  | None => (Unlogged, 0)
  | Some err =>
      (package_Error trim dflt now "builder code bot stopped with an error" source
         [String_attr "event" "service_failed"; Err_attr (Some (Some (error_text err)))], 1)
  end.
End Logs.
