(* ===== verification/Keytool.v ===== *)
(** * The key tool

    [cmd/keytool/main.go]: encrypting a private key for the configuration and
    decrypting it again.  The terminal, the standard streams and the random
    source are operations; the prompt is the terminal's.  [stdout] and
    [stderr] are never nil here. *)

From S2P Require Import Prelude FileSystem Store Prog Crash Json Text Signing Diagnostics Logging Flags Keycipher.

(** ** The terminal *)

(** [ReadString] is what [bufio.Reader.ReadString] read until the end of the
    line or of the input; [ReadPassword] is [term.ReadPassword]. *)
Inductive ToolOp : Type :=
| WriteOut (text : string)
| WriteErr (text : string)
| ReadString
| IsTerminal
| ReadPassword
| RandomBytes (n : nat).

Definition ToolResp (o : ToolOp) : Type :=
  match o with
  | WriteOut _ | WriteErr _ => option error
  | ReadString | ReadPassword | RandomBytes _ => result string
  | IsTerminal => bool
  end.

Definition ToolSig : EffSig := {| Op := ToolOp; Resp := ToolResp |}.
Notation T := (prog (Sig := ToolSig)).
Definition tool_op (o : ToolOp) : T (ToolResp o) := Call (Sig := ToolSig) o (fun r => Ret r).

(* go: cmd/keytool/main.go 52-61 ReadLine *)
Definition ReadLine (label : string) : T (result string) :=
  err ← tool_op (WriteErr label);
  match err with
  | Some err => mret (Err (Wrapf "write input prompt: %w" [] err))
  | None =>
      value ← tool_op ReadString;
      mret (match value with Err err => Err err | Ok value => Ok (TrimSpace value) end)
  end.

(* go: cmd/keytool/main.go 63-85 ReadSecret *)
Definition ReadSecret (label : string) : T (result string) :=
  terminal ← tool_op IsTerminal;
  if negb terminal then mret (Err (Errorf "secret input must be entered from a terminal" []))
  else
    err ← tool_op (WriteErr label);
    match err with
    | Some err => mret (Err (Wrapf "write secret prompt: %w" [] err))
    | None =>
        raw ← tool_op ReadPassword;
        newlineErr ← tool_op (WriteErr newline);
        mret (match raw, newlineErr with
              | Err readErr, None => Err (Wrapf "read secret from terminal: %w" [] readErr)
              | Err readErr, Some newlineErr =>
                  Err (Join (Wrapf "read secret from terminal: %w" [] readErr) (Wrapf "write secret prompt newline: %w" [] newlineErr))
              | Ok _, Some newlineErr => Err (Wrapf "write secret prompt newline: %w" [] newlineErr)
              | Ok raw, None => Ok raw
              end)
    end.

(** ** What is typed for an encrypted key *)

(** [strconv.Unquote]: a text in double quotes, in back quotes (without
    carriage returns), or one character in single quotes. *)
Definition between (quote : ascii) (s : string) : option string :=
  match s with
  | String c r =>
      let n := String.length r in
      if Ascii.eqb c quote && (0 <? n)%nat && String.eqb (drop_bytes (n - 1) r) (String quote "") then Some (take_bytes (n - 1) r) else None
  | EmptyString => None
  end.

Definition back_quote : ascii := "`".
Definition single_quote : ascii := "'".

Fixpoint without_returns (s : string) : string :=
  match s with EmptyString => "" | String c r => if byte_code c =? 13 then without_returns r else String c (without_returns r) end.

Definition unquote_single (s : string) : option string :=
  match s with
  | EmptyString => None
  | String c r =>
      if Ascii.eqb c single_quote || (byte_code c =? 10) then None
      else if Ascii.eqb c backslash then
        match r with
        | EmptyString => None
        | String e r =>
            if Ascii.eqb e single_quote then (if string_is_empty r then Some "'" else None)
            else if Ascii.eqb e quote_char then None
            else match unquote_escape e r with Some (bytes, "") => Some bytes | _ => None end
        end
      else match decode_rune s with Some (x, "") => Some (rune_value x) | _ => None end
  end.

Definition strconv_Unquote (s : string) : option string :=
  match between quote_char s with
  | Some content => Unquote content
  | None =>
      match between back_quote s with
      | Some content => if Contains content "`" then None else Some (without_returns content)
      | None => match between single_quote s with Some content => unquote_single content | None => None end
      end
  end.

(* go: cmd/keytool/main.go 228-243 normalizeEncryptedPrivateKeyInput *)
Definition normalizeEncryptedPrivateKeyInput (value : string) : result string :=
  let value := TrimSpace value in
  let? value := match Cut value "=" with
                | Some (before, after) =>
                    if negb (String.eqb (TrimSpace before) "encrypted_private_key")
                    then Err (Errorf "expected encrypted_private_key assignment" [])
                    else Ok (TrimSpace after)
                | None => Ok value
                end in
  let value := default value (strconv_Unquote value) in
  if string_is_empty value then Err (Errorf "encrypted_private_key is required" []) else Ok value.

Section Commands.
Context `{UnicodeTables} `{Crypto} `{Ciphers}.

(** ** Commands *)

(** What a flag set writes to its output; its errors are ignored. *)
Fixpoint write_all (texts : list string) : T unit :=
  match texts with [] => mret tt | text :: texts => tool_op (WriteErr text) ≫= fun _ => write_all texts end.

(** [fs.Parse] and the check that no positional argument is left. *)
Definition parse_flags {A : Type} (name positional : string) (flags : list (Flag A)) (args : list string) (a : A) : T (result A) :=
  let '(texts, r) := Parse flags (defaultUsage name flags) args a in
  write_all texts ≫= fun _ =>
  mret (match r with
        | Err err => Err err
        | Ok (a, rest) => if bool_decide (rest = []) then Ok a else Err (Errorf positional [])
        end).

Definition signer_line (address : string) : string := "signer_address = " +:+ address +:+ newline.
Definition encrypted_line (token : string) : string := "encrypted_private_key = " +:+ Quote token +:+ newline.
Definition private_line (key : string) : string := "private_key = " +:+ Quote key +:+ newline.

(** A text for the standard output, and what its failure is called. *)
Definition print_line (what text : string) : T (option error) :=
  err ← tool_op (WriteOut text);
  mret (option_map (Wrapf ("write " +:+ what +:+ ": %w") []) err).

(** The address of a key that was entered or decrypted. *)
Definition key_address (privateKey : string) : result string :=
  let? key := ParsePrivateKey privateKey in Address key.

(** The salt and the nonce are drawn from the random source. *)
(* go: cmd/keytool/main.go 119-165 runEncrypt *)
Definition runEncrypt (args : list string) : T (option error) :=
  parsed ← parse_flags "keytool encrypt" "encrypt does not accept positional arguments" [] args tt;
  match parsed with
  | Err err => mret (Some err)
  | Ok _ =>
      privateKey ← ReadSecret "Enter private key: ";
      match privateKey with
      | Err err => mret (Some (Wrapf "read private key: %w" [] err))
      | Ok privateKey =>
          password ← ReadSecret "Enter encryption password: ";
          match password with
          | Err err => mret (Some (Wrapf "read encryption password: %w" [] err))
          | Ok password =>
              confirm ← ReadSecret "Confirm encryption password: ";
              match confirm with
              | Err err => mret (Some (Wrapf "confirm encryption password: %w" [] err))
              | Ok confirm =>
                  if negb (String.eqb password confirm) then mret (Some (Errorf "encryption passwords do not match" []))
                  else
                    match key_address privateKey with
                    | Err err => mret (Some err)
                    | Ok address =>
                        salt ← tool_op (RandomBytes saltLen);
                        nonce ← tool_op (RandomBytes nonceLen);
                        match Encrypt privateKey password salt nonce with
                        | Err err => mret (Some err)
                        | Ok encrypted =>
                            err ← print_line "signer address" (signer_line address);
                            match err with
                            | Some err => mret (Some err)
                            | None => print_line "encrypted private key" (encrypted_line encrypted)
                            end
                        end
                    end
              end
          end
      end
  end.

Definition decrypt_flags : list (Flag bool) :=
  [BoolVar (fun v _ => v) "show-private-key" "print the decrypted private key"].

(* go: cmd/keytool/main.go 167-213 runDecrypt *)
Definition runDecrypt (args : list string) : T (option error) :=
  parsed ← parse_flags (A := bool) "keytool decrypt" "decrypt does not accept positional arguments" decrypt_flags args false;
  match parsed with
  | Err err => mret (Some err)
  | Ok showPrivateKey =>
      encrypted ← ReadLine "Enter encrypted_private_key: ";
      match encrypted with
      | Err err => mret (Some (Wrapf "read encrypted private key: %w" [] err))
      | Ok encrypted =>
          match normalizeEncryptedPrivateKeyInput encrypted with
          | Err err => mret (Some err)
          | Ok encrypted =>
              password ← ReadSecret "Enter encryption password: ";
              match password with
              | Err err => mret (Some (Wrapf "read encryption password: %w" [] err))
              | Ok password =>
                  match Decrypt encrypted password with
                  | Err err => mret (Some err)
                  | Ok privateKey =>
                      match key_address privateKey with
                      | Err err => mret (Some err)
                      | Ok address =>
                          err ← print_line "signer address" (signer_line address);
                          match err with
                          | Some err => mret (Some err)
                          | None =>
                              if (showPrivateKey : bool) then print_line "private key" (private_line privateKey) else mret None
                          end
                      end
                  end
              end
          end
      end
  end.

Definition usage_lines : list string :=
  map (fun l : string => l +:+ newline) ["usage:"%string; "  keytool encrypt"; "  keytool decrypt [-show-private-key]"].

(** The stream a text is written to. *)
Definition write_to (out : bool) (text : string) : T (option error) :=
  if out then tool_op (WriteOut text) else tool_op (WriteErr text).

Fixpoint write_lines (out : bool) (lines : list string) : T (option error) :=
  match lines with
  | [] => mret None
  | line :: lines =>
      err ← write_to out line;
      match err with Some err => mret (Some err) | None => write_lines out lines end
  end.

(* go: cmd/keytool/main.go 215-226 printUsage *)
Definition printUsage (out : bool) : T (option error) := write_lines out usage_lines.

(* go: cmd/keytool/main.go 87-117 run *)
Definition run (args : list string) : T (option error) :=
  match args with
  | [] =>
      err ← printUsage false;
      mret (Some (match err with Some err => Wrapf "write usage: %w" [] err | None => ErrHelp end))
  | command :: args =>
      if String.eqb command "encrypt" then runEncrypt args
      else if String.eqb command "decrypt" then runDecrypt args
      else if existsb (String.eqb command) ["-h"; "--help"; "help"] then printUsage true
      else mret (Some (Errorf "unknown command %q" [command]))
  end.
End Commands.

(** The end of the process: what is written to the standard error, and its
    exit code. *)
(* go: cmd/keytool/main.go 21-28 main *)
Definition keytool_end (err : option error) : list string * Z :=
  match err with
  | None => ([], 0)
  | Some err => (if bool_decide (err = ErrHelp) then [] else ["keytool: " +:+ error_text err +:+ bytes_of [10]], 1)
  end.
