(* ===== verification/KeytoolFacts.v ===== *)
(** * What the key tool guarantees

    The line [encrypt] prints can be typed at the prompt of [decrypt]: with
    the same password it shows the address of the key, and the key itself if
    it is asked for ([keytool_roundtrip]); the standard output never has the
    key otherwise ([key_is_shown_on_demand]). *)

From S2P Require Import Prelude Prog Crash Json Text Signing SigningFacts Diagnostics Logging Flags Keycipher Keytool.

(** ** Quoting what needs no escape *)

(** Printable ASCII that is neither a quote nor a backslash. *)
Definition bare (c : ascii) : bool := in_range 32 126 c && negb (byte_code c =? 34) && negb (byte_code c =? 92).

Lemma all_in_impl (f g : ascii -> bool) s : (forall c, f c = true -> g c = true) -> all_in f s = true -> all_in g s = true.
Proof. intros Hfg. induction s as [|c s IH]; [done|]. cbn [all_in]. intros [Hc Hs]%andb_true_iff. rewrite (Hfg _ Hc). by apply IH. Qed.

Lemma by_bytes (f : ascii -> bool) : (forallb (fun n => f (ascii_of_nat n)) (seq 0 256)) = true -> forall c, f c = true.
Proof.
  intros Hf c. rewrite <- (ascii_nat_embedding c). rewrite forallb_forall in Hf. apply Hf, in_seq.
  pose proof (nat_ascii_bounded c). lia.
Qed.

Lemma alphabet_bare c : in_alphabet c = true -> bare c = true.
Proof.
  intros Hc. pose proof (by_bytes (fun c => implb (in_alphabet c) (bare c)) ltac:(vm_compute; reflexivity) c) as H. cbn beta in H.
  by rewrite Hc in H.
Qed.

Lemma bare_decode c s : bare c = true -> decode_rune (String c s) = Some (Rune (String c ""), s).
Proof.
  intros Hc. cbn [decode_rune]. cbv zeta. assert (in_range 0 127 c = true) as ->; [|done].
  unfold bare, in_range in *. lia.
Qed.

Section Quoting.
Context `{UnicodeTables}.

Lemma quote_bare c : bare c = true -> quote_rune (Rune (String c "")) = String c "".
Proof.
  intros Hc. unfold bare in Hc. unfold quote_rune. cbv zeta. unfold code_point. cbn [String.list_ascii_of_string map].
  assert ((byte_code c =? 34) || (byte_code c =? 92) = false) as -> by lia. unfold IsPrint.
  by assert (in_range 32 126 c = true) as -> by (destruct (in_range 32 126 c); done).
Qed.

Lemma Quote_bare s : all_in bare s = true -> Quote s = dquote +:+ s +:+ dquote.
Proof.
  intros Hs. unfold Quote. f_equal. f_equal. induction s as [|c s IH]; [done|]. cbn [all_in] in Hs.
  apply andb_true_iff in Hs as [Hc Hs]. rewrite (runes_decode _ _ _ (bare_decode c s Hc)). cbn [fold_right].
  by rewrite IH, quote_bare.
Qed.
End Quoting.

Lemma unquote_bare fuel s : (String.length s < fuel)%nat -> all_in bare s = true -> unquote_loop fuel s = Some s.
Proof.
  revert s. induction fuel as [|fuel IH]; intros s Hf Hs; [lia|]. destruct s as [|c s]; [done|]. cbn [unquote_loop].
  cbn [all_in] in Hs. apply andb_true_iff in Hs as [Hc Hs].
  assert (Ascii.eqb c quote_char = false) as -> by (destruct (Ascii.eqb_spec c quote_char) as [->|]; [discriminate Hc|done]).
  assert (Ascii.eqb c backslash = false) as -> by (destruct (Ascii.eqb_spec c backslash) as [->|]; [discriminate Hc|done]).
  assert ((byte_code c =? 10) = false) as -> by (unfold bare, in_range in Hc; lia). cbn [orb].
  rewrite bare_decode by done. rewrite IH by (cbn [String.length] in Hf; try lia; done). done.
Qed.

Lemma between_quotes quote s : between quote (String quote "" +:+ s +:+ String quote "") = Some s.
Proof.
  cbn [String.append between]. cbv zeta. rewrite Ascii.eqb_refl, string_length_app. cbn [String.length andb].
  assert ((0 <? String.length s + 1)%nat = true) as -> by (apply Nat.ltb_lt; lia).
  assert (forall q, take_bytes (String.length s) (s +:+ q) = s /\ drop_bytes (String.length s) (s +:+ q) = q) as Hs.
  { intros q. split; [apply substring_0_app|]. induction s as [|c s IH]; [by destruct q|]. exact IH. }
  rewrite Nat.add_sub. destruct (Hs (String quote "")) as [-> ->]. by rewrite String.eqb_refl.
Qed.

Lemma Unquote_Quote `{UnicodeTables} s : all_in bare s = true -> strconv_Unquote (Quote s) = Some s.
Proof.
  intros Hs. unfold strconv_Unquote. rewrite Quote_bare by done. change dquote with (String quote_char "").
  rewrite between_quotes. unfold Unquote. apply unquote_bare; [lia|done].
Qed.

(** ** The line of the configuration *)

Lemma alphabet_no_equals s : all_in in_alphabet s = true -> Cut s "=" = None.
Proof.
  induction s as [|c s IH]; [done|]. cbn [all_in Cut]. intros [Hc Hs]%andb_true_iff. rewrite IH by done.
  destruct (Ascii.eqb_spec c "=") as [->|]; [discriminate Hc|done].
Qed.

(** A quoted text with no white space at its ends, and a line break after
    it. *)
Lemma TrimSpace_line a s :
  a = "encrypted_private_key = " \/ a = "" -> TrimSpace (a +:+ dquote +:+ s +:+ dquote +:+ newline) = a +:+ dquote +:+ s +:+ dquote.
Proof.
  intros Ha. unfold TrimSpace.
  assert (forall x, TrimLeftSpace (a +:+ dquote +:+ x) = a +:+ dquote +:+ x) as Hl.
  { intros x. unfold TrimLeftSpace. apply trim_start_fix. by destruct Ha as [-> | ->]. }
  rewrite !Hl. unfold TrimRightSpace.
  assert (String.rev (a +:+ dquote +:+ s +:+ dquote +:+ newline) = newline +:+ String.rev (a +:+ dquote +:+ s +:+ dquote)) as ->.
  { rewrite <- !string_app_assoc. by rewrite string_rev_app. }
  assert (String.rev (a +:+ dquote +:+ s +:+ dquote) = dquote +:+ String.rev (a +:+ dquote +:+ s)) as Hr.
  { rewrite <- !string_app_assoc. by rewrite string_rev_app. }
  assert (exists n, String.length (a +:+ dquote +:+ s +:+ dquote +:+ newline) = S n) as [n ->].
  { destruct Ha as [-> | ->]; by eexists. }
  rewrite Hr. cbn [trim_start]. 
  assert (forall r, first_strip (map String.rev space_runes) (newline +:+ dquote +:+ r) = Some (dquote +:+ r)) as -> by done.
  rewrite trim_start_fix by done. by rewrite <- Hr, string_rev_involutive.
Qed.

Lemma TrimSpace_quoted s : TrimSpace (dquote +:+ s +:+ dquote) = dquote +:+ s +:+ dquote.
Proof.
  apply TrimSpace_fix; [done|]. rewrite <- string_app_assoc, string_rev_app. done.
Qed.

Lemma normalize_line `{UnicodeTables} token :
  all_in in_alphabet token = true -> token <> "" ->
  normalizeEncryptedPrivateKeyInput (TrimSpace (encrypted_line token)) = Ok token.
Proof.
  intros Ht Hne. assert (all_in bare token = true) as Hb by (by eapply all_in_impl; [apply alphabet_bare|]).
  unfold encrypted_line. rewrite Quote_bare by done.
  assert ("encrypted_private_key = " +:+ (dquote +:+ token +:+ dquote) +:+ newline =
          "encrypted_private_key = " +:+ dquote +:+ token +:+ dquote +:+ newline) as ->.
  { by rewrite !string_app_assoc. }
  unfold normalizeEncryptedPrivateKeyInput. rewrite TrimSpace_idemp, TrimSpace_line by (by left). cbv zeta.
  assert (forall r, Cut ("encrypted_private_key = " +:+ r) "=" = Some ("encrypted_private_key ", " " +:+ r)) as -> by done.
  assert (TrimSpace "encrypted_private_key " = "encrypted_private_key") as -> by (vm_compute; reflexivity).
  rewrite String.eqb_refl. cbn [negb rbind].
  assert (TrimSpace (" " +:+ dquote +:+ token +:+ dquote) = dquote +:+ token +:+ dquote) as ->.
  { pose proof (TrimSpace_quoted token) as Hq. unfold TrimSpace, TrimLeftSpace in *. cbn [String.append String.length trim_start].
    assert (forall r, first_strip space_runes (String " " (dquote +:+ r)) = Some (dquote +:+ r)) as Hf by done.
    change (String " " (dquote +:+ token +:+ dquote)) with (" " +:+ dquote +:+ token +:+ dquote).
    cbn [String.append]. rewrite (Hf (token +:+ dquote)). rewrite trim_start_fix by done. 
    rewrite trim_start_fix in Hq by done. exact Hq. }
  rewrite <- (Quote_bare token) by done. rewrite Unquote_Quote by done. cbn [default]. by destruct token.
Qed.

(** ** Sessions *)

(** A terminal at which some secrets and lines are typed, a random source,
    and what was printed; nothing fails. *)
Record session : Type := mkSession { se_secrets : list string; se_lines : list string; se_random : list string; se_out : list string }.

Definition answer (s : session) (o : ToolOp) : option (ToolResp o * session) :=
  let '(mkSession secrets lines random out) := s in
  match o with
  | WriteOut text => Some (None, mkSession secrets lines random (out ++ [text]))
  | WriteErr _ => Some (None, s)
  | IsTerminal => Some (true, s)
  | ReadPassword => match secrets with x :: secrets => Some (Ok x, mkSession secrets lines random out) | [] => None end
  | ReadString => match lines with x :: lines => Some (Ok x, mkSession secrets lines random out) | [] => None end
  | RandomBytes _ => match random with x :: random => Some (Ok x, mkSession secrets lines random out) | [] => None end
  end.

Notation session_of := (exec (Sig := ToolSig) answer).

Section Sessions.
Context `{UnicodeTables} `{Crypto} `{Ciphers} `{!CipherLaws}.

Lemma encrypt_session pk pw salt nonce :
  session_of (mkSession [pk; pw; pw] [] [salt; nonce] []) (run ["encrypt"]) =
    match key_address pk with
    | Err err => (Ret (Some err), mkSession [] [] [salt; nonce] [])
    | Ok address =>
        match Encrypt pk pw (Ok salt) (Ok nonce) with
        | Err err => (Ret (Some err), mkSession [] [] [] [])
        | Ok token => (Ret None, mkSession [] [] [] [signer_line address; encrypted_line token])
        end
    end.
Proof.
  unfold run. change (String.eqb "encrypt" "encrypt") with true. cbv iota. unfold runEncrypt.
  change (parse_flags _ _ _ [] tt) with (Ret (Sig := ToolSig) (Ok tt)). cbn [mbind prog_mbind prog_bind].
  cbn -[key_address Encrypt signer_line encrypted_line String.eqb]. rewrite String.eqb_refl. cbn [negb].
  destruct (key_address pk) as [address|e]; [|reflexivity].
  cbn -[Encrypt signer_line encrypted_line]. by destruct (Encrypt pk pw (Ok salt) (Ok nonce)).
Qed.

Lemma decrypt_session show pw line :
  session_of (mkSession [pw] [line] [] []) (run ("decrypt" :: if show : bool then ["-show-private-key"] else [])) =
    match normalizeEncryptedPrivateKeyInput (TrimSpace line) with
    | Err err => (Ret (Some err), mkSession [pw] [] [] [])
    | Ok token =>
        match (let? pk := Decrypt token pw in let? address := key_address pk in Ok (pk, address)) with
        | Err err => (Ret (Some err), mkSession [] [] [] [])
        | Ok (pk, address) => (Ret None, mkSession [] [] [] (signer_line address :: if show then [private_line pk] else []))
        end
    end.
Proof.
  unfold run. change (String.eqb "decrypt" "encrypt") with false. change (String.eqb "decrypt" "decrypt") with true. cbv iota.
  unfold runDecrypt.
  assert (parse_flags (A := bool) "keytool decrypt" "decrypt does not accept positional arguments" decrypt_flags
            (if show then ["-show-private-key"] else []) false = Ret (Sig := ToolSig) (Ok show)) as -> by (by destruct show).
  cbn [mbind prog_mbind prog_bind].
  cbn -[normalizeEncryptedPrivateKeyInput TrimSpace key_address Decrypt signer_line private_line].
  destruct (normalizeEncryptedPrivateKeyInput (TrimSpace line)) as [token|e]; [|reflexivity].
  cbn -[key_address Decrypt signer_line private_line].
  destruct (Decrypt token pw) as [pk|e]; [|reflexivity]. cbn -[key_address signer_line private_line].
  destruct (key_address pk) as [address|e]; [|reflexivity]. by destruct show.
Qed.

Lemma hex_in_alphabet s l : hex_decode s = Some l -> all_in in_alphabet s = true.
Proof.
  revert l. induction s as [s IH] using (induction_ltof1 _ String.length). intros l. unfold ltof in IH.
  destruct s as [|a [|b s]]; [done|done|]. cbn [hex_decode all_in].
  assert (forall c x, hex_value c = Some x -> in_alphabet c = true) as Hx.
  { intros c x Hc. pose proof (by_bytes (fun c => implb (match hex_value c with Some _ => true | None => false end) (in_alphabet c)) ltac:(vm_compute; reflexivity) c) as Hb.
    cbn beta in Hb. by rewrite Hc in Hb. }
  destruct (hex_value a) eqn:Ea; [|done]. destruct (hex_value b) eqn:Eb; [|done].
  destruct (hex_decode s) eqn:Es; [|done]. intros _. rewrite (Hx _ _ Ea), (Hx _ _ Eb). eapply IH; [|done]. cbn. lia.
Qed.

(** A key that is accepted has no white space around it. *)
Lemma key_trimmed pk address : key_address pk = Ok address -> TrimSpace pk = pk.
Proof.
  unfold key_address, ParsePrivateKey. destruct (negb _); [done|]. unfold DecodeString.
  destruct (hex_decode (TrimPrefix pk "0x")) as [l|] eqn:E; [|done]. intros _. apply hex_in_alphabet in E.
  apply alphabet_trimmed. unfold TrimPrefix in E. destruct (strip "0x" pk) as [r|] eqn:Es; [|done].
  apply strip_spec in Es as ->. by rewrite all_in_app, E.
Qed.

Lemma encrypted_token pk pw salt nonce token :
  String.length salt = saltLen -> Encrypt pk pw (Ok salt) (Ok nonce) = Ok token -> all_in in_alphabet token = true /\ token <> "".
Proof.
  intros Hs. unfold Encrypt. destruct (string_is_empty _); [done|]. destruct (string_is_empty _); [done|].
  destruct (deriveKey pw salt) as [key|]; [|done]. cbn [rbind]. destruct (new_gcm key); [done|]. intros E.
  assert (token = base64_encode (salt +:+ nonce +:+ gcm_Seal key nonce (TrimSpace pk))) as -> by congruence.
  split; [apply encode_alphabet|]. destruct salt as [|a [|b [|c salt]]]; try discriminate Hs. by cbn [String.append base64_encode].
Qed.

(** C32: A key encrypted at a terminal can be decrypted at it.  Whenever [encrypt] succeeds - the key typed is a key and
    the password was typed twice - it prints the address of the key and one line for the configuration; when this line,
    as it was printed and with its line break, is typed at the prompt of [decrypt] with the same password, [decrypt]
    succeeds and prints the same address, and with [-show-private-key] the key that was encrypted, otherwise nothing
    more. *)
Theorem keytool_roundtrip pk pw salt nonce s :
  String.length salt = saltLen -> String.length nonce = nonceLen ->
  session_of (mkSession [pk; pw; pw] [] [salt; nonce] []) (run ["encrypt"]) = (Ret None, s) ->
  exists address line,
    key_address pk = Ok address /\ se_out s = [signer_line address; line] /\
    forall show : bool,
      session_of (mkSession [pw] [line] [] []) (run ("decrypt" :: if show then ["-show-private-key"] else [])) =
        (Ret None, mkSession [] [] [] (signer_line address :: if show then [private_line pk] else [])).
Proof.
  intros Hs Hn. rewrite encrypt_session. destruct (key_address pk) as [address|e] eqn:Ea; [|done].
  destruct (Encrypt pk pw (Ok salt) (Ok nonce)) as [token|e] eqn:Ee; [|done]. intros E.
  assert (s = mkSession [] [] [] [signer_line address; encrypted_line token]) as -> by congruence.
  exists address, (encrypted_line token). split_and!; [done|done|]. intros show. rewrite decrypt_session.
  destruct (encrypted_token _ _ _ _ _ Hs Ee) as [Ht Hne]. rewrite normalize_line by done.
  assert (Decrypt token pw = Ok pk) as ->.
  { rewrite (decrypt_encrypted pk pw salt nonce token Hs Hn Ee). by rewrite (key_trimmed pk address Ea). }
  cbn [rbind]. by rewrite Ea.
Qed.
End Sessions.

(** ** What is written *)

Section Written.
Context `{UnicodeTables} `{Crypto} `{Ciphers}.

(** The texts that depend on the command line only. *)
Definition static_texts (args : list string) : list string :=
  usage_lines ++ [newline; "Enter private key: "; "Enter encryption password: "; "Confirm encryption password: "; "Enter encrypted_private_key: "] ++
  fst (Parse ([] : list (Flag unit)) (defaultUsage "keytool encrypt" ([] : list (Flag unit))) (tail args) tt) ++
  fst (Parse decrypt_flags (defaultUsage "keytool decrypt" decrypt_flags) (tail args) false).

(** [decrypt] with [-show-private-key]. *)
Definition asks_for_key (args : list string) : Prop :=
  exists rest, args = "decrypt" :: rest /\ snd (Parse decrypt_flags (defaultUsage "keytool decrypt" decrypt_flags) rest false) = Ok (true, []).

Definition permitted (args : list string) (o : ToolOp) : Prop :=
  match o with
  | WriteErr text => text ∈ static_texts args
  | WriteOut text =>
      text ∈ usage_lines \/ (exists pk address, key_address pk = Ok address /\ text = signer_line address) \/
      (exists pk pw salt nonce token, Encrypt pk pw salt nonce = Ok token /\ text = encrypted_line token) \/
      (asks_for_key args /\ exists pk, text = private_line pk)
  | _ => True
  end.

Notation ops args m := (ops_in (Sig := ToolSig) (permitted args) m).

Lemma tool_then {A B : Type} args (m : prog (Sig := ToolSig) A) (f : A -> prog (Sig := ToolSig) B) :
  ops args m -> (forall a, ops args (f a)) -> ops args (m ≫= f).
Proof. apply ops_in_bind. Qed.

Lemma tool_once args (o : ToolOp) : permitted args o -> ops args (tool_op o).
Proof. intros Ho. by split. Qed.

Lemma ops_write_all args texts : texts ⊆ static_texts args -> ops args (write_all texts).
Proof.
  induction texts as [|text texts IH]; intros Hs; [done|]. apply tool_then; [apply tool_once; apply Hs; left|].
  intros _. apply IH. intros x Hx. apply Hs. by right.
Qed.

Lemma ops_write_lines args out lines : lines ⊆ usage_lines -> ops args (write_lines out lines).
Proof.
  induction lines as [|line lines IH]; intros Hs; [done|]. cbn [write_lines]. apply tool_then.
  - assert (line ∈ usage_lines) as Hl by (apply Hs; left). destruct out; apply tool_once; [by left|]. unfold permitted, static_texts. set_solver.
  - intros [e|]; [done|]. apply IH. intros x Hx. apply Hs. by right.
Qed.

Lemma ops_ReadSecret args label : label ∈ static_texts args -> ops args (ReadSecret label).
Proof.
  intros Hl. unfold ReadSecret. apply tool_then; [by apply tool_once|]. intros [|]; [|done]. cbn [negb].
  apply tool_then; [by apply tool_once|]. intros [e|]; [done|]. apply tool_then; [by apply tool_once|]. intros raw.
  apply tool_then; [|done]. apply tool_once. unfold permitted, static_texts. set_solver.
Qed.

Lemma ops_print args what text : permitted args (WriteOut text) -> ops args (print_line what text).
Proof. intros Ht. apply tool_then; [by apply tool_once|done]. Qed.

Lemma is_prompt args label :
  label ∈ ["Enter private key: "; "Enter encryption password: "; "Confirm encryption password: "; "Enter encrypted_private_key: "] ->
  label ∈ static_texts args.
Proof. intros Hl. unfold static_texts. rewrite !elem_of_app. right; left. by right. Qed.

#[local] Ltac prompt := apply is_prompt; repeat first [left; reflexivity | right].

Lemma ops_runEncrypt rest : ops ("encrypt" :: rest) (runEncrypt rest).
Proof.
  unfold runEncrypt. apply tool_then.
  { unfold parse_flags. destruct (Parse [] _ rest tt) as [texts r] eqn:Ep. apply tool_then; [|done]. apply ops_write_all.
    unfold static_texts. cbn [tail]. rewrite Ep. cbn [fst]. set_solver. }
  intros [[]|e]; [|done].
  apply tool_then; [apply ops_ReadSecret; prompt|]. intros [pk|e]; [|done].
  apply tool_then; [apply ops_ReadSecret; prompt|]. intros [pw|e]; [|done].
  apply tool_then; [apply ops_ReadSecret; prompt|]. intros [confirm|e]; [|done].
  destruct (negb _); [done|]. destruct (key_address pk) as [address|e] eqn:Ea; [|done].
  apply tool_then; [by apply tool_once|]. intros salt. apply tool_then; [by apply tool_once|]. intros nonce.
  destruct (Encrypt pk pw salt nonce) as [token|e] eqn:Ee; [|done].
  apply tool_then; [apply ops_print; right; left; by eexists _, _|]. intros [e|]; [done|].
  apply ops_print. right; right; left. by eexists _, _, _, _, _.
Qed.

Lemma ops_parsed {A B : Type} args texts (x : A) (f : A -> prog (Sig := ToolSig) B) :
  texts ⊆ static_texts args -> ops args (f x) -> ops args ((write_all texts ≫= fun _ => mret x) ≫= f).
Proof.
  intros Hs Hf. induction texts as [|text texts IH]; [exact Hf|]. split; [apply Hs; left|]. intros r.
  apply IH. intros y Hy. apply Hs. by right.
Qed.

Lemma ops_runDecrypt rest : ops ("decrypt" :: rest) (runDecrypt rest).
Proof.
  unfold runDecrypt. unfold parse_flags. destruct (Parse decrypt_flags _ rest false) as [texts r] eqn:Ep.
  apply ops_parsed. { unfold static_texts. cbn [tail]. rewrite Ep. cbn [fst]. set_solver. }
  destruct r as [[show left]|e]; [|done]. case_bool_decide as Hl; [|done]. subst left.
  apply tool_then.
  { unfold ReadLine. apply tool_then; [apply tool_once; prompt|]. intros [e|]; [done|]. by apply tool_then; [apply tool_once|]. }
  intros [line|e]; [|done]. destruct (normalizeEncryptedPrivateKeyInput line) as [token|e]; [|done].
  apply tool_then; [apply ops_ReadSecret; prompt|]. intros [pw|e]; [|done].
  destruct (Decrypt token pw) as [pk|e]; [|done]. destruct (key_address pk) as [address|e] eqn:Ea; [|done].
  apply tool_then; [apply ops_print; right; left; by eexists _, _|]. intros [e|]; [done|].
  destruct show; [|done]. apply ops_print. right; right; right. split; [|by eexists]. exists rest. by rewrite Ep.
Qed.

(** C33: Whatever the command line, and however the terminal and the streams answer, the tool writes to its standard
    output only usage lines, the address of a valid key, a token [Encrypt] made, and - when the command is [decrypt]
    with [-show-private-key], and only then - a private key; to the standard error it writes only prompts and texts
    that depend on the command line alone, never on what was typed. *)
Theorem key_is_shown_on_demand args : ops args (run args).
Proof.
  unfold run. destruct args as [|command rest].
  - apply tool_then; [by apply ops_write_lines|done].
  - destruct (String.eqb_spec command "encrypt") as [->|]; [apply ops_runEncrypt|].
    destruct (String.eqb_spec command "decrypt") as [->|]; [apply ops_runDecrypt|].
    destruct (existsb _ _); [by apply ops_write_lines|done].
Qed.
End Written.

(** ** A concrete session *)

Section Witness.
#[local] Existing Instances ascii_tables SampleCrypto.sample_crypto toy_ciphers toy_laws.

Definition typed_key : string := "0x0000000000000000000000000000000000000000000000000000000000000001".

Lemma keytool_roundtrip_witness : exists line address,
  session_of (mkSession ["hunter2"] [line] [] []) (run ["decrypt"; "-show-private-key"]) =
    (Ret None, mkSession [] [] [] [signer_line address; private_line typed_key]).
Proof.
  destruct (keytool_roundtrip typed_key "hunter2" sample_salt sample_nonce
    (snd (session_of (mkSession [typed_key; "hunter2"; "hunter2"] [] [sample_salt; sample_nonce] []) (run ["encrypt"])))
    ltac:(vm_compute; reflexivity) ltac:(vm_compute; reflexivity) ltac:(vm_compute; reflexivity))
    as (address & line & _ & _ & Hd).
  exists line, address. exact (Hd true).
Defined.
End Witness.
