(* ===== verification/AppTheorems.v ===== *)
(** * What the application is built from

    A validated configuration names distinct accounts and is accepted by the
    constructors of the funding package ([validated_accounts]); the attempt a
    scheduled run is told is the number of failures in a row plus one
    ([attempts_match_failures]). *)

From S2P Require Import Prelude DecimalSpec Prog Crash Clock Scheduler SchedulerTheorems Model Report Effects Payout Recovery Run Daily Consolidation Sweep Text Signing Exchange HttpClient Settings Keycipher App.

(** ** Attempts *)

(** What an observer of the scheduler knows, over the closures of the
    application: the funding entry counts as the scheduler's callback. *)
Definition runner_observe (w : observer) (o : RunnerOp) : RunnerResp o -> observer :=
  match o with
  | WaitO o => observe w o
  | RunScheduledO _ _ _ => fun r => observe w RunFunding r
  | RunDailyConsolidationO => fun r => observe w Consolidate r
  end.

(** A scheduled run is told the trigger, the failures in a row plus one, and
    the largest number of attempts. *)
Definition runner_may (w : observer) (o : RunnerOp) : Prop :=
  match o with
  | WaitO o => may_perform w o
  | RunScheduledO trigger attempt maxAttempts =>
      trigger = TriggerUTC /\ maxAttempts = 6 /\ attempt = ob_failures w + 1 /\ 1 <= attempt <= 6 /\ may_perform w RunFunding
  | RunDailyConsolidationO => may_perform w Consolidate
  end.

Definition runner_discipline : protocol (Sig := RunnerSig) observer :=
  @Build_protocol RunnerSig _ runner_may (fun w o r w' => w' = runner_observe w o r).

(** What the counter is while another run may follow. *)
Definition counted (w : observer) (attempt : Z) : Prop :=
  (ob_failures w = 0 -> attempt = 1) /\
  (1 <= ob_failures w <= 5 -> (exists e, ob_last w = Some e /\ isFatal e = false) -> attempt = ob_failures w + 1).

Lemma IsFatal_isFatal e : IsFatal e = isFatal e.
Proof. induction e; cbn; congruence. Qed.

Lemma counted_next w attempt r : may_perform w RunFunding -> counted w attempt ->
  counted (observe w RunFunding r) (next_attempt attempt r).
Proof.
  intros [_ Hmay] [H0 H1]. destruct r as [err|]; cbn [observe next_attempt]; [|split; cbn; [done|lia]].
  assert (attempt = ob_failures w + 1 /\ 0 <= ob_failures w <= 5) as [-> Hf].
  { destruct Hmay as [[Hz _]|(Hr & _ & He)]; [rewrite Hz; split; [by apply H0|lia]|split; [by apply H1|lia]]. }
  split; cbn; [lia|]. intros Hle (e & [= <-] & Hn). rewrite IsFatal_isFatal, Hn. cbn.
  unfold maxAttempts, MaxNonfatalRetries. destruct (Z.ltb_spec (ob_failures w + 1) (5 + 1)); lia.
Qed.

(** Operations that are not funding runs keep the failures. *)
Lemma counted_keeps w o r attempt : o <> RunFunding -> counted w attempt -> counted (observe w o r) attempt.
Proof. intros Ho Hc. destruct o; try done; cbn; try exact Hc; by destruct r. Qed.

Lemma closures_spec {A : Type} (m : prog (Sig := SchedSig) A) Q : forall w attempt,
  counted w attempt -> wp discipline w m Q -> wp runner_discipline w (closures m attempt) Q.
Proof.
  induction m as [a|o k IH]; intros w attempt Hc; [done|]. intros [Hmay Hk].
  assert (forall r, wp discipline (observe w o r) (k r) Q) as Hk' by (intros r; by apply Hk).
  destruct o; cbn [closures]; try (split; [exact Hmay|]; intros r w' ->; cbn [runner_observe]; apply IH; [|apply Hk'];
    by apply counted_keeps).
  split.
  - cbn [allowed runner_discipline runner_may]. destruct Hmay as [Hfired Hmay]. destruct Hc as [H0 H1].
    assert (attempt = ob_failures w + 1 /\ 0 <= ob_failures w <= 5) as [-> Hf].
    { destruct Hmay as [[Hz _]|(Hr & _ & He)]; [rewrite Hz; split; [by apply H0|lia]|split; [by apply H1|lia]]. }
    split_and!; try done; try lia.
  - intros r w' ->. apply IH; [|apply Hk']. by apply counted_next.
Qed.

(** The application tells a scheduled funding run exactly how many
    attempts came before it: whatever the clock, the tasks and the context do,
    every run it starts is one the scheduler's discipline permits, triggered
    by the clock, with the number of consecutive failures plus one as its
    attempt, of six. *)
Theorem attempts_match_failures fuel tr w trigger attempt maxAttempts k :
  partial runner_discipline observer_start (App_Run fuel) tr w (Call (Sig := RunnerSig) (RunScheduledO trigger attempt maxAttempts) k) ->
  trigger = TriggerUTC /\ maxAttempts = 6 /\ attempt = ob_failures w + 1 /\ 1 <= attempt <= 6 /\ may_perform w RunFunding.
Proof.
  intros Hp. assert (wp runner_discipline observer_start (App_Run fuel) after_iteration) as Hw.
  { apply closures_spec; [by split; cbn; [|lia]|]. apply Run_loop_spec. split; [done|]. split; [lia|]. by left. }
  exact (partial_allowed _ _ _ _ _ _ _ _ Hp Hw).
Qed.

(** ** Accounts *)

(** The accounts of a configuration are valid addresses, the builders' and
    the settlement's are all different, and the recipient is none of them and
    not the zero address; case does not distinguish addresses. *)
Record accounts_ok (cfg : FileConfig) : Prop := {
  ao_builders : fc_Builders cfg <> [];
  ao_names : NoDup (map bc_Name (fc_Builders cfg));
  ao_valid : Forall (fun b => is_address (bc_Address b) = true /\ bc_Name b <> "" /\ bc_EncryptedPrivateKey b <> "") (fc_Builders cfg);
  ao_settlement : is_address (ac_Address (fc_Settlement cfg)) = true /\ ac_EncryptedPrivateKey (fc_Settlement cfg) <> "";
  ao_recipient : is_address (pc_RecipientAddress (fc_ReferralPayout cfg)) = true;
  ao_distinct : NoDup (toLower (pc_RecipientAddress (fc_ReferralPayout cfg)) :: toLower (ac_Address (fc_Settlement cfg)) ::
                       map (fun b => toLower (bc_Address b)) (fc_Builders cfg));
  ao_nonzero : toLower (pc_RecipientAddress (fc_ReferralPayout cfg)) <> zeroAddress
}.

(** The loop keeps the builders in order, trimmed, and distinct from each
    other and from what it has seen. *)
Lemma validate_builders_spec builders : forall index names addresses builders' addresses',
  validate_builders index builders names addresses = Ok (builders', addresses') ->
  length builders' = length builders /\
  NoDup (map bc_Name builders') /\ (forall b, b ∈ builders' -> bc_Name b ∉ names) /\
  NoDup (map (fun b => toLower (bc_Address b)) builders') /\ (forall b, b ∈ builders' -> toLower (bc_Address b) ∉ addresses) /\
  Forall (fun b => is_address (bc_Address b) = true /\ bc_Name b <> "" /\ bc_EncryptedPrivateKey b <> "") builders' /\
  addresses' = list_to_set (map (fun b => toLower (bc_Address b)) builders') ∪ addresses.
Proof.
  induction builders as [|b builders IH]; intros index names addresses builders' addresses'; cbn [validate_builders].
  { intros [= <- <-]. split_and!; try done; try (intros ? ?%not_elem_of_nil; done); try apply NoDup_nil_2. set_solver. }
  cbv zeta. cbn [bc_Name bc_Address bc_EncryptedPrivateKey]. unfold requireValue. rewrite TrimSpace_idemp.
  destruct (string_is_empty (TrimSpace (bc_Name b))) eqn:En; [done|].
  destruct (is_address (TrimSpace (bc_Address b))) eqn:Ea; [|done]. cbn [negb].
  destruct (string_is_empty (bc_EncryptedPrivateKey b)) eqn:Ek; [done|].
  case_bool_decide as Hn; [done|]. case_bool_decide as Had; [done|].
  intros ([rest addresses1] & Hrest & [= <- <-])%rbind_ok.
  destruct (IH _ _ _ _ _ Hrest) as (Hl & Hn1 & Hn2 & Ha1 & Ha2 & Hv & ->).
  split_and!; cbn [length map bc_Name bc_Address bc_EncryptedPrivateKey]; [by rewrite Hl|..].
  - constructor; [|done]. intros (x & Hx & Hin)%list_elem_of_fmap. apply (Hn2 x Hin). set_solver.
  - intros x [->|Hx]%elem_of_cons; [done|]. specialize (Hn2 x Hx). set_solver.
  - constructor; [|done]. intros (x & Hx & Hin)%list_elem_of_fmap. apply (Ha2 x Hin). set_solver.
  - intros x [->|Hx]%elem_of_cons; [done|]. specialize (Ha2 x Hx). set_solver.
  - constructor; [|done]. split; [done|]. cbn. split; [by intros E; rewrite E in En|by intros E; rewrite E in Ek].
  - rewrite list_to_set_cons. set_solver.
Qed.

Lemma is_address_trimmed s : is_address s = true -> TrimSpace s = s /\ s <> "".
Proof.
  unfold is_address. destruct (strip "0x" s) as [digits|] eqn:E; [|done]. apply strip_spec in E as ->.
  intros [_ Hd]%andb_true_iff. split; [|done]. apply alphabet_trimmed. rewrite all_in_app. apply andb_true_iff. split; [reflexivity|].
  induction digits as [|c digits IH]; [done|]. cbn [all_bytes all_in] in *. apply andb_true_iff in Hd as [Hc Hd].
  rewrite (IH Hd), andb_true_r. destruct c as [[] [] [] [] [] [] [] []]; first [reflexivity|discriminate Hc].
Qed.

Lemma normalized_accounts cfg cfg' : normalizeAndValidateAccounts cfg = Ok cfg' -> accounts_ok cfg'.
Proof.
  unfold normalizeAndValidateAccounts. case_bool_decide as Hne; [done|].
  intros ([builders addresses] & Hb & H)%rbind_ok. cbv beta iota zeta in H. cbn [ac_Address ac_EncryptedPrivateKey] in H.
  destruct (is_address (TrimSpace (ac_Address (fc_Settlement cfg)))) eqn:Es; [|done]. cbn [negb] in H.
  destruct (string_is_empty (ac_EncryptedPrivateKey (fc_Settlement cfg))) eqn:Ek; [done|].
  case_bool_decide as Hs; [done|]. apply rbind_ok in H as (payout & Hp & H).
  assert (cfg' = mkFileConfig (fc_MySQL cfg) (fc_Hyperliquid cfg) (fc_Signing cfg) builders
    (mkAccount (TrimSpace (ac_Address (fc_Settlement cfg))) (ac_EncryptedPrivateKey (fc_Settlement cfg))) payout
    (fc_Logging cfg) (fc_AWS cfg) (fc_Notification cfg)) as -> by congruence. clear H.
  destruct (validate_builders_spec _ _ _ _ _ _ Hb) as (Hl & Hn1 & _ & Ha1 & _ & Hv & ->).
  unfold normalizeAndValidatePayoutRecipient in Hp. cbv zeta in Hp. cbn [pc_RecipientAddress] in Hp.
  destruct (is_address (TrimSpace (pc_RecipientAddress (fc_ReferralPayout cfg)))) eqn:Er; [|done]. cbn [negb] in Hp.
  destruct (String.eqb_spec (toLower (TrimSpace (pc_RecipientAddress (fc_ReferralPayout cfg)))) zeroAddress) as [|Hz]; [done|].
  destruct (EqualFold _ _) eqn:Ef in Hp; [done|]. case_bool_decide as Hr; [done|].
  assert (payout = mkPayout (TrimSpace (pc_RecipientAddress (fc_ReferralPayout cfg)))) as -> by congruence. clear Hp.
  rewrite union_empty_r_L in Hs, Hr. rewrite elem_of_list_to_set in Hs, Hr.
  split; cbn [fc_Builders fc_Settlement fc_ReferralPayout ac_Address ac_EncryptedPrivateKey pc_RecipientAddress]; try done.
  - destruct builders; [|done]. by destruct (fc_Builders cfg).
  - split; [done|]. intros E. by rewrite E in Ek.
  - constructor; [|by constructor]. intros [E|H]%elem_of_cons; [|done].
    unfold EqualFold in Ef. by rewrite E, String.eqb_refl in Ef.
Qed.

(** Distinct addresses pass the constructors. *)
Lemma check_builders_ok settlement builders : forall seen,
  Forall (fun a => is_address a = true) builders -> is_address settlement = true ->
  NoDup (map toLower builders) -> (forall a, a ∈ builders -> toLower a ∉ seen /\ toLower a <> toLower settlement) ->
  check_builders settlement builders seen = Ok (list_to_set (rev (map toLower builders)) ∪ seen).
Proof.
  induction builders as [|a builders IH]; intros seen Hv Hs Hn Hseen; cbn [check_builders]; [f_equal; set_solver|].
  apply Forall_cons in Hv as [Ha Hv]. cbn [map] in Hn. apply NoDup_cons in Hn as [Hna Hn].
  destruct (is_address_trimmed a Ha) as [Et Hne]. destruct (is_address_trimmed settlement Hs) as [Ets _].
  destruct (Hseen a ltac:(left)) as [H1 H2]. cbv zeta. unfold address_key, EqualFold. rewrite Et, Ets.
  destruct (string_is_empty (toLower a)) eqn:Ee; [by destruct a|].
  rewrite toLower_idemp. destruct (String.eqb_spec (toLower a) (toLower settlement)) as [|_]; [done|].
  rewrite bool_decide_eq_false_2 by done. rewrite IH; try done.
  - f_equal. cbn [map rev]. rewrite list_to_set_app_L. set_solver.
  - intros b Hb. destruct (Hseen b ltac:(by right)) as [H3 H4]. split; [|done]. intros [E%elem_of_singleton|H]%elem_of_union; [|done].
    apply Hna. rewrite <- E. by apply list_elem_of_fmap_2.
Qed.

Section Accounts.
Variable ParseRequestURI : string -> result (string * string).

(** C34: a configuration that passes validation names valid accounts: builders
    with distinct names, and builders, settlement account and recipient whose
    addresses all differ, case apart, the recipient's not being the zero
    address; and the funding orchestrator and the consolidator are built from
    it, for exactly these accounts. *)
Theorem validated_accounts (cfg cfg' : FileConfig) :
  NormalizeAndValidate ParseRequestURI cfg = Ok cfg' ->
  accounts_ok cfg' /\
  (exists o, NewOrchestrator (mkOrchestratorConfig true true (builder_addresses cfg') (builder_names cfg')
       (ac_Address (fc_Settlement cfg')) (pc_RecipientAddress (fc_ReferralPayout cfg')) (hl_Network (fc_Hyperliquid cfg'))) = Ok o /\
     cfg_builders o = builder_addresses cfg' /\ cfg_settlement o = ac_Address (fc_Settlement cfg') /\
     cfg_recipient o = pc_RecipientAddress (fc_ReferralPayout cfg') /\ NoDup (cfg_builders o)) /\
  (exists c, NewConsolidator true true (builder_addresses cfg') (builder_names cfg') (ac_Address (fc_Settlement cfg'))
       (hl_Network (fc_Hyperliquid cfg')) = Ok c /\
     cfg_builders c = builder_addresses cfg' /\ cfg_settlement c = ac_Address (fc_Settlement cfg')).
Proof.
  intros Hcfg. assert (accounts_ok cfg') as Hok.
  { unfold NormalizeAndValidate in Hcfg. apply rbind_ok in Hcfg as (my & _ & Hcfg). apply rbind_ok in Hcfg as (hl & _ & Hcfg).
    apply rbind_ok in Hcfg as (c & Hc & Hcfg). apply rbind_ok in Hcfg as (lg & _ & Hcfg). cbv zeta in Hcfg.
    apply rbind_ok in Hcfg as (nt & _ & Hcfg). destruct (_ && _) in Hcfg; [done|].
    assert (accounts_ok c) as Hok.
    { destruct (normalizeAndValidateAccounts _) as [c'|] eqn:Ec in Hc; [|done]. assert (c' = c) as <- by (cbn in Hc; congruence).
      by apply normalized_accounts in Ec. }
    match type of Hcfg with Ok ?c1 = _ => assert (cfg' = c1) as -> by congruence end. by destruct Hok. }
  split; [done|]. destruct Hok as [Hb Hnames Hv [Hs _] Hr Hd Hz].
  apply NoDup_cons in Hd as [Hrd Hd]. apply NoDup_cons in Hd as [Hsd Hd].
  assert (Hlow : map toLower (builder_addresses cfg') = map (fun b => toLower (bc_Address b)) (fc_Builders cfg')) by apply map_map.
  assert (Hcheck : check_builders (ac_Address (fc_Settlement cfg')) (builder_addresses cfg') ∅ =
    Ok (list_to_set (rev (map toLower (builder_addresses cfg'))) ∪ ∅)).
  { apply check_builders_ok; [|done|by rewrite Hlow|].
    - apply Forall_map. eapply Forall_impl; [exact Hv|]. by intros b [? _].
    - intros a Ha. split; [set_solver|]. intros E. apply Hsd. rewrite <- Hlow, <- E. by apply list_elem_of_fmap_2. }
  destruct (is_address_trimmed _ Hs) as [Ets Hse]. destruct (is_address_trimmed _ Hr) as [Etr Hre].
  assert (Hbne : builder_addresses cfg' <> []) by (unfold builder_addresses; by destruct (fc_Builders cfg')).
  assert (forall s, s <> "" -> string_is_empty s = false) as Hemp by (by intros []).
  split.
  - unfold NewOrchestrator. cbn [oc_dependencies oc_Builders oc_Settlement oc_ReferralRecipient oc_BuilderNames oc_Network oc_Notifier negb].
    rewrite bool_decide_eq_false_2 by done. rewrite Ets, Etr, !Hemp by done. cbn [orb]. rewrite Hcheck. cbn [rbind].
    unfold EqualFold. destruct (String.eqb_spec (toLower (pc_RecipientAddress (fc_ReferralPayout cfg'))) (toLower zeroEthereumAddress)) as [E|_];
      [by destruct Hz|].
    destruct (String.eqb_spec (toLower (ac_Address (fc_Settlement cfg'))) (toLower (pc_RecipientAddress (fc_ReferralPayout cfg')))) as [E|_];
      [destruct Hrd; rewrite E; left|].
    rewrite bool_decide_eq_false_2.
    + eexists. split; [reflexivity|]. split_and!; try done.
      assert (NoDup (map toLower (builder_addresses cfg'))) as Hn by (by rewrite Hlow). by apply NoDup_fmap_1 in Hn.
    + rewrite union_empty_r_L, elem_of_list_to_set. intros Hin%list_elem_of_In%in_rev%list_elem_of_In.
      rewrite Hlow in Hin. apply Hrd. by right.
  - unfold NewConsolidator. cbn [negb]. rewrite bool_decide_eq_false_2 by done. rewrite Ets, Hemp by done. cbn [orb].
    rewrite Hcheck. cbn [rbind]. by eexists.
Qed.
End Accounts.

(** ** Witnesses *)

Section Witnesses.

(** An environment for the closures: the clock stands at 00:30 of a day, every
    timer fires, and funding runs fail with an error that is not fatal until
    [n] failures in a row; then the next run is not answered. *)
Definition failing_env (n : Z) (w : observer) (o : RunnerOp) : option (RunnerResp o * observer) :=
  match o return (RunnerResp o -> option (RunnerResp o * observer)) -> option (RunnerResp o * observer) with
  | WaitO Scheduler.CtxErr => fun answer => answer None
  | WaitO Scheduler.Now => fun answer => answer (Hour / 2)
  | WaitO (NewTimer _) => fun answer => answer true
  | WaitO Wait => fun answer => answer Fired
  | WaitO (OnWait _ _) | WaitO (OnError _ _) => fun answer => answer tt
  | WaitO Consolidate | WaitO RunFunding => fun answer => answer None
  | RunScheduledO _ _ _ => fun answer => if ob_failures w =? n then None else answer (Some DeadlineExceeded)
  | RunDailyConsolidationO => fun answer => answer None
  end (fun r => Some (r, runner_observe w o r)).

Lemma failing_env_step n w o r w' : failing_env n w o = Some (r, w') -> step runner_discipline w o r w'.
Proof.
  cbn [step runner_discipline].
  destruct o as [[]| |]; cbn [failing_env]; try (intros E; injection E as Hr Hw; by subst).
  destruct (_ =? _); [done|]. intros E. injection E as Hr Hw. by subst.
Qed.

Lemma attempts_match_failures_witness : exists tr w k,
  partial runner_discipline observer_start (App_Run 20) tr w (Call (Sig := RunnerSig) (RunScheduledO TriggerUTC 3 6) k) /\ ob_failures w + 1 = 3.
Proof.
  pose proof (exec_partial (Sig := RunnerSig) runner_discipline (fun w => w) (failing_env 2) (failing_env_step 2) (App_Run 20) observer_start) as Hp.
  assert (head_op (fst (exec (Sig := RunnerSig) (failing_env 2) observer_start (App_Run 20))) = Some (RunScheduledO TriggerUTC 3 6)) as Eh
    by (vm_compute; reflexivity).
  destruct (head_op_call (Sig := RunnerSig) _ _ Eh) as [k Ek]. rewrite Ek in Hp.
  exists (exec_trace (Sig := RunnerSig) (failing_env 2) observer_start (App_Run 20)),
    (snd (exec (Sig := RunnerSig) (failing_env 2) observer_start (App_Run 20))), k.
  split; [exact Hp|]. symmetry. exact (proj1 (proj2 (proj2 (attempts_match_failures _ _ _ _ _ _ _ Hp)))).
Defined.

(** A configuration of two builders. *)
Definition sample_config : FileConfig :=
  mkFileConfig (mkMySQL "db" 3306 "funding" "bot" "secret") (mkHyperliquid "Mainnet" "") (mkSigning "")
    [mkBuilder " first " "0x00000000000000000000000000000000000000b1" "k1";
     mkBuilder "second" "0x00000000000000000000000000000000000000B2" "k2"]
    (mkAccount "0x00000000000000000000000000000000000000ee" "k3") (mkPayout "0x00000000000000000000000000000000000000ff")
    (mkLogging "console" "info" "auto" false) (mkAWS "" "") (mkNotification false (mkSES "" [] "")).
Definition normalized_sample : FileConfig :=
  match NormalizeAndValidate (fun _ => Err Canceled) sample_config with Ok cfg => cfg | Err _ => sample_config end.

Lemma validated_accounts_witness :
  map bc_Name (fc_Builders normalized_sample) = ["first"; "second"] /\ accounts_ok normalized_sample.
Proof.
  split; [vm_compute; reflexivity|].
  exact (proj1 (validated_accounts (fun _ => Err Canceled) sample_config normalized_sample ltac:(vm_compute; reflexivity))).
Defined.
End Witnesses.
