(* ===== verification/ServiceTheorems.v ===== *)
(** * What the service guarantees

    Any number of processes share the data directory and the database.  A
    process is [Service.runWithOutput], started at any time with any arguments,
    stopped anywhere; the process lock of [internal/state/lock_unix.go] is
    held by at most one of them ([flock] is exclusive and ends with its
    process), and the machine may be rebooted with snapshots corrupted.

    [one_process_moves_money] composes the whole development: the start of the
    application, the scheduler, the funding entries and the consolidation keep
    the contract of [PayoutWorld], so no record is paid twice in any history
    of such a system. *)

From S2P Require Import Prelude DecimalSpec DecimalImpl Prog Crash Scheduler Text Signing Exchange HttpClient Settings Keycipher Model Report Clock Effects Payout Recovery Run Daily Consolidation Sweep Isolation ConsolidationTheorems PayoutWorld PayoutInv Sim PayoutTheorems SigningFacts HttpTheorems App Service Logging Flags.

(** ** One process *)

Section Contract.
Context `{ops : DecimalOps}.
Notation AppSig := (@AppSig ops).

(** The operations of the consolidation: none of the payout's. *)
Definition detached (o : FundingOp) : Prop :=
  match o with
  | ListPending | Complete _ | LoadWithMetadata | Save _ | Archive _ _ | Clear | Report _ | Panic | StackOverflow => False
  | _ => True
  end.

(** The effect of a process's operation on the world the payouts live in.
    The requests of a consolidation are claims and transfers between the
    service's own accounts; they pay no record. *)
Definition app_step (w : world) (o : AppOp) : AppResp o -> world -> Prop :=
  match o with
  | FundingO PayoutSide o => funding_step w o
  | FundingO ConsolidationSide o =>
      match o return FundingResp o -> world -> Prop with Submit _ => fun _ w' => w' = w | o => funding_step w o end
  | _ => fun _ w' => w' = w
  end.

(** A process knows the world while it holds the lock, and only then. *)
Definition process_allowed (held : option world) (o : AppOp) : Prop :=
  match o, held with
  | FundingO PayoutSide o, Some w => funding_allowed w o
  | FundingO ConsolidationSide o, Some w => detached o
  | FundingO _ _, None => False
  | AcquireProcessLock, Some _ => False
  | _, _ => True
  end.

Definition process_step (held : option world) (o : AppOp) : AppResp o -> option world -> Prop :=
  match o return AppResp o -> option world -> Prop with
  | AcquireProcessLock => fun r held' =>
      match r with None => exists w, held' = Some w /\ Inv w | Some _ => held' = held end
  | CloseProcessLock => fun _ held' => held' = None
  | o => fun r held' =>
      match held with Some w => exists w', held' = Some w' /\ app_step w o r w' | None => held' = None end
  end.

Definition process_protocol : protocol (Sig := AppSig) (option world) :=
  @Build_protocol AppSig _ process_allowed process_step.

(** Holding the lock, with the invariant. *)
Definition holding (held : option world) : Prop := exists w, held = Some w /\ Inv w.

Lemma wp_invariant {Sig : EffSig} {W A : Type} (P : protocol W) (I : W -> Prop) w (m : prog A) Q :
  (forall w o r w', I w -> allowed P w o -> step P w o r w' -> I w') -> I w -> wp P w m Q -> wp P w m (fun a w' => Q a w' /\ I w').
Proof.
  intros Hpres. revert w. induction m as [a|o k IH]; intros w Hw; [by split|]. intros [Ho Hk]. split; [done|].
  intros r w' Hs. apply IH; eauto.
Qed.

(** A program under a history is one whose operations any history permits. *)
Lemma history_ops_in {Sig : EffSig} {A : Type} permits (R : Op -> Prop) h (m : prog A) Q :
  (forall h o, permits h o -> R o) -> wp (history permits) h m Q -> ops_in R m.
Proof.
  intros HR. revert h. induction m as [a|o k IH]; intros h; [done|]. intros [Ho Hk]. split; [by eapply HR|].
  intros r. by apply (IH r (Ev o r :: h)), Hk.
Qed.

Lemma lift_payout {A : Type} w (m : prog (Sig := FundingSig) A) Q :
  wp funding_protocol w m Q -> wp process_protocol (Some w) (lift PayoutSide m) (fun a held => exists w', held = Some w' /\ Q a w').
Proof.
  revert w. induction m as [a|o k IH]; intros w; [by exists w|]. intros [Ho Hk]. split; [exact Ho|].
  intros r held (w' & -> & Hs). apply IH. by apply Hk.
Qed.

Lemma lift_consolidation {A : Type} w (m : prog (Sig := FundingSig) A) :
  ops_in (Sig := FundingSig) detached m -> wp process_protocol (Some w) (lift ConsolidationSide m) (fun _ held => held = Some w).
Proof.
  induction m as [a|o k IH]; [done|]. intros [Ho Hk]. split; [exact Ho|]. intros r held (w' & -> & Hs).
  assert (w' = w) as -> by (destruct o; done). by apply IH.
Qed.

Lemma entry_holding cfg e mem w : Inv w ->
  wp process_protocol (Some w) (lift PayoutSide (entry cfg e mem)) (fun _ held => holding held).
Proof.
  intros Hi. pose proof (wp_invariant funding_protocol Inv w _ _ Inv_step Hi (entry_contract cfg e w mem Hi)) as Hw.
  eapply wp_mono; [|apply lift_payout, Hw]. intros a held (w' & -> & _ & Hi'). by exists w'.
Qed.

Lemma task_detached cfg t mem : ops_in (Sig := FundingSig) detached (task cfg t mem).
Proof.
  eapply history_ops_in; [|apply (follows_task cfg t [])]. intros h o. by destruct o.
Qed.

Lemma task_holding cfg t mem w : Inv w ->
  wp process_protocol (Some w) (lift ConsolidationSide (task cfg t mem)) (fun _ held => holding held).
Proof.
  intros Hi. eapply wp_mono; [|apply lift_consolidation, task_detached]. intros a held ->. by exists w.
Qed.

Lemma inline_holding {A : Type} cfg (m : prog (Sig := RunnerSig) A) : forall w mem, Inv w ->
  wp process_protocol (Some w) (inline cfg m mem) (fun _ held => holding held).
Proof.
  induction m as [a|o k IH]; intros w mem Hi; [by exists w|]. destruct o as [o|trigger attempt maxAttempts|].
  - split; [done|]. intros r held (w' & -> & Hs). assert (w' = w) as -> by exact Hs. by apply IH.
  - apply wp_bind. eapply wp_mono; [|by apply (entry_holding cfg (EntryScheduled trigger attempt maxAttempts))].
    intros [err mem'] held (w' & -> & Hi'). by apply IH.
  - apply wp_bind. eapply wp_mono; [|by apply (task_holding cfg DailyTask)].
    intros [err mem'] held (w' & -> & Hi'). by apply IH.
Qed.
End Contract.

Section Process.
Context `{UnicodeTables} `{ops : DecimalOps} `{Crypto} `{Ciphers} `{NetOps}.
Notation AppSig := (@AppSig ops).
Variable ParseRequestURI : string -> result (string * string).
Variable toml_decode : string -> FileConfig -> result FileConfig.
Notation process := (process ParseRequestURI toml_decode).
Notation app_New := (app_New ParseRequestURI toml_decode).

(** A step of a process that does not hold the lock. *)
#[local] Tactic Notation "outside" simple_intropattern(answer) :=
  split; [done|]; intros answer ? ->; cbn [prog_bind prog_mbind mbind mret prog_ret app_op].
#[local] Tactic Notation "outside" := outside ?.

Lemma wp_then {A B : Type} held (m : prog (Sig := AppSig) A) (f : A -> prog (Sig := AppSig) B) (R : A -> option world -> Prop) Q :
  wp process_protocol held m R -> (forall a held', R a held' -> wp process_protocol held' (f a) Q) ->
  wp process_protocol held (prog_bind m f) Q.
Proof. intros Hm Hf. apply wp_bind. eapply wp_mono; [|exact Hm]. exact Hf. Qed.

Lemma LoadFile_outside path : wp process_protocol None (LoadFile ParseRequestURI toml_decode path) (fun _ held => held = None).
Proof. unfold LoadFile. outside. destruct (ValidateFileMode path _); [done|]. by outside. Qed.

Lemma buildNotifier_outside cfg : wp process_protocol None (buildNotifier cfg) (fun _ held => held = None).
Proof. unfold buildNotifier. destruct (negb _); [done|]. by outside. Qed.

Lemma resolvePassword_outside configured : wp process_protocol None (resolvePassword configured) (fun _ held => held = None).
Proof. unfold resolvePassword. destruct (negb _); [done|]. by outside. Qed.

Lemma app_Close_holding w : wp process_protocol (Some w) app_Close (fun _ held => held = None).
Proof.
  unfold app_Close. split; [done|]. intros r held (w' & -> & _). split; [done|]. by intros r' held' ->.
Qed.

Definition started (r : result (Config * Mem)) (held : option world) : Prop :=
  match r with Ok _ => holding held | Err _ => held = None end.

Lemma startRuntime_holding cfg runOnStart w : Inv w ->
  wp process_protocol (Some w) (startRuntime cfg runOnStart) (fun _ held => holding held).
Proof.
  intros Hi. unfold startRuntime. destruct runOnStart; (apply (wp_then _ _ _ (fun _ held => holding held)); [|by intros]).
  - exact (entry_holding cfg (EntryRun TriggerRunOnStart) new_memory w Hi).
  - exact (entry_holding cfg EntryRecover new_memory w Hi).
Qed.

Lemma start_locked_holding opts cfg signers w : Inv w ->
  wp process_protocol (Some w) (start_locked ParseRequestURI opts cfg signers) started.
Proof.
  intros Hi. unfold start_locked. apply (wp_then _ _ _ (fun _ held => holding held)).
  - destruct (assembleOrchestrator _ cfg signers) as [o|e]; [|by exists w].
    eapply wp_then; [by apply startRuntime_holding|]. by intros [[e|] mem] held Hh.
  - intros [app|e] held (w' & -> & Hi'); [by exists w'|]. split; [done|]. by intros r held' ->.
Qed.

Lemma start_with_db_outside opts cfg signers :
  wp process_protocol None (start_with_db ParseRequestURI opts cfg signers) started.
Proof.
  unfold start_with_db. apply (wp_then _ _ _ started).
  - split; [done|]. intros [e|] held; cbn; [by intros ->|]. intros (w & -> & Hi). by apply start_locked_holding.
  - intros [app|e] held Hs; [exact Hs|]. cbn in Hs. subst held. by outside.
Qed.

Lemma app_New_outside opts : wp process_protocol None (app_New opts) started.
Proof.
  unfold app_New. eapply wp_then; [apply LoadFile_outside|]. intros [cfg|e] held ->; [|done].
  eapply wp_then; [apply buildNotifier_outside|]. intros [e|] held ->; [done|].
  eapply wp_then; [apply resolvePassword_outside|]. intros [password|e] held ->; [|by outside].
  destruct (buildSigners cfg password) as [signers|e]; [|by outside].
  outside [e|]; [done|]. apply start_with_db_outside.
Qed.

Lemma ConsolidateFunds_outside path :
  wp process_protocol None (ConsolidateFunds ParseRequestURI toml_decode path) (fun _ held => held = None).
Proof.
  unfold ConsolidateFunds. eapply wp_then; [apply LoadFile_outside|]. intros [cfg|e] held ->; [|done].
  eapply wp_then; [apply buildNotifier_outside|]. intros [e|] held ->; [done|].
  eapply wp_then; [apply resolvePassword_outside|]. intros [password|e] held ->; [|done].
  destruct (buildBuilderSigners _ password []) as [signers|e]; [|done].
  split; [done|]. intros [e|] held; cbn; [by intros ->|]. intros (w & -> & Hi).
  apply (wp_then _ _ _ (fun _ held => holding held)).
  - destruct (assembleConsolidator _ cfg signers) as [c|e]; [|by exists w].
    eapply wp_then; [exact (task_holding c ConsolidateOnly new_memory w Hi)|]. by intros.
  - intros e held (w' & -> & _). split; [done|]. by intros r held' ->.
Qed.

(** A process keeps the contract from its start to its end. *)
Lemma process_contract fuel opts : wp process_protocol None (process fuel opts) (fun _ _ => True).
Proof.
  unfold process. destruct (opt_TestSES opts).
  - apply (wp_then _ _ _ (fun _ _ => True)); [|by intros]. unfold SendSESTestEmail. eapply wp_then; [apply LoadFile_outside|]. intros [cfg|e] held ->; [|by intros].
    outside [e|]; [done|]. by outside.
  - destruct (opt_ConsolidateOnly opts); [eapply wp_then; [apply ConsolidateFunds_outside|by intros]|].
    eapply wp_then; [apply app_New_outside|]. intros [[cfg mem]|e] held Hs; [|by intros]. destruct Hs as (w & -> & Hi).
    unfold run_service. eapply wp_then; [by apply inline_holding|]. intros [n|e] held (w' & -> & Hi'); [done|].
    eapply wp_then; [apply app_Close_holding|by intros].
Qed.

Lemma write_tracked_outside texts : forall tracked,
  wp process_protocol None (write_tracked texts tracked) (fun _ held => held = None).
Proof. induction texts as [|text texts IH]; intros tracked; cbn [write_tracked]; [done|]. outside err. apply IH. Qed.

(** Nor does a wrong command line. *)
Lemma command_contract fuel args :
  wp process_protocol None (runWithOutput ParseRequestURI toml_decode fuel args) (fun _ _ => True).
Proof.
  unfold runWithOutput. destruct (parseOptions args); [apply process_contract|]. case_bool_decide; [|done].
  eapply wp_then; [apply write_tracked_outside|by intros].
Qed.
End Process.

(** ** Many processes *)

Section System.
Context `{UnicodeTables} `{ops : DecimalOps} `{Crypto} `{Ciphers} `{NetOps}.
Notation AppSig := (@AppSig ops).
Variable ParseRequestURI : string -> result (string * string).
Variable toml_decode : string -> FileConfig -> result FileConfig.
Notation runWithOutput := (runWithOutput ParseRequestURI toml_decode).
Notation running := (prog (Sig := AppSig) (option (option error))).

(** The world, the process that holds the lock, and what is left of every
    process. *)
Record system : Type := mkSystem {
  sy_world : world;
  sy_holder : option nat;
  sy_procs : gmap nat running
}.

Definition released (p : nat) (holder : option nat) : option nat :=
  if bool_decide (holder = Some p) then None else holder.

Definition is_lock_op (o : AppOp) : bool :=
  match o with AcquireProcessLock | CloseProcessLock => true | _ => false end.

(** The steps: a process starts; it takes the lock, which nobody holds, or is
    refused; it gives it back; it performs another operation; it ends or is
    killed; the machine is rebooted. *)
Inductive system_step : system -> system -> Prop :=
| step_start w h ps p fuel args :
    ps !! p = None -> system_step (mkSystem w h ps) (mkSystem w h (<[p := runWithOutput fuel args]> ps))
| step_lock w ps p k :
    ps !! p = Some (Call (Sig := AppSig) AcquireProcessLock k) ->
    system_step (mkSystem w None ps) (mkSystem w (Some p) (<[p := k None]> ps))
| step_lock_refused w h ps p k e :
    ps !! p = Some (Call (Sig := AppSig) AcquireProcessLock k) ->
    system_step (mkSystem w h ps) (mkSystem w h (<[p := k (Some e)]> ps))
| step_unlock w h ps p k r :
    ps !! p = Some (Call (Sig := AppSig) CloseProcessLock k) ->
    system_step (mkSystem w h ps) (mkSystem w (released p h) (<[p := k r]> ps))
| step_op w h ps p o k r w' :
    ps !! p = Some (Call (Sig := AppSig) o k) -> is_lock_op o = false -> app_step w o r w' ->
    system_step (mkSystem w h ps) (mkSystem w' h (<[p := k r]> ps))
| step_end w h ps p :
    system_step (mkSystem w h ps) (mkSystem w (released p h) (delete p ps))
| step_reboot w h ps w' :
    crash w w' -> system_step (mkSystem w h ps) (mkSystem w' None ∅).

Definition initial_system : system := mkSystem initial_world None ∅.
Definition reachable_system (s : system) : Prop := rtc system_step initial_system s.

(** What the process [p] knows. *)
Definition knows (s : system) (p : nat) : option world := if bool_decide (sy_holder s = Some p) then Some (sy_world s) else None.

Definition system_ok (s : system) : Prop :=
  Inv (sy_world s) /\ (forall p, sy_holder s = Some p -> is_Some (sy_procs s !! p)) /\
  forall p m, sy_procs s !! p = Some m -> wp process_protocol (knows s p) m (fun _ _ => True).

Lemma knows_holder w p ps : knows (mkSystem w (Some p) ps) p = Some w.
Proof. unfold knows. by rewrite bool_decide_eq_true_2. Qed.

Lemma knows_other s p : sy_holder s <> Some p -> knows s p = None.
Proof. intros Hp. unfold knows. by rewrite bool_decide_eq_false_2. Qed.

(** The process [p] moved and the world changed only if it holds the lock:
    the others know what they knew. *)
Lemma others_unaffected w h ps w' h' p m :
  (forall q, q <> p -> h' = Some q <-> h = Some q) -> (h <> Some p -> w' = w) ->
  (forall q m', ps !! q = Some m' -> wp process_protocol (knows (mkSystem w h ps) q) m' (fun _ _ => True)) ->
  wp process_protocol (knows (mkSystem w' h' (<[p := m]> ps)) p) m (fun _ _ => True) ->
  forall q m', <[p := m]> ps !! q = Some m' -> wp process_protocol (knows (mkSystem w' h' (<[p := m]> ps)) q) m' (fun _ _ => True).
Proof.
  intros Hh Hw Hps Hp q m' [[<- <-]|[Hq Hm']]%lookup_insert_Some; [done|]. specialize (Hps q m' Hm').
  destruct (decide (h = Some q)) as [->|Hn].
  - assert (h' = Some q) as -> by (apply Hh; done). rewrite knows_holder in *. rewrite Hw by congruence. done.
  - rewrite knows_other in Hps by done. rewrite knows_other; [done|]. cbn. rewrite Hh by done. done.
Qed.

Lemma process_app_step (o : AppOp) w r w' held (k : AppResp o -> running) :
  is_lock_op o = false -> Inv w -> held = Some w \/ held = None ->
  wp process_protocol held (Call (Sig := AppSig) o k) (fun _ _ => True) -> app_step w o r w' ->
  Inv w' /\ (held = None -> w' = w) /\
  wp process_protocol (match held with Some _ => Some w' | None => None end) (k r) (fun _ _ => True).
Proof.
  intros Hl Hi Hheld [Ho Hk] Hs. cbn [allowed process_protocol] in Ho. destruct Hheld as [->| ->].
  - split; [|split; [done|]].
    + destruct o as [| | | | | | | | | | |o|[] o]; try (cbn in Hs; by subst w'); [by eapply Inv_step|].
      assert (w' = w) as -> by (destruct o; done). done.
    + apply Hk. destruct o; try discriminate Hl; by exists w'.
  - assert (w' = w) as -> by (destruct o as [| | | | | | | | | | |o|[] o]; try done; exact Hs).
    split; [done|]. split; [done|]. apply Hk. by destruct o.
Qed.

Lemma system_ok_step s s' : system_ok s -> system_step s s' -> system_ok s'.
Proof.
  intros (Hi & Hh & Hps).
  destruct 1 as [w h ps p fuel args Hp|w ps p k Hp|w h ps p k e Hp|w h ps p k r Hp|w h ps p o k r w' Hp Hl Hs|w h ps p|w h ps w' Hc];
    cbn [sy_world sy_procs sy_holder] in Hi, Hps, Hh.
  - assert (h <> Some p) as Hn by (intros ->; destruct (Hh p eq_refl); congruence).
    split; [done|]. split; [intros q Hq; cbn; rewrite lookup_insert_is_Some'; right; by apply Hh|].
    apply (others_unaffected w h ps); try done. rewrite knows_other by done. apply command_contract.
  - specialize (Hps p _ Hp) as Hk. rewrite knows_other in Hk by done. destruct Hk as [_ Hk].
    split; [done|]. split; [intros q [= ->]; cbn; rewrite lookup_insert_is_Some'; by left|].
    apply (others_unaffected w None ps); try done; [intros q Hq; split; congruence|].
    rewrite knows_holder. apply Hk. by exists w.
  - specialize (Hps p _ Hp) as Hk. split; [done|].
    split; [intros q Hq; cbn; rewrite lookup_insert_is_Some'; right; by apply Hh|].
    apply (others_unaffected w h ps); try done. by apply Hk.
  - specialize (Hps p _ Hp) as Hk. destruct Hk as [_ Hk]. unfold released. split; [done|].
    split; [intros q Hq; cbn; rewrite lookup_insert_is_Some'; right; apply Hh; revert Hq; cbn; by case_bool_decide|].
    apply (others_unaffected w h ps); try done; [intros q Hq; case_bool_decide; [|done]; split; congruence|].
    rewrite knows_other; [by apply Hk|]. cbn. by case_bool_decide.
  - pose proof (Hps p _ Hp) as Hk.
    destruct (process_app_step o w r w' (knows (mkSystem w h ps) p) k Hl Hi) as (Hi' & Hw & Hk'); [|done|done|].
    { unfold knows. cbn. case_bool_decide; [by left|by right]. }
    split; [done|]. split; [intros q Hq; cbn; rewrite lookup_insert_is_Some'; right; by apply Hh|].
    apply (others_unaffected w h ps); try done.
    + intros Hn. apply Hw. by apply knows_other.
    + revert Hk'. unfold knows. cbn. by case_bool_decide.
  - unfold released. split; [done|]. split.
    + cbn. intros q. case_bool_decide as Hq; [done|]. intros Hq'. rewrite lookup_delete_ne by congruence. by apply Hh.
    + cbn. intros q m Hm. apply lookup_delete_Some in Hm as [Hq Hm]. specialize (Hps q m Hm). revert Hps. unfold knows. cbn.
      repeat case_bool_decide; try congruence; done.
  - split; [by eapply Inv_crash|]. split; [done|]. intros q m Hm. cbn in Hm; by rewrite lookup_empty in Hm.
Qed.

Lemma reachable_ok s : reachable_system s -> system_ok s.
Proof.
  unfold reachable_system. revert s. apply rtc_ind_r; [|intros s1 s2 _ Hstep Hok; by eapply system_ok_step].
  split; [apply Inv_initial|]. split; [done|]. intros p m Hm. cbn in Hm; by rewrite lookup_empty in Hm.
Qed.

(** C1: in every history of any number of processes, started with any command line,
    stopped anywhere, and of reboots that corrupt snapshots, no record is paid
    twice; and whatever process is about to perform an operation of the
    funding code holds the process lock and keeps the payout contract: it
    submits a payout only under two snapshots that hold the request and
    reserve the attempt, completes records only under a confirmed payout, and
    removes the snapshots only when every request is settled; its
    consolidation stays away from all of this. *)
Theorem one_process_moves_money s :
  reachable_system s ->
  no_double_payment (sy_world s) /\
  forall p side o k, sy_procs s !! p = Some (Call (Sig := AppSig) (FundingO side o) k) ->
    sy_holder s = Some p /\
    match side with PayoutSide => funding_allowed (sy_world s) o | ConsolidationSide => detached o end.
Proof.
  intros ([Hd _] & _ & Hps)%reachable_ok. split; [done|]. intros p side o k Hp. destruct (Hps p _ Hp) as [Ho _].
  unfold knows in Ho. revert Ho. case_bool_decide as Hh; cbn [allowed process_protocol process_allowed]; by destruct side.
Qed.
End System.

(** ** A concrete history

    One process is started with [-run-on-start], takes the lock, and is about
    to submit the payout of one record. *)

Section Witness.
#[local] Existing Instances ascii_tables DecimalImpl.dec_ops SampleCrypto.sample_crypto toy_ciphers sample_net.

Definition key_text (k : Z) : string := hex_encode (repeat 0 31 ++ [k]).
Definition address_of (k : Z) : string := match Address (Some k) with Ok address => address | Err _ => "" end.
Definition encrypted (k : Z) : string :=
  match Encrypt (key_text k) "hunter2" (Ok sample_salt) (Ok sample_nonce) with Ok token => token | Err _ => "" end.

Definition service_config : FileConfig :=
  mkFileConfig (mkMySQL "db" 3306 "funding" "bot" "secret") (mkHyperliquid "mainnet" "") (mkSigning "hunter2")
    [mkBuilder "first" (address_of 5) (encrypted 5)]
    (mkAccount (address_of 6) (encrypted 6)) (mkPayout "0x00000000000000000000000000000000000000ff")
    (mkLogging "console" "info" "auto" false) (mkAWS "" "") (mkNotification false (mkSES "" [] "")).

Definition decode_sample (_ : string) (_ : FileConfig) : result FileConfig := Ok service_config.
Definition no_uri (_ : string) : result (string * string) := Err Canceled.

(** The simulation answers the funding operations until a submission. *)
Definition service_env (h : sim * bool) (o : AppOp) : option (AppResp o * (sim * bool)) :=
  match o return option (AppResp o * (sim * bool)) with
  | StatFile _ => Some (Ok 384, h)
  | ReadFile _ => Some (Ok "", h)
  | WriteStdout _ | NewSES | SendTest | OpenMySQL | CloseMySQL => Some (None, h)
  | ReadSecret _ => Some (Ok "hunter2", h)
  | SendAlert _ _ _ => Some (tt, h)
  | AcquireProcessLock => if snd h then None else Some (None, (fst h, true))
  | CloseProcessLock => Some (None, (fst h, false))
  | SchedulerO _ => None
  | FundingO PayoutSide o =>
      if (match o with Submit _ => true | _ => false end) then None
      else match Sim.env (fst h) o with Some (r, h') => Some (r, (h', snd h)) | None => None end
  | FundingO ConsolidationSide _ => None
  end.

Definition system_of (h : sim * bool) (m : prog (Sig := AppSig) (option (option error))) : system :=
  mkSystem (sim_world (fst h)) (if snd h then Some 1%nat else None) {[1%nat := m]}.

Lemma service_env_step decode h (o : AppOp) r h' (k : AppResp o -> prog (Sig := AppSig) (option (option error))) :
  service_env h o = Some (r, h') -> system_step no_uri decode (system_of h (Call (Sig := AppSig) o k)) (system_of h' (k r)).
Proof.
  destruct h as [h hold]. intros E.
  assert (Hins : {[1%nat := k r]} = <[1%nat := k r]> {[1%nat := Call (Sig := AppSig) o k]} :> gmap nat _) by (by rewrite insert_singleton).
  unfold system_of. rewrite Hins. clear Hins.
  destruct o as [| | | | | | | | | | |o|[] o]; cbn [service_env] in E; try discriminate E;
    try (injection E as <- <-; apply step_op; [apply lookup_singleton_eq|done|done]).
  - destruct hold; [done|]. injection E as <- <-. apply step_lock, lookup_singleton_eq.
  - injection E as <- <-. destruct hold.
    + apply (step_unlock no_uri decode _ (Some 1%nat) _ 1%nat). apply lookup_singleton_eq.
    + apply (step_unlock no_uri decode _ None _ 1%nat). apply lookup_singleton_eq.
  - cbn [fst snd] in E. destruct (match o with Submit _ => true | _ => false end); [done|].
    destruct (Sim.env h o) as [[r1 h1]|] eqn:Ee; [|done]. injection E as <- <-.
    apply step_op; [apply lookup_singleton_eq|done|]. by apply Sim.env_step.
Qed.

(** Running the simulation is a history of the system. *)
Lemma service_history m : forall h, reachable_system no_uri decode_sample (system_of h m) ->
  let r := exec (Sig := AppSig) service_env h m in reachable_system no_uri decode_sample (system_of (snd r) (fst r)).
Proof.
  induction m as [a|o k IH]; intros h Hr; [done|]. cbn [exec].
  destruct (service_env h o) as [[r h']|] eqn:E; [|done]. apply IH. eapply rtc_r; [exact Hr|]. by apply service_env_step.
Qed.

Definition service_start : sim * bool := (Scenario.script Scenario.silent, false).
Definition on_start : prog (Sig := AppSig) (option (option error)) :=
  runWithOutput no_uri decode_sample 0 ["-run-on-start"].
Definition service_end := exec (Sig := AppSig) service_env service_start on_start.

Definition submits_next (m : prog (Sig := AppSig) (option (option error))) : bool :=
  match m with Call (FundingO PayoutSide (Submit _)) _ => true | _ => false end.

Lemma one_process_moves_money_witness : exists s a k,
  reachable_system no_uri decode_sample s /\
  sy_procs s !! 1%nat = Some (Call (Sig := AppSig) (FundingO PayoutSide (Submit a)) k) /\
  sy_holder s = Some 1%nat /\ may_submit (sy_world s) a.
Proof.
  assert (reachable_system no_uri decode_sample (system_of service_start on_start)) as Hr.
  { apply rtc_once. unfold initial_system, system_of. cbn [fst snd service_start].
    apply (step_start no_uri decode_sample initial_world None ∅ 1%nat 0 ["-run-on-start"]). done. }
  apply service_history in Hr. cbv zeta in Hr. fold service_end in Hr.
  assert (submits_next (fst service_end) = true) as Hs by (vm_compute; reflexivity).
  set (s := system_of (snd service_end) (fst service_end)) in Hr.
  destruct (fst service_end) as [|[| | | | | | | | | | | |[] []] k] eqn:Ee; try discriminate Hs.
  assert (sy_procs s !! 1%nat = Some (Call (Sig := AppSig) (FundingO PayoutSide (Submit action)) k)) as Hp by apply lookup_singleton_eq.
  destruct (proj2 (one_process_moves_money no_uri decode_sample s Hr) _ _ _ _ Hp) as [Hh Ha].
  exact (ex_intro _ s (ex_intro _ action (ex_intro _ k (conj Hr (conj Hp (conj Hh Ha)))))).
Defined.
End Witness.

(** * What the command line selects

    A process is in one of four modes, and stays in it: the test mail and the
    consolidation never touch the database or a payout ([command_line_modes]). *)

Section Modes.
Context `{UnicodeTables} `{ops : DecimalOps} `{Crypto} `{Ciphers} `{NetOps}.
Notation AppSig := (@AppSig ops).
Variable ParseRequestURI : string -> result (string * string).
Variable toml_decode : string -> FileConfig -> result FileConfig.

(** At most one of the modes is chosen. *)
Definition exclusive (opts : Options) : bool :=
  negb (opt_TestSES opts && opt_RunOnStart opts) && negb (opt_ConsolidateOnly opts && (opt_TestSES opts || opt_RunOnStart opts)).

(** The command line of some options. *)
Definition arguments (opts : Options) : list string :=
  ["-config"; opt_ConfigPath opts] ++ (if opt_RunOnStart opts then ["-run-on-start"] else []) ++
  (if opt_TestSES opts then ["--test-ses"] else []) ++ (if opt_ConsolidateOnly opts then ["-consolidate-only=true"] else []).

Definition usage_op (o : AppOp) : Prop := match o with WriteStdout text => text ∈ Usage initial_options | _ => False end.
Definition test_op (o : AppOp) : Prop := match o with StatFile _ | ReadFile _ | NewSES | SendTest => True | _ => False end.
Definition consolidate_op (o : AppOp) : Prop :=
  match o with
  | StatFile _ | ReadFile _ | NewSES | ReadSecret _ | AcquireProcessLock | CloseProcessLock => True
  | FundingO ConsolidationSide o => detached o
  | _ => False
  end.

Lemma ops_then {A B : Type} (P : AppOp -> Prop) (m : prog (Sig := AppSig) A) (f : A -> prog (Sig := AppSig) B) :
  ops_in (Sig := AppSig) P m -> (forall a, ops_in (Sig := AppSig) P (f a)) -> ops_in (Sig := AppSig) P (m ≫= f).
Proof. apply ops_in_bind. Qed.

Lemma ops_app_op (P : AppOp -> Prop) (o : AppOp) : P o -> ops_in (Sig := AppSig) P (app_op o).
Proof. intros Ho. by split. Qed.

Lemma LoadFile_ops (P : AppOp -> Prop) path :
  (forall p, P (StatFile p)) -> (forall p, P (ReadFile p)) -> ops_in (Sig := AppSig) P (LoadFile ParseRequestURI toml_decode path).
Proof.
  intros Hs Hr. unfold LoadFile. apply ops_then; [by apply ops_app_op|]. intros info. destruct (ValidateFileMode path info); [done|].
  apply ops_then; [by apply ops_app_op|done].
Qed.

Lemma lift_consolidate_ops {A : Type} (m : prog (Sig := FundingSig) A) :
  ops_in (Sig := FundingSig) detached m -> ops_in (Sig := AppSig) consolidate_op (lift ConsolidationSide m).
Proof. induction m as [a|o k IH]; [done|]. intros [Ho Hk]. split; [exact Ho|]. intros r. by apply IH. Qed.

Lemma ConsolidateFunds_ops path : ops_in (Sig := AppSig) consolidate_op (ConsolidateFunds ParseRequestURI toml_decode path).
Proof.
  unfold ConsolidateFunds. apply ops_then; [by apply LoadFile_ops|]. intros [cfg|e]; [|done].
  apply ops_then; [unfold buildNotifier; destruct (negb _); [done|by apply ops_app_op]|]. intros [e|]; [done|].
  apply ops_then.
  { unfold resolvePassword. destruct (negb _); [done|]. apply ops_then; [by apply ops_app_op|done]. }
  intros [password|e]; [|done]. destruct (buildBuilderSigners _ password []) as [signers|e]; [|done].
  apply ops_then; [by apply ops_app_op|]. intros [e|]; [done|]. apply ops_then; [|intros e; apply ops_then; [by apply ops_app_op|done]].
  destruct (assembleConsolidator _ cfg signers) as [c|e]; [|done].
  apply ops_then; [|done]. apply lift_consolidate_ops, (task_detached c ConsolidateOnly new_memory).
Qed.

Lemma SendSESTestEmail_ops path : ops_in (Sig := AppSig) test_op (SendSESTestEmail ParseRequestURI toml_decode path).
Proof.
  unfold SendSESTestEmail. apply ops_then; [by apply LoadFile_ops|]. intros [cfg|e]; [|done].
  apply ops_then; [by apply ops_app_op|]. intros [e|]; [done|]. apply ops_then; [by apply ops_app_op|done].
Qed.

Lemma write_tracked_ops texts : forall tracked, texts ⊆ Usage initial_options ->
  ops_in (Sig := AppSig) usage_op (write_tracked texts tracked).
Proof.
  induction texts as [|text texts IH]; intros tracked Hs; cbn [write_tracked]; [done|].
  apply ops_then; [apply ops_app_op; apply Hs; left|]. intros err. apply IH. intros x Hx. apply Hs. by right.
Qed.

Lemma parse_exclusive args opts : parseOptions args = Ok opts -> exclusive opts = true.
Proof.
  unfold parseOptions. destruct (snd _) as [[o rest]|]; [|done]. destruct (negb (bool_decide _)); [done|].
  destruct (_ && _) eqn:E; [done|]. destruct (opt_ConsolidateOnly o && _) eqn:E'; [done|].
  intros Ho. assert (o = opts) as <- by congruence. unfold exclusive. by rewrite E, E'.
Qed.

(** C31: Every command line puts the process in one mode.  One that is not understood - an unknown flag, a positional
    argument, modes that exclude each other - performs no operation at all, and [-h] writes the usage and nothing
    else; with [-test-ses] the process reads its configuration and sends the mail, with [-consolidate-only] it also
    takes the lock and claims and sweeps, but never opens the database, waits for a schedule or performs an operation
    of a payout.  The options one can ask for are exactly those where at most one mode is chosen. *)
Theorem command_line_modes fuel args :
  let run := runWithOutput ParseRequestURI toml_decode fuel args in
  match parseOptions args with
  | Err err => ops_in (Sig := AppSig) usage_op run /\ (err <> ErrHelp -> run = Ret (Some (Some err)))
  | Ok opts =>
      exclusive opts = true /\
      (opt_TestSES opts = true -> ops_in (Sig := AppSig) test_op run) /\
      (opt_ConsolidateOnly opts = true -> ops_in (Sig := AppSig) consolidate_op run)
  end /\
  forall opts, exclusive opts = true -> parseOptions (arguments opts) = Ok opts.
Proof.
  cbv zeta. split.
  - destruct (parseOptions args) as [opts|err] eqn:E; unfold runWithOutput; rewrite E.
    + apply parse_exclusive in E. split; [exact E|]. unfold process. split.
      * intros ->. apply ops_then; [apply SendSESTestEmail_ops|done].
      * intros Hc. unfold exclusive in E. rewrite Hc in E |- *. destruct (opt_TestSES opts).
        { by destruct (opt_RunOnStart opts). }
        apply ops_then; [apply ConsolidateFunds_ops|done].
    + case_bool_decide as Hh; split; try done. apply ops_then; [by apply write_tracked_ops|done].
  - intros [path run test only]. unfold exclusive. cbn [opt_TestSES opt_RunOnStart opt_ConsolidateOnly].
    destruct run, test, only; try done; reflexivity.
Qed.
End Modes.
