(* ===== verification/Notification.v ===== *)
(** * Notifications

    [internal/notification]: messages, the dispatcher, the observer that turns
    the retries of the MySQL repository into throttled logs and alerts, and
    the mail notifier of [internal/notification/mail].

    A method of the observer first updates its fields under its mutex and then
    sends and logs; the update is a function and its effects a list, in the
    order the method produces them.  The interleaving of two calls is the
    interleaving of their updates. *)

From S2P Require Import Prelude Prog Clock Timestamp Mysql Text Settings.

(** ** Messages *)

(* go: internal/notification/notification.go 17-25 Status *)
Inductive Status : Type := StatusSuccess | StatusWarning | StatusInfo | StatusRetrying | StatusCritical.

#[export] Instance Status_eq_dec : EqDecision Status.
Proof. solve_decision. Defined.

(* go: internal/notification/notification.go 27-42 Indicator *)
Definition Indicator (s : Status) : string :=
  match s with
  | StatusSuccess => "🟢"
  | StatusWarning => "🟡"
  | StatusInfo => "🔵"
  | StatusRetrying => "🟠"
  | StatusCritical => "🔴"
  end.

(* go: internal/notification/notification.go 10-15 Message *)
Record Message : Type := mkMessage {
  msg_Status : Status;
  msg_Subject : string;
  msg_Body : string;
  msg_HTMLBody : string
}.

(** [errors.Join] over the errors that are not nil. *)
Definition join_all (errs : list (option error)) : option error :=
  match omap id errs with [] => None | e :: r => Some (fold_left Join r e) end.

(* go: internal/notification/notification.go 52-61 Validate *)
Definition Validate (m : Message) : option error :=
  join_all
    [(if string_is_empty (TrimSpace (msg_Subject m)) then Some (Errorf "notification subject is required" []) else None);
     (if string_is_empty (TrimSpace (msg_Body m)) && string_is_empty (TrimSpace (msg_HTMLBody m))
      then Some (Errorf "notification body is required" []) else None)].

(** ** Mail *)

(* go: internal/notification/mail/mail.go 9-9 NormalizeAddress *)
Definition NormalizeAddress (value : string) : string := TrimSpace value.

(* go: internal/notification/mail/mail.go 11-19 NormalizeAddressList *)
Definition NormalizeAddressList (values : list string) : list string :=
  List.filter (fun v => negb (string_is_empty v)) (map NormalizeAddress values).

(* go: internal/notification/mail/ses/notifier.go 29-33 Options *)
Record Options : Type := mkSesOptions { so_Source : string; so_To : list string; so_SubjectPrefix : string }.

(* go: internal/notification/mail/ses/notifier.go 90-95 normalizeOptions *)
Definition normalizeOptions (opts : Options) : Options :=
  mkSesOptions (NormalizeAddress (so_Source opts)) (NormalizeAddressList (so_To opts)) (TrimSpace (so_SubjectPrefix opts)).

Section Mail.
(** [net/mail.ParseAddress] as a check. *)
Variable ParseAddress : string -> option error.

(* go: internal/notification/mail/mail.go 21-26 ValidateAddress *)
Definition ValidateAddress (field value : string) : option error :=
  match ParseAddress value with
  | Some err => Some (Wrapf "%s must be a valid email address: %w" [field] err)
  | None => None
  end.

Fixpoint validate_recipients (i : Z) (l : list string) : list (option error) :=
  match l with [] => [] | v :: l => ValidateAddress ("ses to[" +:+ itoa i +:+ "]") v :: validate_recipients (i + 1) l end.

(* go: internal/notification/mail/ses/notifier.go 97-111 validateOptions *)
Definition validateOptions (opts : Options) : option error :=
  join_all
    ((if string_is_empty (so_Source opts) then Some (Errorf "ses source is required" [])
      else ValidateAddress "ses source" (so_Source opts)) ::
     (if bool_decide (so_To opts = []) then Some (Errorf "ses to recipients are required" []) else None) ::
     validate_recipients 0 (so_To opts)).

(* go: internal/notification/mail/ses/notifier.go 54-60 validateAndNormalizeOptions *)
Definition validateAndNormalizeOptions (opts : Options) : result Options :=
  let opts := normalizeOptions opts in
  match validateOptions opts with Some err => Err err | None => Ok opts end.
End Mail.

(* go: internal/notification/mail/ses/notifier.go 117-125 prefixedSubject *)
Definition prefixedSubject (indicator prefix subject : string) : string :=
  Join_strings " " (List.filter (fun part => negb (string_is_empty part)) (map TrimSpace [indicator; prefix; subject])).

(** [html.EscapeString] and [strings.ReplaceAll(body, "\n", "<br>")]. *)
Definition escape_char (c : ascii) : string :=
  if Ascii.eqb c "&" then "&amp;"
  else if Ascii.eqb c "<" then "&lt;"
  else if Ascii.eqb c ">" then "&gt;"
  else if String.eqb (String c "") dquote then "&#34;"
  else if Ascii.eqb c "'" then "&#39;"
  else String c "".
Fixpoint EscapeString (s : string) : string :=
  match s with EmptyString => EmptyString | String c r => escape_char c +:+ EscapeString r end.
Fixpoint break_lines (s : string) : string :=
  match s with
  | EmptyString => EmptyString
  | String c r => (if (nat_of_ascii c =? 10)%nat then "<br>" else String c "") +:+ break_lines r
  end.

Definition attribute (name value : string) : string := " " +:+ name +:+ "=" +:+ dquote +:+ value +:+ dquote.

(* go: internal/notification/mail/ses/notifier.go 127-137 messageHTML *)
Definition messageHTML (msg : Message) : string :=
  let html := TrimSpace (msg_HTMLBody msg) in
  if negb (string_is_empty html) then html
  else
    "<!doctype html><html><body" +:+
    attribute "style" "margin:0;background:#f5f7fa;color:#172033;font-family:-apple-system,BlinkMacSystemFont,'Segoe UI',sans-serif;" +:+ ">" +:+
    "<div" +:+ attribute "style" "max-width:640px;margin:0 auto;padding:24px 16px;" +:+ ">" +:+
    "<div" +:+ attribute "style" "background:#ffffff;border:1px solid #e5e9f0;border-radius:12px;padding:24px;font-size:15px;line-height:1.65;" +:+ ">" +:+
    break_lines (EscapeString (TrimSpace (msg_Body msg))) +:+ "</div></div></body></html>".

(** ** Delivery *)

Inductive log_level : Type := LevelInfo | LevelWarn | LevelError.
Inductive log_value : Type :=
| LogString (s : string)
| LogInt (z : Z)
| LogDuration (d : Z)
| LogErr (e : error).

(** The call of the mail service answers with an output or nil, or an
    error. *)
Inductive NotifyOp : Type :=
| SendEmail (source : string) (to_ : list string) (subject html : string)
| Log (level : log_level) (message : string) (attrs : list (string * log_value)).

Definition NotifyResp (o : NotifyOp) : Type := match o with SendEmail _ _ _ _ => result bool | Log _ _ _ => unit end.

Definition NotifySig : EffSig := {| Op := NotifyOp; Resp := NotifyResp |}.
Notation N := (prog (Sig := NotifySig)).
Definition notify_op (o : NotifyOp) : N (NotifyResp o) := Call (Sig := NotifySig) o (fun r => Ret r).

(** The notifier: none, or mail with validated options. *)
(* go: internal/notification/notification.go 44-50 Notifier *)
Inductive Notifier : Type := Noop | SesNotifier (opts : Options).

(* go: internal/notification/mail/ses/notifier.go 62-88 Notify *)
Definition Notify (n : Notifier) (msg : Message) : N (option error) :=
  match n with
  | Noop => mret None
  | SesNotifier opts =>
      match Validate msg with
      | Some err => mret (Some err)
      | None =>
          out ← notify_op (SendEmail (so_Source opts) (so_To opts)
                  (prefixedSubject (Indicator (msg_Status msg)) (so_SubjectPrefix opts) (msg_Subject msg)) (messageHTML msg));
          mret (match out with
                | Err err => Some (Wrapf "send ses email: %w" [] err)
                | Ok false => Some (Errorf "notification mail ses: send email response is nil" [])
                | Ok true => None
                end)
      end
  end.

(* go: internal/notification/dispatcher.go 34-45 Alert *)
Definition Alert (n : Notifier) (key : string) (message : Message) : N unit :=
  if string_is_empty key then mret tt
  else
    err ← Notify n message;
    match err with
    | None => mret tt
    | Some err =>
        notify_op (Log LevelError "notification delivery failed"
          [("event", LogString "notification_delivery_failed"); ("alert_key", LogString key); ("error", LogErr err)])
    end.

(* go: internal/notification/dispatcher.go 49-60 Report *)
Definition Report (n : Notifier) (message : Message) : N unit :=
  err ← Notify n message;
  match err with
  | None => mret tt
  | Some err =>
      notify_op (Log LevelError "notification delivery failed"
        [("event", LogString "notification_delivery_failed"); ("notification_kind", LogString "funding_run_report"); ("error", LogErr err)])
  end.

(** *** Construction *)

Section Ses.
Variable ParseAddress : string -> option error.

(** A client of the mail service: its region and profile.  Loading its
    credentials is the AWS library's. *)
Context {Client : Type}.
Variable LoadDefaultConfig : string -> option string -> result Client.

(* go: internal/notification/mail/ses/notifier.go 42-52 NewNotifier *)
Definition NewNotifier (client : bool) (opts : Options) : result Notifier :=
  if negb client then Err (Errorf "notification mail ses: client is nil" [])
  else let? opts := validateAndNormalizeOptions ParseAddress opts in Ok (SesNotifier opts).

(* go: internal/notification/mail/ses/client.go 13-32 NewClient *)
Definition NewClient (cfg : AWSConfig) : result Client :=
  let cfg := validate_AWS cfg in
  if string_is_empty (aws_Region cfg) then Err (Errorf "AWS region is required for SES" [])
  else match LoadDefaultConfig (aws_Region cfg) (if string_is_empty (aws_Profile cfg) then None else Some (aws_Profile cfg)) with
       | Err err => Err (Wrapf "load AWS config: %w" [] err)
       | Ok client => Ok client
       end.

(** The options are checked before the client is made. *)
(* go: internal/notification/mail/ses/client.go 34-47 New *)
Definition New (awsCfg : AWSConfig) (sesCfg : SESConfig) : result (Client * Notifier) :=
  let? opts := validateAndNormalizeOptions ParseAddress
                 (mkSesOptions (ses_From sesCfg) (ses_To sesCfg) (ses_SubjectPrefix sesCfg)) in
  let? client := NewClient awsCfg in
  Ok (client, SesNotifier opts).
End Ses.

(** ** The observer of MySQL retries *)

(* go: internal/notification/dispatcher.go 15-15 mysqlAlertKey *)
Definition mysqlAlertKey : string := "mysql_down".
(* go: internal/notification/dispatcher.go 16-16 mysqlAlertThreshold *)
Definition mysqlAlertThreshold : Z := 3 * Minute.
(* go: internal/notification/dispatcher.go 17-17 mysqlProgressInterval *)
Definition mysqlProgressInterval : Z := Minute.

(* go: internal/notification/dispatcher.go 63-70 MySQLRetryObserver *)
Record MySQLRetryObserver : Type := mkRetryObserver { outages : gmap string Z; alerted : bool }.

(* go: internal/notification/dispatcher.go 74-85 NewMySQLRetryObserver *)
Definition NewMySQLRetryObserver : MySQLRetryObserver := mkRetryObserver ∅ false.

(** What a method does after it unlocked. *)
Inductive effect : Type :=
| SendAlert (key : string) (message : Message)
| WriteLog (level : log_level) (message : string) (attrs : list (string * log_value)).

(* go: internal/notification/dispatcher.go 182-196 mysqlMessage *)
Definition mysqlMessage (subject operation : string) (attempts unavailableFor : Z) : Message :=
  mkMessage (if String.eqb subject "MySQL recovered" then StatusSuccess else StatusCritical) subject
    (Join_strings (bytes_of [10])
       ["operation: " +:+ operation; "attempts: " +:+ itoa attempts;
        "unavailable duration: " +:+ Duration_string unavailableFor]) "".

Definition no_outage (outages : gmap string Z) : bool := bool_decide (outages = ∅).

(* go: internal/notification/dispatcher.go 87-106 RetryStarted *)
Definition RetryStarted (o : MySQLRetryObserver) (operation : string) (err : error) : MySQLRetryObserver * list effect :=
  match outages o !! operation with
  | Some _ => (o, [])
  | None =>
      (mkRetryObserver (<[operation := 0]> (outages o)) (if no_outage (outages o) then false else alerted o),
       [WriteLog LevelWarn "MySQL retry started"
          [("event", LogString "mysql_retry_started"); ("operation", LogString operation); ("error", LogErr err)]])
  end.

(* go: internal/notification/dispatcher.go 108-138 RetryProgress *)
Definition RetryProgress (o : MySQLRetryObserver) (operation : string) (attempts unavailableFor : Z) (err : error)
    : MySQLRetryObserver * list effect :=
  let lastProgress := default 0 (outages o !! operation) in
  let outages := match outages o !! operation with Some _ => outages o | None => <[operation := 0]> (outages o) end in
  let shouldLog := lastProgress + mysqlProgressInterval <=? unavailableFor in
  let outages := if shouldLog then <[operation := unavailableFor]> outages else outages in
  let shouldAlert := (mysqlAlertThreshold <=? unavailableFor) && negb (alerted o) in
  (mkRetryObserver outages (if shouldAlert then true else alerted o),
   (if shouldAlert then [SendAlert mysqlAlertKey (mysqlMessage "MySQL unavailable" operation attempts unavailableFor)] else []) ++
   (if shouldLog
    then [WriteLog LevelWarn "MySQL retry in progress"
            [("event", LogString "mysql_retry_progress"); ("operation", LogString operation); ("attempts", LogInt attempts);
             ("unavailable_duration", LogDuration unavailableFor); ("error", LogErr err)]]
    else [])).

(* go: internal/notification/dispatcher.go 144-154 Diagnostic *)
Definition Diagnostic (o : MySQLRetryObserver) (operation stage : string) (err : error) : MySQLRetryObserver * list effect :=
  (o, [WriteLog LevelWarn "MySQL dependency diagnostic"
         [("event", LogString "mysql_dependency_diagnostic"); ("operation", LogString operation); ("stage", LogString stage);
          ("error", LogErr err)]]).

(* go: internal/notification/dispatcher.go 156-180 Recovered *)
Definition Recovered (o : MySQLRetryObserver) (operation : string) (attempts unavailableFor : Z) : MySQLRetryObserver * list effect :=
  match outages o !! operation with
  | None => (o, [])
  | Some _ =>
      let outages := delete operation (outages o) in
      let wasLastAlertedOutage := alerted o && no_outage outages in
      (mkRetryObserver outages (if no_outage outages then false else alerted o),
       (if wasLastAlertedOutage
        then [SendAlert mysqlAlertKey (mysqlMessage "MySQL recovered" operation attempts unavailableFor)] else []) ++
       [WriteLog LevelInfo "MySQL connection recovered"
          [("event", LogString "mysql_connection_recovered"); ("operation", LogString operation); ("attempts", LogInt attempts);
           ("unavailable_duration", LogDuration unavailableFor)]])
  end.

(** A call of the retryer's observer. *)
Definition observe (o : MySQLRetryObserver) (e : retry_event) : MySQLRetryObserver * list effect :=
  match e with
  | Mysql.RetryStarted operation err => RetryStarted o operation err
  | Mysql.RetryProgress operation attempts unavailableFor err => RetryProgress o operation attempts unavailableFor err
  | Mysql.Recovered operation attempts unavailableFor => Recovered o operation attempts unavailableFor
  | Mysql.Diagnostic operation stage err => Diagnostic o operation stage err
  end.

Fixpoint observe_all (o : MySQLRetryObserver) (events : list retry_event) : MySQLRetryObserver * list effect :=
  match events with
  | [] => (o, [])
  | e :: events => let '(o, l) := observe o e in let '(o, l') := observe_all o events in (o, l ++ l')
  end.

(** Performing the effects with the dispatcher. *)
Fixpoint perform_effects (n : Notifier) (l : list effect) : N unit :=
  match l with
  | [] => mret tt
  | SendAlert key message :: l => Alert n key message ≫= fun _ => perform_effects n l
  | WriteLog level message attrs :: l => notify_op (Log level message attrs) ≫= fun _ => perform_effects n l
  end.
