(* ===== verification/Render.v ===== *)
(** * The mail of a funding report

    [internal/notification/fundingreport/render.go]: what the report of a run
    is shown as.  [buildView] computes the texts; [mail_texts] is the template
    read as the order and the conditions under which it shows them - the
    markup, the colours in the style attributes and the escaping of texts are
    the business of [html/template], whose result is a parameter of
    [Render]. *)

From S2P Require Import Prelude Prog DecimalSpec Model Clock Timestamp Text Envelope Report Effects Notification.

(** ** Views *)

(* go: internal/notification/fundingreport/render.go 42-54 builderView *)
Record builderView : Type := mkBuilderView {
  bv_Name : string;
  bv_Address : string;
  bv_Claimable : string;
  bv_ClaimableQueries : string;
  bv_Claim : string;
  bv_ClaimColor : string;
  bv_Sweep : string;
  bv_SweepColor : string;
  bv_RateLimit : string;
  bv_RateColor : string;
  bv_RateIssue : bool
}.

(* go: internal/notification/fundingreport/render.go 56-67 dailyConsolidationView *)
Record dailyConsolidationView : Type := mkDailyView {
  dv_Show : bool;
  dv_Status : string;
  dv_Color : string;
  dv_Tint : string;
  dv_UTCDate : string;
  dv_Total : string;
  dv_TotalLabel : string;
  dv_Coverage : string;
  dv_Difference : string;
  dv_DifferenceColor : string
}.

(* go: internal/notification/fundingreport/render.go 69-84 payoutView *)
Record payoutView : Type := mkPayoutView {
  pv_ShowDiagnostics : bool;
  pv_Name : string;
  pv_RecordCount : string;
  pv_RawTotal : string;
  pv_Amount : string;
  pv_TotalBefore : string;
  pv_FirstSubmit : string;
  pv_ExactReplay : string;
  pv_Evidence : string;
  pv_Nonce : string;
  pv_Status : string;
  pv_StatusColor : string;
  pv_Database : string;
  pv_DatabaseColor : string
}.

(* go: internal/notification/fundingreport/render.go 86-98 settlementView *)
Record settlementView : Type := mkSettlementView {
  sv_ShowBalances : bool;
  sv_ShowBreakdown : bool;
  sv_RateIssue : bool;
  sv_Total : string;
  sv_Hold : string;
  sv_Available : string;
  sv_Status : string;
  sv_Color : string;
  sv_Tint : string;
  sv_RateLimit : string;
  sv_RateColor : string
}.

(* go: internal/notification/fundingreport/render.go 16-40 view *)
Record view : Type := mkView {
  vw_StatusLabel : string;
  vw_StatusColor : string;
  vw_StatusTint : string;
  vw_Subject : string;
  vw_Preheader : string;
  vw_Compact : bool;
  vw_Duration : string;
  vw_Builders : list builderView;
  vw_SingleBuilder : option builderView;
  vw_DailyConsolidation : dailyConsolidationView;
  vw_Settlement : settlementView;
  vw_Payouts : list payoutView;
  vw_Warnings : list string;
  vw_ShowFailure : bool;
  vw_FailureStage : string;
  vw_FailureSummary : string;
  vw_NextAction : string;
  vw_RunID : string;
  vw_Trigger : string;
  vw_Execution : string;
  vw_Network : string;
  vw_Phase : string;
  vw_FinishedAt : string
}.

(** ** Texts *)

(* go: internal/notification/fundingreport/render.go 574-579 fallback *)
Definition fallback (value replacement : string) : string :=
  if string_is_empty (TrimSpace value) then replacement else TrimSpace value.

(* go: internal/notification/fundingreport/render.go 581-589 nonempty *)
Definition nonempty (values : list string) : list string :=
  List.filter (fun v => negb (string_is_empty v)) (map TrimSpace values).

(* go: internal/notification/fundingreport/render.go 538-540 displayAmount *)
Definition displayAmount (value : string) : string := fallback value "—".

(* go: internal/notification/fundingreport/render.go 542-547 displayClaimable *)
Definition displayClaimable (value : string) : string := if string_is_empty value then "—" else value +:+ " USDC".

(* go: internal/notification/fundingreport/render.go 549-555 shortAddress *)
Definition shortAddress (value : string) : string :=
  let value := TrimSpace value in
  if (String.length value <=? 16)%nat then fallback value "—"
  else take_bytes 8 value +:+ "…" +:+ drop_bytes (String.length value - 6) value.

(* go: internal/notification/fundingreport/render.go 531-536 recordCount *)
Definition recordCount (report : RunReport) : string := if rep_RecordsRead report then itoa (rep_RecordCount report) else "—".

(** [n / d] rounded to an integer, ties to the even one. *)
Definition round_half_even (n d : Z) : Z :=
  let q := n / d in let r := n mod d in
  if 2 * r <? d then q else if d <? 2 * r then q + 1 else if Z.even q then q else q + 1.

(** The double nearest to [n / d], as a significand of 53 bits and the power
    of two it is divided by; for [0 < n / d < 2^52]. *)
Definition nearest_double (n d : Z) : Z * Z :=
  if n =? 0 then (0, 1)
  else
    let k := 52 - (Z.log2 n - Z.log2 d) in
    let k := if n * 2 ^ k / d <? 2 ^ 52 then k + 1 else k in
    (round_half_even (n * 2 ^ k) d, 2 ^ k).

(** [fmt.Sprintf] with [%.1f] of [d.Seconds()], which adds the whole seconds
    and the fraction as doubles. *)
Definition seconds_text (d : Z) : string :=
  let '(m, p) := nearest_double (d mod Second) Second in
  let '(m, p) := nearest_double (d / Second * p + m) p in
  let tenths := round_half_even (m * 10) p in
  itoa (tenths / 10) +:+ "." +:+ itoa (tenths mod 10).

(** [duration.Round(time.Second)] of a duration that is not negative. *)
Definition round_seconds (d : Z) : Z :=
  let r := d mod Second in if r + r <? Second then d - r else d + (Second - r).

(* go: internal/notification/fundingreport/render.go 557-565 formatDuration *)
Definition formatDuration (d : Z) : string :=
  if d <? Second then "<1 秒"
  else if d <? Minute then seconds_text d +:+ " 秒"
  else Duration_string (round_seconds d).

(* go: internal/notification/fundingreport/render.go 567-572 formatTime *)
Definition formatTime (t : Z) : string :=
  if IsZero t then "—"
  else
    let r := t mod Day in
    FormatDateOnly t +:+ " " +:+ two_digits (r / Hour) +:+ ":" +:+ two_digits (r mod Hour / Minute) +:+ ":" +:+
    two_digits (r mod Minute / Second) +:+ " UTC".

(* go: internal/notification/fundingreport/render.go 390-403 reportStatus *)
Definition reportStatus (status : ReportStatus) : string * string * string :=
  match status with
  | ReportStatusSuccess => ("已完成", "#15803d", "#ecfdf3")
  | ReportStatusWarning => ("成功但有告警", "#b45309", "#fffbeb")
  | ReportStatusNoData => ("无待处理数据", "#2563eb", "#eff6ff")
  | ReportStatusRetrying => ("等待自动重试", "#c2410c", "#fff7ed")
  | _ => ("需要人工处理", "#b91c1c", "#fef2f2")
  end.

(* go: internal/notification/fundingreport/render.go 405-418 notificationStatus *)
Definition notificationStatus (status : ReportStatus) : Status :=
  match status with
  | ReportStatusSuccess => StatusSuccess
  | ReportStatusWarning => StatusWarning
  | ReportStatusNoData => StatusInfo
  | ReportStatusRetrying => StatusRetrying
  | _ => StatusCritical
  end.

(* go: internal/notification/fundingreport/render.go 420-443 builderStep *)
Definition builderStep (status : ReportStepStatus) (summary : string) : string * string :=
  if negb (string_is_empty summary) then
    (summary, match status with
              | ReportStepSuccess => "#15803d"
              | ReportStepWarning | ReportStepFailed => "#b45309"
              | _ => "#64748b"
              end)
  else match status with
       | ReportStepSuccess => ("已完成", "#15803d")
       | ReportStepWarning => ("有告警", "#b45309")
       | ReportStepSkipped => ("已跳过", "#64748b")
       | ReportStepFailed => ("失败", "#b91c1c")
       | _ => ("未观察", "#64748b")
       end.

(* go: internal/notification/fundingreport/render.go 445-454 triggerLabel *)
Definition triggerLabel (trigger : Trigger) : string :=
  match trigger with
  | TriggerUTC => "UTC 定时任务"
  | TriggerRunOnStart => "启动时执行"
  | _ => fallback (trigger_string trigger) "—"
  end.

Definition attempt_text (report : RunReport) : string :=
  "第 " +:+ itoa (rep_Attempt report) +:+ "/" +:+ itoa (rep_MaxAttempts report) +:+ " 次".

(* go: internal/notification/fundingreport/render.go 456-464 executionLabel *)
Definition executionLabel (report : RunReport) : string :=
  if rep_Recovery report then "恢复执行"
  else if (0 <? rep_Attempt report) && (0 <? rep_MaxAttempts report) then attempt_text report +:+ "尝试"
  else "新运行".

(* go: internal/notification/fundingreport/render.go 466-471 attemptSummary *)
Definition attemptSummary (report : RunReport) : string :=
  if (rep_Attempt report <=? 0) || (rep_MaxAttempts report <=? 0) then "" else attempt_text report +:+ "尝试".

(* go: internal/notification/fundingreport/render.go 473-490 stageLabel *)
Definition stageLabel (key : string) : string :=
  if String.eqb key "snapshot" then "数据快照"
  else if String.eqb key "rewards" then "Reward"
  else if String.eqb key "sweep" then "资金归集"
  else if String.eqb key "referral_payout" then "Referral Payout"
  else if String.eqb key "referral_database" then "Referral 数据库"
  else if String.eqb key "finalize" then "状态归档"
  else fallback key "任务执行".

(* go: internal/notification/fundingreport/render.go 492-499 payoutName *)
Definition payoutName (kind : PayoutKind) : string :=
  match kind with PayoutKindReferral => "Referral Payout" | PayoutKindOther s => fallback s "Payout" end.

(* go: internal/notification/fundingreport/render.go 501-506 firstSubmitLabel *)
Definition firstSubmitLabel (attempts : Z) : string := if 0 <? attempts then "已授权 / 可能已发送" else "未授权".

(* go: internal/notification/fundingreport/render.go 508-513 exactReplayLabel *)
Definition exactReplayLabel (attempts : Z) : string :=
  if 1 <? attempts then "已授权 / 可能已发送（原请求 / 相同 nonce）" else "未授权".

(* go: internal/notification/fundingreport/render.go 515-529 evidenceLabel *)
Definition evidenceLabel (evidence : string) (blocked : bool) : string :=
  if String.eqb evidence "exchange_response" then "Exchange 明确确认"
  else if String.eqb evidence "settlement_balance_decreased" then "Settlement 精确减少 amount"
  else if String.eqb evidence "settlement_balance_decreased_with_activation_fee"
  then "Settlement 精确减少 amount + 1 USDC（新地址费用）"
  else if blocked then "发送方余额未能确认（blocked）"
  else fallback evidence "—".

(* go: internal/notification/fundingreport/render.go 377-388 settlementBalanceSummary *)
Definition settlementBalanceSummary (balance : SettlementBalanceReport) : string :=
  if sb_PostPayoutUnconfirmed balance then "Settlement Payout 后余额未确认"
  else if sb_QueryFailed balance then "Settlement 结束余额查询失败"
  else if sb_Observed balance then "Settlement available " +:+ displayAmount (sb_Available balance) +:+ " USDC"
  else "".

Section Render.
Context `{DecimalOps}.

(** ** The view *)

(** Incomplete records give no income. *)
(* go: internal/notification/fundingreport/render.go 282-295 reportIncome *)
Definition reportIncome (report : RunReport) : option decimal :=
  let c := rep_DailyConsolidation report in
  if negb (rep_RecordsRead report) || negb (dcr_Observed c) || dcr_Missing c || dcr_LoadFailed c ||
     (dcr_BuilderCount c <=? 0) || negb (dcr_RecordedBuilders c =? dcr_BuilderCount c) ||
     negb (dcr_ObservedBuilders c =? dcr_BuilderCount c)
  then None
  else match dec_parse (dcr_TotalClaimableUSDC c), dec_parse (rep_PayoutTotal report) with
       | Some claimable, Some payout =>
           if dec_neg claimable || dec_neg payout then None else Some (dec_sub claimable payout)
       | _, _ => None
       end.

(* go: internal/notification/fundingreport/render.go 297-312 subject *)
Definition subject (report : RunReport) (statusLabel : string) : string :=
  let status :=
    match rep_Status report with
    | ReportStatusSuccess => []
    | ReportStatusRetrying =>
        [if (0 <? rep_Attempt report) && (0 <? rep_MaxAttempts report)
         then attempt_text report +:+ "执行失败 · 等待重试" else statusLabel]
    | _ => [statusLabel]
    end in
  let income := match reportIncome report with
                | Some income => ["收入 " +:+ dec_fixed income 2 +:+ " USDC"]
                | None => []
                end in
  match (status ++ income)%list with
  | [] => "收入 — USDC"
  | parts => Join_strings " · " parts
  end.

(* go: internal/notification/fundingreport/render.go 314-334 preheader *)
Definition preheader (report : RunReport) (duration : Z) : string :=
  let balance := settlementBalanceSummary (rep_SettlementBalance report) in
  Join_strings " · " (nonempty
    (if negb (string_is_empty (rep_FailureSummary report))
     then [rep_FailureSummary report; balance; attemptSummary report; rep_NextAction report]
     else if String.eqb (rep_Outcome report) "no_data"
     then ["本轮没有待处理 funding records，无需执行链上操作。"; balance]
     else [recordCount report +:+ " 条记录"; balance; "耗时 " +:+ formatDuration duration])).

(** The texts and colours of a rate limit. *)
(* go: internal/notification/fundingreport/render.go 358-373 buildSettlementView *)
Definition rate_texts (failed unconfirmed observed : bool) (remaining : Z) : string * string :=
  if failed then ("查询失败", "#dc2626")
  else if unconfirmed then ("最低观测 " +:+ itoa remaining +:+ " · 刷新未确认", "#d97706")
  else if observed then ("剩余 " +:+ itoa remaining, if remaining <? 200 then "#d97706" else "#15803d")
  else ("未观察", "#64748b").

Definition rate_issue (failed unconfirmed observed : bool) (remaining : Z) : bool :=
  failed || unconfirmed || (observed && (remaining <? 200)).

(* go: internal/notification/fundingreport/render.go 336-375 buildSettlementView *)
Definition buildSettlementView (report : RunReport) : settlementView :=
  let balance := rep_SettlementBalance report in
  let failed := rep_SettlementRateLimitQueryFailed report in
  let unconfirmed := rep_SettlementRateLimitVisibilityUnconfirmed report in
  let observed := rep_SettlementRateLimitObserved report in
  let remaining := rep_SettlementRateLimitRemaining report in
  let showBalances := sb_Observed balance && negb (sb_QueryFailed balance) && negb (sb_PostPayoutUnconfirmed balance) in
  let showBreakdown := match dec_parse (sb_Hold balance) with
                       | Some hold => if negb (dec_equal hold dec_zero) then showBalances else false
                       | None => false
                       end in
  let '(status, color, tint) :=
    if sb_PostPayoutUnconfirmed balance then ("Payout 后余额未确认", "#b45309", "#fffbeb")
    else if sb_QueryFailed balance then ("查询失败", "#b91c1c", "#fef2f2")
    else if sb_Observed balance then ("已观察", "#15803d", "#ecfdf3")
    else ("未观察", "#64748b", "#f8fafc") in
  let '(rateLimit, rateColor) := rate_texts failed unconfirmed observed remaining in
  mkSettlementView showBalances showBreakdown (rate_issue failed unconfirmed observed remaining)
    (displayAmount (sb_Total balance)) (displayAmount (sb_Hold balance)) (displayAmount (sb_Available balance))
    status color tint rateLimit rateColor.

Definition completed (c : DailyConsolidationReport) : bool := bool_decide (dcr_Status c = DailyConsolidationCompleted).

(** The status of the reconciliation: the first case that applies. *)
(* go: internal/notification/fundingreport/render.go 251-270 buildDailyConsolidationView *)
Definition daily_status (c : DailyConsolidationReport) : string * string * string :=
  let all := dcr_ObservedBuilders c =? dcr_BuilderCount c in
  if dcr_LoadFailed c then ("读取失败", "#b91c1c", "#fef2f2")
  else if dcr_Missing c then ("未记录", "#b45309", "#fffbeb")
  else if dcr_Observed c && negb all then ("零点数据不完整", "#b45309", "#fffbeb")
  else if dcr_Observed c && negb (completed c) then ("Claimable 已记录，归集未完成", "#b45309", "#fffbeb")
  else if dcr_Observed c && dcr_BelowPayout c then ("完整但低于 Payout", "#b91c1c", "#fef2f2")
  else if dcr_Observed c && (0 <? dcr_UncertainClaims c) then ("对账完整，Claim 结果不确定", "#b45309", "#fffbeb")
  else if dcr_Observed c && dcr_CoversPayout c then ("完整，Claimable ≥ Payout", "#15803d", "#ecfdf3")
  else if dcr_Observed c && all then ("完整", "#15803d", "#ecfdf3")
  else if dcr_Observed c then ("记录不完整", "#b45309", "#fffbeb")
  else ("未记录", "#b45309", "#fffbeb").

Definition no_daily_view : dailyConsolidationView := mkDailyView false "" "" "" "" "" "" "" "" "".

(* go: internal/notification/fundingreport/render.go 229-280 buildDailyConsolidationView *)
Definition buildDailyConsolidationView (report : RunReport) : dailyConsolidationView :=
  let c := rep_DailyConsolidation report in
  if string_is_empty (dcr_UTCDate c) && negb (dcr_Observed c) && negb (dcr_Missing c) && negb (dcr_LoadFailed c)
  then no_daily_view
  else
    let label := if dcr_Observed c && (0 <? dcr_ObservedBuilders c) && negb (dcr_ObservedBuilders c =? dcr_BuilderCount c)
                 then "已观测 Claimable 小计" else "零点 Claimable 合计" in
    let '(status, color, tint) := daily_status c in
    let '(difference, differenceColor) :=
      match reportIncome report with
      | Some income => (dec_string income, if dec_neg income then "#b91c1c" else "#15803d")
      | None => ("—", "#64748b")
      end in
    mkDailyView true status color tint (fallback (dcr_UTCDate c) "—") (displayAmount (dcr_TotalClaimableUSDC c)) label
      (itoa (dcr_ObservedBuilders c) +:+ "/" +:+ itoa (dcr_BuilderCount c)) difference differenceColor.

(* go: internal/notification/fundingreport/render.go 151-191 buildView *)
Definition builder_view (b : BuilderReport) : builderView :=
  let '(claimText, claimColor) := builderStep (br_ClaimStatus b) (br_ClaimSummary b) in
  let claimText := if 1 <? br_ClaimAttempts b then claimText +:+ " · 提交 " +:+ itoa (br_ClaimAttempts b) +:+ " 次" else claimText in
  let '(sweepText, sweepColor) := builderStep (br_SweepStatus b) (br_SweepSummary b) in
  let sweepText := if negb (string_is_empty (br_SweepAmount b)) then br_SweepAmount b +:+ " USDC · " +:+ sweepText else sweepText in
  let failed := br_RateLimitQueryFailed b in
  let unconfirmed := br_RateLimitVisibilityUnconfirmed b in
  let observed := br_RateLimitObserved b in
  let remaining := br_RateLimitRemaining b in
  let '(rateText, rateColor) := rate_texts failed unconfirmed observed remaining in
  let queries := br_ClaimableQueryAttempts b in
  let claimableText := displayClaimable (br_ClaimableUSDC b) in
  mkBuilderView (fallback (br_Name b) "Builder") (shortAddress (br_Address b))
    (if 1 <? queries then claimableText +:+ " · 查询 " +:+ itoa queries +:+ " 次" else claimableText)
    (if 1 <? queries then "Claimable 查询 " +:+ itoa queries +:+ " 次" else "")
    claimText claimColor sweepText sweepColor rateText rateColor (rate_issue failed unconfirmed observed remaining).

(** A target nothing happened to is left out. *)
(* go: internal/notification/fundingreport/render.go 197-200 buildView *)
Definition shown (t : PayoutTargetReport) : bool :=
  ptr_RecordsRead t || negb (string_is_empty (pr_Amount (ptr_Payout t))) ||
  negb (bool_decide (pr_Status (ptr_Payout t) = ReportStepPending)).

(* go: internal/notification/fundingreport/render.go 201-224 buildView *)
Definition payout_view (report : RunReport) (t : PayoutTargetReport) : payoutView :=
  let p := ptr_Payout t in
  let '(payoutStatus, payoutColor) := builderStep (pr_Status p) "" in
  let '(databaseStatus, databaseColor) := builderStep (ptr_DatabaseStatus t) "" in
  let calm := bool_decide (rep_Status report = ReportStatusSuccess) || bool_decide (rep_Status report = ReportStatusNoData) in
  mkPayoutView (negb calm || rep_Recovery report || (1 <? pr_SubmitAttempts p))
    (payoutName (ptr_Kind t)) (itoa (ptr_RecordCount t)) (displayAmount (ptr_RawTotal t)) (displayAmount (pr_Amount p))
    (displayAmount (pr_SettlementTotalBefore p)) (firstSubmitLabel (pr_SubmitAttempts p)) (exactReplayLabel (pr_SubmitAttempts p))
    (evidenceLabel (pr_ConfirmationEvidence p) (pr_Blocked p)) (if pr_Nonce p =? 0 then "—" else itoa (pr_Nonce p))
    payoutStatus payoutColor databaseStatus databaseColor.

(** [strings.ToUpper] on ASCII text. *)
Fixpoint toUpper (s : string) : string :=
  match s with
  | EmptyString => EmptyString
  | String c r => String (if in_range 97 122 c then ascii_of_nat (nat_of_ascii c - 32) else c) (toUpper r)
  end.

(* go: internal/notification/fundingreport/render.go 118-123 buildView *)
Definition status_label (report : RunReport) : string :=
  if String.eqb (rep_Outcome report) "no_data" && bool_decide (rep_Status report = ReportStatusWarning) then "无数据但有告警"
  else if String.eqb (rep_Outcome report) "retry_exhausted" then "自动重试已耗尽"
  else fst (fst (reportStatus (rep_Status report))).

(* go: internal/notification/fundingreport/render.go 117-227 buildView *)
Definition buildView (report : RunReport) : view :=
  let '(_, statusColor, statusTint) := reportStatus (rep_Status report) in
  let statusLabel := status_label report in
  let duration := Z.max 0 (rep_FinishedAt report - rep_StartedAt report) in
  let builders := map builder_view (rep_Builders report) in
  mkView statusLabel statusColor statusTint (subject report statusLabel) (preheader report duration) (rep_Compact report)
    (formatDuration duration) builders
    (match builders with [b] => if rep_Compact report then None else Some b | _ => None end)
    (buildDailyConsolidationView report) (buildSettlementView report)
    (map (payout_view report) (List.filter shown (rep_Payouts report))) (rep_Warnings report)
    (negb (string_is_empty (rep_FailureSummary report))) (stageLabel (rep_FailureStage report)) (rep_FailureSummary report)
    (rep_NextAction report) (fallback (rep_RunID report) "—") (triggerLabel (rep_Trigger report)) (executionLabel report)
    (fallback (toUpper (rep_Network report)) "—") (fallback (phase_string (rep_Phase report)) "—") (formatTime (rep_FinishedAt report)).

(** ** The mail *)

(** [template.Execute]: the markup of a view, unless it fails. *)
Variable execute_template : view -> option string.

(* go: internal/notification/fundingreport/render.go 100-115 Render *)
Definition Render (report : RunReport) : Message :=
  let data := buildView report in
  match execute_template data with
  | None => mkMessage StatusCritical "资金任务报告生成失败" "资金任务已经结束，但 HTML 报告生成失败。请检查服务日志。" ""
  | Some body => mkMessage (notificationStatus (rep_Status report)) (vw_Subject data) "" body
  end.

(** ** Delivery

    The notifier of the funding service, over the dispatcher of the
    application. *)

(* go: internal/app/app.go 318-333 Alert *)
Definition fundingAlert (n : Notifier) (key : string) (severity : AlertSeverity) (message : string) : N unit :=
  let status := match severity with AlertSeverityCritical => StatusCritical | AlertSeverityWarning => StatusWarning end in
  Alert n key (mkMessage status "Funding service alert" message "").

(* go: internal/app/app.go 335-339 Report *)
Definition fundingReport (n : Notifier) (report : RunReport) : N unit := Notification.Report n (Render report).
End Render.

(** *** What the template shows

    The texts of the view, in the order of the mail. *)

(* go: internal/notification/fundingreport/render.go 729-735 reportTemplate *)
Definition settlement_texts (s : settlementView) : list string :=
  (if sv_ShowBalances s then [sv_Available s] else [sv_Status s]) ++
  (if sv_ShowBreakdown s then [sv_Total s; sv_Hold s] else []) ++
  (if sv_RateIssue s then [sv_RateLimit s] else []).

(* go: internal/notification/fundingreport/render.go 629-646 reportTemplate *)
Definition reconciliation_texts (v : view) : list string :=
  let d := vw_DailyConsolidation v in
  (if dv_Show d then [dv_UTCDate d; dv_Difference d; dv_Status d; dv_Coverage d; dv_TotalLabel d; dv_Total d] else []) ++
  match vw_SingleBuilder v with
  | Some b =>
      [bv_Name b; bv_Address b] ++ (if string_is_empty (bv_ClaimableQueries b) then [] else [bv_ClaimableQueries b]) ++
      [bv_Claim b; bv_Sweep b] ++ (if bv_RateIssue b then [bv_RateLimit b] else [])
  | None => []
  end.

(* go: internal/notification/fundingreport/render.go 648-668 reportTemplate *)
Definition builders_texts (v : view) : list string :=
  if negb (vw_Compact v) && (1 <? length (vw_Builders v))%nat
  then flat_map (fun b => [bv_Name b; bv_Address b] ++ (if bv_RateIssue b then [bv_RateLimit b] else []) ++
                          [bv_Claimable b; bv_Claim b; bv_Sweep b]) (vw_Builders v)
  else [].

(* go: internal/notification/fundingreport/render.go 670-706 reportTemplate *)
Definition payout_texts (v : view) : list string :=
  (if negb (vw_Compact v)
   then flat_map (fun p => [pv_Name p; pv_Amount p; pv_RecordCount p; pv_Status p; pv_Database p] ++
                           (if pv_ShowDiagnostics p
                            then [pv_RawTotal p; pv_TotalBefore p; pv_FirstSubmit p; pv_ExactReplay p; pv_Evidence p; pv_Nonce p]
                            else []) ++ settlement_texts (vw_Settlement v)) (vw_Payouts v)
   else []) ++
  (if vw_Compact v || match vw_Payouts v with [] => true | _ => false end
   then (if vw_Compact v then flat_map (fun p => [pv_Amount p; pv_Status p; pv_Database p]) (vw_Payouts v) else []) ++
        settlement_texts (vw_Settlement v)
   else []).

(* go: internal/notification/fundingreport/render.go 591-727 reportTemplate *)
Definition mail_texts (v : view) : list string :=
  [vw_Preheader v; vw_StatusLabel v] ++
  (if vw_ShowFailure v
   then [vw_FailureStage v; vw_FailureSummary v] ++ (if string_is_empty (vw_NextAction v) then [] else [vw_NextAction v]) else []) ++
  reconciliation_texts v ++ builders_texts v ++ payout_texts v ++ vw_Warnings v ++
  [vw_Network v; vw_FinishedAt v; vw_Duration v; vw_Trigger v; vw_Execution v; vw_RunID v] ++
  (if vw_ShowFailure v then [vw_Phase v] else []).
