(* ===== verification/RenderTheorems.v ===== *)
(** * What the mail of a report tells

    The operator learns of a run by its mail.  The colour of the message is
    the outcome of the run ([indicator_matches_outcome]); the income in its
    subject is the difference of exact sums, and there is none unless every
    builder was observed and the payout is known
    ([reported_income_is_exact]); and no warning, failure, payout or nonce an
    operator has to act on is left out ([mail_is_complete]). *)

From Stdlib Require Import QArith Qround Qpower Lqa.
From S2P Require Import Prelude DecimalSpec Model Prog Clock Timestamp Text Envelope Report Effects Daily Notification Render DecimalImpl.

(** ** Trimming keeps what is not white space *)

Notation bytes_in s := (String.list_ascii_of_string s).

Lemma bytes_app a b : bytes_in (a +:+ b) = bytes_in a ++ bytes_in b.
Proof. induction a as [|c a IH]; [done|]. cbn. by f_equal. Qed.

Lemma bytes_rev s : bytes_in (String.rev s) = reverse (bytes_in s).
Proof. induction s as [|c s IH]; [done|]. rewrite string_rev_cons, bytes_app, IH. cbn [String.list_ascii_of_string]. by rewrite reverse_cons. Qed.

Lemma trim_start_keeps ps fuel s c :
  Forall (fun p => c ∉ bytes_in p) ps -> c ∈ bytes_in s -> c ∈ bytes_in (trim_start ps fuel s).
Proof.
  intros Hps. revert s. induction fuel as [|fuel IH]; intros s Hc; [done|]. cbn [trim_start].
  destruct (first_strip ps s) as [r|] eqn:E; [|done]. apply IH.
  apply first_strip_some in E as (p & Hp & ->). rewrite bytes_app in Hc. apply elem_of_app in Hc as [Hc|Hc]; [|done].
  rewrite Forall_forall in Hps. by destruct (Hps p).
Qed.

(** A byte no white-space rune has. *)
Definition visible (c : ascii) : bool := forallb (fun p => negb (existsb (Ascii.eqb c) (bytes_in p))) space_runes.

Lemma visible_spec c : visible c = true -> Forall (fun p => c ∉ bytes_in p) space_runes.
Proof.
  unfold visible. rewrite forallb_forall. intros H. apply Forall_forall. intros p Hp Hc. apply list_elem_of_In in Hp.
  apply H in Hp. apply negb_true_iff in Hp. rewrite <- not_true_iff_false in Hp. apply Hp, existsb_exists.
  exists c. split; [by apply list_elem_of_In|apply Ascii.eqb_refl].
Qed.

Lemma TrimSpace_visible c s : visible c = true -> c ∈ bytes_in s -> string_is_empty (TrimSpace s) = false.
Proof.
  intros Hv Hc. apply visible_spec in Hv. unfold TrimSpace, TrimRightSpace.
  apply (trim_start_keeps space_runes (String.length s)) in Hc; [|done]. fold (TrimLeftSpace s) in Hc.
  set (t := TrimLeftSpace s) in *.
  assert (c ∈ bytes_in (String.rev (trim_start (map String.rev space_runes) (String.length t) (String.rev t)))) as H.
  { rewrite bytes_rev, elem_of_reverse. apply trim_start_keeps.
    - apply Forall_forall. intros p Hp. apply list_elem_of_fmap in Hp as (w & -> & Hw). rewrite bytes_rev, elem_of_reverse.
      rewrite Forall_forall in Hv. by apply Hv.
    - by rewrite bytes_rev, elem_of_reverse. }
  destruct (String.rev _); [by apply elem_of_nil in H|done].
Qed.

Lemma Join_head sep c r rest : exists q, Join_strings sep (String c r :: rest) = String c q.
Proof. destruct rest as [|x rest]; eexists; [done|]. reflexivity. Qed.

(** ** The colour of the message *)

Section Rendering.
Context `{DecimalOps}.

Lemma status_label_head report : exists c q, status_label report = String c q /\ visible c = true.
Proof.
  unfold status_label.
  destruct (_ && _); [eexists _, _; by split|]. destruct (String.eqb _ _); [eexists _, _; by split|].
  destruct (rep_Status report); eexists _, _; by split.
Qed.

Lemma subject_not_blank report : string_is_empty (TrimSpace (subject report (status_label report))) = false.
Proof.
  assert (exists c q, subject report (status_label report) = String c q /\ visible c = true) as (c & q & E & Hv).
  { unfold subject. destruct (status_label_head report) as (c & q & Es & Hv).
    assert (forall x l, (exists c q, x = String c q /\ visible c = true) ->
              exists c q, match x :: l with [] => "收入 — USDC" | parts => Join_strings " · " parts end = String c q /\ visible c = true) as Hj.
    { intros x l (c' & q' & -> & Hv'). destruct (Join_head " · " c' q' l) as [q'' ->]. by eexists _, _. }
    assert (exists c q, status_label report = String c q /\ visible c = true) as Hs by (by eexists _, _).
    destruct (rep_Status report); cbn [app]; try (by apply Hj).
    - destruct (reportIncome report); [apply Hj|]; eexists _, _; by split.
    - apply Hj. destruct (_ && _); [|done]. eexists _, _; by split. }
  eapply TrimSpace_visible; [exact Hv|]. rewrite E. apply elem_of_cons. by left.
Qed.

(** The outcome of a run as an operator is told it, by a finished report. *)
Definition outcome_status (err : option error) (r : RunReport) : Status :=
  match err with
  | None =>
      match rep_Warnings (reconcileDailyConsolidation r) with
      | _ :: _ => StatusWarning
      | [] => if String.eqb (rep_Outcome r) "no_data" then StatusInfo else StatusSuccess
      end
  | Some err =>
      if negb (IsFatal err) && (0 <? rep_Attempt r) && (rep_Attempt r <? rep_MaxAttempts r) then StatusRetrying
      else StatusCritical
  end.

Lemma addWarning_other message (r : RunReport) :
  rep_DailyConsolidation (addWarning message r) = rep_DailyConsolidation r /\ rep_Outcome (addWarning message r) = rep_Outcome r /\
  rep_Attempt (addWarning message r) = rep_Attempt r /\ rep_MaxAttempts (addWarning message r) = rep_MaxAttempts r /\
  rep_RecordsRead (addWarning message r) = rep_RecordsRead r /\ rep_PayoutTotal (addWarning message r) = rep_PayoutTotal r /\
  rep_Trigger (addWarning message r) = rep_Trigger r /\ rep_Builders (addWarning message r) = rep_Builders r.
Proof. unfold addWarning. cbv zeta. by repeat case_match. Qed.

Lemma reconcile_other (r : RunReport) :
  rep_Outcome (reconcileDailyConsolidation r) = rep_Outcome r /\
  rep_Attempt (reconcileDailyConsolidation r) = rep_Attempt r /\ rep_MaxAttempts (reconcileDailyConsolidation r) = rep_MaxAttempts r.
Proof.
  unfold reconcileDailyConsolidation. cbv zeta. repeat case_match; try done.
  destruct (addWarning_other ("UTC 00:00 Claimable 合计 " +:+ dec_string d +:+
            " USDC，低于 Referral Payout " +:+ dec_string d0 +:+ " USDC，短缺 " +:+
            dec_string (dec_sub d0 d) +:+ " USDC，请人工核查结算口径") (r <| rep_DailyConsolidation ::= (fun c =>
    c <| dcr_CoversPayout := false |> <| dcr_BelowPayout := false |> <| dcr_ShortfallUSDC := "" |>) |>
      <| rep_DailyConsolidation ::= (fun c =>
            c <| dcr_BelowPayout := true |> <| dcr_ShortfallUSDC := dec_string (dec_sub d0 d) |>) |>)) as (_ & Ho & Ha & Hm & _).
  by rewrite Ho, Ha, Hm.
Qed.

Lemma reconcile_finished now (r : RunReport) :
  rep_Warnings (reconcileDailyConsolidation (r <| rep_FinishedAt := now |>)) = rep_Warnings (reconcileDailyConsolidation r).
Proof.
  unfold reconcileDailyConsolidation. cbv zeta.
  change (rep_DailyConsolidation (r <| rep_FinishedAt := now |> <| rep_DailyConsolidation ::= ?f |>)) with (f (rep_DailyConsolidation r)).
  destruct (_ || _); [done|].
  destruct (dec_parse _); [|done]. destruct (dec_parse _); [|done]. destruct (negb _); [done|].
  unfold addWarning. cbv zeta. destruct (string_is_empty _); [done|].
  change (rep_Warnings (r <| rep_FinishedAt := now |> <| rep_DailyConsolidation ::= ?f |> <| rep_DailyConsolidation ::= ?g |>)) with (rep_Warnings r).
  by destruct (List.existsb _ _).
Qed.

Lemma if_status (b : bool) (x y : RunReport) s :
  rep_Status x = s -> rep_Status y = s -> rep_Status (if b then x else y) = s.
Proof. by destruct b. Qed.

Lemma finalize_status now err r report :
  finalize now err r = (report, true) -> notificationStatus (rep_Status report) = outcome_status err r.
Proof.
  unfold finalize, outcome_status. destruct err as [err|].
  - destruct (is_canceled err); [done|]. cbv zeta.
    destruct (reconcile_other (r <| rep_FinishedAt := now |>)) as (_ & -> & ->). cbn [rep_Attempt rep_MaxAttempts].
    set (again := negb (IsFatal err) && _ && _ && _). intros E.
    assert (again = negb (IsFatal err) && (0 <? rep_Attempt r) && (rep_Attempt r <? rep_MaxAttempts r)) as Ha.
    { subst again. cbn. destruct (IsFatal err), (0 <? rep_Attempt r) eqn:E1, (rep_Attempt r <? rep_MaxAttempts r) eqn:E2,
        (0 <? rep_MaxAttempts r) eqn:E3; cbn; try done. lia. }
    rewrite <- Ha. destruct again; apply (f_equal (fun x => rep_Status x.1)) in E; cbn [fst] in E.
    + enough (rep_Status report = ReportStatusRetrying) as -> by done. rewrite <- E. repeat (apply if_status; cbn [rep_Status]); reflexivity.
    + enough (rep_Status report = ReportStatusCritical) as -> by done. rewrite <- E. repeat (apply if_status; cbn [rep_Status]); reflexivity.
  - cbv zeta. rewrite reconcile_finished. destruct (reconcile_other (r <| rep_FinishedAt := now |>)) as (-> & _).
    intros E. apply (f_equal (fun x => rep_Status x.1)) in E. cbn [fst] in E. rewrite <- E.
    change (rep_Outcome (r <| rep_FinishedAt := now |>)) with (rep_Outcome r).
    match goal with |- notificationStatus (rep_Status (_ <| rep_Status := ?s |>)) = _ =>
      change (notificationStatus s = match rep_Warnings (reconcileDailyConsolidation r) with
        | _ :: _ => StatusWarning
        | [] => if String.eqb (rep_Outcome r) "no_data" then StatusInfo else StatusSuccess
        end) end.
    destruct (rep_Warnings _); [|done]. by destruct (String.eqb _ _).
Qed.

(** C35: The report of a finished run leaves as exactly one mail, whatever the report holds (given a template that
    produces text): its validation never rejects it, and when the mail service fails that is logged and nothing else
    is sent.  The mark at the head of its subject is the outcome of the run: green when the run ended without error,
    warning and with data, yellow when there was any warning - a shortfall of the claimables against the payout among
    them -, blue when there was nothing to pay, orange when the failure will be retried, red when it is fatal or the
    attempts are exhausted, and red when the mail could not be rendered. *)
Theorem indicator_matches_outcome (execute_template : view -> option string) now err r report opts :
  (forall v body, execute_template v = Some body -> string_is_empty (TrimSpace body) = false) ->
  finalize now err r = (report, true) ->
  exists html k,
    fundingReport execute_template (SesNotifier opts) report =
      (out ← notify_op (SendEmail (so_Source opts) (so_To opts)
         (prefixedSubject
            (Indicator (if execute_template (buildView report) then outcome_status err r else StatusCritical))
            (so_SubjectPrefix opts) (msg_Subject (Render execute_template report))) html); k out) /\
    forall out, k out = mret tt \/ exists attrs, k out = notify_op (Log LevelError "notification delivery failed" attrs).
Proof.
  intros Ht Hf. unfold fundingReport, Notification.Report, Notify.
  assert (Notification.Validate (Render execute_template report) = None) as ->.
  { unfold Render. destruct (execute_template (buildView report)) as [body|] eqn:E; [|vm_compute; reflexivity].
    unfold Notification.Validate. cbn [msg_Subject msg_Body msg_HTMLBody]. rewrite (Ht _ _ E).
    unfold buildView. destruct (reportStatus _) as [[? ?] ?]. cbn [vw_Subject]. rewrite subject_not_blank. reflexivity. }
  assert (msg_Status (Render execute_template report) =
          if execute_template (buildView report) then outcome_status err r else StatusCritical) as ->.
  { unfold Render. destruct (execute_template (buildView report)); [|done]. by apply finalize_status with now. }
  eexists (messageHTML _), (fun out => match match out with
                | Err err => Some (Wrapf "send ses email: %w" [] err)
                | Ok false => Some (Errorf "notification mail ses: send email response is nil" [])
                | Ok true => None
                end with None => mret tt | Some err => _ end).
  split; [reflexivity|]. intros [[]|e]; [by left|right; by eexists|right; by eexists].
Qed.

(** ** The income *)

(** The claimable amount a record has for a builder, if it was observed. *)
Definition observed_amount (entries : gmap string DailyConsolidationBuilder) (b : BuilderReport) : option decimal :=
  entry ← entries !! address_key (br_Address b);
  if dcb_ClaimableObserved entry then dec_parse (dcb_ClaimableUSDC entry) else None.

Definition amounts_are_valid (entries : gmap string DailyConsolidationBuilder) : Prop :=
  forall k entry, entries !! k = Some entry -> dcb_ClaimableObserved entry = true ->
    exists d, dec_parse (dcb_ClaimableUSDC entry) = Some d /\ dec_neg d = false.

Lemma required_amount value : validateRequiredNonnegativeAmount value = None -> exists d, dec_parse value = Some d /\ dec_neg d = false.
Proof.
  unfold validateRequiredNonnegativeAmount, validateOptionalNonnegativeAmount. destruct (string_is_empty _); [done|].
  unfold NewFromString. destruct (dec_parse value) as [d|]; [|done]. destruct (dec_neg d) eqn:E; [done|]. by exists d.
Qed.

Lemma validated_entries status index seen bs :
  validate_builders status index seen bs = None -> Forall (fun b => validate_builder status b = None) bs.
Proof.
  revert index seen. induction bs as [|b bs IH]; intros index seen; cbn [validate_builders]; [done|].
  cbv zeta. destruct (string_is_empty _); [done|]. case_bool_decide; [done|].
  destruct (validate_builder status b) eqn:E; [done|]. intros Hv. constructor; [done|]. by eapply IH.
Qed.

Lemma daily_entries_in record k entry : daily_entries record !! k = Some entry -> entry ∈ dc_Builders record.
Proof.
  unfold daily_entries. generalize (dc_Builders record). intros bs.
  assert (forall (m : gmap string DailyConsolidationBuilder),
    List.fold_left (fun m b => <[address_key (dcb_Address b) := b]> m) bs m !! k = Some entry -> m !! k = Some entry \/ entry ∈ bs) as H0.
  { induction bs as [|b bs IH]; intros m Hm; [by left|]. cbn [List.fold_left] in Hm. apply IH in Hm as [Hm|Hm]; [|right; by right].
    destruct (decide (address_key (dcb_Address b) = k)) as [<-|Hk].
    - rewrite lookup_insert_eq in Hm. injection Hm as ->. right. left.
    - rewrite lookup_insert_ne in Hm by done. by left. }
  intros Hm. apply H0 in Hm as [Hm|Hm]; [|done]. by rewrite lookup_empty in Hm.
Qed.

Lemma valid_record_amounts record : Daily.Validate record = None -> amounts_are_valid (daily_entries record).
Proof.
  intros Hv k entry Hk Ho. apply daily_entries_in in Hk.
  assert (Forall (fun b => validate_builder (dc_Status record) b = None) (dc_Builders record)) as Hall.
  { unfold Daily.Validate in Hv. destruct (ParseDateOnly _) as [[[y m] d]|]; [|done]. destruct (negb _); [done|].
    destruct (_ || _); [done|]. 
    destruct (dc_Status record); [destruct (negb _)|destruct (IsZero _)|]; try done;
      (destruct (dc_Builders record) eqn:E; [done|]; by eapply validated_entries). }
  rewrite Forall_forall in Hall. specialize (Hall _ Hk). unfold validate_builder in Hall. destruct (_ <=? 0); [done|].
  rewrite Ho in Hall. destruct (validateRequiredNonnegativeAmount _) eqn:E; [done|]. by apply required_amount.
Qed.

(** What the income is computed from. *)
Definition same_coverage (c c' : DailyConsolidationReport) : Prop :=
  dcr_Observed c = dcr_Observed c' /\ dcr_Missing c = dcr_Missing c' /\ dcr_LoadFailed c = dcr_LoadFailed c' /\
  dcr_BuilderCount c = dcr_BuilderCount c'.

Lemma attach_entry_spec status entries acc b : amounts_are_valid entries ->
  let acc' := attach_entry status entries acc b in
  same_coverage (at_summary acc) (at_summary acc') /\
  match observed_amount entries b with
  | Some d =>
      dec_neg d = false /\ at_total acc' = dec_add (at_total acc) d /\
      dcr_RecordedBuilders (at_summary acc') = dcr_RecordedBuilders (at_summary acc) + 1 /\
      dcr_ObservedBuilders (at_summary acc') = dcr_ObservedBuilders (at_summary acc) + 1
  | None => dcr_ObservedBuilders (at_summary acc') = dcr_ObservedBuilders (at_summary acc)
  end.
Proof.
  intros Hv. cbv zeta. unfold attach_entry, observed_amount. destruct (entries !! _) as [entry|] eqn:E; cbn [mbind option_bind]; [|done].
  cbv zeta. destruct (dcb_ClaimableObserved entry) eqn:Eo.
  - destruct (Hv _ _ E Eo) as (d & -> & ->). cbn [at_summary at_total].
    destruct (dcb_ClaimUncertain entry); split_and!; cbn; try done; lia.
  - cbn [at_summary at_total]. by destruct (dcb_ClaimUncertain entry).
Qed.

Lemma attach_entries_spec status entries bs acc : amounts_are_valid entries ->
  let acc' := List.fold_left (attach_entry status entries) bs acc in
  same_coverage (at_summary acc) (at_summary acc') /\
  dcr_ObservedBuilders (at_summary acc') <= dcr_ObservedBuilders (at_summary acc) + Z.of_nat (length bs) /\
  match mapM (observed_amount entries) bs with
  | Some ds =>
      Forall (fun d => dec_neg d = false) ds /\ at_total acc' = List.fold_left dec_add ds (at_total acc) /\
      dcr_RecordedBuilders (at_summary acc') = dcr_RecordedBuilders (at_summary acc) + Z.of_nat (length bs) /\
      dcr_ObservedBuilders (at_summary acc') = dcr_ObservedBuilders (at_summary acc) + Z.of_nat (length bs)
  | None => dcr_ObservedBuilders (at_summary acc') < dcr_ObservedBuilders (at_summary acc) + Z.of_nat (length bs)
  end.
Proof.
  intros Hv. revert acc. induction bs as [|b bs IH]; intros acc; cbv zeta; cbn [List.fold_left mapM length].
  { cbn. split_and!; try done; lia. }
  destruct (IH (attach_entry status entries acc b)) as (Hc & Hle & Hrest).
  destruct (attach_entry_spec status entries acc b Hv) as [Hc' Hb].
  split. { unfold same_coverage in *. naive_solver congruence. }
  set (acc1 := attach_entry status entries acc b) in *. clearbody acc1.
  destruct (observed_amount entries b) as [d|]; cbn [mbind option_bind].
  - destruct Hb as (Hn & Ht & Hr & Ho). split; [lia|].
    destruct (mapM (observed_amount entries) bs) as [ds|]; cbn [mbind option_bind mret option_ret].
    + destruct Hrest as (Hds & -> & -> & ->). rewrite Ht, Hr, Ho. cbn [List.fold_left]. split_and!; try done; [by constructor|lia|lia].
    + lia.
  - split; [lia|]. destruct (mapM (observed_amount entries) bs) as [ds|]; lia.
Qed.

Lemma dec_sum_value `{!DecimalLaws} ds t :
  (dec_value (List.fold_left dec_add ds t) == dec_value t + foldr Qplus 0 (map dec_value ds))%Q.
Proof.
  revert t. induction ds as [|d ds IH]; intros t; cbn [List.fold_left map foldr]; [ring|]. rewrite IH, dec_value_add. ring.
Qed.

Lemma sum_nonneg `{!DecimalLaws} ds : Forall (fun d => dec_neg d = false) ds -> (0 <= foldr Qplus 0 (map dec_value ds))%Q.
Proof. induction 1 as [|d ds Hd _ IH]; cbn; [lra|]. apply dec_neg_false in Hd. lra. Qed.

(** The parts of a report the income depends on: closing the report keeps
    them. *)
Definition income_data (r : RunReport) :=
  let c := rep_DailyConsolidation r in
  (rep_RecordsRead r, rep_PayoutTotal r, dcr_TotalClaimableUSDC c,
   (dcr_Observed c, dcr_Missing c, dcr_LoadFailed c), (dcr_BuilderCount c, dcr_RecordedBuilders c, dcr_ObservedBuilders c)).

Lemma reportIncome_ext r r' : income_data r = income_data r' -> reportIncome r = reportIncome r'.
Proof. unfold income_data, reportIncome. cbv zeta. by intros [= -> -> -> -> -> -> -> -> ->]. Qed.

Lemma income_if {b : bool} {x y : RunReport} {v} : income_data x = v -> income_data y = v -> income_data (if b then x else y) = v.
Proof. by destruct b. Qed.

Lemma income_addWarning message r : income_data (addWarning message r) = income_data r.
Proof. unfold addWarning. cbv zeta. destruct (string_is_empty _); [done|]. by destruct (List.existsb _ _). Qed.

Lemma income_reconcile r : income_data (reconcileDailyConsolidation r) = income_data r.
Proof.
  unfold reconcileDailyConsolidation. cbv zeta. apply income_if; [reflexivity|].
  destruct (dec_parse _); [|reflexivity]. destruct (dec_parse _); [|reflexivity]. apply income_if; [reflexivity|].
  by rewrite income_addWarning.
Qed.

Lemma income_finalize now err r : income_data (finalize now err r).1 = income_data r.
Proof.
  unfold finalize. cbv zeta.
  match goal with |- context [reconcileDailyConsolidation ?y] =>
    assert (income_data (reconcileDailyConsolidation y) = income_data r) as E by (rewrite income_reconcile; reflexivity);
    revert E; generalize (reconcileDailyConsolidation y) end.
  intros x E. destruct err as [err|]; [|exact E]. destruct (is_canceled err); [reflexivity|].
  destruct (_ && _); cbn [fst]; repeat first [exact E | apply income_if].
Qed.

Lemma income_attach utcDate record r :
  let summary := empty_daily_report <| dcr_UTCDate := utcDate |>
                   <| dcr_BuilderCount := Z.of_nat (length (rep_Builders r)) |>
                   <| dcr_Observed := true |> <| dcr_Status := dc_Status record |>
                   <| dcr_ClaimablesCapturedAt := dc_ClaimablesCapturedAt record |>
                   <| dcr_CompletedAt := dc_CompletedAt record |> in
  let acc := List.fold_left (attach_entry (dc_Status record) (daily_entries record)) (rep_Builders r)
               (mkAttachment [] summary dec_zero r) in
  exists reads payout, income_data (attach_record utcDate record r) =
    income_data (r <| rep_RecordsRead := reads |> <| rep_PayoutTotal := payout |>
                   <| rep_DailyConsolidation := if 0 <? dcr_ObservedBuilders (at_summary acc)
                        then at_summary acc <| dcr_TotalClaimableUSDC := dec_string (at_total acc) |> else at_summary acc |>).
Proof.
  cbv zeta. unfold attach_record. cbv zeta.
  set (acc := List.fold_left _ _ _). clearbody acc.
  exists (rep_RecordsRead (at_report acc)), (rep_PayoutTotal (at_report acc)).
  set (summary := if _ <? _ then _ else _). clearbody summary. unfold daily_warnings. cbv zeta.
  repeat first [apply income_if | rewrite income_addWarning]; reflexivity.
Qed.

(** The report of a run to which a daily record was attached and which read
    its records and total, when it is closed. *)
Definition closed_report now err utcDate record (read : bool) payout (r : RunReport) : RunReport :=
  (finalize now err (attach_record utcDate record r <| rep_RecordsRead := read |> <| rep_PayoutTotal := payout |>)).1.

Lemma closed_income now err utcDate record read payout r (summary : DailyConsolidationReport) :
  (exists reads pay, income_data (attach_record utcDate record r) =
    income_data (r <| rep_RecordsRead := reads |> <| rep_PayoutTotal := pay |> <| rep_DailyConsolidation := summary |>)) ->
  reportIncome (closed_report now err utcDate record read payout r) =
  reportIncome (r <| rep_RecordsRead := read |> <| rep_PayoutTotal := payout |> <| rep_DailyConsolidation := summary |>).
Proof.
  intros (reads & pay & E). apply reportIncome_ext. unfold closed_report. rewrite income_finalize.
  revert E. generalize (attach_record utcDate record r). intros x E. unfold income_data in *.
  injection E as _ _ E1 E2 E3 E4 E5 E6 E7.
  change (rep_DailyConsolidation (x <| rep_RecordsRead := read |> <| rep_PayoutTotal := payout |>)) with (rep_DailyConsolidation x).
  rewrite E1, E2, E3, E4, E5, E6, E7. reflexivity.
Qed.

(** C29: The income a report tells is exact, and there is none where it would be a guess.  For a valid daily record
    attached to a report that is then closed, whatever the outcome of the run: an income is shown exactly when the
    funding records were read, there is a builder, the record holds an observed amount for every builder of the
    report, and the payout total is known and not negative; it is then the sum of these amounts less the payout, as a
    number, without any rounding.  A missing or unobserved builder never counts as zero. *)
Theorem reported_income_is_exact `{!DecimalLaws} now err utcDate record read payout r :
  Daily.Validate record = None ->
  let amounts := mapM (observed_amount (daily_entries record)) (rep_Builders r) in
  let known := payout' ← dec_parse payout; if dec_neg payout' then None else Some payout' in
  match reportIncome (closed_report now err utcDate record read payout r) with
  | Some income =>
      exists ds paid, read = true /\ rep_Builders r <> [] /\ amounts = Some ds /\ known = Some paid /\
        (dec_value income == foldr Qplus 0 (map dec_value ds) - dec_value paid)%Q
  | None => read = false \/ rep_Builders r = [] \/ amounts = None \/ known = None
  end.
Proof.
  intros Hv. cbv zeta. erewrite closed_income by apply income_attach. apply valid_record_amounts in Hv.
  set (summary0 := empty_daily_report <| dcr_UTCDate := utcDate |> <| dcr_BuilderCount := Z.of_nat (length (rep_Builders r)) |>
    <| dcr_Observed := true |> <| dcr_Status := dc_Status record |> <| dcr_ClaimablesCapturedAt := dc_ClaimablesCapturedAt record |>
    <| dcr_CompletedAt := dc_CompletedAt record |>).
  destruct (attach_entries_spec (dc_Status record) (daily_entries record) (rep_Builders r) (mkAttachment [] summary0 dec_zero r) Hv)
    as ((Ho & Hm & Hlf & Hbc) & Hle & Hrest).
  set (acc := List.fold_left _ _ _) in *. clearbody acc. cbn in Ho, Hm, Hlf, Hbc, Hle, Hrest.
  set (summary := if 0 <? dcr_ObservedBuilders (at_summary acc) then _ else _).
  assert (same_coverage (at_summary acc) summary /\ dcr_RecordedBuilders summary = dcr_RecordedBuilders (at_summary acc) /\
          dcr_ObservedBuilders summary = dcr_ObservedBuilders (at_summary acc)) as ((Ho' & Hm' & Hlf' & Hbc') & Hr' & Hob').
  { subst summary. by destruct (0 <? _). }
  unfold reportIncome. cbv zeta.
  change (rep_DailyConsolidation (_ <| rep_DailyConsolidation := summary |>)) with summary.
  change (rep_RecordsRead (_ <| rep_DailyConsolidation := summary |>)) with read.
  change (rep_PayoutTotal (_ <| rep_DailyConsolidation := summary |>)) with payout.
  rewrite <- Ho', <- Hm', <- Hlf', <- Hbc', Hr', Hob', <- Ho, <- Hm, <- Hlf, <- Hbc. cbn [negb orb].
  destruct read; cbn [negb orb]; [|by left].
  destruct (decide (rep_Builders r = [])) as [->|Hne]; [by right; left|].
  assert (0 < Z.of_nat (length (rep_Builders r))) as Hpos by (destruct (rep_Builders r); [done|cbn; lia]).
  rewrite (proj2 (Z.leb_gt _ _) Hpos). cbn [orb].
  destruct (mapM (observed_amount (daily_entries record)) (rep_Builders r)) as [ds|].
  - destruct Hrest as (Hds & Ht & -> & Hob). subst summary. rewrite Hob, !Z.add_0_l, !Z.eqb_refl, (proj2 (Z.ltb_lt _ _) Hpos). cbn [negb orb].
    change (dcr_TotalClaimableUSDC (_ <| dcr_TotalClaimableUSDC := dec_string (at_total acc) |>)) with (dec_string (at_total acc)).
    destruct (dec_parse_string (at_total acc)) as (total & -> & Hval). rewrite Ht, dec_sum_value, dec_value_zero in Hval.
    assert (dec_neg total = false) as ->. { apply dec_neg_false. rewrite Hval. pose proof (sum_nonneg ds Hds). lra. }
    destruct (dec_parse payout) as [paid|]; cbn [mbind option_bind orb]; [|by right; right; right].
    destruct (dec_neg paid); [by right; right; right|]. exists ds, paid. split_and!; try done.
    rewrite dec_value_sub, Hval. ring.
  - assert ((dcr_ObservedBuilders (at_summary acc) =? Z.of_nat (length (rep_Builders r))) = false) as -> by lia.
    rewrite orb_true_r. by right; right; left.
Qed.

(** ** What the mail shows *)

Lemma in_flat {A : Type} (f : A -> list string) l x t : x ∈ l -> t ∈ f x -> t ∈ flat_map f l.
Proof. intros Hx Ht. apply list_elem_of_In, in_flat_map. exists x. by rewrite <- !list_elem_of_In. Qed.

Lemma in_payout_texts_mail v t : t ∈ payout_texts v -> t ∈ mail_texts v.
Proof. intros Ht. unfold mail_texts. rewrite !elem_of_app. tauto. Qed.

(** The texts of a payout every mail has. *)
Definition payout_summary (p : payoutView) : list string := [pv_Amount p; pv_Status p; pv_Database p].
Definition payout_diagnostics (p : payoutView) : list string :=
  [pv_RawTotal p; pv_TotalBefore p; pv_FirstSubmit p; pv_ExactReplay p; pv_Evidence p; pv_Nonce p].

Lemma payout_in_mail v p t : p ∈ vw_Payouts v -> t ∈ payout_summary p -> t ∈ mail_texts v.
Proof.
  intros Hp Ht. apply in_payout_texts_mail. unfold payout_texts. destruct (vw_Compact v); cbn [negb orb app].
  - apply elem_of_app. left. by eapply in_flat.
  - apply elem_of_app. left. eapply in_flat; [done|]. unfold payout_summary in Ht. set_solver.
Qed.

Lemma diagnostics_in_mail v p t :
  vw_Compact v = false -> pv_ShowDiagnostics p = true -> p ∈ vw_Payouts v -> t ∈ payout_diagnostics p -> t ∈ mail_texts v.
Proof.
  intros Hc Hs Hp Ht. apply in_payout_texts_mail. unfold payout_texts. rewrite Hc. cbn [negb]. apply elem_of_app. left.
  eapply in_flat; [done|]. rewrite Hs. apply elem_of_app. right. apply elem_of_app. by left.
Qed.

Lemma payouts_of_view report t :
  t ∈ rep_Payouts report -> shown t = true -> payout_view report t ∈ vw_Payouts (buildView report).
Proof.
  intros Ht Hs. unfold buildView. destruct (reportStatus _) as [[? ?] ?]. cbn [vw_Payouts].
  apply list_elem_of_In, in_map, filter_In. by rewrite <- list_elem_of_In.
Qed.

Lemma settlement_in_mail v t : t ∈ settlement_texts (vw_Settlement v) -> t ∈ mail_texts v.
Proof.
  intros Ht. apply in_payout_texts_mail. unfold payout_texts. destruct (vw_Compact v); cbn [negb orb].
  - apply elem_of_app. right. apply elem_of_app. by right.
  - destruct (vw_Payouts v) as [|p ps]; [by apply elem_of_app; right|]. apply elem_of_app. left.
    eapply (in_flat _ _ p); [left|]. rewrite !elem_of_app. by right; right.
Qed.

Lemma not_empty s : string_is_empty s = false -> s <> "".
Proof. by destruct s. Qed.

(** A report of a failure says what failed and what to do. *)
Lemma finalize_explains now err r report :
  finalize now (Some err) r = (report, true) -> rep_FailureSummary report <> "" /\ rep_NextAction report <> "".
Proof.
  unfold finalize. destruct (is_canceled err); [done|]. cbv zeta.
  match goal with |- context [reconcileDailyConsolidation ?y] => generalize (reconcileDailyConsolidation y); intros x end.
  destruct (_ && _); intros E; apply (f_equal fst) in E; cbn [fst] in E; rewrite <- E; clear E; split.
  all: repeat (match goal with |- context [if ?b then _ else _] => destruct b eqn:? end); first [discriminate|by apply not_empty].
Qed.

(** C30: The mail of a report leaves out nothing an operator has to act on.  Every warning is in it; so are the failure,
    the stage it happened in and the next action, and the report of a failed run always has the first and the last.
    Every payout something happened to - its records were read, it has an amount, or it is not pending - is there with
    its exact amount, its status and its database status, in the short mail of a retry as well; in a full mail of a run
    that did not simply succeed, was a recovery or submitted a payout again, so are whether it may have been sent, whether
    it may have been sent again, the evidence of its confirmation and its nonce.  The closing balance of the settlement
    account, or what prevents it from being known, is always there. *)
Theorem mail_is_complete now err r report :
  finalize now err r = (report, true) ->
  let mail := mail_texts (buildView report) in
  (forall w, w ∈ rep_Warnings report -> w ∈ mail) /\
  (err <> None -> rep_FailureSummary report <> "" /\ rep_NextAction report <> "") /\
  (rep_FailureSummary report <> "" -> rep_FailureSummary report ∈ mail /\ stageLabel (rep_FailureStage report) ∈ mail) /\
  (rep_FailureSummary report <> "" -> rep_NextAction report <> "" -> rep_NextAction report ∈ mail) /\
  (forall t, t ∈ rep_Payouts report ->
     ptr_RecordsRead t = true \/ pr_Amount (ptr_Payout t) <> "" \/ pr_Status (ptr_Payout t) <> ReportStepPending ->
     let p := ptr_Payout t in
     (forall text, text ∈ [displayAmount (pr_Amount p); (builderStep (pr_Status p) "").1; (builderStep (ptr_DatabaseStatus t) "").1] -> text ∈ mail) /\
     (rep_Compact report = false ->
      rep_Status report ∉ [ReportStatusSuccess; ReportStatusNoData] \/ rep_Recovery report = true \/ 1 < pr_SubmitAttempts p ->
      forall text, text ∈ [firstSubmitLabel (pr_SubmitAttempts p); exactReplayLabel (pr_SubmitAttempts p);
                           evidenceLabel (pr_ConfirmationEvidence p) (pr_Blocked p); if pr_Nonce p =? 0 then "—" else itoa (pr_Nonce p)] ->
        text ∈ mail)) /\
  (if sv_ShowBalances (buildSettlementView report) then sv_Available (buildSettlementView report) else sv_Status (buildSettlementView report)) ∈ mail.
Proof.
  intros Hf. cbv zeta.
  assert (vw_Compact (buildView report) = rep_Compact report /\ vw_Settlement (buildView report) = buildSettlementView report /\
          vw_Warnings (buildView report) = rep_Warnings report /\
          vw_ShowFailure (buildView report) = negb (string_is_empty (rep_FailureSummary report)) /\
          vw_FailureSummary (buildView report) = rep_FailureSummary report /\ vw_FailureStage (buildView report) = stageLabel (rep_FailureStage report) /\
          vw_NextAction (buildView report) = rep_NextAction report) as (Hc & Hset & Hw & Hshow & Hsum & Hstage & Hnext).
  { unfold buildView. by destruct (reportStatus _) as [[? ?] ?]. }
  split_and!.
  - intros w Hin. unfold mail_texts. rewrite Hw, !elem_of_app. tauto.
  - intros He. destruct err as [err|]; [|done]. by eapply finalize_explains.
  - intros Hne. unfold mail_texts. rewrite Hshow, Hsum, Hstage.
    destruct (rep_FailureSummary report) as [|c s]; [done|]. cbn [string_is_empty negb]. split; set_solver.
  - intros Hne Hna. unfold mail_texts. rewrite Hshow, Hsum, Hstage, Hnext.
    destruct (rep_FailureSummary report) as [|c s]; [done|]. destruct (rep_NextAction report) as [|c' s']; [done|].
    cbn [string_is_empty negb]. set_solver.
  - intros t Ht Hhappened. assert (shown t = true) as Hs.
    { unfold shown. destruct Hhappened as [->|[Ha|Hp]]; [done| |].
      - destruct (pr_Amount (ptr_Payout t)); [done|]. by rewrite orb_true_r.
      - rewrite (bool_decide_false _ Hp). by rewrite orb_true_r. }
    pose proof (payouts_of_view _ _ Ht Hs) as Hv. split.
    + intros text Htext. eapply payout_in_mail; [exact Hv|]. unfold payout_summary, payout_view.
      by destruct (builderStep (pr_Status _) _), (builderStep (ptr_DatabaseStatus _) _).
    + intros Hfull Hwhy text Htext. eapply diagnostics_in_mail; [by rewrite Hc| |exact Hv|].
      * unfold payout_view. destruct (builderStep _ _), (builderStep _ _). cbn [pv_ShowDiagnostics].
        destruct Hwhy as [Hn|[->|Hl]]; [|by rewrite orb_true_r|by rewrite (proj2 (Z.ltb_lt _ _) Hl), orb_true_r].
        rewrite !bool_decide_false by set_solver. reflexivity.
      * unfold payout_diagnostics, payout_view. destruct (builderStep _ _), (builderStep _ _). cbn. set_solver.
  - apply settlement_in_mail. rewrite Hset. unfold settlement_texts. destruct (sv_ShowBalances _); apply elem_of_app; left; left.
Qed.
End Rendering.

(** ** Concrete reports *)

Section Witnesses.
#[local] Existing Instance DecimalImpl.dec_ops.
#[local] Existing Instance DecimalImpl.dec_laws.

(** A template that shows the subject. *)
Definition plain_template (v : view) : option string := Some ("report: " +:+ vw_Subject v).

(** The first attempt of a scheduled run with two builders. *)
Definition sample_builders : list string :=
  ["0x1111111111111111111111111111111111111111"; "0x2222222222222222222222222222222222222222"].
Definition sample_run : RunReport :=
  newRunReport 1767323400000000000 TriggerUTC (mkExecution 1 3 false) "mainnet" sample_builders
    {[ address_key "0x1111111111111111111111111111111111111111" := "alpha" ]} "0x3333333333333333333333333333333333333333"
    "0x4444444444444444444444444444444444444444".

Definition sample_entry (address amount : string) : DailyConsolidationBuilder :=
  mkDailyBuilder address amount true 1 1 false ReportStepSuccess "claimed" amount ReportStepSuccess "swept".
Definition sample_record : DailyConsolidation :=
  mkDailyConsolidation "2026-01-02" DailyConsolidationCompleted 1767312000000000000 1767312001000000000 1767312060000000000
    [sample_entry "0x1111111111111111111111111111111111111111" "10.25"; sample_entry "0x2222222222222222222222222222222222222222" "0.125"].

Lemma plain_template_text v body : plain_template v = Some body -> string_is_empty (TrimSpace body) = false.
Proof. intros E. assert (body = "report: " +:+ vw_Subject v) as -> by (unfold plain_template in E; congruence). apply (TrimSpace_visible "r"); [done|left]. Qed.

(** A shortfall: yellow, and an income below zero in the subject. *)
Definition shortfall_report : RunReport := closed_report 1767323460000000000 None "2026-01-02" sample_record true "12.5" sample_run.

Example shortfall_subject :
  msg_Subject (Render plain_template shortfall_report) = "成功但有告警 · 收入 -2.13 USDC" /\
  rep_Warnings shortfall_report = ["UTC 00:00 Claimable 合计 10.375 USDC，低于 Referral Payout 12.5 USDC，短缺 2.125 USDC，请人工核查结算口径"].
Proof. by vm_compute. Qed.

Definition sample_options : Options := mkSesOptions "ops@example.com" ["team@example.com"] "[prod]".

Lemma indicator_matches_outcome_witness : exists html k,
  fundingReport plain_template (SesNotifier sample_options) shortfall_report =
    Call (Sig := NotifySig) (SendEmail "ops@example.com" ["team@example.com"] "🟡 [prod] 成功但有告警 · 收入 -2.13 USDC" html) k.
Proof.
  destruct (indicator_matches_outcome plain_template 1767323460000000000 None
    (attach_record "2026-01-02" sample_record sample_run <| rep_RecordsRead := true |> <| rep_PayoutTotal := "12.5" |>)
    shortfall_report sample_options plain_template_text) as (html & k & E & _); [vm_compute; reflexivity|].
  exists html. eexists. rewrite E. 
  replace (prefixedSubject _ _ _) with "🟡 [prod] 成功但有告警 · 收入 -2.13 USDC" by (vm_compute; reflexivity).
  reflexivity.
Defined.

Lemma reported_income_is_exact_witness :
  Daily.Validate sample_record = None /\
  exists income, reportIncome shortfall_report = Some income /\ dec_string income = "-2.125".
Proof.
  assert (Daily.Validate sample_record = None) as Hv by (vm_compute; reflexivity). split; [exact Hv|].
  pose proof (reported_income_is_exact 1767323460000000000 None "2026-01-02" sample_record true "12.5" sample_run Hv) as H.
  destruct (reportIncome shortfall_report) as [income|] eqn:E; [|vm_compute in E; discriminate].
  unfold shortfall_report in E. rewrite E in H. exists income. split; [reflexivity|].
  vm_compute in E. injection E as <-. vm_compute. reflexivity.
Defined.

(** A failed first attempt that is retried, after a submission. *)
Definition failed_run : RunReport :=
  sample_run <| rep_Payouts := [mkTargetReport PayoutKindReferral true 2 "12.5" "12.5"
    (mkPayoutReport ReportStepFailed "12.5" "0x3333333333333333333333333333333333333333" "0x4444444444444444444444444444444444444444"
       "100" 2 false "" 1767323401000) ReportStepPending] |>.
Definition failed_report : RunReport := (finalize 1767323460000000000 (Some (Errorf "timeout" [])) failed_run).1.

Lemma mail_is_complete_witness :
  finalize 1767323460000000000 (Some (Errorf "timeout" [])) failed_run = (failed_report, true) /\
  displayAmount "12.5" ∈ mail_texts (buildView failed_report) /\ "服务将在约 1 分钟后自动重试，无需立即人工操作。" ∈ mail_texts (buildView failed_report).
Proof.
  assert (finalize 1767323460000000000 (Some (Errorf "timeout" [])) failed_run = (failed_report, true)) as Hf by (vm_compute; reflexivity).
  split; [exact Hf|]. destruct (mail_is_complete _ _ _ _ Hf) as (_ & _ & _ & Hn & Hp & _).
  split.
  - destruct (Hp (mkTargetReport PayoutKindReferral true 2 "12.5" "12.5"
    (mkPayoutReport ReportStepFailed "12.5" "0x3333333333333333333333333333333333333333" "0x4444444444444444444444444444444444444444"
       "100" 2 false "" 1767323401000) ReportStepPending)) as [Ht _].
    + change (rep_Payouts failed_report) with (rep_Payouts failed_run). left.
    + by left.
    + apply Ht. left.
  - apply Hn; vm_compute; discriminate.
Defined.
End Witnesses.
