(* ===== verification/NotificationTheorems.v ===== *)
(** * What the notifications of MySQL outages mean

    Alerts alternate: an outage is announced once, after three minutes, and
    its end once, when no operation is failing any more
    ([outage_alerts_alternate]).  An operation that ends with an error after
    it retried leaves its outage open, and from then on further outages are
    not announced ([failed_calls_silence_alerts]). *)

From S2P Require Import Prelude Prog Crash Clock Model Mysql Settings Notification.

(** The alerts among the effects alternate, starting with an outage unless one
    is open; the result says whether one is open at the end. *)
Fixpoint alert_sequence (open : bool) (l : list effect) : option bool :=
  match l with
  | [] => Some open
  | WriteLog _ _ _ :: l => alert_sequence open l
  | SendAlert _ m :: l =>
      if String.eqb (msg_Subject m) (if open then "MySQL recovered" else "MySQL unavailable") then alert_sequence (negb open) l else None
  end.

Lemma alert_sequence_app open l l' :
  alert_sequence open (l ++ l') = open' ← alert_sequence open l; alert_sequence open' l'.
Proof.
  revert open. induction l as [|[key m|] l IH]; intros open; [done| |apply IH].
  cbn [app alert_sequence]. destruct (String.eqb _ _); [apply IH|done].
Qed.

(** An alert about an outage of at least three minutes, or about its end. *)
Definition justified (x : effect) : Prop :=
  match x with
  | SendAlert key m => key = mysqlAlertKey /\ exists operation attempts d,
      (m = mysqlMessage "MySQL unavailable" operation attempts d /\ mysqlAlertThreshold <= d) \/
      m = mysqlMessage "MySQL recovered" operation attempts d
  | WriteLog _ _ _ => True
  end.

(** An announced outage is an open one. *)
Definition consistent (o : MySQLRetryObserver) : Prop := alerted o = true -> outages o <> ∅.

Lemma insert_not_empty (m : gmap string Z) k v : <[k := v]> m <> ∅.
Proof. apply insert_non_empty. Qed.

Lemma observe_call_spec o e : consistent o ->
  let (o', l) := observe o e in consistent o' /\ alert_sequence (alerted o) l = Some (alerted o') /\ Forall justified l.
Proof.
  intros Hc. destruct e as [operation err|operation attempts d err|operation attempts d|operation stage err]; cbn [observe].
  - unfold RetryStarted. destruct (outages o !! operation); [by split_and!|]. unfold no_outage, consistent in *. cbn.
    case_bool_decide as Ho; split_and!; try done; [|by repeat constructor|intros _; apply insert_not_empty|by repeat constructor].
    destruct (alerted o); [by destruct Hc|done].
  - unfold RetryProgress. cbv zeta. set (out := if _ <=? d then _ else _).
    assert (out <> ∅) as Hout.
    { unfold out. destruct (_ <=? d); [apply insert_not_empty|]. destruct (outages o !! operation) as [v|] eqn:E; [|apply insert_not_empty].
      intros E0. by rewrite E0, lookup_empty in E. }
    split; [by intros _|]. cbn [alerted]. rewrite alert_sequence_app, Forall_app.
    destruct (Z.leb_spec mysqlAlertThreshold d) as [Hd|Hd]; cbn [andb]; destruct (alerted o) eqn:Ea; cbn [negb].
    all: destruct (_ <=? d); (split; [reflexivity|]); split; repeat constructor.
    all: exists operation, attempts, d; by left.
  - unfold Recovered. destruct (outages o !! operation) as [v|] eqn:E; [|by split_and!]. cbv zeta. unfold consistent, no_outage in *.
    cbn [alerted outages]. rewrite alert_sequence_app, Forall_app. case_bool_decide as Ho; rewrite ?andb_true_r, ?andb_false_r.
    + destruct (alerted o); split_and!; try done; repeat constructor. exists operation, attempts, d. by right.
    + split_and!; try done; repeat constructor.
  - split_and!; try done; repeat constructor.
Qed.

Lemma observe_all_spec events : forall o, consistent o ->
  let (o', l) := observe_all o events in consistent o' /\ alert_sequence (alerted o) l = Some (alerted o') /\ Forall justified l.
Proof.
  induction events as [|e events IH]; intros o Hc; [by split_and!|]. cbn [observe_all].
  pose proof (observe_call_spec o e Hc) as He. destruct (observe o e) as [o1 l1]. destruct He as (Hc1 & Ha1 & Hj1).
  specialize (IH o1 Hc1). destruct (observe_all o1 events) as [o2 l2]. destruct IH as (Hc2 & Ha2 & Hj2).
  split; [done|]. rewrite alert_sequence_app, Ha1. cbn. split; [done|]. by apply Forall_app.
Qed.

(** C38: whatever sequence of calls the repository's retries make, of any
    operations in any order, the alerts alternate between the announcement of
    an outage and of its end, beginning with an outage; an outage is announced
    only after it lasted three minutes, and it is announced and not over
    exactly while the observer says so, which it does only while some
    operation is failing. *)
Theorem outage_alerts_alternate events :
  let (o, l) := observe_all NewMySQLRetryObserver events in
  alert_sequence false l = Some (alerted o) /\ (alerted o = true -> outages o <> ∅) /\ Forall justified l.
Proof.
  assert (consistent NewMySQLRetryObserver) as Hc by done. pose proof (observe_all_spec events _ Hc) as H.
  destruct (observe_all _ events) as [o l]. destruct H as (H1 & H2 & H3). by split_and!.
Qed.

(** ** Outages that are left open *)

Definition recovers (e : retry_event) : bool := match e with Mysql.Recovered _ _ _ => true | _ => false end.

Definition alerts (l : list effect) : list effect := List.filter (fun x => match x with SendAlert _ _ => true | _ => false end) l.

Lemma alerts_app l l' : alerts (l ++ l') = alerts l ++ alerts l'.
Proof. apply List.filter_app. Qed.

(** While an announced outage is open and nothing recovers, nothing is
    announced. *)
Definition announced (o : MySQLRetryObserver) : Prop := alerted o = true /\ outages o <> ∅.

Lemma silent_event o e : announced o -> recovers e = false -> announced (fst (observe o e)) /\ alerts (snd (observe o e)) = [].
Proof.
  intros [Ha Ho] Hr. destruct e as [operation err|operation attempts d err|operation attempts d|operation stage err]; try done; cbn [observe].
  - unfold RetryStarted. destruct (outages o !! operation) eqn:E; [done|]. cbn. unfold no_outage. rewrite bool_decide_eq_false_2 by done.
    split; [|done]. split; [done|apply insert_not_empty].
  - unfold RetryProgress. rewrite Ha, andb_false_r. cbv zeta. cbn [fst snd app]. split; [|by destruct (_ <=? d)]. split; [done|]. cbn [outages].
    destruct (_ <=? d); [apply insert_not_empty|]. destruct (outages o !! operation); [done|apply insert_not_empty].
Qed.

Lemma silent_events events : forall o, announced o -> Forall (fun e => recovers e = false) events ->
  let (o', l) := observe_all o events in announced o' /\ alerts l = [].
Proof.
  induction events as [|e events IH]; intros o Ho Hr; [done|]. apply Forall_cons in Hr as [He Hr]. cbn [observe_all].
  destruct (silent_event o e Ho He) as [Ho1 Hl1]. destruct (observe o e) as [o1 l1]. cbn [fst snd] in *.
  specialize (IH o1 Ho1 Hr). destruct (observe_all o1 events) as [o2 l2]. destruct IH as [Ho2 Hl2].
  split; [done|]. by rewrite alerts_app, Hl1, Hl2.
Qed.

(** *** A failing call reports no recovery *)

Section Calls.
Context `{Causes}.

Definition unrecovered (o : SqlOp) : Prop := match o with Observe e => recovers e = false | _ => True end.
Notation sql_ops := (ops_in (Sig := SqlSig) unrecovered).

(** Programs without a recovery, part by part. *)
Ltac sql_ops :=
  repeat first
    [ exact I
    | assumption
    | match goal with Hm : forall x, ops_in _ _ |- _ => apply Hm end
    | progress unfold let_ok, if_err, perform
    | apply (ops_in_bind (Sig := SqlSig)); [|intro]
    | match goal with
      | |- ops_in _ (Ret _) => exact I
      | |- ops_in _ (mret _) => exact I
      | |- ops_in _ (Call _ _) => split; [first [exact I|reflexivity]|intro]
      | |- ops_in _ (match ?x with _ => _ end) => destruct x
      | |- ops_in _ (prog_bind _ _) => apply (ops_in_bind (Sig := SqlSig)); [|intro]
      end ].

Lemma read_batch_ops tx queries batch zeroIDs : sql_ops (read_batch tx queries batch zeroIDs).
Proof. unfold read_batch, close_rows. sql_ops. Qed.

Lemma readStatuses_ops tx queries ids : sql_ops (readStatuses tx queries ids).
Proof.
  unfold readStatuses. generalize (@nil Z). induction (batches ids) as [|b bs IH]; intros zeroIDs; [done|]. cbn [read_batches].
  pose proof (read_batch_ops tx queries b zeroIDs). sql_ops.
Qed.

Lemma completeTransaction_ops queries ids : sql_ops (completeTransaction queries ids).
Proof.
  pose proof (readStatuses_ops true queries ids).
  assert (forall bs, sql_ops (update_batches queries bs)) as Hu.
  { induction bs as [|b bs IH]; [done|]. cbn [update_batches]. unfold update_batch. sql_ops. }
  specialize (Hu (batches ids)). unfold completeTransaction, transaction_body. sql_ops.
Qed.

Lemma list_attempt_ops queries records : sql_ops (list_attempt queries records).
Proof. unfold list_attempt, close_rows. sql_ops. Qed.

Lemma complete_step_ops queries ids st : sql_ops (complete_step true queries ids st).
Proof.
  assert (forall c, sql_ops (resolve_commit queries ids c)) as Hr.
  { intros c. unfold resolve_commit. pose proof (readStatuses_ops false queries ids). sql_ops. }
  assert (forall st, sql_ops (complete_attempt true queries ids st)) as Ha.
  { intros st'. unfold complete_attempt, Mysql.observe. pose proof (completeTransaction_ops queries (remaining st')).
    sql_ops. }
  unfold complete_step. sql_ops.
Qed.

(** The calls of an observer in a trace. *)
Definition observed (tr : list (event SqlSig)) : list retry_event :=
  omap (fun e => match e with Ev (Observe e) _ => Some e | _ => None end) tr.

Definition quiet_event (e : event SqlSig) : Prop := match e with Ev o _ => unrecovered o end.

Lemma quiet_history {A : Type} h (m : prog A) : sql_ops m ->
  wp (history (Sig := SqlSig) (fun _ _ => True)) h m (fun _ h' => Forall quiet_event h -> Forall quiet_event h').
Proof.
  revert h. induction m as [a|o k IH]; intros h; [intros _; exact (fun Hh => Hh)|]. intros [Ho Hk]. split; [done|]. intros r h' ->.
  eapply wp_mono; [|apply IH, Hk]. intros a h' Hh' Hh. apply Hh'. constructor; [exact Ho|exact Hh].
Qed.

#[local] Ltac reduce := cbn [mbind prog_mbind prog_bind mret prog_ret].

Lemma Do_failed {St : Type} fuel operation (fn : St -> prog (option error * St)) : (forall st, sql_ops (fn st)) ->
  forall failures startedAt st h, Forall quiet_event h ->
  wp (history (Sig := SqlSig) (fun _ _ => True)) h (Do true fuel operation fn failures startedAt st)
    (fun r h' => match r with Some (Some _, _) => Forall quiet_event h' | _ => True end).
Proof.
  intros Hfn. induction fuel as [|fuel IH]; intros failures startedAt st h Hh; [done|]. cbn [Do].
  split; [done|]. intros [err|] h1 ->; [by constructor|]. reduce.
  apply wp_bind. eapply wp_mono; [|exact (quiet_history _ (fn st) (Hfn st))]. intros [[err|] st'] h2 Hh2; cbn [fst snd].
  - specialize (Hh2 ltac:(by constructor)). split; [done|]. intros [ctxErr|] h3 ->; [by constructor|].
    reduce. destruct (negb _); [by constructor|]. apply wp_bind.
    apply (wp_mono _ _ _ (fun _ h' => Forall quiet_event h')).
    + intros started h4 Hh4. split; [done|]. intros percent h5 ->. reduce. split; [done|]. intros [e|] h6 ->.
      * reduce. split; [done|]. intros ctxErr h7 ->. by repeat constructor.
      * reduce. apply IH. by repeat constructor.
    + unfold note_failure, Mysql.observe. destruct (_ =? 1).
      * split; [done|]. intros now h4 ->. split; [done|]. intros [] h5 ->. by repeat constructor.
      * split; [done|]. intros now h4 ->. split; [done|]. intros [] h5 ->. by repeat constructor.
  - apply wp_bind. eapply (wp_mono _ _ _ (fun _ _ => True)); [by intros|].
    destruct (_ && _); [|done]. unfold Mysql.observe. split; [done|]. intros now h4 ->. by split.
Qed.

(** A call of the repository. *)
Inductive repository_call : Type := CallListPending | CallComplete (ids : list Z).

Definition perform_call (queries : repositoryQueries) (fuel : nat) (c : repository_call) : prog (option (option error)) :=
  match c with
  | CallListPending =>
      r ← ListPending true queries fuel;
      mret (match r with None => None | Some (Err err) => Some (Some err) | Some (Ok _) => Some None end)
  | CallComplete ids => Complete true queries fuel ids
  end.

Lemma perform_call_failed queries fuel c :
  wp (history (Sig := SqlSig) (fun _ _ => True)) [] (perform_call queries fuel c)
    (fun r h => match r with Some (Some _) => Forall quiet_event h | _ => True end).
Proof.
  destruct c as [|ids]; cbn [perform_call].
  - unfold ListPending. do 2 apply wp_bind.
    eapply wp_mono; [|by apply (Do_failed _ _ _ (list_attempt_ops queries))]. by intros [[[err|] records]|] h Hh.
  - unfold Complete. destruct (uniqueIDs ids) as [|id ids'] eqn:E; [done|]. rewrite <- E. apply wp_bind.
    eapply wp_mono; [|by apply (Do_failed _ _ _ (complete_step_ops queries (uniqueIDs ids)))]. by intros [[[err|] st]|] h Hh.
Qed.

(** C39: a call of the repository that returns an error never tells the
    observer that the outage it reported is over.  So once an outage was
    announced and the call behind it failed - for instance because the
    database came back and refused the login - no further outage is announced
    by calls that fail, however long they last, and the observer still takes
    the first one for open. *)
Theorem failed_calls_silence_alerts {W : Type} (pr : protocol (Sig := SqlSig) W) w queries fuel c tr w' err o :
  partial pr w (perform_call queries fuel c) tr w' (Ret (Some (Some err))) -> announced o ->
  let (o', l) := observe_all o (observed tr) in announced o' /\ alerts l = [].
Proof.
  intros Hp Ho. apply silent_events; [done|].
  pose proof (history_returns _ _ _ _ _ _ _ _ _ Hp (perform_call_failed queries fuel c)) as Hq. cbn beta iota in Hq.
  rewrite app_nil_r in Hq. apply Forall_rev in Hq. rewrite rev_involutive in Hq.
  clear Hp. unfold observed. induction Hq as [|[o1 r1] tr' He Hq IH]; [constructor|]. destruct o1; try exact IH. by constructor.
Qed.
End Calls.

(** ** Witness

    A database that answers nothing for five minutes and then refuses the
    login; the time of every reading is two minutes after the last. *)

Section Witness.
#[local] Instance login_causes : Causes := fun code => if code =? 3 then EOF else OtherError.

Definition transient : error := External 3 "unexpected end".
Definition refused : error := External 1045 "access denied".

(** The readings of the clock and the answers to the queries. *)
Definition login_env (st : Z * list error) (o : SqlOp) : option (SqlResp o * (Z * list error)) :=
  match o return option (SqlResp o * (Z * list error)) with
  | QueryPending _ =>
      match snd st with err :: rest => Some (Err err, (fst st, rest)) | [] => None end
  | Now => Some (fst st, (fst st + 2 * Minute, snd st))
  | Jitter => Some (20, st)
  | CtxErr | CloseRows | Sleep _ => Some (None, st)
  | Observe _ => Some (tt, st)
  | _ => None
  end.

Definition any_database : protocol (Sig := SqlSig) (Z * list error) :=
  @Build_protocol SqlSig _ (fun _ _ => True) (fun st o r st' => login_env st o = Some (r, st')).

Definition failing_call : prog (Sig := SqlSig) (option (option error)) := perform_call referralQueries 10 CallListPending.
Definition first_outage : Z * list error := (0, [transient; transient; transient; refused]).
Definition second_outage : Z * list error := (0, repeat transient 6 ++ [refused]).
Definition second_trace : list (event SqlSig) := exec_trace (Sig := SqlSig) login_env second_outage failing_call.
Definition first_trace : list (event SqlSig) := exec_trace (Sig := SqlSig) login_env first_outage failing_call.

(** The first call announces the outage; the second, which lasts longer, is
    silent. *)
Lemma failed_calls_silence_alerts_witness :
  let (o, l) := observe_all NewMySQLRetryObserver (observed first_trace) in
  length (alerts l) = 1%nat /\
  let (o', l') := observe_all o (observed second_trace) in l' <> [] /\ alerts l' = [].
Proof.
  pose proof (exec_partial (Sig := SqlSig) any_database (fun st => st) login_env (fun _ _ _ _ E => E) failing_call second_outage) as Hp.
  assert (fst (exec (Sig := SqlSig) login_env second_outage failing_call) = Ret (Some (Some refused))) as E by (vm_compute; reflexivity).
  rewrite E in Hp. set (seen := observe_all NewMySQLRetryObserver (observed first_trace)).
  assert (announced (fst seen)) as Ha.
  { split; [vm_compute; reflexivity|]. intros E0.
    assert (size (outages (fst seen)) = 1%nat) as E1 by (vm_compute; reflexivity). by rewrite E0, map_size_empty in E1. }
  pose proof (failed_calls_silence_alerts any_database _ _ _ _ _ _ _ (fst seen) Hp Ha) as Ht. fold second_trace in Ht.
  assert (length (alerts (snd seen)) = 1%nat) as Hone by (vm_compute; reflexivity).
  assert (match snd (observe_all (fst seen) (observed second_trace)) with [] => false | _ => true end = true) as Hlog
    by (vm_compute; reflexivity).
  destruct seen as [o l]. cbn [fst snd] in *. destruct (observe_all o _) as [o' l']. cbn [snd] in Hlog.
  split; [exact Hone|]. split; [by destruct l'|exact (proj2 Ht)].
Defined.
End Witness.
