(* ===== verification/MockTheorems.v ===== *)
(** * What the local exchange guarantees

    The properties of an exchange that the payout relies on, shown of the
    server the repository's end-to-end tests run against: a nonce of a signer
    is good for one action, and a replay of its request is answered as before
    and changes nothing ([replay_is_idempotent]); money is neither made nor
    lost, accounts stay solvent and only a signer's money leaves
    ([ledger_is_sound]); an accepted action was applied, a rejected one was
    not ([submission_is_truthful]); a prepared payout arrives, once
    ([prepared_payout_arrives]); the info client reads what the ledger holds
    ([info_reads_the_ledger]), and its polling sees through a bounded number
    of stale answers ([stale_reads_end]).  With the contract of the payout
    ([PayoutWorld]) and the process around it ([Service]) this composes to
    [records_are_paid_at_most_once]: whatever the service does and whenever
    it is killed, the exchange executes a transfer for a record at most
    once. *)

From Stdlib Require Import QArith Lqa.
From S2P Require Import Prelude DecimalSpec DecimalImpl Prog Crash Scheduler Settings Keycipher Report Effects PayoutWorld PayoutInv Sim PayoutTheorems App Service ServiceTheorems Model Clock Sha256 Msgpack Signing SigningFacts Json JsonFacts JsonStruct Envelope EnvelopeFacts Text Exchange ExchangeFacts HttpClient HttpTheorems InfoClient InfoTheorems Mock.

(** ** Sums over a map *)

Section Sums.
Context {K A : Type} `{Countable K}.
Variable f : K -> A -> Q.

Definition sum_map (m : gmap K A) : Q := map_fold (fun k a acc => f k a + acc)%Q 0%Q m.

Lemma sum_map_insert_new m k a : m !! k = None -> (sum_map (<[k := a]> m) == f k a + sum_map m)%Q.
Proof.
  intros Hk. refine (map_fold_insert Qeq (fun k a acc => (f k a + acc)%Q) 0%Q k a m _ _ Hk); [|intros; ring].
  by intros k' a' x y ->.
Qed.

Lemma sum_map_delete m k a : m !! k = Some a -> (sum_map m == f k a + sum_map (delete k m))%Q.
Proof.
  intros Hk. rewrite <- (insert_delete_id m k a Hk) at 1. apply sum_map_insert_new, lookup_delete_eq.
Qed.

(** Replacing a value, where a missing one counts as [zero]. *)
Lemma sum_map_set zero m k a : (f k zero == 0)%Q ->
  (sum_map (<[k := a]> m) == sum_map m - f k (default zero (m !! k)) + f k a)%Q.
Proof.
  intros Hz. destruct (m !! k) as [b|] eqn:E.
  - change (default zero (Some b)) with b. rewrite <- insert_delete_eq, sum_map_insert_new by apply lookup_delete_eq. rewrite (sum_map_delete m k b E). ring.
  - change (default zero None) with zero. rewrite sum_map_insert_new, Hz by done. ring.
Qed.

Lemma sum_map_remove zero m k : (f k zero == 0)%Q ->
  (sum_map (delete k m) == sum_map m - f k (default zero (m !! k)))%Q.
Proof.
  intros Hz. destruct (m !! k) as [b|] eqn:E.
  - change (default zero (Some b)) with b. rewrite (sum_map_delete m k b E). ring.
  - change (default zero None) with zero. rewrite delete_id, Hz by done. ring.
Qed.
End Sums.

(** ** Steps *)

Section Mock.
Context `{Laws : DecimalLaws} `{Crypto}.

(** A request that is served. *)
Inductive served (s : Server) : Server -> Prop :=
| served_request request : served s (snd (serveHTTP request s)).

(** What a test may do between requests. *)
Inductive arranged (s : Server) : Server -> Prop :=
| arranged_balance address token total hold s' : SetSpotBalanceWithHold address token total hold s = Ok s' -> arranged s s'
| arranged_snapshot address token total hold s' : QueueSpotBalanceSnapshot address token total hold s = Ok s' -> arranged s s'
| arranged_reward address token amount s' : SetClaimReward address token amount s = Ok s' -> arranged s s'
| arranged_limit address used cap : arranged s (SetUserRateLimit address used cap s)
| arranged_limit_snapshot address used cap : arranged s (QueueUserRateLimitSnapshot address used cap s)
| arranged_failure mode : arranged s (FailNextExchange mode s).

Definition mock_step (s s' : Server) : Prop := served s s' \/ arranged s s'.

(** The money of the exchange. *)
Definition ledger (s : Server) : gmap balanceKey spotBalance * gmap balanceKey decimal := (sv_balances s, sv_claimRewards s).

(** The state without the log of requests. *)
Definition unlogged (s : Server) : Server := s <| sv_requests := [] |>.

(** [s'] differs from [s] in the ledger only. *)
Definition ledger_only (s s' : Server) : Prop :=
  s' = s <| sv_balances := sv_balances s' |> <| sv_claimRewards := sv_claimRewards s' |>.

Lemma applyClaim_frame signer s s' : applyClaim signer s = Ok s' -> ledger_only s s'.
Proof. unfold applyClaim. destruct (negb _); [done|]. by intros [= <-]. Qed.

Lemma applySpotSend_frame signer action s s' : applySpotSend signer action s = Ok s' -> ledger_only s s'.
Proof.
  unfold applySpotSend. destruct (NewFromString _) as [amount|]; [|done]. destruct (negb _); [done|].
  destruct (dec_less _ _); [done|]. by intros [= <-].
Qed.

(** What an accepted request stands for. *)
Definition claims_or_sends (signer : string) (record : RecordedRequest) (apply : Server -> result Server) : Prop :=
  apply = applyClaim signer /\ rr_ActionType record = "claimRewards" \/
  exists action, apply = applySpotSend signer action /\ rr_ActionType record = "spotSend".

Lemma accept_inv body signer nonce record apply :
  accept body = inl (signer, nonce, record, apply) -> claims_or_sends signer record apply.
Proof.
  unfold accept. destruct (unmarshal dec_exchange_request _ _) as [request|]; [|done].
  destruct (unmarshal dec_action_type _ _) as [kind|]; [|done]. destruct (String.eqb kind "claimRewards").
  { unfold accept_claim. destruct (RecoverL1ActionSigner _ _ _); [|done]. intros E. injection E as -> _ <- <-. by left. }
  destruct (String.eqb kind "spotSend"); [|done]. unfold accept_spot_send.
  destruct (unmarshal dec_spot_send _ _) as [action|]; [|done]. destruct (negb _); [done|]. destruct (negb _); [done|].
  destruct (RecoverSpotSendSigner _ _); [|done]. intros E. injection E as -> _ <- <-. right. by exists action.
Qed.

Lemma apply_frame signer record apply s s' : claims_or_sends signer record apply -> apply s = Ok s' -> ledger_only s s'.
Proof. intros [[-> _]|(action & -> & _)]; [apply applyClaim_frame|apply applySpotSend_frame]. Qed.

(** ** One execution of an action *)

(** The action was carried out. *)
Definition carried_out (apply : Server -> result Server) (s : Server) : bool :=
  snd (prescribed (sv_nextFailure s)) && is_ok (apply s).

(** The answer to the first execution. *)
Definition first_answer (apply : Server -> result Server) (s : Server) : Z * string :=
  if snd (prescribed (sv_nextFailure s)) && negb (is_ok (apply s)) then (200, mutation_rejected)
  else fst (prescribed (sv_nextFailure s)).

(** What [apply] makes of the ledger, which is all it looks at. *)
Definition on_ledger (apply : Server -> result Server) : Prop :=
  forall s s', ledger s = ledger s' ->
    match apply s, apply s' with Ok t, Ok t' => ledger t = ledger t' | Err _, Err _ => True | _, _ => False end.

Lemma apply_on_ledger signer record apply : claims_or_sends signer record apply -> on_ledger apply.
Proof.
  intros Ha s s' E. unfold ledger in E. injection E as Eb Er. destruct Ha as [[-> _]|(action & -> & _)].
  - unfold applyClaim, reward_of, balance_of, ledger. rewrite <- Eb, <- Er. destruct (negb _); [done|].
    cbn. by rewrite <- Eb, <- Er.
  - unfold applySpotSend, balance_of, ledger. rewrite <- Eb. destruct (NewFromString _) as [amount|]; [|done].
    destruct (negb _); [done|]. destruct (dec_less _ _); [done|]. cbn. by rewrite <- Eb, <- Er.
Qed.

Lemma first_execution_spec key hash signer record apply s :
  claims_or_sends signer record apply ->
  let '(answer, s') := first_execution key hash signer apply s in
  let '(status, response) := first_answer apply s in
  answer = writeRaw status response /\ sv_outcomes s' = <[key := mkOutcome hash status response]> (sv_outcomes s) /\
  ledger s' = match apply s with Ok s1 => if carried_out apply s then ledger s1 else ledger s | Err _ => ledger s end.
Proof.
  intros Ha. unfold first_execution, first_answer, carried_out.
  destruct (prescribed (sv_nextFailure s)) as [[status response] [|]]; cbn [fst snd andb]; [|by destruct (apply s)].
  match goal with |- context [match apply ?s0 with _ => _ end] =>
    pose proof (apply_on_ledger _ _ _ Ha s0 s eq_refl) as Hl; destruct (apply s0) as [s1|e] eqn:E1 end;
    destruct (apply s) as [s2|e2]; cbn [is_ok negb]; try done.
  pose proof (apply_frame _ _ _ _ _ Ha E1) as Hf. rewrite Hf. by rewrite <- Hl, Hf.
Qed.

(** The outcome that is on record for the nonce of a signer, after a request
    of theirs was executed, and the answer it prescribes for the request. *)
Definition settled_answer (hash : string) (outcome : exchangeOutcome) : answer :=
  if negb (String.eqb (oc_hash outcome) hash) then refusal 200 "nonce already used"
  else writeRaw (oc_statusCode outcome) (oc_body outcome).

Lemma execute_known body signer nonce record apply s outcome :
  sv_outcomes s !! idempotencyKey signer nonce = Some outcome ->
  execute body signer nonce record apply s =
  (settled_answer (hashBytes body) outcome, s <| sv_requests ::= (fun l => l ++ [record]) |>).
Proof. intros Ho. unfold execute. cbn. rewrite Ho. unfold settled_answer. by destruct (negb _). Qed.

(** The first request of a signer with a nonce. *)
Lemma execute_new body signer nonce record apply s :
  claims_or_sends signer record apply -> sv_outcomes s !! idempotencyKey signer nonce = None ->
  let '(answer, s') := execute body signer nonce record apply s in
  let '(status, response) := first_answer apply s in
  answer = writeRaw status response /\
  sv_outcomes s' = <[idempotencyKey signer nonce := mkOutcome (hashBytes body) status response]> (sv_outcomes s) /\
  ledger s' = match apply s with Ok s1 => if carried_out apply s then ledger s1 else ledger s | Err _ => ledger s end.
Proof.
  intros Ha Ho. unfold execute. cbn. rewrite Ho. set (s0 := s <| sv_requests ::= (fun l => l ++ [record]) |>).
  pose proof (first_execution_spec (idempotencyKey signer nonce) (hashBytes body) signer record apply s0 Ha) as Hf.
  destruct (first_execution _ _ _ _ _) as [answer s']. unfold first_answer, carried_out in *.
  pose proof (apply_on_ledger _ _ _ Ha s0 s eq_refl) as Hl. cbn [sv_nextFailure] in Hf.
  destruct (apply s0), (apply s); try done. cbn [is_ok] in *. by rewrite <- Hl.
Qed.

(** ** What is remembered *)

Lemma handleInfo_frame body s :
  let s' := snd (handleInfo body s) in
  ledger s' = ledger s /\ sv_outcomes s' = sv_outcomes s /\ sv_nextFailure s' = sv_nextFailure s.
Proof.
  unfold handleInfo. destruct (unmarshal _ _ _) as [request|]; [|done].
  destruct (String.eqb _ "spotMeta"); [done|]. destruct (String.eqb _ "spotClearinghouseState").
  { unfold visibleSpotBalanceLocked. destruct (default [] _); [|done]. by destruct (sv_authoritativeBalanceReads s !! _). }
  destruct (String.eqb _ "referral"); [done|]. destruct (String.eqb _ "userRateLimit"); [|done].
  unfold visibleUserRateLimitLocked. by destruct (default [] _).
Qed.

(** A request is a question, an action or nothing. *)
Lemma serveHTTP_cases request s (P : answer * Server -> Prop) :
  (forall a, P (a, s)) ->
  (forall body, ReadAll (Z.shiftl 1 20) request = Ok body -> P (handleInfo body s)) ->
  (forall body, ReadAll (Z.shiftl 1 20) request = Ok body -> P (handleExchange body s)) ->
  P (serveHTTP request s).
Proof.
  intros Hn Hi He. unfold serveHTTP. destruct (negb _); [apply Hn|]. destruct (ReadAll _ _) as [body|]; [|apply Hn].
  destruct (String.eqb _ "/info"); [by apply Hi|]. destruct (String.eqb _ "/exchange"); [by apply He|apply Hn].
Qed.

Lemma handleExchange_cases body s (P : answer * Server -> Prop) :
  (forall a, P (a, s)) ->
  (forall signer nonce record apply outcome, accept body = inl (signer, nonce, record, apply) ->
     sv_outcomes s !! idempotencyKey signer nonce = Some outcome ->
     P (settled_answer (hashBytes body) outcome, s <| sv_requests ::= (fun l => l ++ [record]) |>)) ->
  (forall signer nonce record apply s', accept body = inl (signer, nonce, record, apply) ->
     claims_or_sends signer record apply -> sv_outcomes s !! idempotencyKey signer nonce = None ->
     let '(status, response) := first_answer apply s in
     sv_outcomes s' = <[idempotencyKey signer nonce := mkOutcome (hashBytes body) status response]> (sv_outcomes s) ->
     ledger s' = match apply s with Ok s1 => if carried_out apply s then ledger s1 else ledger s | Err _ => ledger s end ->
     P (writeRaw status response, s')) ->
  P (handleExchange body s).
Proof.
  intros Hn Hk He. unfold handleExchange. destruct (accept body) as [[[[signer nonce] record] apply]|refused] eqn:E; [|apply Hn].
  destruct (sv_outcomes s !! idempotencyKey signer nonce) as [outcome|] eqn:Eo.
  { rewrite (execute_known _ _ _ _ _ _ outcome) by done. by eapply Hk. }
  pose proof (accept_inv _ _ _ _ _ E) as Ha. pose proof (execute_new body signer nonce record apply s Ha Eo) as Hx.
  destruct (execute _ _ _ _ _ _) as [answer s']. specialize (He signer nonce record apply s' eq_refl Ha Eo).
  destruct (first_answer apply s) as [status response]. destruct Hx as (-> & Ho & Hl). by apply He.
Qed.

Lemma handleExchange_remembers body s : sv_outcomes s ⊆ sv_outcomes (snd (handleExchange body s)).
Proof.
  apply (handleExchange_cases body s (fun p => sv_outcomes s ⊆ sv_outcomes (snd p))); [done|done|].
  intros signer nonce record apply s1 _ _ Ho. destruct (first_answer apply s) as [status response]. cbn [snd].
  intros -> _. by apply insert_subseteq.
Qed.

Lemma handleInfo_remembers body s : sv_outcomes s ⊆ sv_outcomes (snd (handleInfo body s)).
Proof. by destruct (handleInfo_frame body s) as (_ & -> & _). Qed.

Lemma arranged_remembers s s' : arranged s s' -> sv_outcomes s ⊆ sv_outcomes s'.
Proof.
  intros [].
  - unfold SetSpotBalanceWithHold in *. destruct (parseSpotBalance _ _); [|done]. by simplify_eq/=.
  - unfold QueueSpotBalanceSnapshot in *. destruct (parseSpotBalance _ _); [|done]. by simplify_eq/=.
  - unfold SetClaimReward in *. destruct (NewFromString _); [|done]. by simplify_eq/=.
  - done.
  - done.
  - done.
Qed.

Lemma mock_step_remembers s s' : mock_step s s' -> sv_outcomes s ⊆ sv_outcomes s'.
Proof.
  intros [[request]|Ha]; [|by apply arranged_remembers].
  apply (serveHTTP_cases request s (fun p => sv_outcomes s ⊆ sv_outcomes (snd p))); [done| |];
    intros body _; [apply handleInfo_remembers|apply handleExchange_remembers].
Qed.

Lemma rtc_remembers s s' : rtc mock_step s s' -> sv_outcomes s ⊆ sv_outcomes s'.
Proof. induction 1 as [|s s1 s' Hs _ IH]; [done|]. etrans; [by apply mock_step_remembers|done]. Qed.

(** An accepted action leaves an outcome that prescribes its answer. *)
Lemma exchange_settles body s signer nonce record apply : accept body = inl (signer, nonce, record, apply) ->
  exists outcome, sv_outcomes (snd (handleExchange body s)) !! idempotencyKey signer nonce = Some outcome /\
    settled_answer (hashBytes body) outcome = fst (handleExchange body s).
Proof.
  intros E. unfold handleExchange. rewrite E.
  destruct (sv_outcomes s !! idempotencyKey signer nonce) as [outcome|] eqn:Eo.
  { rewrite (execute_known _ _ _ _ _ _ outcome) by done. by exists outcome. }
  pose proof (execute_new body signer nonce record apply s (accept_inv _ _ _ _ _ E) Eo) as Hx.
  destruct (execute _ _ _ _ _ _) as [answer s']. destruct (first_answer apply s) as [status response].
  destruct Hx as (-> & Ho & _). cbn [fst snd]. rewrite Ho, lookup_insert_eq. eexists. split; [done|].
  unfold settled_answer. cbn. by rewrite String.eqb_refl.
Qed.

(** The answer to a body stays what it was, and giving it again changes
    nothing. *)
Lemma replayed body s s' : sv_outcomes (snd (handleExchange body s)) ⊆ sv_outcomes s' ->
  fst (handleExchange body s') = fst (handleExchange body s) /\ unlogged (snd (handleExchange body s')) = unlogged s'.
Proof.
  intros Hs. destruct (accept body) as [[[[signer nonce] record] apply]|refused] eqn:E.
  - destruct (exchange_settles body s _ _ _ _ E) as (outcome & Ho & Ha). rewrite <- Ha.
    unfold handleExchange. rewrite E.
    by rewrite (execute_known _ _ _ _ _ _ outcome) by (by apply (lookup_weaken _ _ _ _ Ho)).
  - unfold handleExchange. by rewrite E.
Qed.

(** The exchange executes a signed request at most once.  Whatever happened
    since a request was first received - other requests, injected failures,
    changes of the accounts - receiving it again gives the same answer, byte
    for byte, and changes nothing but the log of requests. *)
Theorem replay_is_idempotent request s s' :
  rq_Path request = "/exchange" -> rtc mock_step (snd (serveHTTP request s)) s' ->
  fst (serveHTTP request s') = fst (serveHTTP request s) /\ unlogged (snd (serveHTTP request s')) = unlogged s'.
Proof.
  intros Hp. unfold serveHTTP. destruct (negb _); [done|]. destruct (ReadAll _ _) as [body|]; [|done].
  rewrite Hp. cbv match. intros Hs. by apply replayed, rtc_remembers.
Qed.

(** ** Visibility lag *)

(** Successive reads of a balance. *)
Fixpoint reads_of (n : nat) (key : balanceKey) (s : Server) : list spotBalance * Server :=
  match n with
  | O => ([], s)
  | S n => let '(v, s) := visibleSpotBalanceLocked key s in let '(l, s) := reads_of n key s in (v :: l, s)
  end.

Definition queue_of (s : Server) (key : balanceKey) : list spotBalance := default [] (sv_balanceSnapshots s !! key).

Lemma seen_after key s :
  let '(v, s') := visibleSpotBalanceLocked key s in
  v = List.hd (balance_of s key) (queue_of s key) /\ queue_of s' key = List.tl (queue_of s key) /\ ledger s' = ledger s.
Proof.
  unfold visibleSpotBalanceLocked, queue_of. destruct (default [] (sv_balanceSnapshots s !! key)) as [|v q] eqn:E.
  - destruct (sv_authoritativeBalanceReads s !! key); cbn; by rewrite E.
  - cbn. destruct q; by rewrite ?lookup_delete_eq, ?lookup_insert_eq.
Qed.

(** The snapshots that are queued for an account are shown once each, in
    their order, and then the balance of the ledger: an observer that asks
    often enough sees the truth. *)
Theorem stale_reads_end key s n :
  fst (reads_of (length (queue_of s key) + n) key s) = queue_of s key ++ repeat (balance_of s key) n /\
  queue_of (snd (reads_of (length (queue_of s key) + n) key s)) key = [] /\
  ledger (snd (reads_of (length (queue_of s key) + n) key s)) = ledger s.
Proof.
  remember (queue_of s key) as q eqn:Eq. revert s Eq. induction q as [|v q IH]; intros s Eq; cbn [length Nat.add app].
  - induction n as [|n IHn] in s, Eq |- *; cbn [reads_of repeat]; [done|]. pose proof (seen_after key s) as Hv.
    destruct (visibleSpotBalanceLocked key s) as [v s1]. rewrite <- Eq in Hv. destruct Hv as (-> & Hq & Hl).
    specialize (IHn s1 (eq_sym Hq)). destruct (reads_of n key s1) as [l s2]. cbn [fst snd hd] in *.
    assert (balance_of s1 key = balance_of s key) as Eb by (unfold balance_of; unfold ledger in Hl; congruence).
    destruct IHn as (-> & Hq2 & Hl2). rewrite Eb. split; [done|]. split; [done|congruence].
  - cbn [reads_of]. pose proof (seen_after key s) as Hv. destruct (visibleSpotBalanceLocked key s) as [v1 s1].
    rewrite <- Eq in Hv. destruct Hv as (-> & Hq & Hl). specialize (IH s1 (eq_sym Hq)).
    destruct (reads_of (length q + n) key s1) as [l s2]. cbn [fst snd hd] in *.
    assert (balance_of s1 key = balance_of s key) as Eb by (unfold balance_of; unfold ledger in Hl; congruence).
    destruct IH as (-> & Hq2 & Hl2). rewrite Eb. split; [done|]. split; [done|congruence].
Qed.

(** ** The money *)

Notation ledger_type := (gmap balanceKey spotBalance * gmap balanceKey decimal)%type.

Definition held (token : string) (key : balanceKey) (b : spotBalance) : Q :=
  if String.eqb (snd key) token then dec_value (sb_total b) else 0%Q.
Definition promised (token : string) (key : balanceKey) (reward : decimal) : Q :=
  if String.eqb (snd key) token then dec_value reward else 0%Q.

(** All there is of a token: balances and rewards that are not claimed. *)
Definition supply (l : ledger_type) (token : string) : Q :=
  (sum_map (held token) (fst l) + sum_map (promised token) (snd l))%Q.

(** No account is overdrawn, held amounts included. *)
Definition solvent (l : ledger_type) : Prop :=
  map_Forall (fun _ b => (0 <= dec_value (sb_hold b) <= dec_value (sb_total b))%Q) (fst l).

Definition total_at (l : ledger_type) (key : balanceKey) : Q := dec_value (sb_total (default no_balance (fst l !! key))).

Lemma held_zero token key : (held token key no_balance == 0)%Q.
Proof. unfold held. destruct (String.eqb _ _); [apply dec_value_zero|reflexivity]. Qed.
Lemma promised_zero token key : (promised token key dec_zero == 0)%Q.
Proof. unfold promised. destruct (String.eqb _ _); [apply dec_value_zero|reflexivity]. Qed.

(** An account with the total changed by [d]. *)
Lemma supply_set balances rewards token key b d :
  (dec_value (sb_total b) == total_at (balances, rewards) key + d)%Q ->
  (supply (<[key := b]> balances, rewards) token ==
   supply (balances, rewards) token + if String.eqb (snd key) token then d else 0)%Q.
Proof.
  intros Hb. unfold supply. cbn [fst snd]. rewrite (sum_map_set _ no_balance) by apply held_zero.
  unfold total_at in Hb. cbn [fst] in Hb. unfold held at 2 3. destruct (String.eqb _ _); [rewrite Hb; ring|ring].
Qed.

Lemma solvent_at l key : solvent l ->
  (0 <= dec_value (sb_hold (default no_balance (fst l !! key))) <= total_at l key)%Q.
Proof.
  intros Hs. unfold total_at. destruct (fst l !! key) as [b|] eqn:E; [exact (Hs key b E)|].
  cbn. rewrite dec_value_zero. lra.
Qed.

Lemma total_at_set balances rewards key b key' :
  total_at (<[key := b]> balances, rewards) key' =
  if decide (key = key') then dec_value (sb_total b) else total_at (balances, rewards) key'.
Proof.
  unfold total_at. cbn [fst]. destruct (decide (key = key')) as [<-|Hne]; [by rewrite lookup_insert_eq|by rewrite lookup_insert_ne].
Qed.

(** What applying an action may do to the money. *)
Record sound_change (payer : string) (l l' : ledger_type) : Prop := {
  sc_supply token : (supply l' token == supply l token)%Q;
  sc_solvent : solvent l -> solvent l';
  sc_payer key : (total_at l' key < total_at l key)%Q -> fst key = payer
}.

Lemma applyClaim_sound signer s s' : applyClaim signer s = Ok s' ->
  sound_change (normalizeAddress signer) (ledger s) (ledger s') /\ forall key, (total_at (ledger s) key <= total_at (ledger s') key)%Q.
Proof.
  unfold applyClaim. set (key := (normalizeAddress signer, wireToken)).
  destruct (dec_less _ _) eqn:El; [|done]. cbn [negb]. intros [= <-]. apply dec_less_iff in El. rewrite dec_value_int in El.
  change (inject_Z 1) with 1%Q in El. unfold ledger. cbn.
  set (b := mkSpot _ _ _). assert (dec_value (sb_total b) == total_at (ledger s) key + dec_value (reward_of s key))%Q as Hb.
  { subst b. cbn. by rewrite dec_value_add. }
  assert (forall k, total_at (sv_balances s, sv_claimRewards s) k <=
                    total_at (<[key := b]> (sv_balances s), delete key (sv_claimRewards s)) k)%Q as Hm.
  { intros k. rewrite total_at_set. case_decide as E; [rewrite <- E, Hb; unfold ledger; lra|apply Qle_refl]. }
  split; [|exact Hm]. split.
  - intros token. transitivity (supply (<[key := b]> (sv_balances s), sv_claimRewards s) token - promised token key (reward_of s key))%Q.
    + unfold supply. cbn [fst snd]. rewrite (sum_map_remove _ dec_zero) by apply promised_zero. unfold reward_of. ring.
    + rewrite (supply_set _ _ _ _ _ _ Hb). unfold promised. destruct (String.eqb _ _); ring.
  - intros Hs. apply map_Forall_insert_2; [|done]. pose proof (solvent_at _ key Hs) as Hk. unfold ledger in *. cbn [fst] in Hk.
    rewrite Hb. subst b. cbn [sb_hold]. unfold balance_of. lra.
  - intros k Hk. specialize (Hm k). lra.
Qed.

Lemma applySpotSend_sound signer action s s' : applySpotSend signer action s = Ok s' ->
  sound_change (normalizeAddress signer) (ledger s) (ledger s').
Proof.
  unfold applySpotSend, NewFromString. destruct (dec_parse (ss_Amount action)) as [amount|]; [|done].
  destruct (dec_pos amount) eqn:Ep; [|done]. cbn [negb]. apply dec_pos_iff in Ep.
  set (source := (normalizeAddress signer, ss_Token action)). set (destination := (normalizeAddress (ss_Destination action), ss_Token action)).
  destruct (dec_less _ amount) eqn:El; [done|]. apply dec_less_false in El. rewrite dec_value_sub in El.
  intros [= <-]. unfold ledger. cbn. unfold balance_of in *. cbn.
  set (b1 := mkSpot _ (dec_sub _ amount) _). set (mid := <[source := b1]> (sv_balances s)). set (b2 := mkSpot _ (dec_add _ amount) _).
  assert (dec_value (sb_total b1) == total_at (ledger s) source + - dec_value amount)%Q as H1.
  { subst b1. cbn [sb_total]. rewrite dec_value_sub. reflexivity. }
  assert (dec_value (sb_total b2) == total_at (mid, sv_claimRewards s) destination + dec_value amount)%Q as H2.
  { subst b2. cbn [sb_total]. rewrite dec_value_add. reflexivity. }
  split.
  - intros token. rewrite (supply_set _ _ _ _ _ _ H2). unfold mid. rewrite (supply_set _ _ _ _ _ _ H1).
    cbn [snd source destination]. destruct (String.eqb _ _); ring.
  - intros Hs. assert (solvent (mid, sv_claimRewards s)) as Hm.
    { apply map_Forall_insert_2; [|exact Hs]. pose proof (solvent_at _ source Hs) as Hk. rewrite H1. subst b1. cbn [sb_hold].
      unfold ledger in *. cbn [fst] in Hk. unfold total_at in *. cbn [fst] in *. lra. }
    apply map_Forall_insert_2; [|exact Hm]. pose proof (solvent_at _ destination Hm) as Hk. rewrite H2. subst b2. cbn [sb_hold fst] in *. lra.
  - intros k. rewrite total_at_set. case_decide as Ed; [rewrite <- Ed|].
    + rewrite H2. unfold mid. rewrite total_at_set. case_decide as E.
      * rewrite H1, E. intros Hk. unfold ledger in Hk. lra.
      * intros Hk. lra.
    + unfold mid. rewrite total_at_set. case_decide as E; [by rewrite <- E|]. intros Hk. lra.
Qed.

(** A debit has a cause: a spot send of the account's owner that is executed
    for the first time. *)
Definition debited_by (body : string) (s : Server) (account : string) : Prop :=
  exists signer nonce record apply, accept body = inl (signer, nonce, record, apply) /\ rr_ActionType record = "spotSend" /\
    normalizeAddress signer = account /\ sv_outcomes s !! idempotencyKey signer nonce = None.

Lemma apply_sound signer record apply s s' : claims_or_sends signer record apply -> apply s = Ok s' ->
  sound_change (normalizeAddress signer) (ledger s) (ledger s') /\
  (rr_ActionType record <> "spotSend" -> forall key, (total_at (ledger s) key <= total_at (ledger s') key)%Q).
Proof.
  intros [[-> Hk]|(action & -> & Hk)] E.
  - destruct (applyClaim_sound _ _ _ E). by split.
  - split; [by eapply applySpotSend_sound|]. by rewrite Hk.
Qed.

Lemma serve_sound request s :
  let s' := snd (serveHTTP request s) in
  (forall token, (supply (ledger s') token == supply (ledger s) token)%Q) /\
  (solvent (ledger s) -> solvent (ledger s')) /\
  forall key, (total_at (ledger s') key < total_at (ledger s) key)%Q ->
    exists body, ReadAll (Z.shiftl 1 20) request = Ok body /\ debited_by body s (fst key).
Proof.
  set (Sound := fun p : answer * Server => (forall token, (supply (ledger (snd p)) token == supply (ledger s) token)%Q) /\
    (solvent (ledger s) -> solvent (ledger (snd p))) /\
    forall key, (total_at (ledger (snd p)) key < total_at (ledger s) key)%Q ->
      exists body, ReadAll (Z.shiftl 1 20) request = Ok body /\ debited_by body s (fst key)).
  assert (forall a s', ledger s' = ledger s -> Sound (a, s')) as Hsame.
  { intros a s' E. unfold Sound. cbn [snd]. rewrite E. split; [done|]. split; [done|]. intros key Hk. lra. }
  apply (serveHTTP_cases request s Sound); [intros a; by apply Hsame| |].
  - intros body _. destruct (handleInfo body s) as [a s'] eqn:E. apply Hsame.
    pose proof (handleInfo_frame body s) as (Hl & _). by rewrite E in Hl.
  - intros body Hb. apply handleExchange_cases; [intros a; by apply Hsame|intros; by apply Hsame|].
    intros signer nonce record apply s' E Ha Ho. destruct (first_answer apply s) as [status response]. intros _ Hl.
    destruct (apply s) as [s1|e] eqn:E1; [|by apply Hsame]. destruct (carried_out apply s); [|by apply Hsame].
    destruct (apply_sound _ _ _ _ _ Ha E1) as [[Hsup Hsol Hpay] Hmono]. unfold Sound. cbn [snd]. rewrite Hl.
    split; [done|]. split; [done|]. intros key Hk. exists body. split; [done|]. exists signer, nonce, record, apply.
    split; [done|]. split; [|split; [by rewrite (Hpay key)|done]].
    destruct (decide (rr_ActionType record = "spotSend")) as [|Hne]; [done|]. specialize (Hmono Hne key). lra.
Qed.

(** C16: whatever requests the exchange serves, money is neither made nor lost -
    balances and unclaimed rewards of a token keep their sum - and no account
    is overdrawn, held amounts included; and an account loses money only to
    a spot send signed by its owner whose nonce was not used before. *)
Theorem ledger_is_sound s s' :
  rtc served s s' ->
  (forall token, (supply (ledger s') token == supply (ledger s) token)%Q) /\
  (solvent (ledger s) -> solvent (ledger s')) /\
  forall request key, (total_at (ledger (snd (serveHTTP request s'))) key < total_at (ledger s') key)%Q ->
    exists body, ReadAll (Z.shiftl 1 20) request = Ok body /\ debited_by body s' (fst key).
Proof.
  intros Hs. split; [|split; [|intros request; apply serve_sound]].
  - intros token. induction Hs as [|s s1 s' [request] _ IH]; [reflexivity|].
    rewrite IH. apply (serve_sound request s).
  - induction Hs as [|s s1 s' [request] _ IH]; [done|]. intros H1. apply IH. by apply (serve_sound request s).
Qed.
End Mock.

(** ** Reading what the clients write *)

Lemma decodes_signature sig : -9223372036854775808 <= sig_V sig < 9223372036854775808 ->
  decodes dec_signature (encode (signature_json sig)) zero_signature sig.
Proof.
  intros Hv. unfold signature_json. rewrite encode_obj. cbn [map encode].
  apply decodes_obj; [solve_readable|]. do 3 decode_field. by destruct sig.
Qed.

Lemma decodes_spot_send a : uint64 (ss_Time a) -> decodes dec_spot_send (encode (spot_send_json a)) zero_spot_send a.
Proof.
  intros Ht. unfold spot_send_json. rewrite encode_obj. cbn [map encode]. unfold uint64 in Ht.
  apply decodes_obj; [solve_readable|]. do 7 decode_field. by destruct a.
Qed.

Lemma decodes_exchange_request action nonce sig : well_formed action = true -> uint64 nonce -> 27 <= sig_V sig <= 34 ->
  decodes dec_exchange_request (encode (request_json action nonce sig)) (mkExchangeRequest "" 0 zero_signature)
    (mkExchangeRequest (encode action) nonce sig).
Proof.
  intros Ha Hn Hv. pose proof (decodes_signature sig ltac:(lia)) as Hs. unfold request_json. rewrite encode_obj.
  generalize dependent (signature_json sig). intros v Hs. cbn [map encode]. unfold uint64 in Hn.
  apply decodes_obj.
  - solve_readable; [by apply readable_encode|by apply (readable_encode JNull)].
  - cbn [assign_fields]. find_field. unfold dec_raw at 1. decode_field. decode_field. cbn [assign_fields]. by find_field.
Qed.

Lemma unmarshal_decodes {A : Type} (dec : decoder A) text zero a : decodes dec text zero a -> unmarshal dec zero text = Some a.
Proof. intros [(v & Hv & _) Hd]. unfold unmarshal. by rewrite (reads_document _ _ Hv). Qed.

Section Accepting.
Context `{Laws : DecimalLaws} `{CLaws : CryptoLaws}.

Lemma accept_request action nonce sig kind :
  well_formed action = true -> uint64 nonce -> 27 <= sig_V sig <= 34 ->
  unmarshal dec_action_type "" (encode action) = Some kind ->
  accept (encode (request_json action nonce sig)) =
  let request := mkExchangeRequest (encode action) nonce sig in
  if String.eqb kind "claimRewards" then accept_claim request
  else if String.eqb kind "spotSend" then accept_spot_send request
  else inr (refusal 400 "unsupported action").
Proof.
  intros Ha Hn Hv Hk. unfold accept.
  rewrite (unmarshal_decodes _ _ _ _ (decodes_exchange_request action nonce sig Ha Hn Hv)). cbn [er_Action]. by rewrite Hk.
Qed.

(** A prepared action is accepted as what it is, from its signer. *)
Lemma accept_prepared_send c address destination token amount nonce action :
  client_ok c -> chainLabel (cl_network c) = "Testnet" -> uint64 nonce ->
  PrepareSpotSend (Some c) address destination token amount nonce = Ok action ->
  let send := spot_send_action c destination token amount nonce in
  accept (pa_RequestBody action) =
    inl (normalizeAddress address, nonce, mkRecorded "spotSend" (ss_Destination send), applySpotSend (normalizeAddress address) send).
Proof.
  intros Hc Hnet Hn Ha send. destruct (PrepareSpotSend_inv _ _ _ _ _ _ _ Hc Ha) as (canonical & sig & Hfold & _ & -> & Hsig & Hv).
  apply EqualFold_spec in Hfold. rewrite Hfold in Hsig. fold send in Hsig |- *. cbn [pa_RequestBody prepare].
  rewrite (accept_request _ nonce sig "spotSend") by (done || by apply spot_send_json_ok || (unfold spot_send_json; rewrite encode_obj;
    cbn [map encode]; apply unmarshal_decodes, decodes_obj; [solve_readable|decode_field; cbn [assign_fields]; by find_field])).
  cbv zeta. change (String.eqb "spotSend" "claimRewards") with false. change (String.eqb "spotSend" "spotSend") with true. cbv match.
  unfold accept_spot_send. cbn [er_Action er_Nonce er_Signature].
  rewrite (unmarshal_decodes _ _ _ _ (decodes_spot_send send Hn)). cbn [send spot_send_action ss_Time ss_HyperliquidChain].
  rewrite Z.eqb_refl, Hnet. cbn [negb]. change (String.eqb "Testnet" "Testnet") with true. cbn [negb].
  fold (spot_send_action c destination token amount nonce). fold send. by rewrite Hsig.
Qed.

Lemma accept_prepared_claim c address nonce action :
  client_ok c -> cl_network c = NetworkTestnet -> uint64 nonce -> PrepareClaim (Some c) address nonce = Ok action ->
  accept (pa_RequestBody action) =
    inl (normalizeAddress address, nonce, mkRecorded "claimRewards" "", applyClaim (normalizeAddress address)).
Proof.
  intros Hc Hnet Hn Ha. destruct (PrepareClaim_inv _ _ _ _ Hc Ha) as (canonical & sig & Hfold & -> & Hsig & Hv).
  apply EqualFold_spec in Hfold. rewrite Hfold, Hnet in Hsig. cbn [pa_RequestBody prepare].
  rewrite (accept_request _ nonce sig "claimRewards") by (done || by vm_compute).
  cbv zeta. change (String.eqb "claimRewards" "claimRewards") with true. cbv match.
  unfold accept_claim. cbn [er_Nonce er_Signature]. by rewrite Hsig.
Qed.

(** Applying a spot send that the account can pay for. *)
Lemma applySpotSend_pays signer send s amount :
  dec_parse (ss_Amount send) = Some amount -> (0 < dec_value amount)%Q ->
  let source : balanceKey := (normalizeAddress signer, ss_Token send) in
  let target : balanceKey := (normalizeAddress (ss_Destination send), ss_Token send) in
  (dec_value amount <= total_at (ledger s) source - dec_value (sb_hold (balance_of s source)))%Q ->
  exists s', applySpotSend signer send s = Ok s' /\
    forall key, (total_at (ledger s') key == total_at (ledger s) key +
                   (if decide (target = key) then dec_value amount else 0) - (if decide (source = key) then dec_value amount else 0))%Q.
Proof.
  intros Hp Hpos source target Hfunds. unfold applySpotSend, NewFromString. rewrite Hp. apply dec_pos_iff in Hpos. rewrite Hpos.
  cbn [negb]. fold source target.
  assert (dec_less (dec_sub (sb_total (balance_of s source)) (sb_hold (balance_of s source))) amount = false) as ->.
  { apply dec_less_false. rewrite dec_value_sub. unfold total_at, ledger in Hfunds. cbn [fst] in Hfunds. exact Hfunds. }
  eexists. split; [reflexivity|]. intros key. unfold ledger. cbn. rewrite !total_at_set. cbn [sb_total]. unfold balance_of. cbn.
  set (b1 := mkSpot _ _ _).
  assert (dec_value (dec_sub (sb_total (default no_balance (sv_balances s !! source))) amount) ==
          total_at (sv_balances s, sv_claimRewards s) source - dec_value amount)%Q as Hb1 by by rewrite dec_value_sub.
  assert (dec_value (sb_total b1) == total_at (sv_balances s, sv_claimRewards s) source - dec_value amount)%Q as Hb1' by exact Hb1.
  case_decide as Et; [rewrite <- Et|].
  - rewrite dec_value_add. change (dec_value (sb_total (default no_balance (<[source := b1]> (sv_balances s) !! target))))
      with (total_at (<[source := b1]> (sv_balances s), sv_claimRewards s) target).
    rewrite total_at_set. case_decide as E; [rewrite Hb1', E; ring|ring].
  - case_decide as E; [rewrite <- E, Hb1; ring|ring].
Qed.
End Accepting.

(** ** Over HTTP *)

Section OverHttp.
Context `{UnicodeTables} `{NetOps} `{Laws : DecimalLaws} `{Crypto}.

(** The network with the server at its other end: the state of the server and
    its answer to the request that was sent last. *)
Definition mock_network (n : Server * answer) (o : HttpOp) : option (HttpResp o * (Server * answer)) :=
  match o return option (HttpResp o * (Server * answer)) with
  | NewRequest url _ => Some (match url_Parse url with Ok _ => None | Err err => Some err end, n)
  | DoRequest url payload =>
      Some (match url_Parse url with
            | Ok u => let '(a, s) := serveHTTP (mkRequest "POST" (u_Path u) payload None) (fst n) in (Ok (an_status a), (s, a))
            | Err err => (Err err, n)
            end)
  | ReadBody limit =>
      let body := an_body (snd n) in
      Some (Ok (if Z.of_nat (String.length body) <=? limit then body else take_bytes (Z.to_nat limit) body), n)
  | CloseBody => Some (None, n)
  end.

(** The URLs of a client lead to the server's handlers. *)
Definition reaches (c : HttpClient.Client) : Prop :=
  forall endpoint, endpoint = endpointInfo \/ endpoint = endpointExchange ->
    exists u, url_Parse (endpointURL c endpoint) = Ok u /\ u_Path u = endpoint.

Definition within (limit : Z) (text : string) : Prop := Z.of_nat (String.length text) < limit.

Lemma ReadAll_whole method path data : within 1048576 data -> ReadAll (Z.shiftl 1 20) (mkRequest method path data None) = Ok data.
Proof. unfold within, ReadAll. change (Z.shiftl 1 20) with 1048576. cbn [rq_data]. intros Hd. by rewrite (proj2 (Z.leb_gt _ _) Hd). Qed.

#[local] Ltac reduce := cbn [mbind prog_mbind prog_bind mret prog_ret perform let_ok if_err fst snd read_response
  readBoundedResponseBody readResponseBody rbind exec mock_network to_result joined].

(** A request of the client and the server's answer. *)
Lemma exec_post {A : Type} c endpoint request raw (out : option (string -> option A)) payload n :
  reaches c -> endpoint = endpointInfo \/ endpoint = endpointExchange ->
  match raw, request with Some raw, _ => raw = payload | None, Some v => encode v = payload | None, None => False end ->
  let '(a, s') := serveHTTP (mkRequest "POST" endpoint payload None) (fst n) in
  Z.of_nat (String.length (an_body a)) <= defaultMaxResponseBytes ->
  exec (Sig := HttpSig) mock_network n (post (Some c) endpoint request raw out) =
  (Ret (if (an_status a <? 200) || (300 <=? an_status a) then
          let excerpt := safeHTTPErrorExcerpt (an_body a) false in
          (excerpt, None, Some (HTTPStatusError endpoint (canonicalHTTPStatus (an_status a)) excerpt))
        else match out with
             | None => (an_body a, None, None)
             | Some decode => match decode (an_body a) with
                              | None => (an_body a, None, Some (Wrapf "decode hyperliquid %s response: %w" [endpoint] (Errorf "invalid JSON" [])))
                              | Some value => (an_body a, Some value, None)
                              end
             end), (s', a)).
Proof.
  intros Hc He Hp. destruct (Hc endpoint He) as (u & Hu & Hpath).
  destruct (serveHTTP _ (fst n)) as [a s'] eqn:Es. intros Hlen.
  assert (Hread : (if Z.of_nat (String.length (an_body a)) <=? defaultMaxResponseBytes + 1 then an_body a
                   else take_bytes (Z.to_nat (defaultMaxResponseBytes + 1)) (an_body a)) = an_body a).
  { by rewrite (proj2 (Z.leb_le _ _)) by lia. }
  unfold post.
  replace (match raw, request with Some raw, _ => raw | None, Some v => encode v | None, None => "" end) with payload
    by (destruct raw, request; done || congruence).
  destruct raw as [raw|]; [|destruct request as [request|]; [|done]]; reduce; rewrite Hu; reduce; rewrite Hu; reduce; rewrite Hpath, Es; reduce;
    unfold read_response; destruct ((an_status a <? 200) || (300 <=? an_status a)); reduce; rewrite Hread; reduce;
    rewrite (proj2 (Z.leb_le _ _) Hlen); reduce; try done; destruct out as [decode|]; reduce; try done;
    by destruct (decode (an_body a)).
Qed.

(** ** Submitting an action *)

(** What the client makes of an answer to an action. *)
Definition verdict_of (a : answer) : SubmitResult * option error :=
  if (an_status a <? 200) || (300 <=? an_status a) then
    let excerpt := safeHTTPErrorExcerpt (an_body a) false in
    classify excerpt (Some (HTTPStatusError endpointExchange (canonicalHTTPStatus (an_status a)) excerpt))
  else classify (an_body a) None.

Lemma exec_submit c action n : reaches c -> within 1048576 (pa_RequestBody action) -> pa_RequestBody action <> "" ->
  let '(a, s') := handleExchange (pa_RequestBody action) (fst n) in
  Z.of_nat (String.length (an_body a)) <= defaultMaxResponseBytes ->
  exec (Sig := HttpSig) mock_network n (submit_over_http (Some c) action) = (Ret (verdict_of a), (s', a)).
Proof.
  intros Hc Hb Hne. pose proof (exec_post (A := unit) c endpointExchange None (Some (pa_RequestBody action)) None
    (pa_RequestBody action) n Hc (or_intror eq_refl) eq_refl) as Hx.
  unfold serveHTTP in Hx. rewrite ReadAll_whole in Hx by done. cbn [rq_Method rq_Path] in Hx.
  change (negb (String.eqb "POST" "POST")) with false in Hx. change (String.eqb endpointExchange "/info") with false in Hx.
  change (String.eqb endpointExchange "/exchange") with true in Hx. cbv match in Hx.
  destruct (handleExchange _ _) as [a s']. intros Hlen. specialize (Hx Hlen).
  unfold submit_over_http, ExchangeRaw. assert (string_is_empty (pa_RequestBody action) = false) as -> by by destruct (pa_RequestBody action).
  unfold mbind, prog_mbind.
  erewrite exec_bind; [|erewrite exec_bind; [reflexivity|exact Hx]].
  unfold verdict_of. cbn [exec mret prog_ret fst snd]. by destruct (_ || _).
Qed.

Lemma accept_nonempty body x : accept body = inl x -> body <> "".
Proof. by intros E ->. Qed.

(** The verdict on a first execution: accepted means carried out, rejected
    means not, and there is an error exactly when neither is known. *)
Lemma first_verdict apply s :
  let '(status, response) := first_answer apply s in
  let '(r, err) := verdict_of (writeRaw status response) in
  Z.of_nat (String.length response) <= defaultMaxResponseBytes /\
  (sr_Accepted r = true -> carried_out apply s = true) /\
  (sr_Rejected r = true -> carried_out apply s = false) /\
  (err = None <-> sr_Accepted r = true \/ sr_Rejected r = true).
Proof.
  unfold first_answer, carried_out.
  destruct (is_ok (apply s)), (sv_nextFailure s); cbn [prescribed snd fst andb negb];
    match goal with
    | |- context [verdict_of (writeRaw 200 ?body)] =>
        change (verdict_of (writeRaw 200 body)) with (classify body None);
        let v := eval vm_compute in (classify body None) in change (classify body None) with v
    | |- context [verdict_of (writeRaw 503 ?body)] =>
        unfold verdict_of; cbn [an_status writeRaw]; change ((503 <? 200) || (300 <=? 503)) with true; cbn [classify]
    end; cbn [sr_Accepted sr_Rejected]; (split; [vm_compute; discriminate|]); naive_solver.
Qed.

(** A first submission: its verdict, what became of the ledger, and what any
    later submission of the same request gives. *)
Lemma submit_first c action s a0 signer nonce record apply :
  reaches c -> within 1048576 (pa_RequestBody action) ->
  accept (pa_RequestBody action) = inl (signer, nonce, record, apply) ->
  sv_outcomes s !! idempotencyKey signer nonce = None ->
  let '(status, response) := first_answer apply s in
  let a := writeRaw status response in
  exists s1, exec (Sig := HttpSig) mock_network (s, a0) (submit_over_http (Some c) action) = (Ret (verdict_of a), (s1, a)) /\
    ledger s1 = match apply s with Ok t => if carried_out apply s then ledger t else ledger s | Err _ => ledger s end /\
    forall s2 a2, rtc mock_step s1 s2 -> exists s3,
      exec (Sig := HttpSig) mock_network (s2, a2) (submit_over_http (Some c) action) = (Ret (verdict_of a), (s3, a)) /\
      unlogged s3 = unlogged s2.
Proof.
  intros Hc Hb Ea Eo. pose proof (accept_nonempty _ _ Ea) as Hne.
  pose proof (execute_new (pa_RequestBody action) signer nonce record apply s (accept_inv _ _ _ _ _ Ea) Eo) as Hx.
  pose proof (exec_submit c action (s, a0) Hc Hb Hne) as Hs. pose proof (first_verdict apply s) as Hv.
  pose proof (replayed (pa_RequestBody action) s) as Hr.
  assert (handleExchange (pa_RequestBody action) s = execute (pa_RequestBody action) signer nonce record apply s) as Eh.
  { unfold handleExchange. by rewrite Ea. }
  cbn [fst] in Hs. rewrite Eh in Hs, Hr. destruct (execute _ _ _ _ _ _) as [a s1].
  destruct (first_answer apply s) as [status response]. destruct Hx as (-> & _ & Hl).
  assert (Z.of_nat (String.length (an_body (writeRaw status response))) <= defaultMaxResponseBytes) as Hlen.
  { destruct (verdict_of _). apply Hv. }
  exists s1. split; [by apply Hs|]. split; [done|]. intros s2 a2 H12. destruct (Hr s2 (rtc_remembers _ _ H12)) as [Ha3 Hu].
  pose proof (exec_submit c action (s2, a2) Hc Hb Hne) as Hs2. cbn [fst snd] in *.
  destruct (handleExchange (pa_RequestBody action) s2) as [a3 s3]. cbn [fst snd] in *. subst a3.
  exists s3. split; [by apply Hs2|done].
Qed.

(** C15: the exchange and its client together tell the truth about a submitted
    action: accepted, it was applied; rejected, it was not; and an error is
    reported exactly when neither is known, when it may or may not have been
    applied.  Submitting it again, after anything else that happened, repeats
    the verdict and moves no money. *)
Theorem submission_is_truthful c action s a0 signer nonce record apply :
  reaches c -> within 1048576 (pa_RequestBody action) ->
  accept (pa_RequestBody action) = inl (signer, nonce, record, apply) ->
  sv_outcomes s !! idempotencyKey signer nonce = None ->
  exists r err s1 a1, exec (Sig := HttpSig) mock_network (s, a0) (submit_over_http (Some c) action) = (Ret (r, err), (s1, a1)) /\
    (sr_Accepted r = true -> exists t, apply s = Ok t /\ ledger s1 = ledger t) /\
    (sr_Rejected r = true -> ledger s1 = ledger s) /\
    (err = None <-> sr_Accepted r = true \/ sr_Rejected r = true) /\
    (ledger s1 = ledger s \/ exists t, apply s = Ok t /\ ledger s1 = ledger t) /\
    forall s2 a2, rtc mock_step s1 s2 -> exists s3,
      exec (Sig := HttpSig) mock_network (s2, a2) (submit_over_http (Some c) action) = (Ret (r, err), (s3, a1)) /\
      ledger s3 = ledger s2.
Proof.
  intros Hc Hb Ea Eo. pose proof (submit_first c action s a0 signer nonce record apply Hc Hb Ea Eo) as Hs.
  pose proof (first_verdict apply s) as Hv. destruct (first_answer apply s) as [status response].
  cbv zeta in Hs. destruct (verdict_of _) as [r err]. destruct Hs as (s1 & Hx & Hl & Hr). destruct Hv as (_ & Hacc & Hrej & Herr).
  exists r, err, s1, (writeRaw status response). split; [done|].
  assert (carried_out apply s = true -> is_ok (apply s) = true) as Hok by by intros [_ ?]%andb_true_iff.
  split; [|split; [|split; [done|split]]].
  - intros Ht. rewrite (Hacc Ht) in Hl, Hok. specialize (Hok eq_refl). destruct (apply s) as [t|]; [|done]. by exists t.
  - intros Ht. rewrite (Hrej Ht) in Hl. by destruct (apply s).
  - destruct (apply s) as [t|]; [|by left]. destruct (carried_out apply s); [right; by exists t|by left].
  - intros s2 a2 H12. destruct (Hr s2 a2 H12) as (s3 & Hs3 & Hu). exists s3. split; [done|].
    assert (ledger (unlogged s3) = ledger (unlogged s2)) as E by by rewrite Hu. exact E.
Qed.
End OverHttp.

(** ** From the exchange client to the accounts *)

Section EndToEnd.
Context `{UnicodeTables} `{NetOps} `{Laws : DecimalLaws} `{CLaws : CryptoLaws}.

(** C14: a spot send prepared by the exchange client, submitted over HTTP to an
    exchange whose account can pay for it, is accepted and moves exactly its
    amount from the signer's account to the destination's - the same one
    included - and touches no other; submitting it again, whatever happened in
    between, is accepted again and moves nothing. *)
Theorem prepared_payout_arrives c hc s a0 address destination token amount nonce action :
  client_ok c -> chainLabel (cl_network c) = "Testnet" -> uint64 nonce ->
  PrepareSpotSend (Some c) address destination token amount nonce = Ok action ->
  reaches hc -> within 1048576 (pa_RequestBody action) ->
  let source : balanceKey := (normalizeAddress address, tok_WireToken token) in
  let target : balanceKey := (normalizeAddress destination, tok_WireToken token) in
  sv_nextFailure s = failureNone -> sv_outcomes s !! idempotencyKey address nonce = None ->
  (dec_value amount <= total_at (ledger s) source - dec_value (sb_hold (balance_of s source)))%Q ->
  exists r s1 a1, exec (Sig := HttpSig) mock_network (s, a0) (submit_over_http (Some hc) action) = (Ret (r, None), (s1, a1)) /\
    sr_Accepted r = true /\
    (forall key, (total_at (ledger s1) key == total_at (ledger s) key +
       (if decide (target = key) then dec_value amount else 0) - (if decide (source = key) then dec_value amount else 0))%Q) /\
    forall s2 a2, rtc mock_step s1 s2 -> exists s3,
      exec (Sig := HttpSig) mock_network (s2, a2) (submit_over_http (Some hc) action) = (Ret (r, None), (s3, a1)) /\
      unlogged s3 = unlogged s2.
Proof.
  intros Hc Hnet Hn Ha Hr Hb source target Hf Ho Hfunds.
  pose proof (accept_prepared_send _ _ _ _ _ _ _ Hc Hnet Hn Ha) as Hacc. cbv zeta in Hacc.
  set (send := spot_send_action c destination token amount nonce) in *.
  destruct (PrepareSpotSend_inv _ _ _ _ _ _ _ Hc Ha) as (_ & _ & _ & Hpos & _ & _ & _). apply dec_pos_iff in Hpos.
  destruct (dec_parse_string amount) as (norm & Hnorm & Hval).
  assert (normalizeAddress (normalizeAddress address) = normalizeAddress address) as Haa by apply address_key_idemp.
  assert (normalizeAddress (TrimSpace destination) = normalizeAddress destination) as Hdd.
  { unfold normalizeAddress. by rewrite TrimSpace_idemp. }
  destruct (applySpotSend_pays (normalizeAddress address) send s norm) as (t & Ht & Hmoved).
  { exact Hnorm. } { by rewrite Hval. } { rewrite Haa, Hval. exact Hfunds. }
  assert (sv_outcomes s !! idempotencyKey (normalizeAddress address) nonce = None) as Ho'.
  { unfold idempotencyKey in *. by rewrite Haa. }
  pose proof (submit_first hc action s a0 _ _ _ _ Hr Hb Hacc Ho') as Hs.
  unfold first_answer, carried_out in Hs. rewrite Hf, Ht in Hs. cbn [prescribed snd fst is_ok negb andb] in Hs. cbv zeta in Hs.
  destruct Hs as (s1 & Hx & Hl & Hrep).
  match type of Hx with context [verdict_of (writeRaw 200 ?body)] =>
    change (verdict_of (writeRaw 200 body)) with (mkSubmitResult true false body, @None error) in Hx, Hrep end.
  eexists _, s1, _. split; [exact Hx|]. split; [done|]. split; [|exact Hrep].
  intros key. rewrite Hl. rewrite (Hmoved key). rewrite Haa. cbn [send spot_send_action ss_Destination ss_Token] in *. rewrite Hdd.
  fold source target. repeat case_decide; rewrite ?Hval; reflexivity.
Qed.
End EndToEnd.

(** ** Questions *)

(** Arrays as decoded values of their own. *)
Lemma decodes_slice {A : Type} (zero : A) (dec : decoder A) texts l z :
  Forall2 (fun text a => decodes dec text zero a) texts l -> decodes (dec_slice zero (fun v _ => v) dec) (arr_text texts) z l.
Proof.
  intros Hl. destruct (dec_slice_decodes zero (fun v (_ : list A) => v) dec texts l z Hl) as [_ Hd]. split; [|exact Hd].
  assert (exists vs, Forall2 reads texts vs) as [vs Hvs].
  { clear Hd. induction Hl as [|text a texts l [(v & Hv & _) _] _ [vs IH]]; [by exists []|]. exists (v :: vs). by constructor. }
  exists (JArr vs). by split; [apply reads_arr|].
Qed.

Lemma decodes_raw v : well_formed v = true -> v <> JNull -> decodes (dec_raw (fun v _ => v)) (encode v) "" (encode v).
Proof. intros Hw Hn. split; [|done]. exists v. by split; [apply reads_encode|]. Qed.

Lemma decodes_question kind user :
  decodes dec_info_request (question kind (Some user)) (mkInfoRequest "" "" 0 0) (mkInfoRequest kind user 0 0).
Proof.
  unfold question. rewrite encode_obj. cbn [map encode]. apply decodes_obj; [solve_readable|]. by do 2 decode_field.
Qed.

Lemma int64_small z : 0 <= z <= 100 -> -9223372036854775808 <= z < 9223372036854775808.
Proof. lia. Qed.

Lemma decodes_spot_balance b : 0 <= spb_Token b <= 100 -> decodes dec_spot_balance (encode (spot_balance_json b)) zero_spot_balance b.
Proof.
  intros Hb%int64_small. unfold spot_balance_json. rewrite encode_obj. cbn [map encode].
  apply decodes_obj; [solve_readable|]. do 4 decode_field. by destruct b.
Qed.

Lemma decodes_balances `{DecimalOps} v :
  decodes dec_balances (encode (balances_json v)) []
    [mkSpotBalance "USDC" 0 (dec_string (sb_total v)) (dec_string (sb_hold v))].
Proof.
  unfold balances_json. set (b := mkSpotBalance _ _ _ _). rewrite encode_obj. cbn [map]. rewrite encode_arr.
  pose proof (decodes_slice zero_spot_balance dec_spot_balance (map encode [spot_balance_json b]) [b] []) as Hd.
  apply decodes_obj; [constructor; [|constructor]; eapply decodes_readable, Hd; repeat constructor; by apply decodes_spot_balance|].
  cbn [assign_fields]. find_field. destruct Hd as [_ ->]; [|done]. constructor; [by apply decodes_spot_balance|constructor].
Qed.

(** The entries of an answer about rewards. *)
Definition reward_entries `{DecimalOps} (reward : decimal) : list (list string) :=
  if dec_equal reward dec_zero then [] else [["0"; encode (JObj [("unclaimedRewards", JStr (dec_string reward))])]].

Lemma decodes_rewards `{DecimalOps} reward :
  decodes dec_token_states (encode (referral_json reward)) None (Some (reward_entries reward)).
Proof.
  unfold referral_json, reward_entries. rewrite encode_obj. cbn [map]. destruct (dec_equal reward dec_zero).
  { apply decodes_obj; [solve_readable; by apply (readable_encode (JArr []))|]. cbn [assign_fields]. by find_field. }
  set (state := JObj _). assert (well_formed state = true) as Hs by done.
  rewrite encode_arr. cbn [map]. rewrite encode_arr. cbn [map]. change (encode (JNum (itoa (st_Index canonicalToken)))) with "0".
  assert (decodes (dec_slice [] (fun v _ => v) (dec_slice "" (fun v _ => v) (dec_raw (fun v _ => v))))
            (arr_text [arr_text ["0"; encode state]]) [] [["0"; encode state]]) as Hd.
  { apply decodes_slice. constructor; [|constructor]. apply decodes_slice.
    constructor; [by apply (decodes_raw (JNum "0"))|]. constructor; [by apply decodes_raw|constructor]. }
  apply decodes_obj; [solve_readable|]. cbn [assign_fields]. find_field. unfold field at 1. cbn [List.find].
  by rewrite (dec_ptr_decodes _ _ _ _ _ _ _ Hd).
Qed.

Lemma decodes_rate_limit l : uint64 (url_NRequestsUsed l) -> uint64 (url_NRequestsCap l) -> uint64 (url_NRequestsSurplus l) ->
  decodes dec_rate_limit (encode (rate_limit_json l)) (mkRateLimitResponse "" None None 0)
    (mkRateLimitResponse (url_CumVlm l) (Some (url_NRequestsUsed l)) (Some (url_NRequestsCap l)) (url_NRequestsSurplus l)).
Proof.
  intros Hu Hc Hs. unfold rate_limit_json. rewrite encode_obj. cbn [map encode]. unfold uint64 in *.
  assert (forall z, 0 <= z < uint64_mod -> decodes (dec_uint64 (fun v _ => v)) (itoa z) 0 z) as Hd.
  { intros z Hz. split; [|by apply dec_uint64_itoa]. exists (JNum (itoa z)). split; [|done].
    apply (reads_encode (JNum (itoa z))). apply canonical_itoa. }
  pose proof (Hd _ Hu) as Hdu. pose proof (Hd _ Hc) as Hdc.
  apply decodes_obj; [solve_readable|]. by do 4 decode_field.
Qed.

Section Reading.
Context `{UnicodeTables} `{NetOps} `{Laws : DecimalLaws} `{Crypto}.

(** A question of the info client to the server. *)
Lemma exec_ask {A B : Type} hc kind user (decode : string -> option A) what (read : A -> result B) n v :
  reaches hc -> within 1048576 (question kind user) ->
  let '(a, s') := handleInfo (question kind user) (fst n) in
  an_status a = 200 -> Z.of_nat (String.length (an_body a)) <= defaultMaxResponseBytes -> decode (an_body a) = Some v ->
  exec (Sig := HttpSig) mock_network n (let! v := ask (over_http hc) kind user decode what else Err ;; mret (read v)) = (Ret (read v), (s', a)).
Proof.
  intros Hc Hq. pose proof (exec_post hc endpointInfo
    (Some (JObj (("type", JStr kind) :: match user with Some a => [("user", JStr a)] | None => [] end))) None (Some decode)
    (question kind user) n Hc (or_introl eq_refl) eq_refl) as Hx.
  unfold serveHTTP in Hx. rewrite ReadAll_whole in Hx by done. cbn [rq_Method rq_Path] in Hx.
  change (negb (String.eqb "POST" "POST")) with false in Hx. change (String.eqb endpointInfo "/info") with true in Hx. cbv match in Hx.
  destruct (handleInfo _ _) as [a s']. intros Hst Hlen Hd. specialize (Hx Hlen). rewrite Hst, Hd in Hx.
  unfold let_ok, ask, over_http, http_transport, Info, mbind, prog_mbind.
  erewrite exec_bind; [|erewrite exec_bind; [|erewrite exec_bind; [reflexivity|exact Hx]]; reflexivity]. reflexivity.
Qed.

(** What a question about a user reaches. *)
Lemma handleInfo_question kind user s :
  handleInfo (question kind (Some user)) s =
  let key := (normalizeAddress user, wireToken) in
  if String.eqb kind "spotMeta" then (writeJSON 200 spot_meta_json, s)
  else if String.eqb kind "spotClearinghouseState" then
    let '(value, s) := visibleSpotBalanceLocked key s in (writeJSON 200 (balances_json value), s)
  else if String.eqb kind "referral" then (writeJSON 200 (referral_json (reward_of s key)), s)
  else if String.eqb kind "userRateLimit" then
    let '(value, s) := visibleUserRateLimitLocked (normalizeAddress user) s in (writeJSON 200 (rate_limit_json value), s)
  else (info_error "unsupported info type", s).
Proof. unfold handleInfo. by rewrite (unmarshal_decodes _ _ _ _ (decodes_question kind user)). Qed.

(** The token the server knows, as the client resolves it. *)
Definition mock_usdc : Token := mkToken "USDC" "0" 0 6 "USDC:0".

Definition short (body : json) : Prop := Z.of_nat (String.length (encode body)) <= defaultMaxResponseBytes.

Lemma read_balance v : (0 <= dec_value (sb_hold v) <= dec_value (sb_total v))%Q ->
  exists bal, select_balance [mkSpotBalance "USDC" 0 (dec_string (sb_total v)) (dec_string (sb_hold v))] mock_usdc = Ok bal /\
    (dec_value (bal_Total bal) == dec_value (sb_total v))%Q /\
    (dec_value (bal_Available bal) == dec_value (sb_total v) - dec_value (sb_hold v))%Q.
Proof.
  intros Hv. unfold select_balance. cbn [List.find spb_Token spb_Coin mock_usdc tok_Index tok_Name].
  change ((0 =? 0) && String.eqb "USDC" "USDC") with true. cbv match. unfold ParseSpotBalance, NewFromString. cbn [spb_Total spb_Hold].
  destruct (dec_parse_string (sb_total v)) as (total & -> & Ht). destruct (dec_parse_string (sb_hold v)) as (hold & -> & Hh).
  assert (dec_neg (dec_sub total hold) = false) as ->. { apply dec_neg_false. rewrite dec_value_sub, Ht, Hh. lra. }
  eexists. split; [reflexivity|]. cbn [bal_Total bal_Available]. split; [done|]. by rewrite dec_value_sub, Ht, Hh.
Qed.

Lemma read_reward reward : (0 <= dec_value reward)%Q ->
  exists amount, read_claimable (Some (reward_entries reward)) mock_usdc = Ok amount /\ (dec_value amount == dec_value reward)%Q.
Proof.
  intros Hr. unfold read_claimable, reward_entries. destruct (dec_equal reward dec_zero) eqn:Ez.
  { apply dec_equal_iff in Ez. exists dec_zero. by split. }
  set (state := JObj _). cbn [claimable_loop]. change (unmarshal (dec_int64 (fun v _ => v)) 0 "0") with (Some 0).
  cbn [mock_usdc tok_Index negb Z.eqb]. assert (unmarshal dec_unclaimed "" (encode state) = Some (dec_string reward)) as ->.
  { apply unmarshal_decodes. subst state. rewrite encode_obj. cbn [map encode]. apply decodes_obj; [solve_readable|]. by decode_field. }
  unfold NewFromString. destruct (dec_parse_string reward) as (amount & -> & Ha).
  assert (dec_neg amount = false) as ->. { apply dec_neg_false. by rewrite Ha. }
  exists amount. by split.
Qed.

(** C17: over HTTP, the info client reads what the exchange holds: the canonical
    token, the balance the exchange shows - its total, and its total less what
    is held - the unclaimed rewards and the request counts, to the digit; and
    asking moves no money. *)
Theorem info_reads_the_ledger hc s a0 address :
  reaches hc -> (forall kind, kind ∈ ["spotClearinghouseState"; "referral"; "userRateLimit"] -> within 1048576 (question kind (Some address))) ->
  let key := (normalizeAddress address, wireToken) in
  let '(value, s1) := visibleSpotBalanceLocked key s in
  let '(limit, s2) := visibleUserRateLimitLocked (normalizeAddress address) s in
  (exists a, exec (Sig := HttpSig) mock_network (s, a0) (CanonicalUSDC (over_http hc)) = (Ret (Ok mock_usdc), (s, a))) /\
  ((0 <= dec_value (sb_hold value) <= dec_value (sb_total value))%Q -> short (balances_json value) ->
   exists bal a, exec (Sig := HttpSig) mock_network (s, a0) (query_SpotBalance (over_http hc) address mock_usdc) = (Ret (Ok bal), (s1, a)) /\
     (dec_value (bal_Total bal) == dec_value (sb_total value))%Q /\
     (dec_value (bal_Available bal) == dec_value (sb_total value) - dec_value (sb_hold value))%Q /\ ledger s1 = ledger s) /\
  ((0 <= dec_value (reward_of s key))%Q -> short (referral_json (reward_of s key)) ->
   exists amount a, exec (Sig := HttpSig) mock_network (s, a0) (query_ClaimableUSDC (over_http hc) address mock_usdc) = (Ret (Ok amount), (s, a)) /\
     (dec_value amount == dec_value (reward_of s key))%Q) /\
  (uint64 (url_NRequestsUsed limit) -> uint64 (url_NRequestsCap limit) -> uint64 (url_NRequestsSurplus limit) ->
   short (rate_limit_json limit) ->
   exists a, exec (Sig := HttpSig) mock_network (s, a0) (query_UserRateLimit (over_http hc) address) = (Ret (Ok limit), (s2, a)) /\
     ledger s2 = ledger s).
Proof.
  intros Hc Hq key. destruct (visibleSpotBalanceLocked key s) as [value s1] eqn:Ev.
  destruct (visibleUserRateLimitLocked (normalizeAddress address) s) as [limit s2] eqn:El.
  pose proof (handleInfo_question "spotClearinghouseState" address s) as Hb. fold key in Hb. cbv zeta in Hb. rewrite Ev in Hb.
  pose proof (handleInfo_question "referral" address s) as Hr. fold key in Hr.
  pose proof (handleInfo_question "userRateLimit" address s) as Hl. cbv zeta in Hl. rewrite El in Hl.
  split; [|split; [|split]].
  - unfold CanonicalUSDC, query_SpotMeta.
    pose proof (exec_ask hc "spotMeta" None (unmarshal dec_spot_meta (mkSpotMeta [])) "query spot metadata" ResolveCanonicalUSDC (s, a0)
      (mkSpotMeta [canonicalToken]) Hc ltac:(by vm_compute)) as Hx.
    assert (handleInfo (question "spotMeta" None) s = (writeJSON 200 spot_meta_json, s)) as E by (vm_compute; reflexivity).
    cbn [fst] in Hx. rewrite E in Hx. eexists. apply Hx; [done|by vm_compute|by vm_compute].
  - intros Hv Hs. destruct (read_balance value Hv) as (bal & Hbal & Ht & Ha). exists bal.
    pose proof (exec_ask hc "spotClearinghouseState" (Some address) (unmarshal dec_balances []) "query spot balance"
      (fun balances => select_balance balances mock_usdc) (s, a0)
      [mkSpotBalance "USDC" 0 (dec_string (sb_total value)) (dec_string (sb_hold value))] Hc (Hq "spotClearinghouseState" ltac:(repeat constructor))) as Hx.
    pose proof (handleInfo_frame (question "spotClearinghouseState" (Some address)) s) as (Hlg & _).
    cbn [fst] in Hx. rewrite Hb in Hx, Hlg.
    eexists. split; [|by split]. rewrite <- Hbal. apply Hx; [done|exact Hs|]. apply unmarshal_decodes, decodes_balances.
  - intros Hv Hs. destruct (read_reward _ Hv) as (amount & Hra & Ha). exists amount.
    pose proof (exec_ask hc "referral" (Some address) (unmarshal dec_token_states None) "query claimable USDC rewards"
      (fun response => read_claimable response mock_usdc) (s, a0) (Some (reward_entries (reward_of s key))) Hc (Hq "referral" ltac:(repeat constructor))) as Hx.
    cbn [fst] in Hx. rewrite Hr in Hx. eexists. split; [|done]. rewrite <- Hra. apply Hx; [done|exact Hs|].
    apply unmarshal_decodes, decodes_rewards.
  - intros Hu Hcap Hsur Hs.
    pose proof (exec_ask hc "userRateLimit" (Some address) (unmarshal dec_rate_limit (mkRateLimitResponse "" None None 0))
      "query user rate limit" read_rate_limit (s, a0) (mkRateLimitResponse (url_CumVlm limit) (Some (url_NRequestsUsed limit))
      (Some (url_NRequestsCap limit)) (url_NRequestsSurplus limit)) Hc (Hq "userRateLimit" ltac:(repeat constructor))) as Hx.
    pose proof (handleInfo_frame (question "userRateLimit" (Some address)) s) as (Hlg & _).
    cbn [fst] in Hx. rewrite Hl in Hx, Hlg. eexists. split; [|exact Hlg]. destruct limit as [vlm used cap surplus]. apply Hx; [done|exact Hs|]. by apply unmarshal_decodes, decodes_rate_limit.
Qed.
End Reading.

(** ** One payment per record

    What the service sends ([ServiceTheorems]) meets what the exchange
    executes. *)

(** A request that was delivered to the exchange: its body, the answer, and
    whether it was executed. *)
Record delivery : Type := mkDelivery { dl_body : string; dl_answer : answer; dl_executed : bool }.

(** An explicit rejection, as the exchange client reads it. *)
Definition rejection (a : answer) : Prop := 200 <= an_status a < 300 /\ decode_status (an_body a) = Some "err".

Section Settlement.
Context `{ops : DecimalOps} `{Laws : !DecimalLaws} `{Crypto}.

Definition executes (body : string) (s : Server) : bool :=
  match accept body with
  | inl (signer, nonce, _, apply) =>
      match sv_outcomes s !! idempotencyKey signer nonce with None => carried_out apply s | Some _ => false end
  | inr _ => false
  end.

(** A history of the exchange and the requests it received; anybody may send
    some, copies of the service's own included. *)
Inductive exchange_ran : Server -> list delivery -> Server -> Prop :=
| ran_nothing s : exchange_ran s [] s
| ran_request s body trace s' :
    exchange_ran (snd (handleExchange body s)) trace s' ->
    exchange_ran s (mkDelivery body (fst (handleExchange body s)) (executes body s) :: trace) s'
| ran_question s body trace s' : exchange_ran (snd (handleInfo body s)) trace s' -> exchange_ran s trace s'
| ran_arranged s s1 trace s' : arranged s s1 -> exchange_ran s1 trace s' -> exchange_ran s trace s'.

(** A request that was delivered before is not executed. *)
Lemma delivered_not_executed body s0 s :
  sv_outcomes (snd (handleExchange body s0)) ⊆ sv_outcomes s -> executes body s = false.
Proof.
  intros Hs. unfold executes. destruct (accept body) as [[[[signer nonce] record] apply]|] eqn:E; [|done].
  destruct (exchange_settles body s0 _ _ _ _ E) as (outcome & Ho & _). by rewrite (lookup_weaken _ _ _ _ Ho Hs).
Qed.

(** A request that is executed is not answered with a rejection. *)
Lemma executed_not_rejected body s : executes body s = true -> ~ rejection (fst (handleExchange body s)).
Proof.
  unfold executes, handleExchange. destruct (accept body) as [[[[signer nonce] record] apply]|] eqn:E; [|done].
  destruct (sv_outcomes s !! _) as [outcome|] eqn:Eo; [done|]. intros Hc.
  pose proof (execute_new body signer nonce record apply s (accept_inv _ _ _ _ _ E) Eo) as Hx.
  destruct (execute _ _ _ _ _ _) as [a s']. unfold first_answer, carried_out in *. apply andb_true_iff in Hc as [Hp Hok].
  rewrite Hp, Hok in Hx. cbn [negb andb fst] in Hx |- *. intros [Hst Hd].
  destruct (sv_nextFailure s); cbn [prescribed fst snd] in *; try discriminate Hp; destruct Hx as (-> & _);
    revert Hst Hd; vm_compute; intros [_ ?]; done.
Qed.

(** After a delivery, every further one of the same request is answered as
    before and not executed. *)
Lemma ran_after_delivery body s0 s trace s' :
  exchange_ran s trace s' -> sv_outcomes (snd (handleExchange body s0)) ⊆ sv_outcomes s ->
  Forall (fun d => dl_body d = body -> dl_executed d = false /\ dl_answer d = fst (handleExchange body s0)) trace.
Proof.
  induction 1 as [s|s body' trace s' _ IH|s body' trace s' _ IH|s s1 trace s' Ha _ IH]; intros Hs.
  - constructor.
  - constructor; [|apply IH; etrans; [exact Hs|apply handleExchange_remembers]]. cbn [dl_body dl_executed dl_answer]. intros ->.
    split; [by eapply delivered_not_executed|]. by apply replayed.
  - apply IH. etrans; [exact Hs|apply handleInfo_remembers].
  - apply IH. etrans; [exact Hs|by apply arranged_remembers].
Qed.

(** An executed request is never rejected, whenever it is delivered. *)
Lemma executed_never_rejected s trace s' d d' :
  exchange_ran s trace s' -> d ∈ trace -> d' ∈ trace -> dl_body d = dl_body d' -> dl_executed d = true -> ~ rejection (dl_answer d').
Proof.
  induction 1 as [s|s body trace s' Hr IH|s body trace s' _ IH|s s1 trace s' _ _ IH]; [by rewrite elem_of_nil|..|done|done].
  pose proof (ran_after_delivery body s _ _ _ Hr ltac:(done)) as Hafter. rewrite Forall_forall in Hafter.
  intros [->|Hd]%elem_of_cons [->|Hd']%elem_of_cons; cbn [dl_body dl_executed dl_answer].
  - intros _. by apply executed_not_rejected.
  - intros Hb He. destruct (Hafter d' Hd' (eq_sym Hb)) as [_ ->]. by apply executed_not_rejected.
  - intros Hb He. destruct (Hafter d Hd Hb) as [Hf _]. congruence.
  - by apply IH.
Qed.

(** Executed deliveries with one body are one. *)
Lemma executed_once (P : delivery -> bool) s trace s' :
  exchange_ran s trace s' -> (forall d, P d = true -> dl_executed d = true) ->
  (forall d d', d ∈ trace -> d' ∈ trace -> P d = true -> P d' = true -> dl_body d = dl_body d') ->
  (length (List.filter P trace) <= 1)%nat.
Proof.
  intros Hr HP. induction Hr as [s|s body trace s' Hr IH|s body trace s' _ IH|s s1 trace s' _ _ IH]; intros Hsame; [simpl; lia| |by apply IH..].
  pose proof (ran_after_delivery body s _ _ _ Hr ltac:(done)) as Hafter. rewrite Forall_forall in Hafter.
  cbn [List.filter]. set (d := mkDelivery _ _ _) in *. destruct (P d) eqn:Ed.
  - rewrite (proj2 (filter_none P trace)); [simpl; lia|]. apply Forall_forall. intros d' Hd'. destruct (P d') eqn:Ed'; [|done].
    destruct (Hafter d' Hd') as [Hf _]; [by apply (Hsame d' d); [right|left|..]|]. rewrite (HP d' Ed') in Hf. done.
  - apply IH. intros d1 d2 H1 H2. by apply Hsame; right.
Qed.

(** The service sent [x] and reads the answer to it. *)
Definition carries (x : submission) (d : delivery) : bool := String.eqb (pa_RequestBody (sub_action x)) (dl_body d).

(** The deliveries that were executed and pay a record. *)
Definition pays (w : world) (r : Z) (d : delivery) : bool :=
  dl_executed d && existsb (fun x => bool_decide (r ∈ sub_ids x) && carries x d) (w_subs w).

(** What the service takes for a rejection was one. *)
Definition rejections_are_real (w : world) (trace : list delivery) : Prop :=
  forall x, x ∈ w_subs w -> sub_rejected x = true -> exists d, d ∈ trace /\ carries x d = true /\ rejection (dl_answer d).

Lemma pays_inv w r d : pays w r d = true ->
  dl_executed d = true /\ exists x, x ∈ w_subs w /\ r ∈ sub_ids x /\ pa_RequestBody (sub_action x) = dl_body d.
Proof.
  unfold pays, carries. intros [He (x & Hx & Hc)%existsb_exists]%andb_true_iff. apply list_elem_of_In in Hx.
  apply andb_true_iff in Hc as [Hr%bool_decide_eq_true Hb%String.eqb_eq]. split; [done|]. by exists x.
Qed.

Lemma no_rejections w trace : forallb (fun x => negb (sub_rejected x)) (w_subs w) = true -> rejections_are_real w trace.
Proof.
  intros Hw x Hx Hrej. apply list_elem_of_In in Hx. pose proof (proj1 (forallb_forall _ _) Hw x Hx) as Hn.
  cbv beta in Hn. by rewrite Hrej in Hn.
Qed.

Lemma payments_unique w s trace s' r :
  no_double_payment w -> exchange_ran s trace s' -> rejections_are_real w trace -> (length (List.filter (pays w r) trace) <= 1)%nat.
Proof.
  intros Hw Hr Hrej. apply (executed_once _ s _ s'); [done|by intros d [? _]%pays_inv|].
  assert (forall d, d ∈ trace -> pays w r d = true ->
    exists x, x ∈ covering w r /\ pa_RequestBody (sub_action x) = dl_body d) as Hcov.
  { intros d Hd (He & x & Hx & Hrx & Hb)%pays_inv. exists x. split; [|done].
    apply list_elem_of_filter. split; [done|]. apply list_elem_of_filter. split; [|done].
    destruct (sub_rejected x) eqn:Ex; [|done]. exfalso. destruct (Hrej x Hx Ex) as (d' & Hd' & Hc & Hrd).
    apply String.eqb_eq in Hc. apply (executed_never_rejected s trace s' d d'); [done..|congruence|done|done]. }
  intros d d' Hd Hd' Hp Hp'. destruct (Hcov d Hd Hp) as (x & Hx & <-). destruct (Hcov d' Hd' Hp') as (x' & Hx' & <-).
  by rewrite (proj2 (Hw r) x x' Hx Hx').
Qed.
End Settlement.

Section OneService.
Context `{UnicodeTables} `{ops : DecimalOps} `{Laws : !DecimalLaws} `{Crypto} `{Ciphers} `{NetOps}.
Variable ParseRequestURI : string -> result (string * string).
Variable toml_decode : string -> FileConfig -> result FileConfig.

(** C2: each record is paid at most once.  In every history of any number of
    processes of the service, with every failure, kill and corruption, and
    every history of the exchange - whatever reaches it, copies of the
    service's requests included - among all requests that the service ever
    sent to pay a given record, the exchange executes at most one, and that
    one once. *)
Theorem records_are_paid_at_most_once s e trace e' r :
  reachable_system ParseRequestURI toml_decode s ->
  exchange_ran e trace e' -> rejections_are_real (sy_world s) trace ->
  (length (List.filter (pays (sy_world s) r) trace) <= 1)%nat.
Proof.
  intros Hs He Hr. apply (payments_unique _ e _ e'); [|done|done]. apply (proj1 (reachable_ok _ _ _ Hs)).
Qed.
End OneService.

(** ** Witnesses *)

Section Witnesses.
#[local] Existing Instances ascii_tables DecimalImpl.dec_ops DecimalImpl.dec_laws SampleCrypto.sample_crypto toy_ciphers HttpTheorems.sample_net.

(** The service on the test network, with a wallet that really signs. *)
Definition testnet_config : FileConfig :=
  mkFileConfig (mkMySQL "db" 3306 "funding" "bot" "secret") (mkHyperliquid "testnet" "") (mkSigning "hunter2")
    [mkBuilder "first" (address_of 5) (encrypted 5)]
    (mkAccount (address_of 6) (encrypted 6)) (mkPayout "0x00000000000000000000000000000000000000ff")
    (mkLogging "console" "info" "auto" false) (mkAWS "" "") (mkNotification false (mkSES "" [] "")).
Definition decode_testnet (_ : string) (_ : FileConfig) : result FileConfig := Ok testnet_config.

Definition wallet : option Exchange.Client :=
  match Exchange.New true "testnet" [(address_of 5, Some 5); (address_of 6, Some 6)] with Ok c => Some c | Err _ => None end.

(** The simulation, with the requests of the wallet, to the end of the run. *)
Definition signing_env (h : sim * bool) (o : AppOp) : option (AppResp o * (sim * bool)) :=
  match o return option (AppResp o * (sim * bool)) with
  | FundingO PayoutSide (Effects.PrepareSpotSend from to_ token amount nonce) =>
      Some (Exchange.PrepareSpotSend wallet from to_ token amount nonce, h)
  | FundingO PayoutSide (Effects.Submit a) =>
      match Sim.env (fst h) (Effects.Submit a) with Some (r, h') => Some (r, (h', snd h)) | None => None end
  | o => service_env h o
  end.

Lemma signing_env_step h (o : AppOp) r h' (k : AppResp o -> prog (Sig := AppSig) (option (option error))) :
  signing_env h o = Some (r, h') ->
  system_step no_uri decode_testnet (system_of h (Call (Sig := AppSig) o k)) (system_of h' (k r)).
Proof.
  destruct o as [| | | | | | | | | | |o|[] o]; try apply service_env_step.
  assert ({[1%nat := k r]} = <[1%nat := k r]> {[1%nat := Call (Sig := AppSig) (FundingO PayoutSide o) k]} :> gmap nat _) as Hins
    by (by rewrite insert_singleton).
  destruct o; try apply service_env_step; destruct h as [h hold]; cbn [signing_env fst snd]; unfold system_of; rewrite Hins.
  - set (prepared := Exchange.PrepareSpotSend _ _ _ _ _ _). clearbody prepared. intros E. injection E as <- <-.
    apply step_op; [apply lookup_singleton_eq|done|done].
  - destruct (Sim.env h _) as [[r1 h1]|] eqn:Ee; [|done]. intros E. injection E as <- <-.
    apply step_op; [apply lookup_singleton_eq|done|]. by apply Sim.env_step.
Qed.

Lemma signing_history m : forall h, reachable_system no_uri decode_testnet (system_of h m) ->
  let r := exec (Sig := AppSig) signing_env h m in reachable_system no_uri decode_testnet (system_of (snd r) (fst r)).
Proof.
  induction m as [a|o k IH]; intros h Hr; [done|]. cbn [exec].
  destruct (signing_env h o) as [[r h']|] eqn:E; [|done]. apply IH. eapply rtc_r; [exact Hr|]. by apply signing_env_step.
Qed.

Definition testnet_run : prog (Sig := AppSig) (option (option error)) := runWithOutput no_uri decode_testnet 0 ["-run-on-start"].
Definition testnet_end := exec (Sig := AppSig) signing_env service_start testnet_run.
Definition sent : list submission := w_subs (sim_world (fst (snd testnet_end))).

(** An exchange on which the settlement account has 100 USDC. *)
Definition funded : Server :=
  match SetSpotBalance (address_of 6) "USDC:0x6d" "100" Mock.New with Ok s => s | Err _ => Mock.New end.
Definition payout_body : string := match sent with x :: _ => pa_RequestBody (sub_action x) | [] => "" end.

Definition deliver (body : string) (s : Server) : delivery * Server :=
  let '(a, s') := handleExchange body s in (mkDelivery body a (executes body s), s').
Definition first_delivery := deliver payout_body funded.
Definition second_delivery := deliver payout_body (snd first_delivery).

Lemma deliver_ran body s trace s' : exchange_ran (snd (deliver body s)) trace s' -> exchange_ran s (fst (deliver body s) :: trace) s'.
Proof.
  pose proof (ran_request s body trace s') as Hr. unfold deliver. destruct (handleExchange body s) as [a s1]. exact Hr.
Qed.

(** The request that the service sends twice is executed the first time. *)
Lemma records_are_paid_at_most_once_witness :
  let s := system_of (snd testnet_end) (fst testnet_end) in
  let trace := [fst first_delivery; fst second_delivery] in
  reachable_system no_uri decode_testnet s /\ map (pays (sy_world s) 7) trace = [true; false] /\
  (length (List.filter (pays (sy_world s) 7) trace) <= 1)%nat.
Proof.
  assert (reachable_system no_uri decode_testnet (system_of service_start testnet_run)) as Hr.
  { apply rtc_once. unfold initial_system, system_of. cbn [fst snd service_start].
    apply (step_start no_uri decode_testnet initial_world None ∅ 1%nat 0 ["-run-on-start"]). done. }
  apply signing_history in Hr. cbv zeta in Hr. fold testnet_end in Hr. split; [exact Hr|]. split; [vm_compute; reflexivity|].
  apply (records_are_paid_at_most_once no_uri decode_testnet _ funded _ (snd second_delivery) 7 Hr).
  - apply deliver_ran, deliver_ran, ran_nothing.
  - apply no_rejections. vm_compute. reflexivity.
Defined.

Definition payout_request : http_request := mkRequest "POST" "/exchange" payout_body None.
Definition paid : Server := snd (serveHTTP payout_request funded).

Lemma replay_is_idempotent_witness :
  fst (serveHTTP payout_request (FailNextExchange FailureRejected paid)) = fst (serveHTTP payout_request funded) /\
  unlogged (snd (serveHTTP payout_request (FailNextExchange FailureRejected paid))) = unlogged (FailNextExchange FailureRejected paid).
Proof.
  apply (replay_is_idempotent payout_request funded (FailNextExchange FailureRejected paid)); [reflexivity|].
  apply rtc_once. right. apply arranged_failure.
Defined.

Lemma ledger_is_sound_witness :
  dec_string (sb_total (balance_of paid (normalizeAddress (address_of 6), "USDC:0x6d"))) = "98.5" /\
  (supply (ledger paid) "USDC:0x6d" == supply (ledger funded) "USDC:0x6d")%Q /\ (solvent (ledger funded) -> solvent (ledger paid)).
Proof.
  assert (rtc served funded paid) as Hs by (apply rtc_once, served_request).
  destruct (ledger_is_sound funded paid Hs) as (Hsup & Hsol & _). split; [vm_compute; reflexivity|]. by split.
Defined.
End Witnesses.

Section HttpWitnesses.
#[local] Existing Instances ascii_tables DecimalImpl.dec_ops DecimalImpl.dec_laws SampleCrypto.sample_crypto SampleCrypto.sample_laws.

(** The part of a text from its first slash on, and what is before it. *)
Fixpoint split_slash (s : string) : string * string :=
  match s with
  | EmptyString => ("", "")
  | String c r => if Ascii.eqb c "/" then ("", s) else let '(host, path) := split_slash r in (String c host, path)
  end.

(** URLs of a local server. *)
#[local] Instance local_net : NetOps := {|
  url_Parse := fun s => match strip "http://" s with
                        | Some rest => let '(host, path) := split_slash rest in Ok (mkURL "http" host path "" "")
                        | None => Err (Errorf "parse %q" [s])
                        end;
  url_String := fun u => u_Scheme u +:+ "://" +:+ u_Host u +:+ u_Path u;
  StatusText := fun status => if status =? 503 then "Service Unavailable" else ""
|}.

Definition local_client : HttpClient.Client := mkHttpClient (mkURL "http" "127.0.0.1:8080" "" "" "").

Lemma local_reaches : reaches local_client.
Proof. intros endpoint [->| ->]; eexists; split; vm_compute; reflexivity. Qed.

Definition test_client : result Exchange.Client := Exchange.New true "testnet" [(address_of 6, Some 6)].
Definition test_recipient : string := "0x00000000000000000000000000000000000000ff".
Definition test_amount : decimal := default dec_zero (dec_parse "1.5").
Definition test_action (c : Exchange.Client) : result PreparedAction :=
  Exchange.PrepareSpotSend (Some c) (address_of 6) test_recipient mock_usdc test_amount 1000.
Definition no_answer : answer := mkAnswer 0 "" "".

(** An exchange with 100 USDC of the settlement account, 10 of them held,
    and rewards. *)
Definition test_server : Server :=
  match (let? s := SetSpotBalanceWithHold (address_of 6) "USDC:0" "100" "10" Mock.New in SetClaimReward (address_of 6) "USDC:0" "2.5" s) with
  | Ok s => s
  | Err _ => Mock.New
  end.

Lemma test_prepared : exists c action, test_client = Ok c /\ test_action c = Ok action /\
  cl_network c = NetworkTestnet /\ (String.length (pa_RequestBody action) <? 1048)%nat = true.
Proof.
  assert (match test_client with
          | Ok c => match test_action c with
                    | Ok action => String.eqb (cl_network c) NetworkTestnet && (String.length (pa_RequestBody action) <? 1048)%nat
                    | Err _ => false
                    end
          | Err _ => false
          end = true) as E by (vm_compute; reflexivity).
  destruct test_client as [c|]; [|discriminate E]. destruct (test_action c) as [action|] eqn:Ea; [|discriminate E].
  apply andb_true_iff in E as [En El]. apply String.eqb_eq in En. by exists c, action.
Qed.

Lemma settlement_funds : (dec_value test_amount <= total_at (ledger test_server) (normalizeAddress (address_of 6), tok_WireToken mock_usdc) -
  dec_value (sb_hold (balance_of test_server (normalizeAddress (address_of 6), tok_WireToken mock_usdc))))%Q.
Proof.
  assert (dec_less (dec_sub (sb_total (balance_of test_server (normalizeAddress (address_of 6), tok_WireToken mock_usdc)))
    (sb_hold (balance_of test_server (normalizeAddress (address_of 6), tok_WireToken mock_usdc)))) test_amount = false) as E by (vm_compute; reflexivity).
  apply dec_less_false in E. rewrite dec_value_sub in E. exact E.
Qed.

Lemma short_text n text : (String.length text <? n)%nat = true -> Z.of_nat n <= 1048576 -> within 1048576 text.
Proof. intros Hl%Nat.ltb_lt Hn. unfold within. lia. Qed.

Lemma prepared_payout_arrives_witness : exists action r s1 a1,
  exec (Sig := HttpSig) mock_network (test_server, no_answer) (submit_over_http (Some local_client) action) = (Ret (r, None), (s1, a1)) /\
  sr_Accepted r = true.
Proof.
  destruct test_prepared as (c & action & Hc & Ha & Hn & Hl).
  destruct (prepared_payout_arrives c local_client test_server no_answer (address_of 6) test_recipient mock_usdc test_amount 1000 action
    (New_ok _ _ _ _ Hc) ltac:(by rewrite Hn) ltac:(by split) Ha local_reaches (short_text 1048 _ Hl ltac:(done))
    ltac:(vm_compute; reflexivity) ltac:(vm_compute; reflexivity) settlement_funds) as (r & s1 & a1 & Hx & Hacc & _).
  exact (ex_intro _ action (ex_intro _ r (ex_intro _ s1 (ex_intro _ a1 (conj Hx Hacc))))).
Defined.

(** An exchange that applies the action and answers with an error. *)
Definition ambiguous_server : Server := FailNextExchange FailureHTTPErrorApplied test_server.

Lemma submission_is_truthful_witness : exists action r err s1 a1,
  exec (Sig := HttpSig) mock_network (ambiguous_server, no_answer) (submit_over_http (Some local_client) action) = (Ret (r, err), (s1, a1)) /\
  (err = None <-> sr_Accepted r = true \/ sr_Rejected r = true).
Proof.
  destruct test_prepared as (c & action & Hc & Ha & Hn & Hl).
  pose proof (accept_prepared_send c (address_of 6) test_recipient mock_usdc test_amount 1000 action
    (New_ok _ _ _ _ Hc) ltac:(by rewrite Hn) ltac:(by split) Ha) as Hacc.
  destruct (submission_is_truthful local_client action ambiguous_server no_answer _ _ _ _ local_reaches
    (short_text 1048 _ Hl ltac:(done)) Hacc ltac:(vm_compute; reflexivity)) as (r & err & s1 & a1 & Hx & _ & _ & Herr & _).
  exact (ex_intro _ action (ex_intro _ r (ex_intro _ err (ex_intro _ s1 (ex_intro _ a1 (conj Hx Herr)))))).
Defined.

Lemma info_reads_the_ledger_witness :
  (exists a, exec (Sig := HttpSig) mock_network (test_server, no_answer) (CanonicalUSDC (over_http local_client)) =
     (Ret (Ok mock_usdc), (test_server, a))) /\
  exists amount a, exec (Sig := HttpSig) mock_network (test_server, no_answer)
     (query_ClaimableUSDC (over_http local_client) (address_of 6) mock_usdc) = (Ret (Ok amount), (test_server, a)) /\
    (dec_value amount == dec_value (reward_of test_server (normalizeAddress (address_of 6), wireToken)))%Q.
Proof.
  assert (forall kind, kind ∈ ["spotClearinghouseState"; "referral"; "userRateLimit"] ->
    within 1048576 (question kind (Some (address_of 6)))) as Hq.
  { intros kind Hk. apply (short_text 1048); [|done].
    apply list_elem_of_In in Hk. repeat (destruct Hk as [<-|Hk]; [vm_compute; reflexivity|]). done. }
  pose proof (info_reads_the_ledger local_client test_server no_answer (address_of 6) local_reaches Hq) as Hi. cbv zeta in Hi.
  destruct (visibleSpotBalanceLocked _ _) as [value s1]. destruct (visibleUserRateLimitLocked _ _) as [limit s2].
  destruct Hi as (Ht & _ & Hr & _). split; [exact Ht|]. apply Hr.
  - apply dec_neg_false. vm_compute. reflexivity.
  - vm_compute. discriminate.
Defined.
End HttpWitnesses.
